(** * A tournament-tree binary min heap with cross references

    Shallow embedding of [truthy_measure/heap.pyx]: the classes
    [BinaryHeap] and [FastUpdateBinaryHeap], and the properties of the
    natural-language specification that concern them.

    Modelling conventions.
    - C [int] values ([count], [levels], indices, references) are
      mathematical integers ([Z]); [//] and [%] on them are Python's floor
      division and modulus, which [Z.div] and [Z.modulo] are for the
      positive divisors used here; [1 << n] is [Z.shiftl 1 n].
    - The C buffers [_values], [_references] and [_crossref] are lists.
      A read or write through a pointer is not bounds checked by Cython:
      an access outside the buffer is undefined behaviour, which the
      model makes explicit as [None] (for [cdef] functions) or
      [Undefined] (for Python-level methods).
    - Stored values are C doubles: the model has the doubles of integer
      value and the two infinities, ordered as the C comparisons order
      them, with [inf] the greatest. The conversion of a double to C
      [float] rounds to single precision (see [to_float]). The overflow
      of C [int] is not modelled. *)

From Stdlib Require Import ZArith Lia String Sorted.
From stdpp Require Import base option list.

Local Open Scope Z_scope.

(** ** Values and references *)

(** Modelled from the spec: the declaration file [heap.pxd], which
    defines the types [VALUE_T] and [REFERENCE_T], is not among the sources.
    The specification describes the stored values as ordered numeric keys
    with the sentinel +infinity for empty slots, and the references as
    integer ids. [VALUE_T] is taken to be the C [double]: [push] takes the
    value as a [double] and stores it as it is, and the sentinel is
    initialised with the [double] constant [Py_HUGE_VAL]. [Num z] is the
    double of integer value [z]; [Py_HUGE_VAL] is +infinity and
    [Neg_HUGE_VAL] is -infinity ([-Py_HUGE_VAL]). *)
Inductive VALUE_T : Type :=
  | Num (z : Z)
  | Py_HUGE_VAL
  | Neg_HUGE_VAL.

Abbreviation REFERENCE_T := Z.

(** [cdef VALUE_T inf = Py_HUGE_VAL] *)
Definition inf : VALUE_T := Py_HUGE_VAL.

(** The C comparison [a < b]. *)
Definition value_lt (a b : VALUE_T) : bool :=
  match a, b with
  | Num x, Num y => x <? y
  | Num _, Py_HUGE_VAL => true
  | Num _, Neg_HUGE_VAL => false
  | Py_HUGE_VAL, _ => false
  | Neg_HUGE_VAL, Neg_HUGE_VAL => false
  | Neg_HUGE_VAL, _ => true
  end.

(** The C comparison [a != b]. *)
Definition value_ne (a b : VALUE_T) : bool :=
  match a, b with
  | Num x, Num y => negb (x =? y)
  | Py_HUGE_VAL, Py_HUGE_VAL => false
  | Neg_HUGE_VAL, Neg_HUGE_VAL => false
  | _, _ => true
  end.

(** The order on values, as a proposition: [a <= b]. *)
Definition value_le (a b : VALUE_T) : Prop := value_lt b a = false.

(** The smaller of two values, the way every comparison of the source
    selects it: the first one only when it is strictly smaller. *)
Definition value_min (a b : VALUE_T) : VALUE_T :=
  if value_lt a b then a else b.

(** ** Single precision *)

(** The distance between neighbouring single precision numbers at the
    magnitude [n >= 0]: a significand of 24 bits, so 1 below [2^24] and
    [2^(e - 23)] from [2^e] up to [2^(e + 1)]. *)
Definition float_ulp (n : Z) : Z := 2 ^ Z.max 0 (Z.log2 n - 23).

(** The multiple of [q] nearest to [n], the even multiple when [n] lies
    half way between two (the rounding mode of IEEE 754 conversions). *)
Definition round_nearest_even (q n : Z) : Z :=
  let d := n / q in
  let r := n mod q in
  if 2 * r <? q then d * q
  else if q <? 2 * r then (d + 1) * q
  else if Z.even d then d * q else (d + 1) * q.

(** The magnitude [n >= 0] rounded to 24 significant bits. *)
Definition float_round (n : Z) : Z := round_nearest_even (float_ulp n) n.

(** The largest finite single precision number, [(2^24 - 1) * 2^104]. *)
Definition FLT_MAX : Z := (2 ^ 24 - 1) * 2 ^ 104.

(** The conversion of a stored double to C [float], which [pop_fast]
    ([cdef float value = values[i]]) and [value_of_fast] (declared
    [cdef float]) apply to the value they return: the value is rounded to
    the nearest number with a significand of 24 bits, and a magnitude
    that rounds above [FLT_MAX] becomes an infinity. The result is given
    as the double that Python receives. *)
Definition to_float (v : VALUE_T) : VALUE_T :=
  match v with
  | Num z =>
      let m := float_round (Z.abs z) in
      if FLT_MAX <? m
      then (if 0 <? z then Py_HUGE_VAL else Neg_HUGE_VAL)
      else Num (Z.sgn z * m)
  | _ => v
  end.

(** [cdef inline int int_min(int a, int b)] *)
Definition int_min (a b : Z) : Z := if a <=? b then a else b.

(** [cdef inline int int_max(int a, int b)] *)
Definition int_max (a b : Z) : Z := if a >=? b then a else b.

(** [1 << n] on C ints. The count is negative in one place only:
    [_remove] evaluates [1 << (levels - 2)] at [levels = 1], where C
    leaves the result open. [Z.shiftl] gives 0 there, and nothing depends
    on the choice: when [min_levels] is 1 the other operand of [&] is
    false, and when it is 0 the test [count - 1 < 1 << -1] fails for 0 as
    it does for the minimal [int] that a shift by 31 yields. *)
Definition shl1 (n : Z) : Z := Z.shiftl 1 n.

(** ** Buffers *)

(** [a[i]] as an rvalue. *)
Definition rd {A : Type} (a : list A) (i : Z) : option A :=
  if decide (0 <= i) then a !! Z.to_nat i else None.

(** [a[i] = x]. *)
Definition wr {A : Type} (a : list A) (i : Z) (x : A) : option (list A) :=
  if decide (0 <= i < Z.of_nat (length a))
  then Some (<[Z.to_nat i := x]> a)
  else None.

(** [malloc(n * sizeof(A))]: a block of [n] cells holding whatever the
    memory held before, given by [old]. *)
Definition malloc {A : Type} (old : nat -> A) (n : Z) : list A :=
  map old (seq 0 (Z.to_nat n)).

(** ** Loops *)

(** Number of iterations of [for _ in range(start, stop, step)]. *)
Definition range_len (start stop step : Z) : nat :=
  if 0 <? step then Z.to_nat ((stop - start + step - 1) / step)
  else if step <? 0 then Z.to_nat ((start - stop - step - 1) / (- step))
  else 0%nat.

Fixpoint for_from {St : Type} (n : nat) (i step : Z)
    (body : Z -> St -> option St) (s : St) : option St :=
  match n with
  | O => Some s
  | S n' => s' ← body i s; for_from n' (i + step) step body s'
  end.

(** [for i in range(start, stop, step): body] *)
Definition for_range {St : Type} (start stop step : Z)
    (body : Z -> St -> option St) (s : St) : option St :=
  for_from (range_len start stop step) start step body s.

(** ** Results of the Python-level methods *)

Inductive exn : Type :=
  | IndexError (msg : string)
  | ValueError (msg : string).

(** A method returns a value, raises an exception, or runs into undefined
    behaviour; the first two come with the state of the object. *)
Inductive outcome (A S : Type) : Type :=
  | Return (a : A) (s : S)
  | Raise (e : exn) (s : S)
  | Undefined.
Arguments Return {A S} a s.
Arguments Raise {A S} e s.
Arguments Undefined {A S}.

(** A [cdef] call inside a method. *)
Definition call {A S : Type} (r : option (A * S)) : outcome A S :=
  match r with
  | Some (a, s) => Return a s
  | None => Undefined
  end.

(** ** BinaryHeap *)

Module BinaryHeap.

(** The attributes of [cdef class BinaryHeap]. *)
Record t : Type := Build {
  count : Z;
  levels : Z;
  min_levels : Z;
  _values : list VALUE_T;
  _references : list REFERENCE_T;
  _popped_ref : REFERENCE_T;
}.

Definition set_count (c : Z) (self : t) : t :=
  Build c (levels self) (min_levels self) (_values self)
        (_references self) (_popped_ref self).
Definition set_levels (l : Z) (self : t) : t :=
  Build (count self) l (min_levels self) (_values self)
        (_references self) (_popped_ref self).
Definition set_min_levels (l : Z) (self : t) : t :=
  Build (count self) (levels self) l (_values self)
        (_references self) (_popped_ref self).
Definition set_values (v : list VALUE_T) (self : t) : t :=
  Build (count self) (levels self) (min_levels self) v
        (_references self) (_popped_ref self).
Definition set_references (r : list REFERENCE_T) (self : t) : t :=
  Build (count self) (levels self) (min_levels self) (_values self)
        r (_popped_ref self).
Definition set_popped_ref (r : REFERENCE_T) (self : t) : t :=
  Build (count self) (levels self) (min_levels self) (_values self)
        (_references self) r.

(** A freshly created object: Cython zeroes the C attributes. *)
Definition blank : t := Build 0 0 0 [] [] 0.

(** The class of [BinaryHeap] and of the classes that extend it. [super]
    and [set_super] give access to the inherited attributes; [_remove]
    and [reset] are the methods the base class calls on [self] and a
    subclass overrides: [self_remove] and [self_reset] stand for the
    calls [self._remove(...)] and [self.reset()]. *)
Class subclass (S : Type) : Type := {
  super : S -> t;
  set_super : t -> S -> S;
  self_remove : Z -> S -> option S;
  self_reset : S -> outcome unit S;
}.

(** [def reset(self)] of the base class. *)
Definition reset (self : t) : outcome unit t :=
  let number := 2 ^ levels self in
  match for_range 0 (number * 2) 1
          (fun i values => wr values i inf) (_values self) with
  | Some values => Return tt (set_values values self)
  | None => Undefined
  end.

(** One step of the two loops that recompute a parent slot from the pair
    of slots [i], [i+1]. *)
Definition update_pair (i : Z) (values : list VALUE_T)
    : option (list VALUE_T) :=
  let ii := (i - 1) / 2 in
  vi ← rd values i;
  vi1 ← rd values (i + 1);
  if value_lt vi vi1 then wr values ii vi else wr values ii vi1.

(** [cdef void _update(self)] *)
Definition _update (self : t) : option t :=
  values ← for_range (levels self) 1 (-1)
    (fun level values =>
       let i0 := shl1 level - 1 in
       let n := i0 + 1 in
       for_range i0 (i0 + n) 2 update_pair values)
    (_values self);
  Some (set_values values self).

(** [cdef void _update_one(self, int i)] *)
Definition _update_one (i : Z) (self : t) : option t :=
  let i := if decide (i mod 2 = 0) then i - 1 else i in
  '(_, values) ← for_range (levels self) 1 (-1)
    (fun level '(i, values) =>
       let ii := (i - 1) / 2 in
       values ← update_pair i values;
       Some (if decide (ii mod 2 <> 0) then ii else ii - 1, values))
    (i, _values self);
  Some (set_values values self).

(** [cdef void _add_or_remove_level(self, int add_or_remove)] *)
Definition _add_or_remove_level (add_or_remove : Z) (self : t) : option t :=
  let new_levels := levels self + add_or_remove in
  let number := 2 ^ new_levels in
  let values := malloc (fun _ => inf) (number * 2) in
  let references := malloc (fun _ => 0) number in
  values ← for_range 0 (number * 2) 1
             (fun i values => wr values i inf) values;
  references ← for_range 0 number 1
             (fun i references => wr references i (-1)) references;
  let old_values := _values self in
  let old_references := _references self in
  '(values, references) ←
    (if decide (count self <> 0) then
       let i1 := 2 ^ new_levels - 1 in
       let i2 := 2 ^ levels self - 1 in
       let n := int_min (2 ^ new_levels) (2 ^ levels self) in
       values ← for_range 0 n 1
         (fun i values => v ← rd old_values (i2 + i); wr values (i1 + i) v)
         values;
       references ← for_range 0 n 1
         (fun i references => r ← rd old_references i; wr references i r)
         references;
       Some (values, references)
     else Some (values, references));
  _update (set_levels new_levels
            (set_references references (set_values values self))).

(** [cdef void _remove(self, int i1)] of the base class. *)
Definition _remove (i1 : Z) (self : t) : option t :=
  let levels := levels self in
  let count := count self in
  let i0 := shl1 levels - 1 in
  let i2 := i0 + count - 1 in
  let r1 := i1 - i0 in
  let r2 := count - 1 in
  v2 ← rd (_values self) i2;
  values ← wr (_values self) i1 v2;
  ref2 ← rd (_references self) r2;
  references ← wr (_references self) r1 ref2;
  values ← wr values i2 inf;
  let self := set_count (count - 1)
                (set_references references (set_values values self)) in
  let count := count - 1 in
  if (bool_decide (levels > min_levels self)
      && bool_decide (count < shl1 (levels - 2)))%bool
  then _add_or_remove_level (-1) self
  else self ← _update_one i1 self; _update_one i2 self.

(** [cdef int push_fast(self, double value, int reference)] of the base
    class. *)
Definition push_fast (value : VALUE_T) (reference : REFERENCE_T)
    (self : t) : option (Z * t) :=
  let levels := levels self in
  let count := count self in
  '(levels, self) ←
    (if decide (count >= shl1 levels)
     then self ← _add_or_remove_level 1 self; Some (levels + 1, self)
     else Some (levels, self));
  let i := (shl1 levels - 1) + count in
  values ← wr (_values self) i value;
  references ← wr (_references self) count reference;
  let self := set_count (count + 1)
                (set_references references (set_values values self)) in
  self ← _update_one i self;
  Some (count, self).

Section Methods.
Context {S : Type} `{subclass S}.

(** The descent of [pop_fast]: the index of the selected slot in the
    last level. *)
Definition pop_fast_search (values : list VALUE_T) (levels : Z)
    : option Z :=
  i ← for_range 1 levels 1
        (fun level i =>
           vi ← rd values i;
           vi1 ← rd values (i + 1);
           Some (if value_lt vi vi1 then i * 2 + 1 else (i + 1) * 2 + 1))
        1;
  vi ← rd values i;
  vi1 ← rd values (i + 1);
  Some (if value_lt vi vi1 then i else i + 1).

(** [cdef float pop_fast(self)] *)
Definition pop_fast (self : S) : option (VALUE_T * S) :=
  let values := _values (super self) in
  let levels := levels (super self) in
  i ← pop_fast_search values levels;
  let ir := i - (shl1 levels - 1) in
  value ← to_float <$> rd values i;
  ref ← rd (_references (super self)) ir;
  let self := set_super (set_popped_ref ref (super self)) self in
  self ← (if value_ne value inf then self_remove i self else Some self);
  Some (value, self).

(** [def pop(self)] *)
Definition pop (self : S) : outcome (VALUE_T * REFERENCE_T) S :=
  if decide (count (super self) = 0)
  then Raise (IndexError "pop from an empty heap") self
  else
    match pop_fast self with
    | Some (value, self) =>
        let ref := _popped_ref (super self) in
        Return (value, ref) self
    | None => Undefined
    end.

(** [def min_val(self)] *)
Definition min_val (self : S) : outcome VALUE_T S :=
  let values := _values (super self) in
  match rd values 1, rd values 2 with
  | Some v1, Some v2 =>
      if value_lt v1 v2 then Return v1 self else Return v2 self
  | _, _ => Undefined
  end.

(** [def values(self)] *)
Definition values (self : S) : outcome (list VALUE_T) S :=
  let i0 := 2 ^ levels (super self) - 1 in
  match for_range 0 (count (super self)) 1
          (fun i out => v ← rd (_values (super self)) (i0 + i);
                        Some (out ++ [v])) [] with
  | Some out => Return out self
  | None => Undefined
  end.

(** [def references(self)] *)
Definition references (self : S) : outcome (list REFERENCE_T) S :=
  match for_range 0 (count (super self)) 1
          (fun i out => r ← rd (_references (super self)) i;
                        Some (out ++ [r])) [] with
  | Some out => Return out self
  | None => Undefined
  end.

(** The while loop of [__init__]:
    [while 2**levels < initial_capcity: levels += 1]. *)
Fixpoint init_levels (fuel : nat) (levels initial_capcity : Z) : Z :=
  match fuel with
  | O => levels
  | Datatypes.S fuel' =>
      if 2 ^ levels <? initial_capcity
      then init_levels fuel' (levels + 1) initial_capcity
      else levels
  end.

(** [def __init__(self, int initial_capcity=128)]; [garbage] is the
    content of the block that [malloc] returns for [_references],
    which [reset] leaves as it is. *)
Definition __init__ (garbage : nat -> REFERENCE_T)
    (initial_capcity : Z) (self : S) : outcome unit S :=
  let levels := init_levels (Z.to_nat initial_capcity) 0 initial_capcity in
  let b := set_levels levels (set_min_levels levels (super self)) in
  let b := set_count 0 b in
  let number := 2 ^ levels in
  let b := set_values (malloc (fun _ => Num 0) (2 * number)) b in
  let b := set_references (malloc garbage number) b in
  self_reset (set_super b self).

End Methods.

(** [BinaryHeap] itself: no method is overridden. *)
#[global] Instance base_class : subclass t := {
  super self := self;
  set_super b _ := b;
  self_remove := _remove;
  self_reset := reset;
}.

(** [def push(self, double value, int reference=-1)] of the base class. *)
Definition push (value : VALUE_T) (reference : REFERENCE_T) (self : t)
    : outcome unit t :=
  call (r ← push_fast value reference self; Some (tt, r.2)).

(** [BinaryHeap(initial_capacity)] *)
Definition new (garbage : nat -> REFERENCE_T) (initial_capacity : Z)
    : outcome unit t :=
  __init__ garbage initial_capacity blank.

End BinaryHeap.

(** ** FastUpdateBinaryHeap *)

Module FastUpdateBinaryHeap.

(** The attributes of [cdef class FastUpdateBinaryHeap(BinaryHeap)]: the
    inherited ones and its own. *)
Record t : Type := Build {
  base : BinaryHeap.t;
  max_reference : Z;
  _crossref : list REFERENCE_T;
  _invalid_ref : Z;
  _pushed : Z;
}.

Definition set_base (b : BinaryHeap.t) (self : t) : t :=
  Build b (max_reference self) (_crossref self) (_invalid_ref self)
        (_pushed self).
Definition set_max_reference (m : Z) (self : t) : t :=
  Build (base self) m (_crossref self) (_invalid_ref self) (_pushed self).
Definition set_crossref (c : list REFERENCE_T) (self : t) : t :=
  Build (base self) (max_reference self) c (_invalid_ref self)
        (_pushed self).
Definition set_invalid_ref (f : Z) (self : t) : t :=
  Build (base self) (max_reference self) (_crossref self) f (_pushed self).
Definition set_pushed (f : Z) (self : t) : t :=
  Build (base self) (max_reference self) (_crossref self)
        (_invalid_ref self) f.

Definition blank : t := Build BinaryHeap.blank 0 [] 0 0.

(** A method of the base class that is not overridden, run on [self]. *)
Definition inherited (m : BinaryHeap.t -> option BinaryHeap.t) (self : t)
    : option t :=
  b ← m (base self); Some (set_base b self).

(** [def reset(self)] *)
Definition reset (self : t) : outcome unit t :=
  match BinaryHeap.reset (base self) with
  | Return _ b =>
      let self := set_base b self in
      match for_range 0 (max_reference self + 1) 1
              (fun i crossref => wr crossref i (-1)) (_crossref self) with
      | Some crossref => Return tt (set_crossref crossref self)
      | None => Undefined
      end
  | Raise e b => Raise e (set_base b self)
  | Undefined => Undefined
  end.

(** [cdef void _remove(self, int i1)] *)
Definition _remove (i1 : Z) (self : t) : option t :=
  let levels := BinaryHeap.levels (base self) in
  let count := BinaryHeap.count (base self) in
  let i0 := shl1 levels - 1 in
  let i2 := i0 + count - 1 in
  let r1 := i1 - i0 in
  let r2 := count - 1 in
  let values := BinaryHeap._values (base self) in
  let references := BinaryHeap._references (base self) in
  let crossref := _crossref self in
  ref2 ← rd references r2;
  crossref ← wr crossref ref2 r1;
  ref1 ← rd references r1;
  crossref ← wr crossref ref1 (-1);
  v2 ← rd values i2;
  values ← wr values i1 v2;
  ref2 ← rd references r2;
  references ← wr references r1 ref2;
  values ← wr values i2 inf;
  let self :=
    set_crossref crossref
      (set_base (BinaryHeap.set_count (count - 1)
                   (BinaryHeap.set_references references
                      (BinaryHeap.set_values values (base self)))) self) in
  let count := count - 1 in
  if (bool_decide (levels > BinaryHeap.min_levels (base self))
      && bool_decide (count < shl1 (levels - 2)))%bool
  then inherited (BinaryHeap._add_or_remove_level (-1)) self
  else self ← inherited (BinaryHeap._update_one i1) self;
       inherited (BinaryHeap._update_one i2) self.

(** [cdef int push_fast(self, double value, int reference)] *)
Definition push_fast (value : VALUE_T) (reference : REFERENCE_T)
    (self : t) : option (Z * t) :=
  if negb (bool_decide (0 <= reference <= max_reference self))
  then Some (-1, self)
  else
    ir ← rd (_crossref self) reference;
    if decide (ir <> -1) then
      let i := shl1 (BinaryHeap.levels (base self)) - 1 + ir in
      values ← wr (BinaryHeap._values (base self)) i value;
      let self := set_base (BinaryHeap.set_values values (base self)) self in
      self ← inherited (BinaryHeap._update_one i) self;
      Some (ir, self)
    else
      '(ir, b) ← BinaryHeap.push_fast value reference (base self);
      let self := set_base b self in
      crossref ← wr (_crossref self) reference ir;
      Some (ir, set_crossref crossref self).

(** [cdef int push_if_lower_fast(self, double value, int reference)] *)
Definition push_if_lower_fast (value : VALUE_T) (reference : REFERENCE_T)
    (self : t) : option (Z * t) :=
  if negb (bool_decide (0 <= reference <= max_reference self))
  then Some (-1, self)
  else
    ir ← rd (_crossref self) reference;
    let values := BinaryHeap._values (base self) in
    let self := set_pushed 1 self in
    if decide (ir <> -1) then
      let i := shl1 (BinaryHeap.levels (base self)) - 1 + ir in
      vi ← rd values i;
      self ←
        (if value_lt value vi then
           values ← wr values i value;
           let self :=
             set_base (BinaryHeap.set_values values (base self)) self in
           inherited (BinaryHeap._update_one i) self
         else Some (set_pushed 0 self));
      Some (ir, self)
    else
      '(ir, b) ← BinaryHeap.push_fast value reference (base self);
      let self := set_base b self in
      crossref ← wr (_crossref self) reference ir;
      Some (ir, set_crossref crossref self).

(** [cdef float value_of_fast(self, int reference)] *)
Definition value_of_fast (reference : REFERENCE_T) (self : t)
    : option (VALUE_T * t) :=
  ir ← rd (_crossref self) reference;
  let self := set_invalid_ref 0 self in
  if decide (ir = -1) then Some (to_float inf, set_invalid_ref 1 self)
  else
    let i := shl1 (BinaryHeap.levels (base self)) - 1 + ir in
    v ← rd (BinaryHeap._values (base self)) i;
    Some (to_float v, self).

(** [def push(self, double value, int reference)] *)
Definition push (value : VALUE_T) (reference : REFERENCE_T) (self : t)
    : outcome unit t :=
  match push_fast value reference self with
  | Some (r, self) =>
      if decide (r = -1)
      then Raise (ValueError "reference outside of range [0, max_reference]")
                 self
      else Return tt self
  | None => Undefined
  end.

(** [def push_if_lower(self, double value, int reference)] *)
Definition push_if_lower (value : VALUE_T) (reference : REFERENCE_T)
    (self : t) : outcome bool t :=
  match push_if_lower_fast value reference self with
  | Some (r, self) =>
      if decide (r = -1)
      then Raise (ValueError "reference outside of range [0, max_reference]")
                 self
      else Return (bool_decide (_pushed self = 1)) self
  | None => Undefined
  end.

(** [def value_of(self, int reference)] *)
Definition value_of (reference : REFERENCE_T) (self : t)
    : outcome VALUE_T t :=
  match value_of_fast reference self with
  | Some (value, self) =>
      if decide (_invalid_ref self <> 0)
      then Raise (ValueError "invalid reference") self
      else Return value self
  | None => Undefined
  end.

(** [def cross_references(self)] *)
Definition cross_references (self : t) : outcome (list REFERENCE_T) t :=
  match for_range 0 (max_reference self + 1) 1
          (fun i out => r ← rd (_crossref self) i; Some (out ++ [r])) [] with
  | Some out => Return out self
  | None => Undefined
  end.

(** The subclass: [_remove] and [reset] are overridden. *)
#[global] Instance fast_class : BinaryHeap.subclass t := {
  BinaryHeap.super := base;
  BinaryHeap.set_super := set_base;
  BinaryHeap.self_remove := _remove;
  BinaryHeap.self_reset := reset;
}.

(** [def __init__(self, int initial_capacity=128, max_reference=None)] *)
Definition __init__ (garbage : nat -> REFERENCE_T) (initial_capacity : Z)
    (max_reference : option Z) (self : t) : outcome unit t :=
  let max_reference :=
    match max_reference with
    | None => initial_capacity - 1
    | Some m => m
    end in
  let self := set_max_reference max_reference self in
  let self := set_crossref (malloc (fun _ => 0) (max_reference + 1)) self in
  BinaryHeap.__init__ garbage initial_capacity self.

(** [FastUpdateBinaryHeap(initial_capacity, max_reference)] *)
Definition new (garbage : nat -> REFERENCE_T) (initial_capacity : Z)
    (max_reference : option Z) : outcome unit t :=
  __init__ garbage initial_capacity max_reference blank.

End FastUpdateBinaryHeap.

(** * Specification vocabulary *)

(** ** Case analysis on values *)

Ltac value_cases :=
  unfold value_le, value_min, inf in *;
  repeat match goal with
         | v : VALUE_T |- _ => destruct v
         end;
  simpl in *;
  repeat match goal with
         | |- context [?a <? ?b] => destruct (Z.ltb_spec a b)
         | H : context [?a <? ?b] |- _ => destruct (Z.ltb_spec a b)
         | |- context [?a =? ?b] => destruct (Z.eqb_spec a b)
         | H : context [?a =? ?b] |- _ => destruct (Z.eqb_spec a b)
         end;
  simpl in *;
  try (congruence || lia || (f_equal; lia) || (left; congruence)
       || (right; congruence)).

(** ** Buffer contents *)

(** The content of cell [i], for stating properties: [d] outside the
    buffer. *)
Definition sel {A : Type} (d : A) (a : list A) (i : Z) : A :=
  default d (rd a i).

Abbreviation vget := (sel inf).
Abbreviation rget := (sel (0 : REFERENCE_T)).

(** ** The tournament tree *)

(** Slot [p] holds the smaller of its two children. *)
Definition good (values : list VALUE_T) (p : Z) : Prop :=
  vget values p = value_min (vget values (2 * p + 1)) (vget values (2 * p + 2)).

(** [anc p q]: slot [p] is [q] or lies on the path from [q] to the root. *)
Inductive anc (p : Z) : Z -> Prop :=
  | anc_refl : anc p p
  | anc_up (q : Z) : 1 <= q -> anc p ((q - 1) / 2) -> anc p q.

(** ** Well-formed heaps *)

(** The value in leaf position [r] and the reference stored with it. *)
Definition leaf (b : BinaryHeap.t) (r : Z) : VALUE_T :=
  vget (BinaryHeap._values b) (2 ^ BinaryHeap.levels b - 1 + r).

Definition ref_at (b : BinaryHeap.t) (r : Z) : REFERENCE_T :=
  rget (BinaryHeap._references b) r.

(** The invariant of the base class once the heap has a level 1: the level
    bounds, the sizes of the buffers, the tournament tree from level 1 on
    (I1) and the sentinel in the vacant leaves (I2). [min_levels] is 0 in
    a heap that was created with a capacity below two. *)
Record wf (b : BinaryHeap.t) : Prop := {
  wf_levels :
    0 <= BinaryHeap.min_levels b <= BinaryHeap.levels b
    /\ 1 <= BinaryHeap.levels b;
  wf_count : 0 <= BinaryHeap.count b <= 2 ^ BinaryHeap.levels b;
  wf_values :
    Z.of_nat (length (BinaryHeap._values b)) = 2 * 2 ^ BinaryHeap.levels b;
  wf_references :
    Z.of_nat (length (BinaryHeap._references b)) = 2 ^ BinaryHeap.levels b;
  wf_tree :
    forall p, 1 <= p < 2 ^ BinaryHeap.levels b - 1 ->
              good (BinaryHeap._values b) p;
  wf_vacant :
    forall r, BinaryHeap.count b <= r < 2 ^ BinaryHeap.levels b ->
              leaf b r = inf;
}.

(** The situation of the descent of [pop_fast] at the pair [i], [i+1] of
    level [l]: the smaller value of the pair is not above any slot of the
    level to its left and is below every slot to its right. *)
Definition row_inv (values : list VALUE_T) (l i : Z) : Prop :=
  2 ^ l - 1 <= i <= 2 * 2 ^ l - 3
  /\ forall q, 2 ^ l - 1 <= q <= 2 * 2 ^ l - 2 ->
       (q < i ->
        value_le (value_min (vget values i) (vget values (i + 1)))
                 (vget values q))
       /\ (i + 1 < q ->
           value_lt (value_min (vget values i) (vget values (i + 1)))
                    (vget values q) = true).

(** ** Indexed heaps *)

(** The cross-reference entry of reference [k]. *)
Definition xref (h : FastUpdateBinaryHeap.t) (k : Z) : Z :=
  rget (FastUpdateBinaryHeap._crossref h) k.

(** ** Well-formed indexed heaps *)

(** The invariant of the subclass that every operation keeps: the base
    invariant, the size of the cross-reference table, references of
    occupied leaves within range, and every cross reference that is set
    points to an occupied leaf carrying that reference. *)
Record fwf (h : FastUpdateBinaryHeap.t) : Prop := {
  fwf_base : wf (FastUpdateBinaryHeap.base h);
  fwf_crossref :
    length (FastUpdateBinaryHeap._crossref h) =
    Z.to_nat (FastUpdateBinaryHeap.max_reference h + 1);
  fwf_refs :
    forall r, 0 <= r < BinaryHeap.count (FastUpdateBinaryHeap.base h) ->
      0 <= ref_at (FastUpdateBinaryHeap.base h) r
        <= FastUpdateBinaryHeap.max_reference h;
  fwf_sound :
    forall k, 0 <= k <= FastUpdateBinaryHeap.max_reference h ->
      xref h k <> -1 ->
      0 <= xref h k < BinaryHeap.count (FastUpdateBinaryHeap.base h)
      /\ ref_at (FastUpdateBinaryHeap.base h) (xref h k) = k;
}.

(** ** Heaps without a level 1 *)

(** A heap created with a capacity below two has the root as its last
    level, until the second element is pushed: one leaf, in a value buffer
    of two cells. *)
Record wf0 (b : BinaryHeap.t) : Prop := {
  wf0_levels : BinaryHeap.levels b = 0 /\ BinaryHeap.min_levels b = 0;
  wf0_count : 0 <= BinaryHeap.count b <= 1;
  wf0_values : length (BinaryHeap._values b) = 2%nat;
  wf0_references : length (BinaryHeap._references b) = 1%nat;
}.

(** The indexed heap in such a state: the cross-reference table is as in
    [fwf]. *)
Record fwf0 (h : FastUpdateBinaryHeap.t) : Prop := {
  fwf0_base : wf0 (FastUpdateBinaryHeap.base h);
  fwf0_crossref :
    length (FastUpdateBinaryHeap._crossref h) =
    Z.to_nat (FastUpdateBinaryHeap.max_reference h + 1);
  fwf0_refs :
    forall r, 0 <= r < BinaryHeap.count (FastUpdateBinaryHeap.base h) ->
      0 <= ref_at (FastUpdateBinaryHeap.base h) r
        <= FastUpdateBinaryHeap.max_reference h;
  fwf0_sound :
    forall k, 0 <= k <= FastUpdateBinaryHeap.max_reference h ->
      xref h k <> -1 ->
      0 <= xref h k < BinaryHeap.count (FastUpdateBinaryHeap.base h)
      /\ ref_at (FastUpdateBinaryHeap.base h) (xref h k) = k;
}.

(** Invariant I1 of the specification: the tournament tree from level 1
    on. *)
Definition I1 (b : BinaryHeap.t) : Prop :=
  forall p, 1 <= p < 2 ^ BinaryHeap.levels b - 1 ->
            good (BinaryHeap._values b) p.

(** Invariant I4 of the specification: cross-reference consistency. *)
Definition I4 (h : FastUpdateBinaryHeap.t) : Prop :=
  (forall p, 0 <= p < BinaryHeap.count (FastUpdateBinaryHeap.base h) ->
     xref h (ref_at (FastUpdateBinaryHeap.base h) p) = p)
  /\ (forall k, xref h k = -1 ->
        forall p, 0 <= p < BinaryHeap.count (FastUpdateBinaryHeap.base h) ->
          ref_at (FastUpdateBinaryHeap.base h) p <> k).

(** ** Lower bounds of the stored values *)

(** [w] is not above any leaf of the heap. *)
Definition lower_bound (w : VALUE_T) (b : BinaryHeap.t) : Prop :=
  forall r, 0 <= r < 2 ^ BinaryHeap.levels b -> value_le w (leaf b r).

(** [w] is not above the single precision value of any leaf: the values
    that [pop] can return. *)
Definition float_lower_bound (w : VALUE_T) (b : BinaryHeap.t) : Prop :=
  forall r, 0 <= r < 2 ^ BinaryHeap.levels b ->
            value_le w (to_float (leaf b r)).

(** ** Clients: sequences of calls *)

(** The state an outcome leaves the object in. A caller may catch an
    exception and go on; after undefined behaviour there is no state. *)
Definition state_of {A S : Type} (o : outcome A S) : option S :=
  match o with
  | Return _ s => Some s
  | Raise _ s => Some s
  | Undefined => None
  end.

(** The value a successful [pop] returned. *)
Definition popped {S : Type} (o : outcome (VALUE_T * REFERENCE_T) S)
    : list VALUE_T :=
  match o with
  | Return (v, _) _ => [v]
  | _ => []
  end.

(** Calls of the public methods of [BinaryHeap]. *)
Inductive base_call : Type :=
  | BPush (value : VALUE_T) (reference : REFERENCE_T)
  | BPop
  | BMinVal
  | BReset.

Definition base_do (c : base_call) (b : BinaryHeap.t) : option BinaryHeap.t :=
  match c with
  | BPush value reference => state_of (BinaryHeap.push value reference b)
  | BPop => state_of (BinaryHeap.pop b)
  | BMinVal => state_of (BinaryHeap.min_val b)
  | BReset => state_of (BinaryHeap.reset b)
  end.

Fixpoint base_run (cs : list base_call) (b : BinaryHeap.t)
    : option BinaryHeap.t :=
  match cs with
  | [] => Some b
  | c :: cs => b' ← base_do c b; base_run cs b'
  end.

(** The values returned by the successful [pop] calls of a run. *)
Fixpoint base_pops (cs : list base_call) (b : BinaryHeap.t) : list VALUE_T :=
  match cs with
  | [] => []
  | c :: cs =>
      (match c with BPop => popped (BinaryHeap.pop b) | _ => [] end)
      ++ match base_do c b with
         | Some b' => base_pops cs b'
         | None => []
         end
  end.

(** Calls of the public methods of [FastUpdateBinaryHeap]. *)
Inductive indexed_call : Type :=
  | IPush (value : VALUE_T) (reference : REFERENCE_T)
  | IPushIfLower (value : VALUE_T) (reference : REFERENCE_T)
  | IPop
  | IValueOf (reference : REFERENCE_T)
  | IMinVal
  | IReset.

Definition indexed_do (c : indexed_call) (h : FastUpdateBinaryHeap.t)
    : option FastUpdateBinaryHeap.t :=
  match c with
  | IPush value reference =>
      state_of (FastUpdateBinaryHeap.push value reference h)
  | IPushIfLower value reference =>
      state_of (FastUpdateBinaryHeap.push_if_lower value reference h)
  | IPop => state_of (BinaryHeap.pop h)
  | IValueOf reference => state_of (FastUpdateBinaryHeap.value_of reference h)
  | IMinVal => state_of (BinaryHeap.min_val h)
  | IReset => state_of (FastUpdateBinaryHeap.reset h)
  end.

Fixpoint indexed_run (cs : list indexed_call) (h : FastUpdateBinaryHeap.t)
    : option FastUpdateBinaryHeap.t :=
  match cs with
  | [] => Some h
  | c :: cs => h' ← indexed_do c h; indexed_run cs h'
  end.

Fixpoint indexed_pops (cs : list indexed_call) (h : FastUpdateBinaryHeap.t)
    : list VALUE_T :=
  match cs with
  | [] => []
  | c :: cs =>
      (match c with IPop => popped (BinaryHeap.pop h) | _ => [] end)
      ++ match indexed_do c h with
         | Some h' => indexed_pops cs h'
         | None => []
         end
  end.

(** The states a client can bring a heap into: created with a capacity of
    at least two, then any calls. *)
Definition base_reachable (b : BinaryHeap.t) : Prop :=
  exists garbage initial_capacity cs b0,
    2 <= initial_capacity
    /\ BinaryHeap.new garbage initial_capacity = Return tt b0
    /\ base_run cs b0 = Some b.

Definition indexed_reachable (h : FastUpdateBinaryHeap.t) : Prop :=
  exists garbage initial_capacity max_reference cs h0,
    2 <= initial_capacity
    /\ FastUpdateBinaryHeap.new garbage initial_capacity max_reference
       = Return tt h0
    /\ indexed_run cs h0 = Some h.

(** The states a client can bring an indexed heap into, whatever the
    initial capacity. *)
Definition indexed_created (h : FastUpdateBinaryHeap.t) : Prop :=
  exists garbage initial_capacity max_reference cs h0,
    FastUpdateBinaryHeap.new garbage initial_capacity max_reference
    = Return tt h0
    /\ indexed_run cs h0 = Some h.

(** The calls other than [reset]. *)
Definition not_reset (c : indexed_call) : Prop :=
  match c with IReset => False | _ => True end.

(** The value a call pushes, if any, is at least [w]. *)
Definition base_pushes_ge (w : VALUE_T) (c : base_call) : Prop :=
  match c with
  | BPush value _ => value_le w value
  | _ => True
  end.

Definition indexed_pushes_ge (w : VALUE_T) (c : indexed_call) : Prop :=
  match c with
  | IPush value _ => value_le w value
  | IPushIfLower value _ => value_le w value
  | _ => True
  end.

(** ** Sample heaps *)

Definition option_state {S : Type} (d : S) (o : option S) : S :=
  match o with Some s => s | None => d end.

(** [BinaryHeap(4)] *)
Definition base4 : BinaryHeap.t :=
  Eval vm_compute in
    option_state BinaryHeap.blank
      (state_of (BinaryHeap.new (fun _ => 0) 4)).

(** [FastUpdateBinaryHeap(2, 2)] *)
Definition indexed2 : FastUpdateBinaryHeap.t :=
  Eval vm_compute in
    option_state FastUpdateBinaryHeap.blank
      (state_of (FastUpdateBinaryHeap.new (fun _ => 0) 2 (Some 2))).

Definition base_after (cs : list base_call) : BinaryHeap.t :=
  option_state BinaryHeap.blank (base_run cs base4).

Definition indexed_after (cs : list indexed_call) : FastUpdateBinaryHeap.t :=
  option_state FastUpdateBinaryHeap.blank (indexed_run cs indexed2).

(** [BinaryHeap(1)] and [FastUpdateBinaryHeap(1, 2)]: heaps that start
    without a level 1. *)
Definition base1 : BinaryHeap.t :=
  Eval vm_compute in
    option_state BinaryHeap.blank
      (state_of (BinaryHeap.new (fun _ => 0) 1)).

Definition indexed1 : FastUpdateBinaryHeap.t :=
  Eval vm_compute in
    option_state FastUpdateBinaryHeap.blank
      (state_of (FastUpdateBinaryHeap.new (fun _ => 0) 1 (Some 2))).

Definition base1_after (cs : list base_call) : BinaryHeap.t :=
  option_state BinaryHeap.blank (base_run cs base1).

Definition indexed1_after (cs : list indexed_call) : FastUpdateBinaryHeap.t :=
  option_state FastUpdateBinaryHeap.blank (indexed_run cs indexed1).



(** ** Listings *)

(** The stored values, the references and the (value, reference) pairs
    in the order of the leaves, the way [values] and [references] list
    them. *)
Definition leaf_list (b : BinaryHeap.t) : list VALUE_T :=
  leaf b <$> seqZ 0 (BinaryHeap.count b).

Definition ref_list (b : BinaryHeap.t) : list REFERENCE_T :=
  ref_at b <$> seqZ 0 (BinaryHeap.count b).

Definition entries (b : BinaryHeap.t) : list (VALUE_T * REFERENCE_T) :=
  (fun r => (leaf b r, ref_at b r)) <$> seqZ 0 (BinaryHeap.count b).

(** The cross-reference table, the way [cross_references] lists it. *)
Definition xref_list (h : FastUpdateBinaryHeap.t) : list REFERENCE_T :=
  xref h <$> seqZ 0 (FastUpdateBinaryHeap.max_reference h + 1).

(** What the caller of a method sees: the returned value or the
    exception, nothing after undefined behaviour. *)
Definition result_of {A S : Type} (o : outcome A S) : option (A + exn) :=
  match o with
  | Return a _ => Some (inl a)
  | Raise e _ => Some (inr e)
  | Undefined => None
  end.

(** The outcome of a method of the subclass, seen on the inherited
    attributes. *)
Definition on_base {A : Type} (o : outcome A FastUpdateBinaryHeap.t)
    : outcome A BinaryHeap.t :=
  match o with
  | Return a h => Return a (FastUpdateBinaryHeap.base h)
  | Raise e h => Raise e (FastUpdateBinaryHeap.base h)
  | Undefined => Undefined
  end.

(** Invariant I3: the last level is never below the initial one, and above
    it at least a quarter of the leaves are occupied. *)
Definition I3 (b : BinaryHeap.t) : Prop :=
  BinaryHeap.levels b > BinaryHeap.min_levels b ->
  2 ^ (BinaryHeap.levels b - 2) <= BinaryHeap.count b.

(** [value_of] is called with ids of the table only. *)
Definition value_of_in_range (m : Z) (c : indexed_call) : Prop :=
  match c with
  | IValueOf reference => 0 <= reference <= m
  | _ => True
  end.

(** The calls [push(value, reference)] for the pairs of a list. *)
Definition base_pushes (l : list (VALUE_T * REFERENCE_T)) : list base_call :=
  (fun p => BPush p.1 p.2) <$> l.

(** The states a client can bring an indexed heap into without calling
    [reset]. *)
Definition indexed_reachable_without_reset (h : FastUpdateBinaryHeap.t)
    : Prop :=
  exists garbage initial_capacity max_reference cs h0,
    2 <= initial_capacity
    /\ FastUpdateBinaryHeap.new garbage initial_capacity max_reference
       = Return tt h0
    /\ Forall not_reset cs
    /\ indexed_run cs h0 = Some h.

(** * Properties *)

(** ** The order on values *)

Lemma value_le_refl (a : VALUE_T) : value_le a a.
Proof. value_cases. Qed.

Lemma value_le_trans (a b c : VALUE_T) :
  value_le a b -> value_le b c -> value_le a c.
Proof. intros. value_cases. Qed.

Lemma value_le_antisym (a b : VALUE_T) :
  value_le a b -> value_le b a -> a = b.
Proof. intros. value_cases. Qed.

Lemma value_le_inf (a : VALUE_T) : value_le a inf.
Proof. value_cases. Qed.

Lemma value_inf_le (a : VALUE_T) : value_le inf a -> a = inf.
Proof. intros. value_cases. Qed.

Lemma value_lt_le (a b : VALUE_T) : value_lt a b = true -> value_le a b.
Proof. intros. value_cases. Qed.

Lemma value_lt_le_trans (a b c : VALUE_T) :
  value_lt a b = true -> value_le b c -> value_lt a c = true.
Proof. intros. value_cases. Qed.

Lemma value_le_lt_trans (a b c : VALUE_T) :
  value_le a b -> value_lt b c = true -> value_lt a c = true.
Proof. intros. value_cases. Qed.

Lemma value_lt_irrefl (a : VALUE_T) : value_lt a a = false.
Proof. value_cases. Qed.

Lemma value_min_l (a b : VALUE_T) : value_le (value_min a b) a.
Proof. value_cases. Qed.

Lemma value_min_r (a b : VALUE_T) : value_le (value_min a b) b.
Proof. value_cases. Qed.

Lemma value_min_glb (a b c : VALUE_T) :
  value_le c a -> value_le c b -> value_le c (value_min a b).
Proof. intros. value_cases. Qed.

Lemma value_min_inf : value_min inf inf = inf.
Proof. reflexivity. Qed.

Lemma value_ne_inf (a : VALUE_T) : value_ne a inf = false <-> a = inf.
Proof. unfold inf. destruct a; simpl; split; congruence. Qed.

Lemma value_ne_false (a b : VALUE_T) : value_ne a b = false <-> a = b.
Proof.
  destruct a, b; simpl; split; try congruence.
  - rewrite negb_false_iff, Z.eqb_eq. congruence.
  - intros [= ->]. now rewrite Z.eqb_refl.
Qed.

(** ** Rounding *)

Lemma round_nearest_even_cases (q n : Z) :
  0 < q ->
  (round_nearest_even q n = n / q * q
   \/ round_nearest_even q n = (n / q + 1) * q)
  /\ (n mod q = 0 -> round_nearest_even q n = n).
Proof.
  intros Hq. unfold round_nearest_even. cbv zeta.
  pose proof (Z.mod_pos_bound n q Hq) as Hr.
  pose proof (Z.div_mod n q ltac:(lia)) as Hdm.
  split.
  - destruct (2 * (n mod q) <? q); [now left|].
    destruct (q <? 2 * (n mod q)); [now right|].
    destruct (Z.even (n / q)); [now left|now right].
  - intros H0. rewrite H0 in *.
    destruct (Z.ltb_spec (2 * 0) q); lia.
Qed.

Lemma round_nearest_even_le (q n m : Z) :
  0 < q -> n <= m * q -> round_nearest_even q n <= m * q.
Proof.
  intros Hq Hle.
  pose proof (Z.mod_pos_bound n q Hq) as Hr.
  pose proof (Z.div_mod n q ltac:(lia)) as Hdm.
  destruct (round_nearest_even_cases q n Hq) as [[H|H] H0].
  - rewrite H. nia.
  - destruct (decide (n mod q = 0)) as [Hz|Hnz].
    + rewrite (H0 Hz). exact Hle.
    + rewrite H. assert (n / q < m) by nia. nia.
Qed.

Lemma round_nearest_even_ge (q n m : Z) :
  0 < q -> m * q <= n -> m * q <= round_nearest_even q n.
Proof.
  intros Hq Hle.
  pose proof (Z.mod_pos_bound n q Hq) as Hr.
  pose proof (Z.div_mod n q ltac:(lia)) as Hdm.
  assert (Hm : m <= n / q) by nia.
  destruct (round_nearest_even_cases q n Hq) as [[H|H] _]; rewrite H; nia.
Qed.

Lemma round_nearest_even_mono (q a b : Z) :
  0 < q -> a <= b -> round_nearest_even q a <= round_nearest_even q b.
Proof.
  intros Hq Hab.
  pose proof (Z.mod_pos_bound a q Hq) as Hra.
  pose proof (Z.mod_pos_bound b q Hq) as Hrb.
  pose proof (Z.div_mod a q ltac:(lia)) as Hda.
  pose proof (Z.div_mod b q ltac:(lia)) as Hdb.
  assert (Hd : a / q <= b / q) by (apply Z.div_le_mono; lia).
  destruct (decide (a / q = b / q)) as [Heq|Hne].
  - unfold round_nearest_even. cbv zeta. rewrite <- Heq.
    assert (a mod q <= b mod q) by nia.
    destruct (Z.ltb_spec (2 * (a mod q)) q);
      destruct (Z.ltb_spec (2 * (b mod q)) q);
      destruct (Z.ltb_spec q (2 * (a mod q)));
      destruct (Z.ltb_spec q (2 * (b mod q)));
      destruct (Z.even (a / q)); nia.
  - transitivity ((a / q + 1) * q).
    + apply round_nearest_even_le; [assumption|]. nia.
    + apply round_nearest_even_ge; [assumption|]. nia.
Qed.

Lemma float_ulp_pos (n : Z) : 0 < float_ulp n.
Proof. unfold float_ulp. apply Z.pow_pos_nonneg; lia. Qed.

Lemma float_ulp_divides (n k : Z) :
  Z.max 0 (Z.log2 n - 23) <= k ->
  exists m, 2 ^ k = m * float_ulp n.
Proof.
  intros Hk. unfold float_ulp. set (e := Z.max 0 (Z.log2 n - 23)) in *.
  exists (2 ^ (k - e)). rewrite <- Z.pow_add_r by lia. f_equal. lia.
Qed.

(** A rounded number stays within the powers of two around it. *)
Lemma float_round_bounds (n : Z) :
  0 < n ->
  2 ^ Z.log2 n <= float_round n <= 2 ^ (Z.log2 n + 1).
Proof.
  intros Hn. pose proof (Z.log2_spec n Hn) as Hlog.
  pose proof (Z.log2_nonneg n) as Hnn.
  replace (Z.succ (Z.log2 n)) with (Z.log2 n + 1) in Hlog by lia.
  unfold float_round. split.
  - destruct (float_ulp_divides n (Z.log2 n) ltac:(lia)) as [m Hm].
    rewrite Hm. apply round_nearest_even_ge; [apply float_ulp_pos|lia].
  - destruct (float_ulp_divides n (Z.log2 n + 1) ltac:(lia)) as [m Hm].
    rewrite Hm. apply round_nearest_even_le; [apply float_ulp_pos|lia].
Qed.

Lemma float_round_0 : float_round 0 = 0.
Proof. reflexivity. Qed.

Lemma float_round_nonneg (n : Z) : 0 <= n -> 0 <= float_round n.
Proof.
  intros Hn. destruct (decide (n = 0)) as [->|Hne]; [now rewrite float_round_0|].
  pose proof (float_round_bounds n ltac:(lia)).
  pose proof (Z.pow_pos_nonneg 2 (Z.log2 n) ltac:(lia) (Z.log2_nonneg n)). lia.
Qed.

Lemma float_round_mono (a b : Z) :
  0 <= a -> a <= b -> float_round a <= float_round b.
Proof.
  intros Ha Hab.
  destruct (decide (a = 0)) as [->|Hne].
  { rewrite float_round_0. apply float_round_nonneg. lia. }
  pose proof (Z.log2_le_mono a b Hab) as Hlog.
  destruct (decide (Z.log2 a = Z.log2 b)) as [Heq|Hlt].
  - unfold float_round, float_ulp. rewrite Heq.
    apply round_nearest_even_mono; [|assumption].
    apply Z.pow_pos_nonneg; lia.
  - pose proof (float_round_bounds a ltac:(lia)) as [_ Hup].
    pose proof (float_round_bounds b ltac:(lia)) as [Hlow _].
    assert (2 ^ (Z.log2 a + 1) <= 2 ^ Z.log2 b)
      by (apply Z.pow_le_mono_r; lia).
    lia.
Qed.

Lemma float_round_idem (n : Z) :
  0 <= n -> float_round (float_round n) = float_round n.
Proof.
  intros Hn. destruct (decide (n = 0)) as [->|Hne]; [reflexivity|].
  pose proof (float_round_bounds n ltac:(lia)) as [Hlow Hup].
  pose proof (Z.log2_nonneg n) as Hnn.
  pose proof (Z.pow_pos_nonneg 2 (Z.log2 n) ltac:(lia) Hnn) as Hpos.
  set (x := float_round n) in *.
  assert (Hdiv : x mod float_ulp n = 0).
  { unfold x, float_round.
    destruct (round_nearest_even_cases (float_ulp n) n (float_ulp_pos n))
      as [[H|H] _]; rewrite H; apply Z.mod_mul; pose proof (float_ulp_pos n); lia. }
  destruct (decide (x = 2 ^ (Z.log2 n + 1))) as [Htop|Hin].
  - unfold float_round at 1.
    apply round_nearest_even_cases; [apply float_ulp_pos|].
    rewrite Htop. unfold float_ulp. rewrite Z.log2_pow2 by lia.
    set (e := Z.max 0 (Z.log2 n + 1 - 23)).
    replace (2 ^ (Z.log2 n + 1)) with (2 ^ (Z.log2 n + 1 - e) * 2 ^ e)
      by (rewrite <- Z.pow_add_r by lia; f_equal; lia).
    apply Z.mod_mul.
    pose proof (Z.pow_pos_nonneg 2 e ltac:(lia) ltac:(lia)). lia.
  - assert (Hlog : Z.log2 x = Z.log2 n).
    { apply Z.log2_unique; [lia|].
      replace (Z.succ (Z.log2 n)) with (Z.log2 n + 1) by lia. lia. }
    unfold float_round at 1.
    apply round_nearest_even_cases; [apply float_ulp_pos|].
    unfold float_ulp. rewrite Hlog. exact Hdiv.
Qed.

Lemma float_round_small (n : Z) : 0 <= n < 2 ^ 24 -> float_round n = n.
Proof.
  intros Hn. unfold float_round.
  assert (float_ulp n = 1) as ->.
  { unfold float_ulp. destruct (decide (n = 0)) as [->|Hne]; [reflexivity|].
    assert (Z.log2 n < 24) by (apply Z.log2_lt_pow2; lia).
    now replace (Z.max 0 (Z.log2 n - 23)) with 0 by lia. }
  apply round_nearest_even_cases; [lia|]. apply Z.mod_1_r.
Qed.

Lemma signed_round_mono (x y : Z) :
  x <= y ->
  Z.sgn x * float_round (Z.abs x) <= Z.sgn y * float_round (Z.abs y).
Proof.
  intros Hxy.
  pose proof (float_round_nonneg (Z.abs x) (Z.abs_nonneg x)) as Hx.
  pose proof (float_round_nonneg (Z.abs y) (Z.abs_nonneg y)) as Hy.
  destruct (Z.sgn_spec x) as [[Hsx ->]|[[Hsx ->]|[Hsx ->]]];
    destruct (Z.sgn_spec y) as [[Hsy ->]|[[Hsy ->]|[Hsy ->]]]; try lia.
  - pose proof (float_round_mono (Z.abs x) (Z.abs y)
                  (Z.abs_nonneg x) ltac:(lia)). lia.
  - pose proof (float_round_mono (Z.abs y) (Z.abs x)
                  (Z.abs_nonneg y) ltac:(lia)). lia.
Qed.

Lemma to_float_Num (z : Z) :
  let s := Z.sgn z * float_round (Z.abs z) in
  to_float (Num z) =
  if FLT_MAX <? s then Py_HUGE_VAL
  else if s <? - FLT_MAX then Neg_HUGE_VAL
  else Num s.
Proof.
  cbv zeta. unfold to_float.
  pose proof (float_round_nonneg (Z.abs z) (Z.abs_nonneg z)) as Hm.
  assert (HF : 0 < FLT_MAX) by reflexivity.
  assert (H0 : z = 0 -> float_round (Z.abs z) = 0) by (now intros ->).
  destruct (Z.sgn_spec z) as [[Hs ->]|[[Hs ->]|[Hs ->]]];
    destruct (Z.ltb_spec FLT_MAX (float_round (Z.abs z)));
    destruct (Z.ltb_spec 0 z);
    repeat match goal with
           | |- context [?a <? ?b] => destruct (Z.ltb_spec a b)
           end; try reflexivity; try lia.
Qed.

Lemma to_float_mono (a b : VALUE_T) :
  value_le a b -> value_le (to_float a) (to_float b).
Proof.
  destruct a as [x| |], b as [y| |]; intros Hle;
    try exact Hle; try discriminate Hle;
    rewrite ?to_float_Num; cbv zeta.
  - assert (Hxy : x <= y) by (revert Hle; value_cases).
    pose proof (signed_round_mono x y Hxy) as Hs.
    repeat match goal with
           | |- context [?a <? ?b] => destruct (Z.ltb_spec a b)
           end; unfold value_le; simpl; try reflexivity; try lia;
      apply Z.ltb_ge; lia.
  - repeat match goal with
           | |- context [?a <? ?b] => destruct (Z.ltb_spec a b)
           end; reflexivity.
Qed.

Lemma to_float_idem (a : VALUE_T) : to_float (to_float a) = to_float a.
Proof.
  destruct a as [z| |]; try reflexivity.
  rewrite (to_float_Num z). cbv zeta.
  pose proof (float_round_nonneg (Z.abs z) (Z.abs_nonneg z)) as Hm.
  pose proof (float_round_idem (Z.abs z) (Z.abs_nonneg z)) as Hidem.
  set (m := float_round (Z.abs z)) in *. clearbody m.
  destruct (Z.ltb_spec FLT_MAX (Z.sgn z * m)); [reflexivity|].
  destruct (Z.ltb_spec (Z.sgn z * m) (- FLT_MAX)); [reflexivity|].
  rewrite (to_float_Num (Z.sgn z * m)). cbv zeta.
  assert (Hs : Z.sgn (Z.sgn z * m) * float_round (Z.abs (Z.sgn z * m))
               = Z.sgn z * m).
  { destruct (Z.sgn_spec z) as [[Hs ->]|[[Hs ->]|[Hs ->]]].
    - destruct (decide (m = 0)) as [->|Hne]; [reflexivity|].
      replace (1 * m) with m by lia.
      rewrite (Z.abs_eq m) by lia. rewrite Hidem.
      rewrite (Z.sgn_pos m) by lia. lia.
    - reflexivity.
    - destruct (decide (m = 0)) as [->|Hne]; [reflexivity|].
      replace (- (1) * m) with (- m) by lia.
      rewrite Z.abs_opp, (Z.abs_eq m) by lia. rewrite Hidem.
      rewrite (Z.sgn_neg (- m)) by lia. lia. }
  rewrite Hs.
  destruct (Z.ltb_spec FLT_MAX (Z.sgn z * m)); [lia|].
  destruct (Z.ltb_spec (Z.sgn z * m) (- FLT_MAX)); [lia|]. reflexivity.
Qed.

Lemma to_float_inf : to_float inf = inf.
Proof. reflexivity. Qed.

Lemma to_float_small (z : Z) :
  - 2 ^ 24 < z < 2 ^ 24 -> to_float (Num z) = Num z.
Proof.
  intros Hz. unfold to_float.
  rewrite float_round_small by lia.
  assert (Z.abs z <= FLT_MAX).
  { assert (2 ^ 24 <= FLT_MAX) by (vm_compute; discriminate). lia. }
  destruct (Z.ltb_spec FLT_MAX (Z.abs z)); [lia|].
  f_equal. lia.
Qed.


(** ** Powers of two *)

Lemma pow2_pos (n : Z) : 0 <= n -> 0 < 2 ^ n.
Proof. intros. apply Z.pow_pos_nonneg; lia. Qed.

Lemma pow2_succ (n : Z) : 0 <= n -> 2 ^ (n + 1) = 2 * 2 ^ n.
Proof. intros. rewrite Z.pow_add_r by lia. lia. Qed.

Lemma pow2_pred (n : Z) : 1 <= n -> 2 ^ n = 2 * 2 ^ (n - 1).
Proof.
  intros. replace n with ((n - 1) + 1) at 1 by lia. apply pow2_succ. lia.
Qed.

Lemma shl1_pow (n : Z) : 0 <= n -> shl1 n = 2 ^ n.
Proof. intros. unfold shl1. rewrite Z.shiftl_1_l. reflexivity. Qed.

Lemma shl1_pow_from (n : Z) : -1 <= n -> shl1 n = 2 ^ n.
Proof.
  intros Hn. destruct (decide (n = -1)) as [->|Hne]; [reflexivity|].
  apply shl1_pow. lia.
Qed.

(** ** Reading and writing buffers *)

Section Buffers.
Context {A : Type}.
Implicit Types (a : list A) (i j : Z) (x d : A).

Lemma rd_sel d a i :
  0 <= i < Z.of_nat (length a) -> rd a i = Some (sel d a i).
Proof.
  intros Hi. unfold sel, rd. destruct (decide (0 <= i)); [|lia].
  destruct (lookup_lt_is_Some_2 a (Z.to_nat i)) as [x Hx]; [lia|].
  now rewrite Hx.
Qed.

Lemma rd_Some_lt a i x : rd a i = Some x -> 0 <= i < Z.of_nat (length a).
Proof.
  unfold rd. destruct (decide (0 <= i)); [|discriminate].
  intros Hx. apply lookup_lt_Some in Hx. lia.
Qed.

Lemma rd_None a i : ¬ (0 <= i < Z.of_nat (length a)) -> rd a i = None.
Proof.
  intros Hi. destruct (rd a i) eqn:E; [|reflexivity].
  apply rd_Some_lt in E. contradiction.
Qed.

Lemma wr_Some a i x :
  0 <= i < Z.of_nat (length a) -> wr a i x = Some (<[Z.to_nat i := x]> a).
Proof. intros. unfold wr. now rewrite decide_True. Qed.

Lemma wr_inv a i x a' :
  wr a i x = Some a' ->
  0 <= i < Z.of_nat (length a) /\ a' = <[Z.to_nat i := x]> a.
Proof.
  unfold wr. destruct (decide _); [|discriminate]. intros [= <-]. auto.
Qed.

Lemma wr_length a i x a' : wr a i x = Some a' -> length a' = length a.
Proof. intros [_ ->]%wr_inv. apply length_insert. Qed.

Lemma sel_wr d a i x a' j :
  wr a i x = Some a' ->
  sel d a' j = if decide (j = i) then x else sel d a j.
Proof.
  intros [Hi ->]%wr_inv. unfold sel, rd.
  destruct (decide (j = i)) as [->|Hne].
  - rewrite decide_True by lia.
    rewrite list_lookup_insert_eq by lia. reflexivity.
  - destruct (decide (0 <= j)); [|reflexivity].
    rewrite list_lookup_insert_ne by lia. reflexivity.
Qed.

Lemma sel_wr_eq d a i x a' : wr a i x = Some a' -> sel d a' i = x.
Proof. intros H. rewrite (sel_wr _ _ _ _ _ _ H). now rewrite decide_True. Qed.

Lemma sel_wr_ne d a i x a' j :
  wr a i x = Some a' -> j <> i -> sel d a' j = sel d a j.
Proof.
  intros H ?. rewrite (sel_wr _ _ _ _ _ _ H). now rewrite decide_False.
Qed.

Lemma sel_ext d a a' :
  length a = length a' ->
  (forall i, 0 <= i < Z.of_nat (length a) -> sel d a i = sel d a' i) ->
  a = a'.
Proof.
  intros Hlen Hsel. apply list_eq. intros n.
  destruct (decide (n < length a)%nat) as [Hn|Hn].
  - specialize (Hsel (Z.of_nat n) ltac:(lia)).
    rewrite <- (Nat2Z.id n).
    pose proof (rd_sel d a (Z.of_nat n) ltac:(lia)) as H1.
    pose proof (rd_sel d a' (Z.of_nat n) ltac:(lia)) as H2.
    unfold rd in H1, H2. rewrite decide_True in H1, H2 by lia.
    rewrite H1, H2. now f_equal.
  - rewrite !lookup_ge_None_2 by lia. reflexivity.
Qed.

Lemma malloc_length (old : nat -> A) n :
  0 <= n -> Z.of_nat (length (malloc old n)) = n.
Proof.
  intros. unfold malloc. rewrite List.length_map, List.length_seq. lia.
Qed.

End Buffers.

(** ** Loops *)

Lemma range_len_up (n : Z) : range_len 0 n 1 = Z.to_nat n.
Proof.
  unfold range_len. simpl. rewrite Z.div_1_r. f_equal. lia.
Qed.

Lemma range_len_down (n : Z) : range_len n 1 (-1) = Z.to_nat (n - 1).
Proof.
  unfold range_len. simpl. rewrite Z.div_1_r. f_equal. lia.
Qed.

Lemma range_len_from1 (n : Z) : range_len 1 n 1 = Z.to_nat (n - 1).
Proof.
  unfold range_len. simpl. rewrite Z.div_1_r. f_equal. lia.
Qed.

Lemma range_len_pairs (i0 n : Z) :
  0 <= n -> range_len i0 (i0 + 2 * n) 2 = Z.to_nat n.
Proof.
  intros. unfold range_len. simpl. f_equal.
  replace (i0 + 2 * n - i0 + 2 - 1) with (1 + n * 2) by lia.
  rewrite Z.div_add by lia. reflexivity.
Qed.

Lemma for_from_ext {St : Type} (n : nat) (i step : Z)
    (f g : Z -> St -> option St) (s : St) :
  (forall j t, f j t = g j t) ->
  for_from n i step f s = for_from n i step g s.
Proof.
  intros Hfg. revert i s. induction n as [|n IH]; intros i s; simpl.
  - reflexivity.
  - rewrite Hfg. destruct (g i s); simpl; auto.
Qed.

(** A loop that stores one cell per iteration, at consecutive positions:
    [for i in range(n): a[dst + i] = src(i)]. *)
Lemma for_from_store {A : Type} (d : A) (src : Z -> option A) (dst : Z) :
  forall (n : nat) (i : Z) (a : list A),
    0 <= dst + i ->
    dst + i + Z.of_nat n <= Z.of_nat (length a) ->
    (forall j, i <= j < i + Z.of_nat n -> is_Some (src j)) ->
    exists a',
      for_from n i 1 (fun j b => v ← src j; wr b (dst + j) v) a = Some a'
      /\ length a' = length a
      /\ forall q, sel d a' q =
                   if decide (dst + i <= q < dst + i + Z.of_nat n)
                   then default d (src (q - dst)) else sel d a q.
Proof.
  induction n as [|n IH]; intros i a Hlo Hhi Hsrc.
  - exists a. simpl. repeat split; auto.
    intros q. rewrite decide_False by lia. reflexivity.
  - destruct (Hsrc i ltac:(lia)) as [v Hv].
    destruct (IH (i + 1) (<[Z.to_nat (dst + i) := v]> a)) as (a' & Hrun & Hlen & Hsel).
    + lia.
    + rewrite length_insert. lia.
    + intros j Hj. apply Hsrc. lia.
    + exists a'. simpl. rewrite Hv. simpl.
      rewrite wr_Some by lia. simpl. rewrite Hrun.
      split; [reflexivity|]. split.
      * rewrite Hlen. apply length_insert.
      * intros q. rewrite Hsel.
        assert (Hw : wr a (dst + i) v = Some (<[Z.to_nat (dst + i) := v]> a))
          by (apply wr_Some; lia).
        rewrite (sel_wr d _ _ _ _ q Hw).
        destruct (decide (q = dst + i)) as [->|Hne].
        -- rewrite decide_False by lia. rewrite decide_True by lia.
           replace (dst + i - dst) with i by lia. now rewrite Hv.
        -- destruct (decide (dst + (i + 1) <= q < dst + (i + 1) + Z.of_nat n)).
           ++ rewrite decide_True by lia. reflexivity.
           ++ rewrite decide_False by lia. reflexivity.
Qed.

(** ** Paths to the root *)

Lemma anc_le p q : anc p q -> p <= q.
Proof.
  induction 1 as [|q Hq _ IH]; [lia|].
  assert ((q - 1) / 2 <= q) by (apply Z.div_le_upper_bound; lia). lia.
Qed.

Lemma anc_inv p q : anc p q -> p = q \/ (1 <= q /\ anc p ((q - 1) / 2)).
Proof. destruct 1; auto. Qed.

Lemma anc_parent c q : anc c q -> 1 <= c -> anc ((c - 1) / 2) q.
Proof.
  induction 1 as [|q Hq _ IH]; intros Hc.
  - apply anc_up; [assumption|apply anc_refl].
  - apply anc_up; auto.
Qed.

Lemma parent_left p : (2 * p + 1 - 1) / 2 = p.
Proof. replace (2 * p + 1 - 1) with (p * 2) by lia. apply Z.div_mul. lia. Qed.

Lemma parent_right p : (2 * p + 2 - 1) / 2 = p.
Proof.
  replace (2 * p + 2 - 1) with (1 + p * 2) by lia.
  rewrite Z.div_add by lia. reflexivity.
Qed.

Lemma parent_lt q : 1 <= q -> 0 <= (q - 1) / 2 < q.
Proof.
  intros. split; [apply Z.div_pos; lia|].
  apply Z.div_lt_upper_bound; lia.
Qed.

Lemma odd_parent i : i mod 2 = 1 -> i = 2 * ((i - 1) / 2) + 1.
Proof.
  intros Hi. pose proof (Z.div_mod i 2 ltac:(lia)) as Hd. rewrite Hi in Hd.
  replace (i - 1) with ((i / 2) * 2) by lia. rewrite Z.div_mul by lia. lia.
Qed.

Lemma even_parent i : i mod 2 = 0 -> i = 2 * ((i - 1) / 2) + 2.
Proof.
  intros Hi. pose proof (Z.div_mod i 2 ltac:(lia)) as Hd. rewrite Hi in Hd.
  replace (i - 1) with (1 + (i / 2 - 1) * 2) by lia.
  rewrite Z.div_add by lia. change (1 / 2) with 0. lia.
Qed.

(** ** [_update_one] and [_update] *)

Lemma update_pair_spec (values : list VALUE_T) (i : Z) :
  1 <= i -> i + 1 < Z.of_nat (length values) ->
  BinaryHeap.update_pair i values =
    Some (<[Z.to_nat ((i - 1) / 2) :=
            value_min (vget values i) (vget values (i + 1))]> values).
Proof.
  intros Hi Hlen. unfold BinaryHeap.update_pair.
  rewrite (rd_sel inf values i) by lia.
  rewrite (rd_sel inf values (i + 1)) by lia. simpl.
  pose proof (parent_lt i Hi).
  unfold value_min. destruct (value_lt _ _); apply wr_Some; lia.
Qed.

(** The loop of [_update_one], started at the left slot [i] of a pair in
    level [n + 1]: it recomputes the slots on the path from the pair to
    level 1 and touches nothing else. *)
Lemma update_one_loop :
  forall (n : nat) (level i : Z) (values : list VALUE_T),
    i mod 2 = 1 ->
    2 ^ (Z.of_nat n + 1) - 1 <= i <= 2 ^ (Z.of_nat n + 2) - 3 ->
    2 ^ (Z.of_nat n + 2) - 1 <= Z.of_nat (length values) ->
    exists i' values',
      for_from n level (-1)
        (fun level '(i, values) =>
           let ii := (i - 1) / 2 in
           values ← BinaryHeap.update_pair i values;
           Some (if decide (ii mod 2 <> 0) then ii else ii - 1, values))
        (i, values) = Some (i', values')
      /\ length values' = length values
      /\ (forall q, ~ anc q ((i - 1) / 2) -> vget values' q = vget values q)
      /\ (forall p, 1 <= p -> anc p ((i - 1) / 2) -> good values' p)
      /\ (forall p, 1 <= p -> good values p -> good values' p).
Proof.
  induction n as [|n IH]; intros level i values Hodd Hi Hlen.
  - exists i, values. simpl. repeat split; auto.
    intros p Hp Ha.
    change (2 ^ (Z.of_nat 0 + 1)) with 2 in Hi.
    change (2 ^ (Z.of_nat 0 + 2)) with 4 in Hi.
    assert (i = 1) by lia. subst i.
    change ((1 - 1) / 2) with 0 in Ha. apply anc_le in Ha. lia.
  - pose proof (pow2_pos (Z.of_nat n + 1) ltac:(lia)) as Hpos.
    replace (Z.of_nat (S n) + 1) with ((Z.of_nat n + 1) + 1) in * by lia.
    replace (Z.of_nat (S n) + 2) with ((Z.of_nat n + 2) + 1) in * by lia.
    rewrite (pow2_succ (Z.of_nat n + 1)) in Hi by lia.
    rewrite (pow2_succ (Z.of_nat n + 2)) in Hi, Hlen by lia.
    replace (Z.of_nat n + 2) with ((Z.of_nat n + 1) + 1) in * by lia.
    rewrite (pow2_succ (Z.of_nat n + 1)) in * by lia.
    set (P := 2 ^ (Z.of_nat n + 1)) in *.
    pose proof (odd_parent i Hodd) as Hpar.
    set (ii := (i - 1) / 2) in *.
    assert (Hii : P - 1 <= ii <= 2 * P - 2) by lia.
    set (values1 := <[Z.to_nat ii :=
            value_min (vget values i) (vget values (i + 1))]> values).
    assert (Hw : wr values ii (value_min (vget values i) (vget values (i + 1)))
                 = Some values1) by (apply wr_Some; lia).
    set (i1 := if decide (ii mod 2 <> 0) then ii else ii - 1).
    assert (Hi1 : i1 mod 2 = 1 /\ P - 1 <= i1 <= 2 * P - 3
                  /\ (i1 - 1) / 2 = (ii - 1) / 2).
    { subst i1. pose proof (Z.mod_pos_bound ii 2 ltac:(lia)) as Hb.
      assert (HP : (P - 1) mod 2 = 1).
      { subst P. rewrite pow2_succ by lia.
        replace (2 * 2 ^ Z.of_nat n - 1) with (1 + (2 ^ Z.of_nat n - 1) * 2) by lia.
        rewrite Z.mod_add by lia. reflexivity. }
      assert (HP2 : (2 * P - 2) mod 2 = 0).
      { replace (2 * P - 2) with (0 + (P - 1) * 2) by lia.
        rewrite Z.mod_add by lia. reflexivity. }
      destruct (decide (ii mod 2 <> 0)) as [Ho|He].
      - assert (ii mod 2 = 1) by lia.
        repeat split; try lia.
        destruct (decide (ii = 2 * P - 2)); [congruence|lia].
      - assert (He' : ii mod 2 = 0) by lia.
        pose proof (even_parent ii He') as Hev.
        assert (ii <> P - 1) by congruence.
        repeat split; try lia.
        + replace (ii - 1) with (1 + ((ii - 1) / 2) * 2) by lia.
          rewrite Z.mod_add by lia. reflexivity.
        + replace (ii - 1 - 1) with (((ii - 1) / 2) * 2) at 1 by lia.
          rewrite Z.div_mul by lia. reflexivity. }
    destruct Hi1 as (Hodd1 & Hr1 & Hpp).
    destruct (IH (level + -1) i1 values1 Hodd1) as (i' & values' & Hrun & Hlen' & Hsame & Hgood & Hkeep).
    { lia. }
    { subst values1. rewrite length_insert. lia. }
    exists i', values'.
    assert (Hlen1 : length values1 = length values)
      by (subst values1; apply length_insert).
    split.
    { cbn [for_from]. rewrite update_pair_spec by lia.
      fold ii values1. cbn [mbind option_bind]. fold i1. exact Hrun. }
    split; [congruence|].
    rewrite Hpp in Hsame, Hgood.
    pose proof (parent_lt ii ltac:(lia)) as Hplt.
    assert (Hfix : good values' ii).
    { unfold good.
      assert (Hn : forall q, ii <= q -> ~ anc q ((ii - 1) / 2)).
      { intros q Hq Hc%anc_le. lia. }
      rewrite !Hsame by (apply Hn; lia).
      rewrite (sel_wr_eq inf _ _ _ _ Hw).
      rewrite !(sel_wr_ne inf _ _ _ _ _ Hw) by lia.
      rewrite Hpar at 1 2. f_equal. f_equal. lia. }
    split; [|split].
    + intros q Hq. rewrite Hsame.
      * apply (sel_wr_ne inf _ _ _ _ q Hw). intros ->. apply Hq, anc_refl.
      * intros Ha. apply Hq. apply anc_up; [lia|exact Ha].
    + intros p Hp Ha. apply anc_inv in Ha as [->|[_ Ha]]; auto.
    + intros p Hp Hg.
      destruct (decide (p = ii)) as [->|Hne]; [exact Hfix|].
      destruct (decide (p = (ii - 1) / 2)) as [->|Hne2].
      { apply Hgood; [lia|apply anc_refl]. }
      apply Hkeep; [lia|]. unfold good in *.
      assert (2 * p + 1 <> ii).
      { intros E. apply Hne2. rewrite <- E. now rewrite parent_left. }
      assert (2 * p + 2 <> ii).
      { intros E. apply Hne2. rewrite <- E. now rewrite parent_right. }
      rewrite !(sel_wr_ne inf _ _ _ _ _ Hw) by lia. exact Hg.
Qed.

Lemma update_one_spec (i : Z) (b : BinaryHeap.t) :
  1 <= BinaryHeap.levels b ->
  Z.of_nat (length (BinaryHeap._values b)) = 2 * 2 ^ BinaryHeap.levels b ->
  2 ^ BinaryHeap.levels b - 1 <= i <= 2 * 2 ^ BinaryHeap.levels b - 2 ->
  exists values',
    BinaryHeap._update_one i b = Some (BinaryHeap.set_values values' b)
    /\ length values' = length (BinaryHeap._values b)
    /\ (forall q, ~ anc q ((i - 1) / 2) ->
                  vget values' q = vget (BinaryHeap._values b) q)
    /\ (forall p, 1 <= p -> anc p ((i - 1) / 2) -> good values' p)
    /\ (forall p, 1 <= p -> good (BinaryHeap._values b) p -> good values' p).
Proof.
  intros HL Hlen Hi.
  set (L := BinaryHeap.levels b) in *.
  pose proof (pow2_pred L HL) as HP.
  pose proof (pow2_pos (L - 1) ltac:(lia)) as Hpos.
  assert (HLodd : (2 ^ L - 1) mod 2 = 1).
  { rewrite HP. replace (2 * 2 ^ (L - 1) - 1) with (1 + (2 ^ (L - 1) - 1) * 2) by lia.
    rewrite Z.mod_add by lia. reflexivity. }
  set (i0 := if decide (i mod 2 = 0) then i - 1 else i).
  assert (Hi0 : i0 mod 2 = 1 /\ 2 ^ L - 1 <= i0 <= 2 * 2 ^ L - 3
                /\ (i0 - 1) / 2 = (i - 1) / 2).
  { subst i0. pose proof (Z.mod_pos_bound i 2 ltac:(lia)) as Hb.
    destruct (decide (i mod 2 = 0)) as [He|Ho].
    - pose proof (even_parent i He) as Hev.
      assert (i <> 2 ^ L - 1) by congruence.
      repeat split; try lia.
      + replace (i - 1) with (1 + ((i - 1) / 2) * 2) by lia.
        rewrite Z.mod_add by lia. reflexivity.
      + replace (i - 1 - 1) with (((i - 1) / 2) * 2) at 1 by lia.
        rewrite Z.div_mul by lia. reflexivity.
    - assert (Ho' : i mod 2 = 1) by lia.
      repeat split; try lia.
      assert ((2 * 2 ^ L - 2) mod 2 = 0).
      { replace (2 * 2 ^ L - 2) with (0 + (2 ^ L - 1) * 2) by lia.
        rewrite Z.mod_add by lia. reflexivity. }
      destruct (decide (i = 2 * 2 ^ L - 2)); [congruence|lia]. }
  destruct Hi0 as (Hodd & Hr & Hpar).
  destruct (update_one_loop (Z.to_nat (L - 1)) L i0 (BinaryHeap._values b) Hodd)
    as (i' & values' & Hrun & Hlen' & Hsame & Hgood & Hkeep).
  { replace (Z.of_nat (Z.to_nat (L - 1)) + 1) with L by lia.
    replace (Z.of_nat (Z.to_nat (L - 1)) + 2) with (L + 1) by lia.
    rewrite pow2_succ by lia. lia. }
  { replace (Z.of_nat (Z.to_nat (L - 1)) + 2) with (L + 1) by lia.
    rewrite pow2_succ by lia. lia. }
  exists values'. rewrite Hpar in Hsame, Hgood.
  split; [|auto].
  unfold BinaryHeap._update_one, for_range. rewrite range_len_down.
  fold L i0. cbv zeta in Hrun. rewrite Hrun. reflexivity.
Qed.

(** The inner loop of [_update] over [k] pairs, the first one below the
    parent slot [ii]: every parent gets the smaller of its children. *)
Lemma update_pairs_loop :
  forall (k : nat) (ii : Z) (values : list VALUE_T),
    0 <= ii ->
    ii + Z.of_nat k <= 2 * ii + 1 ->
    2 * ii + 2 * Z.of_nat k + 1 <= Z.of_nat (length values) ->
    exists values',
      for_from k (2 * ii + 1) 2 BinaryHeap.update_pair values = Some values'
      /\ length values' = length values
      /\ (forall q, ~ (ii <= q < ii + Z.of_nat k) ->
                    vget values' q = vget values q)
      /\ (forall p, ii <= p < ii + Z.of_nat k ->
                    vget values' p =
                    value_min (vget values (2 * p + 1)) (vget values (2 * p + 2))).
Proof.
  induction k as [|k IH]; intros ii values Hii Hk Hlen.
  - exists values. simpl. repeat split; auto. intros; lia.
  - set (values1 := <[Z.to_nat ii :=
        value_min (vget values (2 * ii + 1)) (vget values (2 * ii + 1 + 1))]> values).
    assert (Hw : wr values ii
                   (value_min (vget values (2 * ii + 1))
                              (vget values (2 * ii + 1 + 1))) = Some values1)
      by (apply wr_Some; lia).
    destruct (IH (ii + 1) values1) as (values' & Hrun & Hlen' & Hsame & Hmin).
    { lia. } { lia. }
    { subst values1. rewrite length_insert. lia. }
    exists values'. split.
    { cbn [for_from]. rewrite update_pair_spec by lia.
      rewrite parent_left. fold values1. cbn [mbind option_bind].
      replace (2 * ii + 1 + 2) with (2 * (ii + 1) + 1) by lia. exact Hrun. }
    split.
    { rewrite Hlen'. subst values1. apply length_insert. }
    split.
    + intros q Hq. rewrite Hsame by lia.
      apply (sel_wr_ne inf _ _ _ _ _ Hw). lia.
    + intros p Hp. destruct (decide (p = ii)) as [->|Hne].
      * rewrite Hsame by lia. rewrite (sel_wr_eq inf _ _ _ _ Hw).
        f_equal. f_equal. lia.
      * rewrite Hmin by lia.
        rewrite !(sel_wr_ne inf _ _ _ _ _ Hw) by lia. reflexivity.
Qed.

(** The loop of [_update], started at level [n + 1]: it rebuilds the
    levels [n], ..., 1 and leaves the levels from [n + 1] on as they are. *)
Lemma update_loop :
  forall (n : nat) (level : Z) (values : list VALUE_T),
    level = Z.of_nat n + 1 ->
    2 * 2 ^ level <= Z.of_nat (length values) ->
    exists values',
      for_from n level (-1)
        (fun level values =>
           let i0 := shl1 level - 1 in
           let n := i0 + 1 in
           for_range i0 (i0 + n) 2 BinaryHeap.update_pair values)
        values = Some values'
      /\ length values' = length values
      /\ (forall q, 2 ^ level - 1 <= q -> vget values' q = vget values q)
      /\ (forall p, 1 <= p < 2 ^ level - 1 -> good values' p).
Proof.
  induction n as [|n IH]; intros level values Hlevel Hlen.
  - exists values. simpl. repeat split; auto.
    intros p Hp. subst level. change (2 ^ (Z.of_nat 0 + 1)) with 2 in Hp. lia.
  - assert (HL : 1 <= level - 1) by lia.
    pose proof (pow2_pred level ltac:(lia)) as HP.
    pose proof (pow2_pred (level - 1) HL) as HP1.
    pose proof (pow2_pos (level - 1 - 1) ltac:(lia)) as Hpos.
    set (K := 2 ^ (level - 1)) in *.
    destruct (update_pairs_loop (Z.to_nat K) (K - 1) values)
      as (values1 & Hrun1 & Hlen1 & Hsame1 & Hmin1); [lia..|].
    destruct (IH (level + -1) values1) as (values' & Hrun & Hlen' & Hsame & Hgood).
    { lia. }
    { replace (level + -1) with (level - 1) by lia. fold K. lia. }
    replace (level + -1) with (level - 1) in * by lia. fold K in Hsame, Hgood.
    exists values'. split.
    { cbn [for_from]. cbv zeta. rewrite shl1_pow by lia. unfold for_range.
      replace (2 ^ level - 1 + (2 ^ level - 1 + 1))
        with (2 ^ level - 1 + 2 * K) by lia.
      rewrite range_len_pairs by lia.
      replace (2 ^ level - 1) with (2 * (K - 1) + 1) by lia.
      rewrite Hrun1. cbn [mbind option_bind].
      replace (level + -1) with (level - 1) by lia. exact Hrun. }
    split; [congruence|]. split.
    + intros q Hq. rewrite Hsame by lia. apply Hsame1. lia.
    + intros p Hp. destruct (decide (p < K - 1)) as [Hlt|Hge].
      * apply Hgood. lia.
      * unfold good. rewrite !Hsame by lia. rewrite Hmin1 by lia.
        rewrite !Hsame1 by lia. reflexivity.
Qed.

Lemma update_spec (b : BinaryHeap.t) :
  1 <= BinaryHeap.levels b ->
  Z.of_nat (length (BinaryHeap._values b)) = 2 * 2 ^ BinaryHeap.levels b ->
  exists values',
    BinaryHeap._update b = Some (BinaryHeap.set_values values' b)
    /\ length values' = length (BinaryHeap._values b)
    /\ (forall q, 2 ^ BinaryHeap.levels b - 1 <= q ->
                  vget values' q = vget (BinaryHeap._values b) q)
    /\ (forall p, 1 <= p < 2 ^ BinaryHeap.levels b - 1 -> good values' p).
Proof.
  intros HL Hlen.
  destruct (update_loop (Z.to_nat (BinaryHeap.levels b - 1))
              (BinaryHeap.levels b) (BinaryHeap._values b))
    as (values' & Hrun & Hrest); [lia..|].
  exists values'. split; [|exact Hrest].
  unfold BinaryHeap._update, for_range at 1. rewrite range_len_down.
  cbv zeta in Hrun. rewrite Hrun. reflexivity.
Qed.

(** ** Resizing *)

Lemma fill_loop {A : Type} (d x : A) (n : Z) (a : list A) :
  n <= Z.of_nat (length a) ->
  exists a',
    for_range 0 n 1 (fun i b => wr b i x) a = Some a'
    /\ length a' = length a
    /\ forall q, sel d a' q = if decide (0 <= q < n) then x else sel d a q.
Proof.
  intros Hn.
  destruct (for_from_store d (fun _ => Some x) 0 (Z.to_nat n) 0 a)
    as (a' & Hrun & Hlen & Hsel); [lia|lia|eauto|].
  exists a'. split; [|split; [exact Hlen|]].
  - unfold for_range. rewrite range_len_up. rewrite <- Hrun.
    apply for_from_ext. reflexivity.
  - intros q. rewrite Hsel. simpl.
    destruct (decide (0 <= q < n)).
    + rewrite decide_True by lia. reflexivity.
    + rewrite decide_False by lia. reflexivity.
Qed.

Lemma add_or_remove_level_spec (add_or_remove : Z) (b : BinaryHeap.t) :
  0 <= BinaryHeap.levels b ->
  1 <= BinaryHeap.levels b + add_or_remove ->
  Z.of_nat (length (BinaryHeap._values b)) = 2 * 2 ^ BinaryHeap.levels b ->
  Z.of_nat (length (BinaryHeap._references b)) = 2 ^ BinaryHeap.levels b ->
  exists b',
    BinaryHeap._add_or_remove_level add_or_remove b = Some b'
    /\ BinaryHeap.levels b' = BinaryHeap.levels b + add_or_remove
    /\ BinaryHeap.count b' = BinaryHeap.count b
    /\ BinaryHeap.min_levels b' = BinaryHeap.min_levels b
    /\ BinaryHeap._popped_ref b' = BinaryHeap._popped_ref b
    /\ Z.of_nat (length (BinaryHeap._values b')) = 2 * 2 ^ BinaryHeap.levels b'
    /\ Z.of_nat (length (BinaryHeap._references b')) = 2 ^ BinaryHeap.levels b'
    /\ (forall p, 1 <= p < 2 ^ BinaryHeap.levels b' - 1 ->
                  good (BinaryHeap._values b') p)
    /\ (forall r, 0 <= r < 2 ^ BinaryHeap.levels b' ->
          leaf b' r =
          if decide (BinaryHeap.count b <> 0 /\ r < 2 ^ BinaryHeap.levels b)
          then leaf b r else inf)
    /\ (forall r, 0 <= r < 2 ^ BinaryHeap.levels b' ->
          BinaryHeap.count b <> 0 -> r < 2 ^ BinaryHeap.levels b ->
          ref_at b' r = ref_at b r).
Proof.
  intros HL HL' Hlv Hlr.
  set (L := BinaryHeap.levels b) in *.
  set (L' := L + add_or_remove).
  pose proof (pow2_pos L HL) as HposL.
  pose proof (pow2_pos L' ltac:(lia)) as HposL'.
  set (N := 2 ^ L) in *. set (N' := 2 ^ L') in *.
  (* the two initialisation loops *)
  destruct (fill_loop inf inf (N' * 2) (malloc (fun _ => inf) (N' * 2)))
    as (v1 & Hv1 & Hlv1 & Hsv1).
  { rewrite malloc_length by lia. lia. }
  destruct (fill_loop 0 (-1) N' (malloc (fun _ => 0) N'))
    as (r1 & Hr1 & Hlr1 & Hsr1).
  { rewrite malloc_length by lia. lia. }
  assert (Hlv1' : Z.of_nat (length v1) = 2 * N')
    by (rewrite Hlv1, malloc_length by lia; lia).
  assert (Hlr1' : Z.of_nat (length r1) = N')
    by (rewrite Hlr1, malloc_length by lia; lia).
  (* the two copy loops *)
  set (n := int_min N' N).
  assert (Hn : 0 <= n /\ n <= N' /\ n <= N /\ (n = N' \/ n = N)).
  { subst n. unfold int_min. destruct (Z.leb_spec N' N); lia. }
  destruct (for_from_store inf
              (fun j => rd (BinaryHeap._values b) (N - 1 + j)) (N' - 1)
              (Z.to_nat n) 0 v1)
    as (v2 & Hv2 & Hlv2 & Hsv2); [lia|lia| |].
  { intros j Hj. rewrite (rd_sel inf) by lia. eauto. }
  destruct (for_from_store 0
              (fun j => rd (BinaryHeap._references b) j) 0
              (Z.to_nat n) 0 r1)
    as (r2 & Hr2 & Hlr2 & Hsr2); [lia|lia| |].
  { intros j Hj. rewrite (rd_sel 0) by lia. eauto. }
  (* the state given to _update *)
  set (vs := if decide (BinaryHeap.count b <> 0) then v2 else v1).
  set (rs := if decide (BinaryHeap.count b <> 0) then r2 else r1).
  set (b1 := BinaryHeap.set_levels L'
               (BinaryHeap.set_references rs (BinaryHeap.set_values vs b))).
  assert (Hlvs : Z.of_nat (length vs) = 2 * N').
  { subst vs. destruct (decide _); congruence. }
  assert (Hlrs : Z.of_nat (length rs) = N').
  { subst rs. destruct (decide _); congruence. }
  destruct (update_spec b1) as (v3 & Hupd & Hlv3 & Hsv3 & Hgood).
  { simpl. lia. } { simpl. fold N'. lia. }
  simpl in Hlv3, Hsv3, Hgood. fold N' in Hsv3, Hgood.
  exists (BinaryHeap.set_values v3 b1).
  split.
  { unfold BinaryHeap._add_or_remove_level. fold L L' N N'.
    rewrite Hv1. cbn [mbind option_bind]. rewrite Hr1. cbn [mbind option_bind].
    rewrite <- Hupd. subst b1 vs rs.
    destruct (decide (BinaryHeap.count b <> 0)).
    - unfold for_range. rewrite !range_len_up. fold n.
      rewrite Hv2. cbn [mbind option_bind].
      erewrite for_from_ext; [rewrite Hr2|reflexivity]. reflexivity.
    - reflexivity. }
  simpl. fold L L' N N'.
  do 4 (split; [reflexivity|]).
  split; [rewrite Hlv3; lia|].
  split; [lia|].
  split; [assumption|].
  split.
  - intros r Hr. unfold leaf. simpl. fold L L' N N'.
    rewrite Hsv3 by lia. subst vs.
    destruct (decide (BinaryHeap.count b <> 0)) as [Hc|Hc].
    + rewrite Hsv2. destruct (decide (r < N)) as [Hlt|Hge].
      * rewrite decide_True by lia. rewrite decide_True by tauto.
        unfold sel. simpl. do 2 f_equal. lia.
      * rewrite decide_False by lia. rewrite decide_False by tauto.
        rewrite Hsv1. now rewrite decide_True by lia.
    + rewrite decide_False by tauto.
      rewrite Hsv1. now rewrite decide_True by lia.
  - intros r Hr Hc Hlt. unfold ref_at. simpl. subst rs.
    rewrite decide_True by assumption.
    rewrite Hsr2. rewrite decide_True by lia.
    unfold sel. simpl. do 2 f_equal. lia.
Qed.

(** ** [push_fast] and [_remove] of the base class *)

(** [_update_one] on leaf [i] repairs the tree when the only slots that
    may be wrong are the parent of [i] and those in [D]. *)
Lemma update_one_fix (D : Z -> Prop) (i : Z) (b : BinaryHeap.t) :
  1 <= BinaryHeap.levels b ->
  Z.of_nat (length (BinaryHeap._values b)) = 2 * 2 ^ BinaryHeap.levels b ->
  2 ^ BinaryHeap.levels b - 1 <= i <= 2 * 2 ^ BinaryHeap.levels b - 2 ->
  (forall p, 1 <= p < 2 ^ BinaryHeap.levels b - 1 ->
             p <> (i - 1) / 2 -> ~ D p -> good (BinaryHeap._values b) p) ->
  exists values',
    BinaryHeap._update_one i b = Some (BinaryHeap.set_values values' b)
    /\ length values' = length (BinaryHeap._values b)
    /\ (forall q, 2 ^ BinaryHeap.levels b - 1 <= q ->
                  vget values' q = vget (BinaryHeap._values b) q)
    /\ (forall p, 1 <= p < 2 ^ BinaryHeap.levels b - 1 ->
                  ~ D p -> good values' p).
Proof.
  intros HL Hlen Hi Hpre.
  destruct (update_one_spec i b HL Hlen Hi)
    as (values' & Hrun & Hlen' & Hsame & Hpath & Hkeep).
  exists values'. split; [exact Hrun|]. split; [exact Hlen'|].
  assert (Hpar : (i - 1) / 2 < 2 ^ BinaryHeap.levels b - 1).
  { apply Z.div_lt_upper_bound; lia. }
  split.
  - intros q Hq. apply Hsame. intros Ha%anc_le. lia.
  - intros p Hp HD. destruct (decide (p = (i - 1) / 2)) as [->|Hne].
    + apply Hpath; [lia|apply anc_refl].
    + apply Hkeep; [lia|]. apply Hpre; auto.
Qed.

(** Writing a leaf spoils at most its parent. *)
Lemma leaf_write_good (values values1 : list VALUE_T) (N j : Z) (x : VALUE_T)
    (p : Z) :
  wr values j x = Some values1 ->
  N - 1 <= j -> 1 <= p < N - 1 -> p <> (j - 1) / 2 ->
  good values p -> good values1 p.
Proof.
  intros Hw Hj Hp Hne Hg. unfold good in *.
  assert (2 * p + 1 <> j).
  { intros E. apply Hne. rewrite <- E. now rewrite parent_left. }
  assert (2 * p + 2 <> j).
  { intros E. apply Hne. rewrite <- E. now rewrite parent_right. }
  rewrite !(sel_wr_ne inf _ _ _ _ _ Hw) by lia. exact Hg.
Qed.

(** [push_fast] of the base class when the last level has room. *)
Lemma push_fast_room (value : VALUE_T) (reference : REFERENCE_T)
    (b : BinaryHeap.t) :
  wf b -> BinaryHeap.count b < 2 ^ BinaryHeap.levels b ->
  exists b',
    BinaryHeap.push_fast value reference b = Some (BinaryHeap.count b, b')
    /\ wf b'
    /\ BinaryHeap.count b' = BinaryHeap.count b + 1
    /\ BinaryHeap.levels b' = BinaryHeap.levels b
    /\ BinaryHeap.min_levels b' = BinaryHeap.min_levels b
    /\ BinaryHeap._popped_ref b' = BinaryHeap._popped_ref b
    /\ (forall r, 0 <= r ->
          leaf b' r =
          if decide (r = BinaryHeap.count b) then value else leaf b r)
    /\ (forall r, ref_at b' r =
                  if decide (r = BinaryHeap.count b) then reference
                  else ref_at b r).
Proof.
  intros [Hlv Hc Hv Hr Ht Hvac] Hroom.
  set (L := BinaryHeap.levels b) in *.
  set (c := BinaryHeap.count b) in *.
  pose proof (pow2_pos L ltac:(lia)) as Hpos.
  set (N := 2 ^ L) in *.
  set (i := N - 1 + c).
  destruct (wr (BinaryHeap._values b) i value) as [values1|] eqn:Hw1;
    [|rewrite wr_Some in Hw1 by lia; discriminate].
  destruct (wr (BinaryHeap._references b) c reference) as [refs1|] eqn:Hw2;
    [|rewrite wr_Some in Hw2 by lia; discriminate].
  set (b1 := BinaryHeap.set_count (c + 1)
               (BinaryHeap.set_references refs1
                  (BinaryHeap.set_values values1 b))).
  pose proof (wr_length _ _ _ _ Hw1) as Hl1.
  pose proof (wr_length _ _ _ _ Hw2) as Hl2.
  destruct (update_one_fix (fun _ => False) i b1)
    as (values' & Hrun & Hlen' & Hleaf & Hgood).
  { simpl. lia. } { simpl. fold L N. lia. } { simpl. fold L N. lia. }
  { simpl. fold L N. intros p Hp Hne _.
    eapply leaf_write_good; eauto. lia. }
  simpl in Hlen', Hleaf, Hgood. fold L N in Hleaf, Hgood.
  exists (BinaryHeap.set_values values' b1).
  split.
  { unfold BinaryHeap.push_fast. fold L c.
    rewrite shl1_pow by lia. fold N.
    rewrite decide_False by lia. cbn [mbind option_bind]. fold L.
    rewrite shl1_pow by lia. fold N i c.
    rewrite Hw1. cbn [mbind option_bind]. rewrite Hw2. cbn [mbind option_bind].
    fold b1. rewrite Hrun. reflexivity. }
  assert (Hleaves : forall r, 0 <= r ->
    leaf (BinaryHeap.set_values values' b1) r =
    if decide (r = c) then value else leaf b r).
  { intros r Hr0. unfold leaf. simpl. fold L N.
    rewrite Hleaf by lia. rewrite (sel_wr inf _ _ _ _ _ Hw1).
    subst i. destruct (decide (r = c)).
    - now rewrite decide_True by lia.
    - now rewrite decide_False by lia. }
  split; [|do 4 (split; [reflexivity|]); split; [exact Hleaves|]].
  - constructor; simpl; fold L N c; try lia.
    + intros p Hp. apply Hgood; auto.
    + intros r Hr'. rewrite Hleaves by lia. rewrite decide_False by lia.
      apply Hvac. lia.
  - intros r. unfold ref_at. simpl. apply (sel_wr 0 _ _ _ _ _ Hw2).
Qed.

(** [push_fast] of the base class: the pair is appended at leaf position
    [count], after one more level was added when the last level is full. *)
Lemma push_fast_spec (value : VALUE_T) (reference : REFERENCE_T)
    (b : BinaryHeap.t) :
  wf b ->
  exists b',
    BinaryHeap.push_fast value reference b = Some (BinaryHeap.count b, b')
    /\ wf b'
    /\ BinaryHeap.count b' = BinaryHeap.count b + 1
    /\ BinaryHeap.min_levels b' = BinaryHeap.min_levels b
    /\ BinaryHeap._popped_ref b' = BinaryHeap._popped_ref b
    /\ (forall r, 0 <= r < 2 ^ BinaryHeap.levels b' ->
          leaf b' r =
          if decide (r = BinaryHeap.count b) then value
          else if decide (r < BinaryHeap.count b) then leaf b r else inf)
    /\ (forall r, 0 <= r < BinaryHeap.count b -> ref_at b' r = ref_at b r)
    /\ ref_at b' (BinaryHeap.count b) = reference.
Proof.
  intros Hwf.
  destruct (decide (BinaryHeap.count b < 2 ^ BinaryHeap.levels b)) as [Hroom|Hfull].
  - destruct (push_fast_room value reference b Hwf Hroom)
      as (b' & Hrun & Hwf' & Hc & HL & Hm & Hp & Hleaf & Href).
    exists b'. do 5 (split; [assumption|]). split; [|split].
    + intros r Hr. rewrite HL in Hr. rewrite Hleaf by lia.
      destruct (decide (r = BinaryHeap.count b)); [reflexivity|].
      destruct (decide (r < BinaryHeap.count b)); [reflexivity|].
      apply (wf_vacant b Hwf). lia.
    + intros r Hr. rewrite Href. now rewrite decide_False by lia.
    + rewrite Href. now rewrite decide_True.
  - destruct Hwf as [Hlv Hc Hv Hr Ht Hvac].
    set (L := BinaryHeap.levels b) in *.
    set (c := BinaryHeap.count b) in *.
    pose proof (pow2_pos L ltac:(lia)) as Hpos.
    pose proof (pow2_succ L ltac:(lia)) as Hsucc.
    destruct (add_or_remove_level_spec 1 b)
      as (b1 & Hgrow & HL1 & Hc1 & Hm1 & Hp1 & Hv1 & Hr1 & Ht1 & Hleaf1 & Href1);
      [fold L; lia..|].
    fold L c in HL1, Hc1, Hleaf1, Href1.
    assert (Hwf1 : wf b1).
    { constructor; rewrite ?HL1, ?Hc1, ?Hm1; try lia.
      - rewrite <- HL1. assumption.
      - rewrite <- HL1. assumption.
      - rewrite <- HL1. assumption.
      - intros r Hr'. rewrite Hleaf1 by (rewrite HL1; lia).
        rewrite decide_False by lia. reflexivity. }
    destruct (push_fast_room value reference b1 Hwf1)
      as (b' & Hrun & Hwf' & Hc' & HL' & Hm' & Hp' & Hleaf & Href).
    { rewrite HL1, Hc1. lia. }
    exists b'. split.
    { unfold BinaryHeap.push_fast in *. fold L c.
      rewrite shl1_pow by lia. rewrite decide_True by lia.
      rewrite Hgrow. cbn [mbind option_bind].
      rewrite HL1, Hc1 in Hrun. rewrite shl1_pow in Hrun by lia.
      rewrite decide_False in Hrun by lia.
      cbn [mbind option_bind] in Hrun. exact Hrun. }
    split; [assumption|]. split; [lia|]. split; [congruence|].
    split; [congruence|]. rewrite Hc1 in Hleaf, Href. split; [|split].
    + intros r Hr'. rewrite Hleaf by lia.
      destruct (decide (r = c)); [reflexivity|].
      rewrite Hleaf1 by (rewrite <- HL'; lia).
      destruct (decide (r < c)).
      * rewrite decide_True by lia. reflexivity.
      * rewrite decide_False by lia. reflexivity.
    + intros r Hr'. rewrite Href. rewrite decide_False by lia.
      apply Href1; rewrite ?HL1; lia.
    + rewrite Href. now rewrite decide_True.
Qed.

(** [_remove] of the base class on an occupied leaf: the last occupied
    leaf takes its place. *)
Lemma remove_spec (r1 : Z) (b : BinaryHeap.t) :
  wf b -> 0 <= r1 < BinaryHeap.count b ->
  exists b',
    BinaryHeap._remove (2 ^ BinaryHeap.levels b - 1 + r1) b = Some b'
    /\ wf b'
    /\ BinaryHeap.count b' = BinaryHeap.count b - 1
    /\ BinaryHeap.min_levels b' = BinaryHeap.min_levels b
    /\ BinaryHeap._popped_ref b' = BinaryHeap._popped_ref b
    /\ (forall r, 0 <= r < BinaryHeap.count b - 1 ->
          leaf b' r =
          if decide (r = r1) then leaf b (BinaryHeap.count b - 1)
          else leaf b r)
    /\ (forall r, 0 <= r < BinaryHeap.count b - 1 ->
          ref_at b' r =
          if decide (r = r1) then ref_at b (BinaryHeap.count b - 1)
          else ref_at b r).
Proof.
  intros [Hlv Hc Hv Hr Ht Hvac] Hr1.
  set (L := BinaryHeap.levels b) in *.
  set (c := BinaryHeap.count b) in *.
  pose proof (pow2_pos L ltac:(lia)) as Hpos.
  set (N := 2 ^ L) in *.
  set (i1 := N - 1 + r1). set (i2 := N - 1 + c - 1).
  pose proof (rd_sel inf (BinaryHeap._values b) i2 ltac:(lia)) as Hrd2.
  destruct (wr (BinaryHeap._values b) i1 (vget (BinaryHeap._values b) i2))
    as [values1|] eqn:Hw1; [|rewrite wr_Some in Hw1 by lia; discriminate].
  pose proof (rd_sel 0 (BinaryHeap._references b) (c - 1) ltac:(lia)) as Hrdr.
  destruct (wr (BinaryHeap._references b) (i1 - (N - 1))
              (rget (BinaryHeap._references b) (c - 1)))
    as [refs1|] eqn:Hw2; [|rewrite wr_Some in Hw2 by lia; discriminate].
  pose proof (wr_length _ _ _ _ Hw1) as Hl1.
  pose proof (wr_length _ _ _ _ Hw2) as Hl2.
  destruct (wr values1 i2 inf) as [values2|] eqn:Hw3;
    [|rewrite wr_Some in Hw3 by lia; discriminate].
  pose proof (wr_length _ _ _ _ Hw3) as Hl3.
  set (b2 := BinaryHeap.set_count (c - 1)
               (BinaryHeap.set_references refs1
                  (BinaryHeap.set_values values2 b))).
  (* the leaves and references after the three writes *)
  assert (Hleaf2 : forall r, 0 <= r ->
    vget values2 (N - 1 + r) =
    if decide (r = c - 1) then inf
    else if decide (r = r1) then leaf b (c - 1) else leaf b r).
  { intros r Hr0. rewrite (sel_wr inf _ _ _ _ _ Hw3).
    rewrite (sel_wr inf _ _ _ _ _ Hw1). unfold leaf. fold L N. subst i1 i2.
    destruct (decide (r = c - 1)).
    - now rewrite decide_True by lia.
    - rewrite decide_False by lia. destruct (decide (r = r1)).
      + rewrite decide_True by lia. f_equal. lia.
      + now rewrite decide_False by lia. }
  assert (Href2 : forall r,
    rget refs1 r = if decide (r = r1) then ref_at b (c - 1) else ref_at b r).
  { intros r. rewrite (sel_wr 0 _ _ _ _ _ Hw2). unfold ref_at. subst i1.
    destruct (decide (r = r1)).
    - now rewrite decide_True by lia.
    - now rewrite decide_False by lia. }
  assert (Hrun0 :
    BinaryHeap._remove i1 b =
    if (bool_decide (L > BinaryHeap.min_levels b)
        && bool_decide (c - 1 < shl1 (L - 2)))%bool
    then BinaryHeap._add_or_remove_level (-1) b2
    else self ← BinaryHeap._update_one i1 b2; BinaryHeap._update_one i2 self).
  { unfold BinaryHeap._remove. fold L c. rewrite (shl1_pow L) by lia. fold N.
    replace (N - 1 + c - 1) with i2 by reflexivity.
    rewrite Hrd2. cbn [mbind option_bind]. rewrite Hw1. cbn [mbind option_bind].
    rewrite Hrdr. cbn [mbind option_bind]. rewrite Hw2. cbn [mbind option_bind].
    rewrite Hw3. cbn [mbind option_bind]. reflexivity. }
  fold L N i1. rewrite Hrun0. clear Hrun0.
  destruct (bool_decide (L > BinaryHeap.min_levels b)
            && bool_decide (c - 1 < shl1 (L - 2)))%bool eqn:Hshrink.
  - (* one level is removed *)
    apply andb_true_iff in Hshrink as [HLm Hfew].
    apply bool_decide_eq_true in HLm, Hfew.
    assert (HL2 : 2 <= L).
    { destruct (decide (L = 1)) as [HL1|]; [|lia].
      rewrite HL1 in Hfew. change (shl1 (1 - 2)) with 0 in Hfew. lia. }
    rewrite shl1_pow in Hfew by lia.
    pose proof (pow2_pred L ltac:(lia)) as HP.
    pose proof (pow2_pred (L - 1) ltac:(lia)) as HP1.
    replace (L - 1 - 1) with (L - 2) in HP1 by lia.
    pose proof (pow2_pos (L - 2) ltac:(lia)) as Hpos2.
    fold N in HP.
    destruct (add_or_remove_level_spec (-1) b2)
      as (b' & Hrun & HL' & Hc' & Hm' & Hp' & Hv' & Hrf' & Ht' & Hleaf' & Href');
      [simpl; fold L N; lia..|].
    simpl in HL', Hc', Hm', Hp', Hleaf', Href'. fold L N in HL', Hleaf', Href'.
    replace (L + -1) with (L - 1) in HL' by lia.
    assert (Hleaf'' : forall r, 0 <= r < 2 ^ (L - 1) ->
      leaf b' r = if decide (c - 1 <> 0) then vget values2 (N - 1 + r) else inf).
    { intros r Hr'. rewrite Hleaf' by (rewrite HL'; lia). unfold leaf at 1.
      simpl. fold L N. destruct (decide (c - 1 <> 0)).
      - now rewrite decide_True by lia.
      - now rewrite decide_False by tauto. }
    exists b'. split; [exact Hrun|]. split.
    { constructor; rewrite ?HL', ?Hc', ?Hm'; try lia.
      - rewrite <- HL'. assumption.
      - rewrite <- HL'. assumption.
      - rewrite <- HL'. assumption.
      - intros r Hr'. rewrite Hleaf'' by lia.
        destruct (decide (c - 1 <> 0)); [|reflexivity].
        rewrite Hleaf2 by lia. destruct (decide (r = c - 1)); [reflexivity|].
        rewrite decide_False by lia. apply Hvac. lia. }
    split; [exact Hc'|]. split; [exact Hm'|]. split; [exact Hp'|]. split.
    + intros r Hr'. rewrite Hleaf'' by lia. rewrite decide_True by lia.
      rewrite Hleaf2 by lia. now rewrite decide_False by lia.
    + intros r Hr'. rewrite Href' by (rewrite ?HL'; lia).
      unfold ref_at at 1. simpl. apply Href2.
  - (* the two paths are repaired *)
    clear Hshrink.
    assert (Hdirty : forall p, 1 <= p < N - 1 ->
              p <> (i1 - 1) / 2 -> p <> (i2 - 1) / 2 -> good values2 p).
    { intros p Hp Hn1 Hn2.
      eapply (leaf_write_good values1 values2 N); eauto; [lia|].
      eapply (leaf_write_good _ values1 N); eauto. lia. }
    destruct (update_one_fix (fun p => p = (i2 - 1) / 2) i1 b2)
      as (values3 & Hrun3 & Hlen3 & Hleaf3 & Hgood3);
      [simpl; fold L N; try lia..|].
    { simpl. fold L N. intros p Hp Hn1 Hn2. apply Hdirty; auto. }
    simpl in Hlen3, Hleaf3, Hgood3. fold L N in Hleaf3, Hgood3.
    set (b3 := BinaryHeap.set_values values3 b2) in *.
    destruct (update_one_fix (fun _ => False) i2 b3)
      as (values4 & Hrun4 & Hlen4 & Hleaf4 & Hgood4);
      [simpl; fold L N; try lia..|].
    { simpl. fold L N. intros p Hp Hn _. apply Hgood3; auto. }
    simpl in Hlen4, Hleaf4, Hgood4. fold L N in Hleaf4, Hgood4.
    exists (BinaryHeap.set_values values4 b3).
    split. { rewrite Hrun3. cbn [mbind option_bind]. exact Hrun4. }
    assert (Hleaves : forall r, 0 <= r ->
      leaf (BinaryHeap.set_values values4 b3) r = vget values2 (N - 1 + r)).
    { intros r Hr0. unfold leaf. simpl. fold L N.
      rewrite Hleaf4 by lia. apply Hleaf3. lia. }
    split.
    { constructor; simpl; fold L N c; try lia.
      - intros p Hp. apply Hgood4; auto.
      - intros r Hr'. rewrite Hleaves by lia. rewrite Hleaf2 by lia.
        destruct (decide (r = c - 1)); [reflexivity|].
        rewrite decide_False by lia. apply Hvac. lia. }
    do 3 (split; [reflexivity|]). split.
    + intros r Hr'. rewrite Hleaves by lia. rewrite Hleaf2 by lia.
      now rewrite decide_False by lia.
    + intros r Hr'. unfold ref_at at 1. simpl. apply Href2.
Qed.

(** ** The descent of [pop_fast] *)

(** A slot is not larger than its children when it is good. *)
Lemma good_le_child (values : list VALUE_T) (q' : Z) :
  good values ((q' - 1) / 2) ->
  value_le (vget values ((q' - 1) / 2)) (vget values q').
Proof.
  intros Hg. red in Hg. rewrite Hg.
  pose proof (Z.div_mod (q' - 1) 2 ltac:(lia)) as Hd.
  pose proof (Z.mod_pos_bound (q' - 1) 2 ltac:(lia)) as Hb.
  destruct (decide ((q' - 1) mod 2 = 0)).
  - replace q' with (2 * ((q' - 1) / 2) + 1) at 3 by lia. apply value_min_l.
  - replace q' with (2 * ((q' - 1) / 2) + 2) at 3 by lia. apply value_min_r.
Qed.

Lemma row_inv_step (values : list VALUE_T) (L l i : Z) :
  1 <= l < L ->
  (forall p, 1 <= p < 2 ^ L - 1 -> good values p) ->
  row_inv values l i ->
  row_inv values (l + 1)
    (if value_lt (vget values i) (vget values (i + 1))
     then i * 2 + 1 else (i + 1) * 2 + 1).
Proof.
  intros Hl Hgood [Hi Hrow].
  pose proof (pow2_pos l ltac:(lia)) as Hpos.
  pose proof (pow2_succ l ltac:(lia)) as Hsucc.
  assert (HlL : 2 * 2 ^ l <= 2 ^ L).
  { rewrite <- Hsucc. apply Z.pow_le_mono_r; lia. }
  set (m := value_min (vget values i) (vget values (i + 1))) in *.
  set (c := if value_lt (vget values i) (vget values (i + 1))
            then i else i + 1).
  assert (Hc : (if value_lt (vget values i) (vget values (i + 1))
                then i * 2 + 1 else (i + 1) * 2 + 1) = 2 * c + 1).
  { subst c. destruct (value_lt _ _); lia. }
  rewrite Hc. clear Hc.
  assert (Hcm : vget values c = m /\ (c = i \/ c = i + 1)
                /\ (c = i -> value_lt m (vget values (i + 1)) = true)
                /\ (c = i + 1 -> value_le m (vget values i))).
  { subst c m. unfold value_min.
    destruct (value_lt (vget values i) (vget values (i + 1))) eqn:E.
    - repeat split; auto. intros; lia.
    - repeat split; auto. intros; lia. }
  destruct Hcm as (Hvc & Hci & Hleft & Hright).
  assert (Hm' : value_min (vget values (2 * c + 1))
                          (vget values (2 * c + 1 + 1)) = m).
  { rewrite <- Hvc. replace (2 * c + 1 + 1) with (2 * c + 2) by lia.
    symmetry. apply Hgood. lia. }
  split; [rewrite Hsucc; lia|]. rewrite Hm', Hsucc.
  intros q' Hq'.
  pose proof (Z.div_mod (q' - 1) 2 ltac:(lia)) as Hd.
  pose proof (Z.mod_pos_bound (q' - 1) 2 ltac:(lia)) as Hb.
  set (q := (q' - 1) / 2) in *.
  assert (Hle : value_le (vget values q) (vget values q')).
  { apply good_le_child. apply Hgood. fold q. lia. }
  destruct (Hrow q ltac:(lia)) as [Hlo Hhi].
  split; intros Hq.
  - eapply value_le_trans; [|exact Hle].
    destruct (decide (q < i)); [auto|].
    assert (q = i) by lia. subst q. replace ((q' - 1) / 2) with i by lia.
    apply Hright. lia.
  - eapply value_lt_le_trans; [|exact Hle].
    destruct (decide (i + 1 < q)); [auto|].
    assert (q = i + 1) by lia. subst q. replace ((q' - 1) / 2) with (i + 1) by lia.
    apply Hleft. lia.
Qed.

Lemma pop_search_loop (values : list VALUE_T) (L : Z) :
  (forall p, 1 <= p < 2 ^ L - 1 -> good values p) ->
  2 * 2 ^ L <= Z.of_nat (length values) ->
  forall (n : nat) (l i : Z),
    1 <= l -> l + Z.of_nat n = L ->
    row_inv values l i ->
    exists i',
      for_from n l 1
        (fun level i =>
           vi ← rd values i;
           vi1 ← rd values (i + 1);
           Some (if value_lt vi vi1 then i * 2 + 1 else (i + 1) * 2 + 1))
        i = Some i'
      /\ row_inv values L i'.
Proof.
  intros Hgood Hlen. induction n as [|n IH]; intros l i Hl HlL Hrow.
  - exists i. simpl. split; [reflexivity|]. now replace L with l by lia.
  - pose proof (pow2_pos l ltac:(lia)) as Hpos.
    pose proof (pow2_succ l ltac:(lia)) as Hsucc.
    assert (Hpow : 2 * 2 ^ l <= 2 ^ L).
    { rewrite <- Hsucc. apply Z.pow_le_mono_r; lia. }
    destruct (IH (l + 1) (if value_lt (vget values i) (vget values (i + 1))
                          then i * 2 + 1 else (i + 1) * 2 + 1))
      as (i' & Hrun & Hrow'); [lia|lia| |].
    { apply (row_inv_step values L); auto. lia. }
    exists i'. split; [|exact Hrow'].
    destruct Hrow as [Hi _].
    cbn [for_from]. rewrite (rd_sel inf values i) by lia.
    rewrite (rd_sel inf values (i + 1)) by lia. exact Hrun.
Qed.

(** The descent of [pop_fast] ends in the last of the leaves that hold
    the least value. *)
Lemma pop_fast_search_spec (b : BinaryHeap.t) :
  wf b ->
  exists ir,
    BinaryHeap.pop_fast_search (BinaryHeap._values b) (BinaryHeap.levels b)
      = Some (2 ^ BinaryHeap.levels b - 1 + ir)
    /\ 0 <= ir < 2 ^ BinaryHeap.levels b
    /\ (forall r, 0 <= r < 2 ^ BinaryHeap.levels b ->
          value_le (leaf b ir) (leaf b r))
    /\ (forall r, ir < r < 2 ^ BinaryHeap.levels b ->
          value_lt (leaf b ir) (leaf b r) = true).
Proof.
  intros [Hlv Hc Hv Hr Ht Hvac].
  set (L := BinaryHeap.levels b) in *.
  set (values := BinaryHeap._values b) in *.
  pose proof (pow2_pos L ltac:(lia)) as Hpos.
  destruct (pop_search_loop values L Ht ltac:(lia) (Z.to_nat (L - 1)) 1 1)
    as (i & Hrun & [Hi Hrow]); [lia|lia| |].
  { split; [change (2 ^ 1) with 2; lia|].
    change (2 ^ 1) with 2. intros q Hq. split; intros; lia. }
  set (c := if value_lt (vget values i) (vget values (i + 1))
            then i else i + 1).
  exists (c - (2 ^ L - 1)).
  replace (2 ^ L - 1 + (c - (2 ^ L - 1))) with c by lia.
  split.
  { unfold BinaryHeap.pop_fast_search, for_range. rewrite range_len_from1.
    rewrite Hrun. cbn [mbind option_bind].
    rewrite (rd_sel inf values i) by lia.
    rewrite (rd_sel inf values (i + 1)) by lia. reflexivity. }
  assert (Hcs : (c = i \/ c = i + 1)
                /\ vget values c = value_min (vget values i) (vget values (i + 1))
                /\ (c = i -> value_lt (vget values c) (vget values (i + 1)) = true)
                /\ (c = i + 1 -> value_le (vget values c) (vget values i))).
  { subst c. unfold value_min.
    destruct (value_lt (vget values i) (vget values (i + 1))) eqn:E.
    - repeat split; auto. intros; lia.
    - repeat split; auto. intros; lia. }
  destruct Hcs as (Hci & Hvc & Hleft & Hright). rewrite <- Hvc in Hrow.
  split; [lia|].
  assert (Hall : forall r, 0 <= r < 2 ^ L ->
            (r < c - (2 ^ L - 1) ->
             value_le (vget values c) (vget values (2 ^ L - 1 + r)))
            /\ (c - (2 ^ L - 1) < r ->
                value_lt (vget values c) (vget values (2 ^ L - 1 + r)) = true)).
  { intros r Hr'. destruct (Hrow (2 ^ L - 1 + r) ltac:(lia)) as [Hlo Hhi].
    split; intros Hrc.
    - destruct (decide (2 ^ L - 1 + r < i)); [auto|].
      replace (2 ^ L - 1 + r) with i by lia. apply Hright. lia.
    - destruct (decide (i + 1 < 2 ^ L - 1 + r)); [auto|].
      replace (2 ^ L - 1 + r) with (i + 1) by lia. apply Hleft. lia. }
  unfold leaf. fold L values.
  replace (2 ^ L - 1 + (c - (2 ^ L - 1))) with c by lia.
  split.
  - intros r Hr'. destruct (Hall r Hr') as [Hlo Hhi].
    destruct (Z.lt_total r (c - (2 ^ L - 1))) as [Hlt|[Heq|Hgt]].
    + auto.
    + subst r. replace (2 ^ L - 1 + (c - (2 ^ L - 1))) with c by lia.
      apply value_le_refl.
    + apply value_lt_le. auto.
  - intros r Hr'. apply Hall; lia.
Qed.

(** ** The overridden [_remove] *)

(** [_remove] of the subclass is the one of the base class after the two
    writes to the cross references. *)
Lemma fast_remove_unfold (i1 : Z) (h : FastUpdateBinaryHeap.t) :
  FastUpdateBinaryHeap._remove i1 h =
  let b := FastUpdateBinaryHeap.base h in
  let r1 := i1 - (shl1 (BinaryHeap.levels b) - 1) in
  let r2 := BinaryHeap.count b - 1 in
  ref2 ← rd (BinaryHeap._references b) r2;
  crossref ← wr (FastUpdateBinaryHeap._crossref h) ref2 r1;
  ref1 ← rd (BinaryHeap._references b) r1;
  crossref ← wr crossref ref1 (-1);
  b' ← BinaryHeap._remove i1 b;
  Some (FastUpdateBinaryHeap.set_crossref crossref
          (FastUpdateBinaryHeap.set_base b' h)).
Proof.
  unfold FastUpdateBinaryHeap._remove, BinaryHeap._remove,
    FastUpdateBinaryHeap.inherited.
  cbv zeta.
  repeat match goal with
         | |- context [mbind _ (rd ?a ?i)] =>
             destruct (rd a i); cbn [mbind option_bind]; [|reflexivity]
         | |- context [mbind _ (wr ?a ?i ?x)] =>
             destruct (wr a i x); cbn [mbind option_bind]; [|reflexivity]
         end.
  destruct (_ && _)%bool; simpl.
  - destruct (BinaryHeap._add_or_remove_level _ _); reflexivity.
  - destruct (BinaryHeap._update_one i1 _) as [b3|]; simpl; [|reflexivity].
    destruct (BinaryHeap._update_one _ b3); reflexivity.
Qed.

(** ** Cross-reference consistency *)

Lemma I4_intro (h : FastUpdateBinaryHeap.t) :
  (forall p, 0 <= p < BinaryHeap.count (FastUpdateBinaryHeap.base h) ->
     xref h (ref_at (FastUpdateBinaryHeap.base h) p) = p) ->
  I4 h.
Proof.
  intros H. split; [exact H|]. intros k Hk p Hp E.
  specialize (H p Hp). rewrite E in H. lia.
Qed.

Lemma fast_remove_spec (r1 : Z) (h : FastUpdateBinaryHeap.t) :
  fwf h -> 0 <= r1 < BinaryHeap.count (FastUpdateBinaryHeap.base h) ->
  exists h',
    FastUpdateBinaryHeap._remove
      (2 ^ BinaryHeap.levels (FastUpdateBinaryHeap.base h) - 1 + r1) h = Some h'
    /\ fwf h'
    /\ BinaryHeap._remove
         (2 ^ BinaryHeap.levels (FastUpdateBinaryHeap.base h) - 1 + r1)
         (FastUpdateBinaryHeap.base h) = Some (FastUpdateBinaryHeap.base h')
    /\ FastUpdateBinaryHeap.max_reference h' =
       FastUpdateBinaryHeap.max_reference h
    /\ (I4 h -> I4 h').
Proof.
  intros [Hwf Hlen Hrefs Hsound] Hr1.
  set (b := FastUpdateBinaryHeap.base h) in *.
  destruct (remove_spec r1 b Hwf Hr1)
    as (b' & Hrun & Hwf' & Hc' & Hm' & Hp' & Hleaf' & Href').
  pose proof Hwf as [Hlv Hc Hv Hr Ht Hvac].
  set (L := BinaryHeap.levels b) in *.
  set (c := BinaryHeap.count b) in *.
  set (M := FastUpdateBinaryHeap.max_reference h) in *.
  remember (ref_at b r1) as k1 eqn:Ek1.
  remember (ref_at b (c - 1)) as k2 eqn:Ek2.
  assert (Hk1 : 0 <= k1 <= M) by (subst k1; apply Hrefs; lia).
  assert (Hk2 : 0 <= k2 <= M) by (subst k2; apply Hrefs; lia).
  destruct (wr (FastUpdateBinaryHeap._crossref h) k2 r1) as [x1|] eqn:Hw1;
    [|rewrite wr_Some in Hw1 by lia; discriminate].
  pose proof (wr_length _ _ _ _ Hw1) as Hl1.
  destruct (wr x1 k1 (-1)) as [x2|] eqn:Hw2;
    [|rewrite wr_Some in Hw2 by lia; discriminate].
  pose proof (wr_length _ _ _ _ Hw2) as Hl2.
  set (h' := FastUpdateBinaryHeap.set_crossref x2
               (FastUpdateBinaryHeap.set_base b' h)).
  assert (Hx : forall k, xref h' k =
            if decide (k = k1) then -1
            else if decide (k = k2) then r1 else xref h k).
  { intros k. unfold xref. simpl.
    rewrite (sel_wr 0 _ _ _ _ _ Hw2). destruct (decide (k = k1)); [reflexivity|].
    apply (sel_wr 0 _ _ _ _ _ Hw1). }
  exists h'. split.
  { rewrite fast_remove_unfold. cbv zeta. fold b L c.
    rewrite shl1_pow by lia.
    replace (2 ^ L - 1 + r1 - (2 ^ L - 1)) with r1 by lia.
    rewrite (rd_sel 0 _ (c - 1)) by lia. cbn [mbind option_bind].
    fold (ref_at b (c - 1)). rewrite <- Ek2. rewrite Hw1. cbn [mbind option_bind].
    rewrite (rd_sel 0 _ r1) by lia. cbn [mbind option_bind].
    fold (ref_at b r1). rewrite <- Ek1. rewrite Hw2. cbn [mbind option_bind].
    rewrite Hrun. reflexivity. }
  split; [|split; [exact Hrun|split; [reflexivity|]]].
  - constructor; simpl; fold M.
    + exact Hwf'.
    + congruence.
    + intros r Hr'. rewrite Hc' in Hr'. fold c in Hr'.
      rewrite Href' by (fold c; lia).
      destruct (decide (r = r1)); [lia|apply Hrefs; lia].
    + intros k Hk. rewrite Hx. rewrite Hc'. fold c.
      destruct (decide (k = k1)); [congruence|].
      destruct (decide (k = k2)) as [->|Hne2].
      * intros _. assert (r1 <> c - 1) by (intros ->; congruence).
        split; [lia|]. rewrite Href' by (fold c; lia).
        now rewrite decide_True.
      * intros Hset. destruct (Hsound k Hk Hset) as [Hp Hk'].
        assert (xref h k <> r1) by (intros E; rewrite E in Hk'; congruence).
        assert (xref h k <> c - 1) by (intros E; rewrite E in Hk'; congruence).
        split; [lia|]. rewrite Href' by (fold c; lia).
        now rewrite decide_False.
  - intros [HI _]. fold b in HI. fold c in HI.
    apply I4_intro. simpl. rewrite Hc'. fold c.
    intros p Hp. rewrite Href' by (fold c; lia). rewrite Hx.
    assert (Hne : r1 <> c - 1 -> k1 <> k2).
    { intros Hne E. pose proof (HI r1 ltac:(lia)) as E1.
      pose proof (HI (c - 1) ltac:(lia)) as E2.
      rewrite <- Ek1 in E1. rewrite <- Ek2 in E2. rewrite E in E1. lia. }
    destruct (decide (p = r1)) as [->|Hpr].
    + rewrite decide_False by (intros E; apply Hne; [lia|congruence]).
      now rewrite decide_True.
    + pose proof (HI p ltac:(lia)) as Ep.
      rewrite decide_False.
      2:{ intros E. rewrite E in Ep. pose proof (HI r1 ltac:(lia)) as E1.
          rewrite <- Ek1 in E1. lia. }
      rewrite decide_False.
      2:{ intros E. rewrite E in Ep. pose proof (HI (c - 1) ltac:(lia)) as E2.
          rewrite <- Ek2 in E2. lia. }
      exact Ep.
Qed.

(** ** Overwriting an occupied leaf *)

Lemma overwrite_spec (value : VALUE_T) (ir : Z) (b : BinaryHeap.t) :
  wf b -> 0 <= ir < BinaryHeap.count b ->
  let i := shl1 (BinaryHeap.levels b) - 1 + ir in
  exists values1 values',
    wr (BinaryHeap._values b) i value = Some values1
    /\ BinaryHeap._update_one i (BinaryHeap.set_values values1 b) =
       Some (BinaryHeap.set_values values' b)
    /\ wf (BinaryHeap.set_values values' b)
    /\ (forall r, 0 <= r ->
          leaf (BinaryHeap.set_values values' b) r =
          if decide (r = ir) then value else leaf b r)
    /\ (forall q, q <> i -> ~ anc q ((i - 1) / 2) ->
          vget values' q = vget (BinaryHeap._values b) q).
Proof.
  intros [Hlv Hc Hv Hr Ht Hvac] Hir i. subst i.
  set (L := BinaryHeap.levels b) in *.
  set (c := BinaryHeap.count b) in *.
  pose proof (pow2_pos L ltac:(lia)) as Hpos.
  rewrite shl1_pow by lia.
  set (N := 2 ^ L) in *. set (i := N - 1 + ir).
  destruct (wr (BinaryHeap._values b) i value) as [values1|] eqn:Hw1;
    [|rewrite wr_Some in Hw1 by lia; discriminate].
  pose proof (wr_length _ _ _ _ Hw1) as Hl1.
  set (b1 := BinaryHeap.set_values values1 b).
  destruct (update_one_spec i b1)
    as (values' & Hrun & Hlen' & Hsame & Hpath & Hkeep);
    [simpl; fold L N; lia..|].
  simpl in Hlen', Hsame, Hkeep.
  assert (Hpar : (i - 1) / 2 < N - 1) by (apply Z.div_lt_upper_bound; lia).
  exists values1, values'. split; [reflexivity|]. split; [exact Hrun|].
  assert (Hleaves : forall r, 0 <= r ->
    leaf (BinaryHeap.set_values values' b) r =
    if decide (r = ir) then value else leaf b r).
  { intros r Hr0. unfold leaf. simpl. fold L N.
    rewrite Hsame by (intros Ha%anc_le; lia).
    rewrite (sel_wr inf _ _ _ _ _ Hw1). subst i.
    destruct (decide (r = ir)).
    - now rewrite decide_True by lia.
    - now rewrite decide_False by lia. }
  split; [|split; [exact Hleaves|]].
  - constructor; simpl; fold L N c; try lia.
    + intros p Hp. destruct (decide (p = (i - 1) / 2)) as [->|Hne].
      * apply Hpath; [lia|apply anc_refl].
      * apply Hkeep; [lia|].
        eapply (leaf_write_good _ values1 N); eauto. lia.
    + intros r Hr'. rewrite Hleaves by lia. rewrite decide_False by lia.
      apply Hvac. lia.
  - intros q Hq Ha. rewrite Hsame by assumption.
    now apply (sel_wr_ne inf _ _ _ _ _ Hw1).
Qed.

(** ** The methods of the indexed heap *)

Lemma push_fast_out_of_range (value : VALUE_T) (reference : REFERENCE_T)
    (h : FastUpdateBinaryHeap.t) :
  ~ (0 <= reference <= FastUpdateBinaryHeap.max_reference h) ->
  FastUpdateBinaryHeap.push_fast value reference h = Some (-1, h).
Proof.
  intros Hout. unfold FastUpdateBinaryHeap.push_fast.
  now rewrite bool_decide_eq_false_2.
Qed.

Lemma push_if_lower_fast_out_of_range (value : VALUE_T)
    (reference : REFERENCE_T) (h : FastUpdateBinaryHeap.t) :
  ~ (0 <= reference <= FastUpdateBinaryHeap.max_reference h) ->
  FastUpdateBinaryHeap.push_if_lower_fast value reference h = Some (-1, h).
Proof.
  intros Hout. unfold FastUpdateBinaryHeap.push_if_lower_fast.
  now rewrite bool_decide_eq_false_2.
Qed.

Lemma crossref_read (h : FastUpdateBinaryHeap.t) (k : Z) :
  fwf h -> 0 <= k <= FastUpdateBinaryHeap.max_reference h ->
  rd (FastUpdateBinaryHeap._crossref h) k = Some (xref h k).
Proof.
  intros Hf Hk. apply rd_sel. rewrite (fwf_crossref h Hf). lia.
Qed.

(** The common part of [push_fast] and [push_if_lower_fast] for a
    reference that is present: the value is written into its leaf. *)
Lemma fast_overwrite (value : VALUE_T) (k : REFERENCE_T)
    (h : FastUpdateBinaryHeap.t) :
  fwf h -> 0 <= k <= FastUpdateBinaryHeap.max_reference h ->
  xref h k <> -1 ->
  let b := FastUpdateBinaryHeap.base h in
  let i := shl1 (BinaryHeap.levels b) - 1 + xref h k in
  exists values1 values',
    let h' := FastUpdateBinaryHeap.set_base
                (BinaryHeap.set_values values' b) h in
    wr (BinaryHeap._values b) i value = Some values1
    /\ FastUpdateBinaryHeap.inherited (BinaryHeap._update_one i)
         (FastUpdateBinaryHeap.set_base (BinaryHeap.set_values values1 b) h)
       = Some h'
    /\ fwf h'
    /\ (I4 h -> I4 h')
    /\ (forall r, 0 <= r ->
          leaf (BinaryHeap.set_values values' b) r =
          if decide (r = xref h k) then value else leaf b r)
    /\ (forall q, q <> i -> ~ anc q ((i - 1) / 2) ->
          vget values' q = vget (BinaryHeap._values b) q).
Proof.
  intros Hf Hk Hset b i. subst i b.
  pose proof Hf as [Hwf Hlen Hrefs Hsound].
  destruct (Hsound k Hk Hset) as [Hir Hrk].
  destruct (overwrite_spec value (xref h k) _ Hwf Hir)
    as (values1 & values' & Hw & Hrun & Hwf' & Hleaf & Hrest).
  exists values1, values'. cbv zeta. split; [exact Hw|]. split.
  { unfold FastUpdateBinaryHeap.inherited. simpl.
    rewrite Hrun. reflexivity. }
  split; [|split; [|split; assumption]].
  - constructor; simpl; auto.
  - intros HI. exact HI.
Qed.

(** The common part of [push_fast] and [push_if_lower_fast] for a
    reference that is absent: the pair is appended and the cross reference
    recorded. *)
Lemma fast_append (value : VALUE_T) (k : REFERENCE_T)
    (h : FastUpdateBinaryHeap.t) :
  fwf h -> 0 <= k <= FastUpdateBinaryHeap.max_reference h ->
  xref h k = -1 ->
  let b := FastUpdateBinaryHeap.base h in
  exists b' crossref',
    let h' := FastUpdateBinaryHeap.set_crossref crossref'
                (FastUpdateBinaryHeap.set_base b' h) in
    BinaryHeap.push_fast value k b = Some (BinaryHeap.count b, b')
    /\ wr (FastUpdateBinaryHeap._crossref h) k (BinaryHeap.count b)
       = Some crossref'
    /\ fwf h'
    /\ (I4 h -> I4 h')
    /\ BinaryHeap.count b' = BinaryHeap.count b + 1
    /\ xref h' k = BinaryHeap.count b
    /\ (forall r, 0 <= r < 2 ^ BinaryHeap.levels b' ->
          leaf b' r =
          if decide (r = BinaryHeap.count b) then value
          else if decide (r < BinaryHeap.count b) then leaf b r else inf).
Proof.
  intros Hf Hk Habs b. subst b.
  pose proof Hf as [Hwf Hlen Hrefs Hsound].
  set (b := FastUpdateBinaryHeap.base h) in *.
  destruct (push_fast_spec value k b Hwf)
    as (b' & Hrun & Hwf' & Hc' & Hm' & Hp' & Hleaf' & Href' & Hnew).
  pose proof (wf_count b Hwf) as Hc.
  set (c := BinaryHeap.count b) in *.
  destruct (wr (FastUpdateBinaryHeap._crossref h) k c) as [x'|] eqn:Hw;
    [|rewrite wr_Some in Hw by lia; discriminate].
  pose proof (wr_length _ _ _ _ Hw) as Hl.
  exists b', x'. cbv zeta.
  set (h' := FastUpdateBinaryHeap.set_crossref x'
               (FastUpdateBinaryHeap.set_base b' h)).
  assert (Hx : forall k', xref h' k' = if decide (k' = k) then c else xref h k').
  { intros k'. unfold xref. simpl. apply (sel_wr 0 _ _ _ _ _ Hw). }
  split; [exact Hrun|]. split; [reflexivity|].
  split; [|split; [|split; [exact Hc'|split; [|exact Hleaf']]]].
  - constructor; simpl.
    + exact Hwf'.
    + congruence.
    + intros r Hr. rewrite Hc' in Hr.
      destruct (decide (r = c)) as [->|Hne]; [rewrite Hnew; lia|].
      rewrite Href' by lia. apply Hrefs. lia.
    + intros k' Hk'. rewrite Hx, Hc'.
      destruct (decide (k' = k)) as [->|Hne].
      * intros _. split; [lia|exact Hnew].
      * intros Hset. destruct (Hsound k' Hk' Hset) as [Hp Hr].
        split; [lia|]. rewrite Href' by lia. exact Hr.
  - intros [HI _]. fold b in HI. fold c in HI. apply I4_intro. simpl.
    rewrite Hc'. intros p Hp. rewrite Hx.
    destruct (decide (p = c)) as [->|Hne].
    + rewrite Hnew. now rewrite decide_True.
    + rewrite Href' by lia. pose proof (HI p ltac:(lia)) as Ep.
      rewrite decide_False; [exact Ep|].
      intros E. rewrite E in Ep. lia.
  - rewrite Hx. now rewrite decide_True.
Qed.

(** ** Lower bounds through [_remove] *)

Lemma wf_set_popped_ref (ref : REFERENCE_T) (b : BinaryHeap.t) :
  wf b -> wf (BinaryHeap.set_popped_ref ref b).
Proof. intros [? ? ? ? ? ?]. constructor; assumption. Qed.

Lemma remove_lower_bound (w : VALUE_T) (r1 : Z) (b b' : BinaryHeap.t) :
  wf b -> 0 <= r1 < BinaryHeap.count b ->
  BinaryHeap._remove (2 ^ BinaryHeap.levels b - 1 + r1) b = Some b' ->
  lower_bound w b -> lower_bound w b'.
Proof.
  intros Hwf Hr1 Hrun Hlb.
  destruct (remove_spec r1 b Hwf Hr1)
    as (b'' & Hrun' & Hwf' & Hc' & _ & _ & Hleaf' & _).
  rewrite Hrun in Hrun'. injection Hrun' as <-.
  pose proof (wf_count b Hwf) as Hc.
  intros r Hr. destruct (decide (r < BinaryHeap.count b - 1)) as [Hlt|Hge].
  - rewrite Hleaf' by lia. destruct (decide (r = r1)); apply Hlb; lia.
  - rewrite (wf_vacant b' Hwf') by lia. apply value_le_inf.
Qed.

(** ** [pop] of the base class *)

Lemma pop_fast_base (b : BinaryHeap.t) :
  wf b ->
  exists ir b',
    BinaryHeap.pop_fast b = Some (to_float (leaf b ir), b')
    /\ 0 <= ir < 2 ^ BinaryHeap.levels b
    /\ lower_bound (leaf b ir) b
    /\ (forall r, ir < r < 2 ^ BinaryHeap.levels b ->
          value_lt (leaf b ir) (leaf b r) = true)
    /\ wf b'
    /\ BinaryHeap._popped_ref b' = ref_at b ir
    /\ (to_float (leaf b ir) = inf ->
          b' = BinaryHeap.set_popped_ref (ref_at b ir) b)
    /\ (to_float (leaf b ir) <> inf ->
          ir < BinaryHeap.count b
          /\ BinaryHeap._remove (2 ^ BinaryHeap.levels b - 1 + ir)
               (BinaryHeap.set_popped_ref (ref_at b ir) b) = Some b')
    /\ (forall w, lower_bound w b -> lower_bound w b').
Proof.
  intros Hwf.
  destruct (pop_fast_search_spec b Hwf) as (ir & Hsearch & Hir & Hmin & Hlast).
  pose proof Hwf as [Hlv Hc Hv Hr Ht Hvac].
  set (L := BinaryHeap.levels b) in *.
  pose proof (pow2_pos L ltac:(lia)) as Hpos.
  set (b1 := BinaryHeap.set_popped_ref (ref_at b ir) b).
  assert (Hwf1 : wf b1) by now apply wf_set_popped_ref.
  assert (Hpre : BinaryHeap.pop_fast b =
            self ← (if value_ne (to_float (leaf b ir)) inf
                    then BinaryHeap._remove (2 ^ L - 1 + ir) b1
                    else Some b1);
            Some (to_float (leaf b ir), self)).
  { unfold BinaryHeap.pop_fast. simpl. fold L. rewrite Hsearch.
    cbn [mbind option_bind]. rewrite shl1_pow by lia.
    rewrite (rd_sel inf) by lia.
    replace (2 ^ L - 1 + ir - (2 ^ L - 1)) with ir by lia.
    rewrite (rd_sel 0) by lia. reflexivity. }
  destruct (value_ne (to_float (leaf b ir)) inf) eqn:Hne.
  - assert (Hninf : to_float (leaf b ir) <> inf).
    { intros E%value_ne_inf. congruence. }
    assert (Hocc : ir < BinaryHeap.count b).
    { destruct (decide (ir < BinaryHeap.count b)); [assumption|].
      exfalso. apply Hninf. rewrite Hvac by lia. reflexivity. }
    destruct (remove_spec ir b1 Hwf1)
      as (b' & Hrun & Hwf' & Hc' & Hm' & Hp' & Hleaf' & Href'); [simpl; lia|].
    simpl in Hrun. fold L in Hrun.
    exists ir, b'. rewrite Hpre, Hrun.
    split; [reflexivity|]. split; [assumption|]. split; [exact Hmin|].
    split; [assumption|]. split; [assumption|]. split; [exact Hp'|].
    split; [contradiction|]. split; [auto|].
    intros w Hw. eapply (remove_lower_bound w ir b1); eauto. simpl; lia.
  - apply value_ne_inf in Hne.
    exists ir, b1. rewrite Hpre.
    split; [reflexivity|]. split; [assumption|]. split; [exact Hmin|].
    split; [assumption|]. split; [assumption|]. split; [reflexivity|].
    split; [reflexivity|]. split; [contradiction|]. auto.
Qed.

(** ** [pop] of the indexed heap *)

Lemma fwf_set_popped_ref (ref : REFERENCE_T) (h : FastUpdateBinaryHeap.t) :
  fwf h ->
  fwf (FastUpdateBinaryHeap.set_base
         (BinaryHeap.set_popped_ref ref (FastUpdateBinaryHeap.base h)) h).
Proof.
  intros [? ? ? ?]. constructor; try assumption.
  now apply wf_set_popped_ref.
Qed.

Lemma pop_fast_indexed (h : FastUpdateBinaryHeap.t) :
  fwf h ->
  let b := FastUpdateBinaryHeap.base h in
  exists ir h',
    BinaryHeap.pop_fast h = Some (to_float (leaf b ir), h')
    /\ 0 <= ir < 2 ^ BinaryHeap.levels b
    /\ lower_bound (leaf b ir) b
    /\ (forall r, ir < r < 2 ^ BinaryHeap.levels b ->
          value_lt (leaf b ir) (leaf b r) = true)
    /\ fwf h'
    /\ (I4 h -> I4 h')
    /\ FastUpdateBinaryHeap.max_reference h' =
       FastUpdateBinaryHeap.max_reference h
    /\ BinaryHeap._popped_ref (FastUpdateBinaryHeap.base h') = ref_at b ir
    /\ (to_float (leaf b ir) = inf ->
          h' = FastUpdateBinaryHeap.set_base
                 (BinaryHeap.set_popped_ref (ref_at b ir) b) h)
    /\ (to_float (leaf b ir) <> inf ->
          ir < BinaryHeap.count b
          /\ BinaryHeap.count (FastUpdateBinaryHeap.base h') =
             BinaryHeap.count b - 1)
    /\ (forall w, lower_bound w b ->
                  lower_bound w (FastUpdateBinaryHeap.base h')).
Proof.
  intros Hf b.
  pose proof (fwf_base h Hf) as Hwf. fold b in Hwf.
  destruct (pop_fast_search_spec b Hwf) as (ir & Hsearch & Hir & Hmin & Hlast).
  pose proof Hwf as [Hlv Hc Hv Hr Ht Hvac].
  set (L := BinaryHeap.levels b) in *.
  pose proof (pow2_pos L ltac:(lia)) as Hpos.
  set (h1 := FastUpdateBinaryHeap.set_base
               (BinaryHeap.set_popped_ref (ref_at b ir) b) h).
  assert (Hf1 : fwf h1) by now apply fwf_set_popped_ref.
  assert (Hpre : BinaryHeap.pop_fast h =
            self ← (if value_ne (to_float (leaf b ir)) inf
                    then FastUpdateBinaryHeap._remove (2 ^ L - 1 + ir) h1
                    else Some h1);
            Some (to_float (leaf b ir), self)).
  { unfold BinaryHeap.pop_fast. simpl. fold b L. rewrite Hsearch.
    cbn [mbind option_bind]. rewrite shl1_pow by lia.
    rewrite (rd_sel inf) by lia.
    replace (2 ^ L - 1 + ir - (2 ^ L - 1)) with ir by lia.
    rewrite (rd_sel 0) by lia. reflexivity. }
  destruct (value_ne (to_float (leaf b ir)) inf) eqn:Hne.
  - assert (Hninf : to_float (leaf b ir) <> inf).
    { intros E%value_ne_inf. congruence. }
    assert (Hocc : ir < BinaryHeap.count b).
    { destruct (decide (ir < BinaryHeap.count b)); [assumption|].
      exfalso. apply Hninf. rewrite Hvac by lia. reflexivity. }
    destruct (fast_remove_spec ir h1 Hf1)
      as (h' & Hrun & Hf' & Hbase & Hmax & HI4); [simpl; lia|].
    simpl in Hrun, Hbase. fold b L in Hrun, Hbase.
    destruct (remove_spec ir (BinaryHeap.set_popped_ref (ref_at b ir) b))
      as (b' & Hrun' & Hwf' & Hc' & Hm' & Hp' & Hleaf' & Href');
      [now apply wf_set_popped_ref|simpl; lia|].
    simpl in Hrun'. fold L in Hrun'. rewrite Hbase in Hrun'.
    injection Hrun' as <-.
    exists ir, h'. rewrite Hpre, Hrun.
    split; [reflexivity|]. split; [assumption|]. split; [exact Hmin|].
    split; [assumption|]. split; [assumption|]. split; [exact HI4|].
    split; [exact Hmax|]. split; [exact Hp'|].
    split; [contradiction|]. split; [auto|].
    intros w Hw.
    eapply (remove_lower_bound w ir (BinaryHeap.set_popped_ref (ref_at b ir) b));
      eauto; [now apply wf_set_popped_ref|simpl; lia].
  - apply value_ne_inf in Hne.
    exists ir, h1. rewrite Hpre.
    split; [reflexivity|]. split; [assumption|]. split; [exact Hmin|].
    split; [assumption|]. split; [assumption|]. split; [auto|].
    split; [reflexivity|]. split; [reflexivity|].
    split; [reflexivity|]. split; [contradiction|]. auto.
Qed.

(** ** [reset] and the constructors *)

Lemma reset_base_spec (b : BinaryHeap.t) :
  0 <= BinaryHeap.levels b ->
  Z.of_nat (length (BinaryHeap._values b)) = 2 * 2 ^ BinaryHeap.levels b ->
  exists values',
    BinaryHeap.reset b = Return tt (BinaryHeap.set_values values' b)
    /\ length values' = length (BinaryHeap._values b)
    /\ forall q, 0 <= q < 2 * 2 ^ BinaryHeap.levels b -> vget values' q = inf.
Proof.
  intros HL Hlen. pose proof (pow2_pos _ HL) as Hpos.
  destruct (fill_loop inf inf (2 ^ BinaryHeap.levels b * 2) (BinaryHeap._values b))
    as (values' & Hrun & Hlen' & Hsel); [lia|].
  exists values'. split; [|split; [exact Hlen'|]].
  - unfold BinaryHeap.reset. rewrite Hrun. reflexivity.
  - intros q Hq. rewrite Hsel. now rewrite decide_True by lia.
Qed.

(** A heap whose slots all hold the sentinel is well formed, whatever its
    count. *)
Lemma wf_all_inf (b : BinaryHeap.t) :
  0 <= BinaryHeap.min_levels b <= BinaryHeap.levels b ->
  1 <= BinaryHeap.levels b ->
  0 <= BinaryHeap.count b <= 2 ^ BinaryHeap.levels b ->
  Z.of_nat (length (BinaryHeap._values b)) = 2 * 2 ^ BinaryHeap.levels b ->
  Z.of_nat (length (BinaryHeap._references b)) = 2 ^ BinaryHeap.levels b ->
  (forall q, 0 <= q < 2 * 2 ^ BinaryHeap.levels b ->
             vget (BinaryHeap._values b) q = inf) ->
  wf b.
Proof.
  intros Hlv HL Hc Hv Hr Hinf. constructor; auto.
  - intros p Hp. unfold good. rewrite !Hinf by lia. reflexivity.
  - intros r Hr'. unfold leaf. apply Hinf. lia.
Qed.

Lemma reset_base_wf (b : BinaryHeap.t) :
  wf b ->
  exists b',
    BinaryHeap.reset b = Return tt b'
    /\ wf b'
    /\ BinaryHeap.count b' = BinaryHeap.count b
    /\ BinaryHeap.levels b' = BinaryHeap.levels b
    /\ BinaryHeap.min_levels b' = BinaryHeap.min_levels b
    /\ BinaryHeap._references b' = BinaryHeap._references b
    /\ (forall q, 0 <= q < 2 * 2 ^ BinaryHeap.levels b ->
                  vget (BinaryHeap._values b') q = inf).
Proof.
  intros [Hlv Hc Hv Hr Ht Hvac].
  destruct (reset_base_spec b) as (values' & Hrun & Hlen' & Hinf); [lia..|].
  exists (BinaryHeap.set_values values' b). split; [exact Hrun|].
  split; [|repeat split; auto].
  apply wf_all_inf; simpl; auto; lia.
Qed.

Lemma init_levels_ge (fuel : nat) (l cap : Z) :
  l <= BinaryHeap.init_levels fuel l cap.
Proof.
  revert l. induction fuel as [|fuel IH]; intros l; simpl; [lia|].
  destruct (2 ^ l <? cap); [|lia]. specialize (IH (l + 1)). lia.
Qed.

(** The fuel given to the loop of [__init__] is enough: it stops because
    its condition fails, at the least number of levels that holds the
    capacity. *)
Lemma init_levels_spec (fuel : nat) (l cap : Z) :
  0 <= l -> cap <= l + Z.of_nat fuel ->
  (l = 0 \/ 2 ^ (l - 1) < cap) ->
  let r := BinaryHeap.init_levels fuel l cap in
  cap <= 2 ^ r /\ (r = 0 \/ 2 ^ (r - 1) < cap).
Proof.
  revert l. induction fuel as [|fuel IH]; intros l Hl Hfuel Hmin; simpl.
  - split; [|exact Hmin]. pose proof (Z.pow_gt_lin_r 2 l ltac:(lia) Hl). lia.
  - destruct (Z.ltb_spec (2 ^ l) cap) as [Hlt|Hge].
    + apply IH; [lia|lia|]. right. now replace (l + 1 - 1) with l by lia.
    + split; [lia|exact Hmin].
Qed.

Lemma init_levels_pos (cap : Z) :
  2 <= cap -> 1 <= BinaryHeap.init_levels (Z.to_nat cap) 0 cap.
Proof.
  intros Hcap. destruct (Z.to_nat cap) as [|fuel] eqn:E; [lia|].
  simpl. change (2 ^ 0) with 1. destruct (Z.ltb_spec 1 cap); [|lia].
  apply (init_levels_ge fuel 1 cap).
Qed.

Lemma new_base_spec (garbage : nat -> REFERENCE_T) (cap : Z) :
  2 <= cap ->
  exists b, BinaryHeap.new garbage cap = Return tt b
            /\ wf b /\ BinaryHeap.count b = 0.
Proof.
  intros Hcap. pose proof (init_levels_pos cap Hcap) as HL.
  unfold BinaryHeap.new, BinaryHeap.__init__. cbv zeta.
  set (L := BinaryHeap.init_levels (Z.to_nat cap) 0 cap) in *.
  pose proof (pow2_pos L ltac:(lia)) as Hpos.
  simpl. fold L.
  match goal with
  | |- context [BinaryHeap.reset ?b0] =>
      destruct (reset_base_spec b0) as (values' & Hrun & Hlen' & Hinf);
      [simpl; try lia; rewrite ?malloc_length; lia..|];
      rewrite Hrun; set (b := b0) in *
  end.
  simpl in *. eexists. split; [reflexivity|]. split; [|reflexivity].
  apply wf_all_inf; simpl; try lia.
  - rewrite Hlen'. rewrite malloc_length; lia.
  - rewrite malloc_length; lia.
  - exact Hinf.
Qed.

Lemma reset_indexed_spec (h : FastUpdateBinaryHeap.t) :
  fwf h ->
  exists h',
    FastUpdateBinaryHeap.reset h = Return tt h'
    /\ fwf h'
    /\ BinaryHeap.count (FastUpdateBinaryHeap.base h') =
       BinaryHeap.count (FastUpdateBinaryHeap.base h)
    /\ BinaryHeap.levels (FastUpdateBinaryHeap.base h') =
       BinaryHeap.levels (FastUpdateBinaryHeap.base h)
    /\ BinaryHeap.min_levels (FastUpdateBinaryHeap.base h') =
       BinaryHeap.min_levels (FastUpdateBinaryHeap.base h)
    /\ BinaryHeap._references (FastUpdateBinaryHeap.base h') =
       BinaryHeap._references (FastUpdateBinaryHeap.base h)
    /\ FastUpdateBinaryHeap.max_reference h' =
       FastUpdateBinaryHeap.max_reference h
    /\ (forall q, 0 <= q < 2 * 2 ^ BinaryHeap.levels (FastUpdateBinaryHeap.base h) ->
          vget (BinaryHeap._values (FastUpdateBinaryHeap.base h')) q = inf)
    /\ (forall k, 0 <= k <= FastUpdateBinaryHeap.max_reference h ->
          xref h' k = -1).
Proof.
  intros [Hwf Hlen Hrefs Hsound].
  destruct (reset_base_wf _ Hwf)
    as (b' & Hrun & Hwf' & Hc' & HL' & Hm' & Hr' & Hinf).
  destruct (fill_loop 0 (-1) (FastUpdateBinaryHeap.max_reference h + 1)
              (FastUpdateBinaryHeap._crossref h))
    as (x' & Hrunx & Hlenx & Hselx); [lia|].
  exists (FastUpdateBinaryHeap.set_crossref x'
            (FastUpdateBinaryHeap.set_base b' h)).
  split.
  { unfold FastUpdateBinaryHeap.reset.
    rewrite Hrun. simpl. rewrite Hrunx. reflexivity. }
  assert (Hx : forall k, 0 <= k <= FastUpdateBinaryHeap.max_reference h ->
    xref (FastUpdateBinaryHeap.set_crossref x'
            (FastUpdateBinaryHeap.set_base b' h)) k = -1).
  { intros k Hk. unfold xref. simpl. rewrite Hselx.
    now rewrite decide_True by lia. }
  split; [|simpl; repeat split; auto].
  constructor; simpl.
  - exact Hwf'.
  - congruence.
  - intros r Hr. unfold ref_at. rewrite Hr'. apply Hrefs. lia.
  - intros k Hk Hset. exfalso. apply Hset. now apply Hx.
Qed.

Lemma new_indexed_spec (garbage : nat -> REFERENCE_T) (cap : Z)
    (max_reference : option Z) :
  2 <= cap ->
  exists h, FastUpdateBinaryHeap.new garbage cap max_reference = Return tt h
            /\ fwf h /\ I4 h
            /\ BinaryHeap.count (FastUpdateBinaryHeap.base h) = 0.
Proof.
  intros Hcap. pose proof (init_levels_pos cap Hcap) as HL.
  unfold FastUpdateBinaryHeap.new, FastUpdateBinaryHeap.__init__,
    BinaryHeap.__init__. cbv zeta.
  set (L := BinaryHeap.init_levels (Z.to_nat cap) 0 cap) in *.
  set (M := match max_reference with Some m => m | None => cap - 1 end).
  pose proof (pow2_pos L ltac:(lia)) as Hpos.
  simpl. fold L M.
  match goal with
  | |- context [FastUpdateBinaryHeap.reset ?h0] => set (h1 := h0)
  end.
  destruct (reset_base_spec (FastUpdateBinaryHeap.base h1))
    as (values' & Hrun & Hlen' & Hinf);
    [simpl; try lia; rewrite ?malloc_length; lia..|].
  destruct (fill_loop 0 (-1) (M + 1) (FastUpdateBinaryHeap._crossref h1))
    as (x' & Hrunx & Hlenx & Hselx).
  { simpl. unfold malloc. rewrite List.length_map, List.length_seq. lia. }
  unfold FastUpdateBinaryHeap.reset.
  rewrite Hrun. simpl.
  simpl in Hrunx. rewrite Hrunx.
  eexists. split; [reflexivity|].
  simpl in Hinf, Hlen', Hlenx.
  split; [|split; [|reflexivity]].
  - constructor; simpl.
    + apply wf_all_inf; simpl; try lia.
      * rewrite Hlen'. rewrite malloc_length; lia.
      * rewrite malloc_length; lia.
      * exact Hinf.
    + rewrite Hlenx. unfold malloc.
      now rewrite List.length_map, List.length_seq.
    + intros r Hr. lia.
    + intros k Hk Hset. exfalso. apply Hset. unfold xref. simpl.
      rewrite Hselx. now rewrite decide_True by lia.
  - apply I4_intro. simpl. intros p Hp. lia.
Qed.

(** ** The Python-level methods *)

Lemma pop_base_inv (b b' : BinaryHeap.t) (v : VALUE_T) (r : REFERENCE_T) :
  BinaryHeap.pop b = Return (v, r) b' ->
  BinaryHeap.count b <> 0
  /\ BinaryHeap.pop_fast b = Some (v, b')
  /\ r = BinaryHeap._popped_ref b'.
Proof.
  unfold BinaryHeap.pop. simpl.
  destruct (decide (BinaryHeap.count b = 0)); [discriminate|].
  destruct (BinaryHeap.pop_fast b) as [[v' b'']|]; [|discriminate].
  intros [= <- <- <-]. auto.
Qed.

Lemma pop_indexed_inv (h h' : FastUpdateBinaryHeap.t) (v : VALUE_T)
    (r : REFERENCE_T) :
  BinaryHeap.pop h = Return (v, r) h' ->
  BinaryHeap.count (FastUpdateBinaryHeap.base h) <> 0
  /\ BinaryHeap.pop_fast h = Some (v, h')
  /\ r = BinaryHeap._popped_ref (FastUpdateBinaryHeap.base h').
Proof.
  unfold BinaryHeap.pop. simpl.
  destruct (decide (BinaryHeap.count (FastUpdateBinaryHeap.base h) = 0));
    [discriminate|].
  destruct (BinaryHeap.pop_fast h) as [[v' h'']|]; [|discriminate].
  intros [= <- <- <-]. auto.
Qed.

Lemma min_val_state {S : Type} `{BinaryHeap.subclass S} (self self' : S) :
  state_of (BinaryHeap.min_val self) = Some self' -> self' = self.
Proof.
  unfold BinaryHeap.min_val.
  destruct (rd _ 1); [|discriminate]. destruct (rd _ 2); [|discriminate].
  destruct (value_lt _ _); simpl; congruence.
Qed.

Lemma push_lower_bound (w value : VALUE_T) (reference : REFERENCE_T)
    (b b' : BinaryHeap.t) (n : Z) :
  wf b -> BinaryHeap.push_fast value reference b = Some (n, b') ->
  value_le w value -> lower_bound w b -> lower_bound w b'.
Proof.
  intros Hwf Hrun Hv Hlb.
  destruct (push_fast_spec value reference b Hwf)
    as (b'' & Hrun' & Hwf' & Hc' & _ & _ & Hleaf' & _).
  rewrite Hrun in Hrun'. injection Hrun' as -> <-.
  pose proof (wf_count b Hwf) as Hc.
  intros r Hr. rewrite Hleaf' by assumption.
  destruct (decide (r = BinaryHeap.count b)); [assumption|].
  destruct (decide (r < BinaryHeap.count b)); [|apply value_le_inf].
  apply Hlb. lia.
Qed.

Lemma all_inf_lower_bound (w : VALUE_T) (b : BinaryHeap.t) :
  0 <= BinaryHeap.levels b ->
  (forall q, 0 <= q < 2 * 2 ^ BinaryHeap.levels b ->
             vget (BinaryHeap._values b) q = inf) ->
  lower_bound w b.
Proof.
  intros HL Hinf r Hr. unfold leaf. rewrite Hinf by lia. apply value_le_inf.
Qed.

(** Every call keeps the invariant of the base class, and keeps a lower
    bound of the leaves unless it pushes a smaller value. *)
Lemma base_do_wf (c : base_call) (b b' : BinaryHeap.t) :
  wf b -> base_do c b = Some b' ->
  wf b' /\ forall w, base_pushes_ge w c -> lower_bound w b -> lower_bound w b'.
Proof.
  intros Hwf. destruct c as [value reference| | |]; simpl.
  - destruct (push_fast_spec value reference b Hwf)
      as (b1 & Hrun & Hwf' & _).
    unfold BinaryHeap.push. rewrite Hrun. simpl. intros [= <-].
    split; [assumption|]. intros w Hv. eapply push_lower_bound; eauto.
  - unfold BinaryHeap.pop. simpl.
    destruct (decide (BinaryHeap.count b = 0)); simpl.
    + intros [= <-]. auto.
    + destruct (pop_fast_base b Hwf)
        as (ir & b1 & Hrun & _ & _ & _ & Hwf' & _ & _ & _ & Hlb).
      rewrite Hrun. simpl. intros [= <-]. auto.
  - intros ->%min_val_state. auto.
  - destruct (reset_base_wf b Hwf) as (b1 & Hrun & Hwf' & _ & HL & _ & _ & Hinf).
    rewrite Hrun. simpl. intros [= <-]. split; [assumption|].
    intros w _ _. apply all_inf_lower_bound.
    + pose proof (wf_levels b1 Hwf'). lia.
    + rewrite HL. exact Hinf.
Qed.

Lemma base_run_wf (cs : list base_call) (b b' : BinaryHeap.t) :
  wf b -> base_run cs b = Some b' -> wf b'.
Proof.
  revert b. induction cs as [|c cs IH]; intros b Hwf; simpl.
  - now intros [= <-].
  - destruct (base_do c b) as [b1|] eqn:Hdo; [|discriminate]. simpl.
    apply IH. eapply base_do_wf; eauto.
Qed.

Lemma base_run_lower_bound (w : VALUE_T) (cs : list base_call)
    (b b' : BinaryHeap.t) :
  wf b -> Forall (base_pushes_ge w) cs -> base_run cs b = Some b' ->
  lower_bound w b -> lower_bound w b'.
Proof.
  revert b. induction cs as [|c cs IH]; intros b Hwf Hge; simpl.
  - now intros [= <-].
  - destruct (base_do c b) as [b1|] eqn:Hdo; [|discriminate]. simpl.
    inversion Hge as [|? ? Hc Hcs]; subst.
    destruct (base_do_wf c b b1 Hwf Hdo) as [Hwf1 Hlb].
    intros Hrun Hw. eapply IH; eauto.
Qed.

Lemma base_reachable_wf (b : BinaryHeap.t) : base_reachable b -> wf b.
Proof.
  intros (garbage & cap & cs & b0 & Hcap & Hnew & Hrun).
  destruct (new_base_spec garbage cap Hcap) as (b0' & Hnew' & Hwf & _).
  rewrite Hnew in Hnew'. injection Hnew' as <-.
  eapply base_run_wf; eauto.
Qed.

(** ** [push], [push_if_lower] and [value_of] *)

Lemma push_out_of_range (value : VALUE_T) (k : REFERENCE_T)
    (h : FastUpdateBinaryHeap.t) :
  ~ (0 <= k <= FastUpdateBinaryHeap.max_reference h) ->
  FastUpdateBinaryHeap.push value k h =
  Raise (ValueError "reference outside of range [0, max_reference]") h.
Proof.
  intros Hout. unfold FastUpdateBinaryHeap.push.
  now rewrite push_fast_out_of_range.
Qed.

Lemma push_if_lower_out_of_range (value : VALUE_T) (k : REFERENCE_T)
    (h : FastUpdateBinaryHeap.t) :
  ~ (0 <= k <= FastUpdateBinaryHeap.max_reference h) ->
  FastUpdateBinaryHeap.push_if_lower value k h =
  Raise (ValueError "reference outside of range [0, max_reference]") h.
Proof.
  intros Hout. unfold FastUpdateBinaryHeap.push_if_lower.
  now rewrite push_if_lower_fast_out_of_range.
Qed.

Lemma value_of_out_of_buffer (k : REFERENCE_T) (h : FastUpdateBinaryHeap.t) :
  ~ (0 <= k < Z.of_nat (length (FastUpdateBinaryHeap._crossref h))) ->
  FastUpdateBinaryHeap.value_of k h = Undefined.
Proof.
  intros Hout. unfold FastUpdateBinaryHeap.value_of,
    FastUpdateBinaryHeap.value_of_fast.
  now rewrite rd_None.
Qed.

Lemma value_of_absent (k : REFERENCE_T) (h : FastUpdateBinaryHeap.t) :
  fwf h -> 0 <= k <= FastUpdateBinaryHeap.max_reference h ->
  xref h k = -1 ->
  FastUpdateBinaryHeap.value_of k h =
  Raise (ValueError "invalid reference")
        (FastUpdateBinaryHeap.set_invalid_ref 1 h).
Proof.
  intros Hf Hk Habs. unfold FastUpdateBinaryHeap.value_of,
    FastUpdateBinaryHeap.value_of_fast.
  rewrite crossref_read by assumption. simpl. rewrite Habs. reflexivity.
Qed.

Lemma value_of_present (k : REFERENCE_T) (h : FastUpdateBinaryHeap.t) :
  fwf h -> 0 <= k <= FastUpdateBinaryHeap.max_reference h ->
  xref h k <> -1 ->
  FastUpdateBinaryHeap.value_of k h =
  Return (to_float (leaf (FastUpdateBinaryHeap.base h) (xref h k)))
         (FastUpdateBinaryHeap.set_invalid_ref 0 h).
Proof.
  intros Hf Hk Hset. unfold FastUpdateBinaryHeap.value_of,
    FastUpdateBinaryHeap.value_of_fast.
  rewrite crossref_read by assumption. simpl.
  rewrite decide_False by assumption.
  destruct (fwf_sound h Hf k Hk Hset) as [Hir _].
  pose proof (fwf_base h Hf) as [Hlv Hc Hv Hr Ht Hvac].
  pose proof (pow2_pos (BinaryHeap.levels (FastUpdateBinaryHeap.base h))
                ltac:(lia)) as Hpos.
  rewrite shl1_pow by lia. rewrite (rd_sel inf) by lia. reflexivity.
Qed.

Lemma fwf_set_flags (f g : Z) (h : FastUpdateBinaryHeap.t) :
  fwf h ->
  fwf (FastUpdateBinaryHeap.set_invalid_ref f
         (FastUpdateBinaryHeap.set_pushed g h)).
Proof. intros [? ? ? ?]. constructor; assumption. Qed.

Lemma push_present (value : VALUE_T) (k : REFERENCE_T)
    (h : FastUpdateBinaryHeap.t) :
  fwf h -> 0 <= k <= FastUpdateBinaryHeap.max_reference h ->
  xref h k <> -1 ->
  let b := FastUpdateBinaryHeap.base h in
  let i := shl1 (BinaryHeap.levels b) - 1 + xref h k in
  exists values',
    let h' := FastUpdateBinaryHeap.set_base
                (BinaryHeap.set_values values' b) h in
    FastUpdateBinaryHeap.push value k h = Return tt h'
    /\ fwf h'
    /\ (I4 h -> I4 h')
    /\ (forall r, 0 <= r ->
          leaf (BinaryHeap.set_values values' b) r =
          if decide (r = xref h k) then value else leaf b r)
    /\ (forall q, q <> i -> ~ anc q ((i - 1) / 2) ->
          vget values' q = vget (BinaryHeap._values b) q).
Proof.
  intros Hf Hk Hset b i.
  destruct (fast_overwrite value k h Hf Hk Hset)
    as (values1 & values' & Hw & Hrun & Hrest).
  exists values'. cbv zeta. split; [|exact Hrest].
  unfold FastUpdateBinaryHeap.push, FastUpdateBinaryHeap.push_fast.
  rewrite bool_decide_eq_true_2 by assumption. simpl.
  rewrite crossref_read by assumption. simpl.
  rewrite decide_True by assumption.
  rewrite Hw. simpl. rewrite Hrun. simpl.
  now rewrite decide_False by assumption.
Qed.

Lemma push_absent (value : VALUE_T) (k : REFERENCE_T)
    (h : FastUpdateBinaryHeap.t) :
  fwf h -> 0 <= k <= FastUpdateBinaryHeap.max_reference h ->
  xref h k = -1 ->
  let b := FastUpdateBinaryHeap.base h in
  exists b' crossref',
    let h' := FastUpdateBinaryHeap.set_crossref crossref'
                (FastUpdateBinaryHeap.set_base b' h) in
    FastUpdateBinaryHeap.push value k h = Return tt h'
    /\ BinaryHeap.push_fast value k b = Some (BinaryHeap.count b, b')
    /\ fwf h'
    /\ (I4 h -> I4 h')
    /\ BinaryHeap.count b' = BinaryHeap.count b + 1
    /\ xref h' k = BinaryHeap.count b
    /\ (forall r, 0 <= r < 2 ^ BinaryHeap.levels b' ->
          leaf b' r =
          if decide (r = BinaryHeap.count b) then value
          else if decide (r < BinaryHeap.count b) then leaf b r else inf).
Proof.
  intros Hf Hk Habs b.
  destruct (fast_append value k h Hf Hk Habs)
    as (b' & x' & Hrun & Hw & Hrest).
  exists b', x'. cbv zeta. split; [|split; [exact Hrun|exact Hrest]].
  unfold FastUpdateBinaryHeap.push, FastUpdateBinaryHeap.push_fast.
  rewrite bool_decide_eq_true_2 by assumption. simpl.
  rewrite crossref_read by assumption. simpl.
  rewrite decide_False by (rewrite Habs; lia).
  rewrite Hrun. simpl. rewrite Hw. simpl.
  pose proof (wf_count _ (fwf_base h Hf)).
  now rewrite decide_False by lia.
Qed.

Lemma push_if_lower_present_lower (value : VALUE_T) (k : REFERENCE_T)
    (h : FastUpdateBinaryHeap.t) :
  fwf h -> 0 <= k <= FastUpdateBinaryHeap.max_reference h ->
  xref h k <> -1 ->
  value_lt value (leaf (FastUpdateBinaryHeap.base h) (xref h k)) = true ->
  let b := FastUpdateBinaryHeap.base h in
  let i := shl1 (BinaryHeap.levels b) - 1 + xref h k in
  exists values',
    let h' := FastUpdateBinaryHeap.set_base
                (BinaryHeap.set_values values' b)
                (FastUpdateBinaryHeap.set_pushed 1 h) in
    FastUpdateBinaryHeap.push_if_lower value k h = Return true h'
    /\ fwf h'
    /\ (I4 h -> I4 h')
    /\ (forall r, 0 <= r ->
          leaf (BinaryHeap.set_values values' b) r =
          if decide (r = xref h k) then value else leaf b r)
    /\ (forall q, q <> i -> ~ anc q ((i - 1) / 2) ->
          vget values' q = vget (BinaryHeap._values b) q).
Proof.
  intros Hf Hk Hset Hlt b i.
  assert (Hf1 : fwf (FastUpdateBinaryHeap.set_pushed 1 h)).
  { destruct Hf. constructor; assumption. }
  destruct (fast_overwrite value k _ Hf1 Hk Hset)
    as (values1 & values' & Hw & Hrun & Hf' & HI & Hrest).
  change (xref (FastUpdateBinaryHeap.set_pushed 1 h) k) with (xref h k) in *.
  simpl in Hw, Hrun, Hf', HI, Hrest.
  exists values'. cbv zeta. split; [|split; [exact Hf'|split; [exact HI|exact Hrest]]].
  unfold FastUpdateBinaryHeap.push_if_lower,
    FastUpdateBinaryHeap.push_if_lower_fast.
  rewrite bool_decide_eq_true_2 by assumption. simpl.
  rewrite crossref_read by assumption. simpl.
  rewrite decide_True by assumption.
  destruct (fwf_sound h Hf k Hk Hset) as [Hir _].
  pose proof (fwf_base h Hf) as [Hlv Hc Hv Hr Ht Hvac].
  pose proof (pow2_pos (BinaryHeap.levels (FastUpdateBinaryHeap.base h))
                ltac:(lia)) as Hpos.
  rewrite (rd_sel inf) by (rewrite shl1_pow by lia; lia). simpl.
  replace (vget _ _) with (leaf (FastUpdateBinaryHeap.base h) (xref h k))
    by (unfold leaf; now rewrite shl1_pow by lia).
  rewrite Hlt. rewrite Hw. simpl. rewrite Hrun. simpl.
  now rewrite decide_False by assumption.
Qed.

Lemma push_if_lower_present_not_lower (value : VALUE_T) (k : REFERENCE_T)
    (h : FastUpdateBinaryHeap.t) :
  fwf h -> 0 <= k <= FastUpdateBinaryHeap.max_reference h ->
  xref h k <> -1 ->
  value_lt value (leaf (FastUpdateBinaryHeap.base h) (xref h k)) = false ->
  FastUpdateBinaryHeap.push_if_lower value k h =
  Return false (FastUpdateBinaryHeap.set_pushed 0 h).
Proof.
  intros Hf Hk Hset Hlt.
  unfold FastUpdateBinaryHeap.push_if_lower,
    FastUpdateBinaryHeap.push_if_lower_fast.
  rewrite bool_decide_eq_true_2 by assumption. simpl.
  rewrite crossref_read by assumption. simpl.
  rewrite decide_True by assumption.
  destruct (fwf_sound h Hf k Hk Hset) as [Hir _].
  pose proof (fwf_base h Hf) as [Hlv Hc Hv Hr Ht Hvac].
  pose proof (pow2_pos (BinaryHeap.levels (FastUpdateBinaryHeap.base h))
                ltac:(lia)) as Hpos.
  rewrite (rd_sel inf) by (rewrite shl1_pow by lia; lia). simpl.
  replace (vget _ _) with (leaf (FastUpdateBinaryHeap.base h) (xref h k))
    by (unfold leaf; now rewrite shl1_pow by lia).
  rewrite Hlt. simpl.
  now rewrite decide_False by assumption.
Qed.

Lemma push_if_lower_absent (value : VALUE_T) (k : REFERENCE_T)
    (h : FastUpdateBinaryHeap.t) :
  fwf h -> 0 <= k <= FastUpdateBinaryHeap.max_reference h ->
  xref h k = -1 ->
  let b := FastUpdateBinaryHeap.base h in
  exists b' crossref',
    let h' := FastUpdateBinaryHeap.set_crossref crossref'
                (FastUpdateBinaryHeap.set_base b'
                   (FastUpdateBinaryHeap.set_pushed 1 h)) in
    FastUpdateBinaryHeap.push_if_lower value k h = Return true h'
    /\ BinaryHeap.push_fast value k b = Some (BinaryHeap.count b, b')
    /\ fwf h'
    /\ (I4 h -> I4 h')
    /\ BinaryHeap.count b' = BinaryHeap.count b + 1
    /\ xref h' k = BinaryHeap.count b
    /\ (forall r, 0 <= r < 2 ^ BinaryHeap.levels b' ->
          leaf b' r =
          if decide (r = BinaryHeap.count b) then value
          else if decide (r < BinaryHeap.count b) then leaf b r else inf).
Proof.
  intros Hf Hk Habs b.
  assert (Hf1 : fwf (FastUpdateBinaryHeap.set_pushed 1 h)).
  { destruct Hf. constructor; assumption. }
  destruct (fast_append value k _ Hf1 Hk Habs)
    as (b' & x' & Hrun & Hw & Hf' & HI & Hrest).
  change (xref (FastUpdateBinaryHeap.set_pushed 1 h) k) with (xref h k) in *.
  simpl in Hrun, Hw, Hf', HI, Hrest.
  exists b', x'. cbv zeta.
  split; [|split; [exact Hrun|split; [exact Hf'|split; [exact HI|exact Hrest]]]].
  unfold FastUpdateBinaryHeap.push_if_lower,
    FastUpdateBinaryHeap.push_if_lower_fast.
  rewrite bool_decide_eq_true_2 by assumption. simpl.
  rewrite crossref_read by assumption. simpl.
  rewrite decide_False by (rewrite Habs; lia).
  subst b. rewrite Hrun. simpl. rewrite Hw. simpl.
  pose proof (wf_count _ (fwf_base h Hf)).
  now rewrite decide_False by lia.
Qed.

(** ** Runs of the indexed heap *)

Lemma overwrite_lower_bound (w value : VALUE_T) (ir : Z)
    (b : BinaryHeap.t) (values' : list VALUE_T) :
  (forall r, 0 <= r ->
     leaf (BinaryHeap.set_values values' b) r =
     if decide (r = ir) then value else leaf b r) ->
  value_le w value -> lower_bound w b ->
  lower_bound w (BinaryHeap.set_values values' b).
Proof.
  intros Hleaf Hv Hlb r Hr. simpl in Hr. rewrite Hleaf by lia.
  destruct (decide (r = ir)); [assumption|]. now apply Hlb.
Qed.

(** Every call keeps the invariant of the indexed heap and a lower bound
    of the leaves unless it pushes a smaller value; every call except
    [reset] keeps the cross-reference consistency I4. *)
Lemma indexed_do_fwf (c : indexed_call) (h h' : FastUpdateBinaryHeap.t) :
  fwf h -> indexed_do c h = Some h' ->
  fwf h'
  /\ (not_reset c -> I4 h -> I4 h')
  /\ (forall w, indexed_pushes_ge w c ->
        lower_bound w (FastUpdateBinaryHeap.base h) ->
        lower_bound w (FastUpdateBinaryHeap.base h')).
Proof.
  intros Hf.
  pose proof (fwf_base h Hf) as Hwf.
  destruct c as [value k|value k| |k| |]; simpl.
  - (* push *)
    destruct (decide (0 <= k <= FastUpdateBinaryHeap.max_reference h))
      as [Hk|Hout].
    + destruct (decide (xref h k = -1)) as [Habs|Hset].
      * destruct (push_absent value k h Hf Hk Habs)
          as (b' & x' & Hrun & Hpush & Hf' & HI & _).
        rewrite Hrun. simpl. intros [= <-].
        split; [assumption|]. split; [auto|]. simpl.
        intros w Hv. eapply push_lower_bound; eauto.
      * destruct (push_present value k h Hf Hk Hset)
          as (values' & Hrun & Hf' & HI & Hleaf & _).
        rewrite Hrun. simpl. intros [= <-].
        split; [assumption|]. split; [auto|]. simpl.
        intros w Hv. eapply overwrite_lower_bound; eauto.
    + rewrite push_out_of_range by assumption. simpl. intros [= <-]. auto.
  - (* push_if_lower *)
    destruct (decide (0 <= k <= FastUpdateBinaryHeap.max_reference h))
      as [Hk|Hout].
    + destruct (decide (xref h k = -1)) as [Habs|Hset].
      * destruct (push_if_lower_absent value k h Hf Hk Habs)
          as (b' & x' & Hrun & Hpush & Hf' & HI & _).
        rewrite Hrun. simpl. intros [= <-].
        split; [assumption|]. split; [auto|]. simpl.
        intros w Hv. eapply push_lower_bound; eauto.
      * destruct (value_lt value (leaf (FastUpdateBinaryHeap.base h) (xref h k)))
          eqn:Hlt.
        -- destruct (push_if_lower_present_lower value k h Hf Hk Hset Hlt)
             as (values' & Hrun & Hf' & HI & Hleaf & _).
           rewrite Hrun. simpl. intros [= <-].
           split; [assumption|]. split; [auto|]. simpl.
           intros w Hv. eapply overwrite_lower_bound; eauto.
        -- rewrite push_if_lower_present_not_lower by assumption.
           simpl. intros [= <-].
           split; [destruct Hf; constructor; assumption|]. auto.
    + rewrite push_if_lower_out_of_range by assumption. simpl.
      intros [= <-]. auto.
  - (* pop *)
    unfold BinaryHeap.pop. simpl.
    destruct (decide (BinaryHeap.count (FastUpdateBinaryHeap.base h) = 0)); simpl.
    + intros [= <-]. auto.
    + destruct (pop_fast_indexed h Hf)
        as (ir & h1 & Hrun & _ & _ & _ & Hf' & HI & _ & _ & _ & _ & Hlb).
      rewrite Hrun. simpl. intros [= <-]. auto.
  - (* value_of *)
    destruct (decide (0 <= k <= FastUpdateBinaryHeap.max_reference h))
      as [Hk|Hout].
    + destruct (decide (xref h k = -1)) as [Habs|Hset].
      * rewrite value_of_absent by assumption. simpl. intros [= <-].
        split; [destruct Hf; constructor; assumption|]. auto.
      * rewrite value_of_present by assumption. simpl. intros [= <-].
        split; [destruct Hf; constructor; assumption|]. auto.
    + rewrite value_of_out_of_buffer; [discriminate|].
      rewrite (fwf_crossref h Hf). lia.
  - (* min_val *)
    intros ->%min_val_state. auto.
  - (* reset *)
    destruct (reset_indexed_spec h Hf)
      as (h1 & Hrun & Hf' & _ & HL & _ & _ & _ & Hinf & _).
    rewrite Hrun. simpl. intros [= <-]. split; [assumption|].
    split; [contradiction|].
    intros w _ _. apply all_inf_lower_bound.
    + pose proof (wf_levels _ (fwf_base h1 Hf')). lia.
    + rewrite HL. exact Hinf.
Qed.

Lemma indexed_run_fwf (cs : list indexed_call)
    (h h' : FastUpdateBinaryHeap.t) :
  fwf h -> indexed_run cs h = Some h' -> fwf h'.
Proof.
  revert h. induction cs as [|c cs IH]; intros h Hf; simpl.
  - now intros [= <-].
  - destruct (indexed_do c h) as [h1|] eqn:Hdo; [|discriminate]. simpl.
    apply IH. eapply indexed_do_fwf; eauto.
Qed.

Lemma indexed_run_I4 (cs : list indexed_call)
    (h h' : FastUpdateBinaryHeap.t) :
  fwf h -> I4 h -> Forall not_reset cs -> indexed_run cs h = Some h' -> I4 h'.
Proof.
  revert h. induction cs as [|c cs IH]; intros h Hf HI Hnr; simpl.
  - now intros [= <-].
  - destruct (indexed_do c h) as [h1|] eqn:Hdo; [|discriminate]. simpl.
    inversion Hnr as [|? ? Hc Hcs]; subst.
    destruct (indexed_do_fwf c h h1 Hf Hdo) as (Hf1 & HI1 & _).
    apply IH; auto.
Qed.

Lemma indexed_run_lower_bound (w : VALUE_T) (cs : list indexed_call)
    (h h' : FastUpdateBinaryHeap.t) :
  fwf h -> Forall (indexed_pushes_ge w) cs -> indexed_run cs h = Some h' ->
  lower_bound w (FastUpdateBinaryHeap.base h) ->
  lower_bound w (FastUpdateBinaryHeap.base h').
Proof.
  revert h. induction cs as [|c cs IH]; intros h Hf Hge; simpl.
  - now intros [= <-].
  - destruct (indexed_do c h) as [h1|] eqn:Hdo; [|discriminate]. simpl.
    inversion Hge as [|? ? Hc Hcs]; subst.
    destruct (indexed_do_fwf c h h1 Hf Hdo) as (Hf1 & _ & Hlb).
    intros Hrun Hw. eapply IH; eauto.
Qed.

Lemma indexed_reachable_fwf (h : FastUpdateBinaryHeap.t) :
  indexed_reachable h -> fwf h.
Proof.
  intros (garbage & cap & mr & cs & h0 & Hcap & Hnew & Hrun).
  destruct (new_indexed_spec garbage cap mr Hcap) as (h0' & Hnew' & Hf & _).
  rewrite Hnew in Hnew'. injection Hnew' as <-.
  eapply indexed_run_fwf; eauto.
Qed.

(** ** The sample heaps are reachable *)

Lemma base_after_reachable (cs : list base_call) (b : BinaryHeap.t) :
  base_run cs base4 = Some b -> base_reachable b.
Proof.
  intros Hrun. exists (fun _ => 0), 4, cs, base4.
  split; [lia|]. split; [reflexivity|exact Hrun].
Defined.

Lemma indexed_after_reachable (cs : list indexed_call)
    (h : FastUpdateBinaryHeap.t) :
  indexed_run cs indexed2 = Some h -> indexed_reachable h.
Proof.
  intros Hrun. exists (fun _ => 0), 2, (Some 2), cs, indexed2.
  split; [lia|]. split; [reflexivity|exact Hrun].
Defined.

(** ** Heaps without a level 1 *)

(** Such a heap is given by its count, the two value cells, the reference
    cell and [_popped_ref]. *)
Lemma wf0_shape (b : BinaryHeap.t) :
  wf0 b ->
  exists c v0 v1 r0 p,
    b = BinaryHeap.Build c 0 0 [v0; v1] [r0] p /\ (c = 0 \/ c = 1).
Proof.
  destruct b as [c L m vs rs p]. intros [[HL Hm] Hc Hv Hr]. simpl in *.
  subst L m.
  destruct vs as [|v0 [|v1 [|? ?]]]; try discriminate Hv.
  destruct rs as [|r0 [|? ?]]; try discriminate Hr.
  exists c, v0, v1, r0, p. split; [reflexivity|lia].
Qed.

(** [push_fast] on the empty heap writes the root. *)
Lemma push_fast_level0_vacant (value : VALUE_T) (reference : REFERENCE_T)
    (v0 v1 : VALUE_T) (r0 p : REFERENCE_T) :
  BinaryHeap.push_fast value reference
    (BinaryHeap.Build 0 0 0 [v0; v1] [r0] p)
  = Some (0, BinaryHeap.Build 1 0 0 [value; v1] [reference] p).
Proof. reflexivity. Qed.

(** [push_fast] on the heap whose root is taken adds level 1: the root
    value moves to the first leaf, the pushed one goes to the second, and
    no parent slot is maintained yet. *)
Lemma push_fast_level0_full (value : VALUE_T) (reference : REFERENCE_T)
    (v0 v1 : VALUE_T) (r0 p : REFERENCE_T) :
  BinaryHeap.push_fast value reference
    (BinaryHeap.Build 1 0 0 [v0; v1] [r0] p)
  = Some (1, BinaryHeap.Build 2 1 0 [inf; v0; value; inf] [r0; reference] p).
Proof. reflexivity. Qed.

Lemma fwf0_shape (h : FastUpdateBinaryHeap.t) :
  fwf0 h ->
  exists c v0 v1 r0 p M xs iv pu,
    h = FastUpdateBinaryHeap.Build
          (BinaryHeap.Build c 0 0 [v0; v1] [r0] p) M xs iv pu
    /\ (c = 0 \/ c = 1)
    /\ length xs = Z.to_nat (M + 1)
    /\ (c = 1 -> 0 <= r0 <= M)
    /\ (forall k, 0 <= k <= M -> rget xs k <> -1 ->
          c = 1 /\ rget xs k = 0 /\ r0 = k).
Proof.
  destruct h as [b M xs iv pu]. intros [Hb Hx Hr Hs]. simpl in *.
  destruct (wf0_shape b Hb) as (c & v0 & v1 & r0 & p & -> & Hc).
  exists c, v0, v1, r0, p, M, xs, iv, pu. simpl in *.
  split; [reflexivity|]. split; [exact Hc|]. split; [exact Hx|]. split.
  - intros ->. apply (Hr 0). lia.
  - intros k Hk Hset. destruct (Hs k Hk Hset) as [Hp Hk'].
    unfold xref in *. simpl in *.
    assert (E : rget xs k = 0) by lia. rewrite E in Hk'.
    split; [lia|]. split; [exact E|exact Hk'].
Qed.

Lemma fwf0_intro (c : Z) (v0 v1 : VALUE_T) (r0 p M : Z)
    (xs : list REFERENCE_T) (iv pu : Z) :
  (c = 0 \/ c = 1) ->
  length xs = Z.to_nat (M + 1) ->
  (c = 1 -> 0 <= r0 <= M) ->
  (forall k, 0 <= k <= M -> rget xs k <> -1 ->
     c = 1 /\ rget xs k = 0 /\ r0 = k) ->
  fwf0 (FastUpdateBinaryHeap.Build
          (BinaryHeap.Build c 0 0 [v0; v1] [r0] p) M xs iv pu).
Proof.
  intros Hc Hx Hr Hs. constructor; simpl.
  - constructor; simpl; auto; lia.
  - exact Hx.
  - intros r Hr0. assert (r = 0) as -> by lia. apply Hr. lia.
  - intros k Hk Hset. unfold xref in *. simpl in *.
    destruct (Hs k Hk Hset) as (-> & E & ->). rewrite E.
    split; [lia|reflexivity].
Qed.

(** The invariant of the heaps that the constructor and the methods
    produce: with or without a level 1. *)
Lemma crossref_read_created (h : FastUpdateBinaryHeap.t) (k : Z) :
  fwf h \/ fwf0 h -> 0 <= k <= FastUpdateBinaryHeap.max_reference h ->
  rd (FastUpdateBinaryHeap._crossref h) k = Some (xref h k).
Proof.
  intros [Hf|Hf] Hk; apply rd_sel;
    [rewrite (fwf_crossref h Hf)|rewrite (fwf0_crossref h Hf)]; lia.
Qed.

Lemma created_I1 (h : FastUpdateBinaryHeap.t) :
  fwf h \/ fwf0 h -> I1 (FastUpdateBinaryHeap.base h).
Proof.
  intros [Hf|Hf].
  - exact (wf_tree _ (fwf_base h Hf)).
  - intros p Hp. destruct (wf0_levels _ (fwf0_base h Hf)) as [HL _].
    rewrite HL in Hp. simpl in Hp. lia.
Qed.

Lemma created_sound (h : FastUpdateBinaryHeap.t) (k : Z) :
  fwf h \/ fwf0 h -> 0 <= k <= FastUpdateBinaryHeap.max_reference h ->
  xref h k <> -1 ->
  0 <= xref h k < BinaryHeap.count (FastUpdateBinaryHeap.base h)
  /\ ref_at (FastUpdateBinaryHeap.base h) (xref h k) = k.
Proof.
  intros [Hf|Hf]; [apply (fwf_sound h Hf)|apply (fwf0_sound h Hf)].
Qed.

Lemma value_of_absent_created (k : REFERENCE_T) (h : FastUpdateBinaryHeap.t) :
  fwf h \/ fwf0 h -> 0 <= k <= FastUpdateBinaryHeap.max_reference h ->
  xref h k = -1 ->
  FastUpdateBinaryHeap.value_of k h =
  Raise (ValueError "invalid reference")
        (FastUpdateBinaryHeap.set_invalid_ref 1 h).
Proof.
  intros Hf Hk Habs. unfold FastUpdateBinaryHeap.value_of,
    FastUpdateBinaryHeap.value_of_fast.
  rewrite crossref_read_created by assumption. simpl. rewrite Habs.
  reflexivity.
Qed.

Lemma value_of_present_created (k : REFERENCE_T)
    (h : FastUpdateBinaryHeap.t) :
  fwf h \/ fwf0 h -> 0 <= k <= FastUpdateBinaryHeap.max_reference h ->
  xref h k <> -1 ->
  FastUpdateBinaryHeap.value_of k h =
  Return (to_float (leaf (FastUpdateBinaryHeap.base h) (xref h k)))
         (FastUpdateBinaryHeap.set_invalid_ref 0 h).
Proof.
  intros [Hf|Hf] Hk Hset; [now apply value_of_present|].
  destruct (fwf0_shape h Hf)
    as (c & v0 & v1 & r0 & p & M & xs & iv & pu & -> & Hc & Hx & Hr & Hs).
  simpl in Hk. unfold xref in *. simpl in Hset.
  destruct (Hs k Hk Hset) as (-> & E & ->).
  unfold FastUpdateBinaryHeap.value_of, FastUpdateBinaryHeap.value_of_fast.
  simpl. rewrite (rd_sel 0) by lia. simpl. rewrite E. reflexivity.
Qed.

Lemma leaf_read_created (h : FastUpdateBinaryHeap.t) (k : Z) :
  fwf h \/ fwf0 h -> 0 <= k <= FastUpdateBinaryHeap.max_reference h ->
  xref h k <> -1 ->
  rd (BinaryHeap._values (FastUpdateBinaryHeap.base h))
     (shl1 (BinaryHeap.levels (FastUpdateBinaryHeap.base h)) - 1 + xref h k)
  = Some (leaf (FastUpdateBinaryHeap.base h) (xref h k)).
Proof.
  intros [Hf|Hf] Hk Hset.
  - destruct (fwf_sound h Hf k Hk Hset) as [Hir _].
    pose proof (fwf_base h Hf) as [Hlv Hc Hv Hr Ht Hvac].
    pose proof (pow2_pos (BinaryHeap.levels (FastUpdateBinaryHeap.base h))
                  ltac:(lia)) as Hpos.
    rewrite shl1_pow by lia. apply rd_sel. lia.
  - destruct (fwf0_shape h Hf)
      as (c & v0 & v1 & r0 & p & M & xs & iv & pu & -> & Hc & Hx & Hr & Hs).
    simpl in Hk. unfold xref in *. simpl in Hset.
    destruct (Hs k Hk Hset) as (-> & E & ->). simpl. rewrite E. reflexivity.
Qed.

Lemma fast_overwrite_created (value : VALUE_T) (k : REFERENCE_T)
    (h : FastUpdateBinaryHeap.t) :
  fwf h \/ fwf0 h -> 0 <= k <= FastUpdateBinaryHeap.max_reference h ->
  xref h k <> -1 ->
  let b := FastUpdateBinaryHeap.base h in
  let i := shl1 (BinaryHeap.levels b) - 1 + xref h k in
  exists values1 values',
    let h' := FastUpdateBinaryHeap.set_base
                (BinaryHeap.set_values values' b) h in
    wr (BinaryHeap._values b) i value = Some values1
    /\ FastUpdateBinaryHeap.inherited (BinaryHeap._update_one i)
         (FastUpdateBinaryHeap.set_base (BinaryHeap.set_values values1 b) h)
       = Some h'
    /\ (fwf h' \/ fwf0 h')
    /\ (forall r, 0 <= r ->
          leaf (BinaryHeap.set_values values' b) r =
          if decide (r = xref h k) then value else leaf b r)
    /\ (forall q, q <> i -> ~ anc q ((i - 1) / 2) ->
          vget values' q = vget (BinaryHeap._values b) q).
Proof.
  intros [Hf|Hf] Hk Hset b i.
  - destruct (fast_overwrite value k h Hf Hk Hset)
      as (values1 & values' & Hw & Hrun & Hf' & _ & Hleaf & Hrest).
    exists values1, values'. cbv zeta. auto 10.
  - subst b i. destruct (fwf0_shape h Hf)
      as (c & v0 & v1 & r0 & p & M & xs & iv & pu & -> & Hc & Hx & Hr & Hs).
    simpl in Hk. unfold xref in *. simpl in Hset.
    destruct (Hs k Hk Hset) as (-> & E & ->). simpl. rewrite E.
    exists [value; v1], [value; v1]. cbv zeta.
    split; [reflexivity|]. split; [reflexivity|]. split; [|split].
    + right. apply fwf0_intro; auto.
    + intros r Hr0. unfold leaf. simpl. change (2 ^ 0 - 1 + r) with r.
      rewrite (sel_wr inf [v0; v1] 0 value [value; v1] r eq_refl).
      reflexivity.
    + intros q Hq _. change (shl1 0 - 1 + 0) with 0 in Hq.
      now apply (sel_wr_ne inf [v0; v1] 0 value [value; v1] q eq_refl).
Qed.

Lemma fast_append_created (value : VALUE_T) (k : REFERENCE_T)
    (h : FastUpdateBinaryHeap.t) :
  fwf h \/ fwf0 h -> 0 <= k <= FastUpdateBinaryHeap.max_reference h ->
  xref h k = -1 ->
  let b := FastUpdateBinaryHeap.base h in
  exists b' crossref',
    let h' := FastUpdateBinaryHeap.set_crossref crossref'
                (FastUpdateBinaryHeap.set_base b' h) in
    BinaryHeap.push_fast value k b = Some (BinaryHeap.count b, b')
    /\ wr (FastUpdateBinaryHeap._crossref h) k (BinaryHeap.count b)
       = Some crossref'
    /\ (fwf h' \/ fwf0 h')
    /\ BinaryHeap.count b' = BinaryHeap.count b + 1
    /\ xref h' k = BinaryHeap.count b
    /\ (forall r, 0 <= r < 2 ^ BinaryHeap.levels b' ->
          leaf b' r =
          if decide (r = BinaryHeap.count b) then value
          else if decide (r < BinaryHeap.count b) then leaf b r else inf)
    /\ (forall r, 0 <= r < BinaryHeap.count b -> ref_at b' r = ref_at b r)
    /\ ref_at b' (BinaryHeap.count b) = k.
Proof.
  intros [Hf|Hf] Hk Habs b.
  - destruct (fast_append value k h Hf Hk Habs)
      as (b' & x' & Hrun & Hw & Hf' & _ & Hc' & Hx & Hleaf).
    destruct (push_fast_spec value k b (fwf_base h Hf))
      as (b'' & Hrun' & _ & _ & _ & _ & _ & Href & Hnew).
    fold b in Hrun. rewrite Hrun in Hrun'. injection Hrun' as <-.
    exists b', x'. cbv zeta. auto 12.
  - subst b. destruct (fwf0_shape h Hf)
      as (c & v0 & v1 & r0 & p & M & xs & iv & pu & -> & Hc & Hx & Hr & Hs).
    simpl in Hk. unfold xref in *. simpl in Habs. simpl.
    destruct (wr xs k c) as [xs'|] eqn:Hw;
      [|rewrite wr_Some in Hw by lia; discriminate].
    pose proof (wr_length _ _ _ _ Hw) as Hl.
    assert (Hsel : forall j, rget xs' j = if decide (j = k) then c else rget xs j)
      by (intros j; apply (sel_wr 0 _ _ _ _ _ Hw)).
    destruct Hc as [-> | ->].
    + exists (BinaryHeap.Build 1 0 0 [value; v1] [k] p), xs'. cbv zeta.
      split; [reflexivity|]. split; [reflexivity|]. split; [|split; [reflexivity|]].
      * right. apply fwf0_intro;
          [right; reflexivity|simpl; congruence|intros _; exact Hk|].
        intros k' Hk'. rewrite Hsel.
        destruct (decide (k' = k)) as [->|Hne]; [auto|].
        intros Hset. destruct (Hs k' Hk' Hset) as (? & _). lia.
      * simpl. split; [rewrite Hsel; now rewrite decide_True|].
        split; [|split; [intros r Hr0; lia|reflexivity]].
        intros r Hr0. change (2 ^ 0) with 1 in Hr0.
        assert (r = 0) as -> by lia. reflexivity.
    + exists (BinaryHeap.Build 2 1 0 [inf; v0; value; inf] [r0; k] p), xs'.
      cbv zeta.
      split; [reflexivity|]. split; [reflexivity|]. split; [|split; [reflexivity|]].
      * left. constructor; simpl.
        -- constructor; simpl; try lia; try reflexivity.
        -- congruence.
        -- intros r Hr0. destruct (decide (r = 0)) as [->|Hne].
           ++ apply Hr. reflexivity.
           ++ assert (r = 1) as -> by lia. exact Hk.
        -- intros k' Hk'. unfold xref. simpl. rewrite Hsel.
           destruct (decide (k' = k)) as [->|Hne].
           ++ intros _. split; [lia|reflexivity].
           ++ intros Hset. destruct (Hs k' Hk' Hset) as (_ & E & ->).
              rewrite E. split; [lia|reflexivity].
      * simpl. split; [rewrite Hsel; now rewrite decide_True|].
        split; [|split; [|reflexivity]].
        -- intros r Hr0. change (2 ^ 1) with 2 in Hr0.
           destruct (decide (r = 0)) as [->|Hne]; [reflexivity|].
           assert (r = 1) as -> by lia. reflexivity.
        -- intros r Hr0. assert (r = 0) as -> by lia. reflexivity.
Qed.

Lemma created_set_pushed (f : Z) (h : FastUpdateBinaryHeap.t) :
  fwf h \/ fwf0 h ->
  fwf (FastUpdateBinaryHeap.set_pushed f h)
  \/ fwf0 (FastUpdateBinaryHeap.set_pushed f h).
Proof.
  intros [Hf|Hf]; [left|right]; destruct Hf; constructor; assumption.
Qed.

Lemma created_set_invalid_ref (f : Z) (h : FastUpdateBinaryHeap.t) :
  fwf h \/ fwf0 h ->
  fwf (FastUpdateBinaryHeap.set_invalid_ref f h)
  \/ fwf0 (FastUpdateBinaryHeap.set_invalid_ref f h).
Proof.
  intros [Hf|Hf]; [left|right]; destruct Hf; constructor; assumption.
Qed.

Lemma created_count (h : FastUpdateBinaryHeap.t) :
  fwf h \/ fwf0 h -> 0 <= BinaryHeap.count (FastUpdateBinaryHeap.base h).
Proof.
  intros [Hf|Hf].
  - pose proof (wf_count _ (fwf_base h Hf)). lia.
  - pose proof (wf0_count _ (fwf0_base h Hf)). lia.
Qed.

Lemma created_levels (h : FastUpdateBinaryHeap.t) :
  fwf h \/ fwf0 h -> 0 <= BinaryHeap.levels (FastUpdateBinaryHeap.base h).
Proof.
  intros [Hf|Hf].
  - pose proof (wf_levels _ (fwf_base h Hf)). lia.
  - destruct (wf0_levels _ (fwf0_base h Hf)) as [HL _]. lia.
Qed.

Lemma push_present_created (value : VALUE_T) (k : REFERENCE_T)
    (h : FastUpdateBinaryHeap.t) :
  fwf h \/ fwf0 h -> 0 <= k <= FastUpdateBinaryHeap.max_reference h ->
  xref h k <> -1 ->
  let b := FastUpdateBinaryHeap.base h in
  let i := shl1 (BinaryHeap.levels b) - 1 + xref h k in
  exists values',
    let h' := FastUpdateBinaryHeap.set_base
                (BinaryHeap.set_values values' b) h in
    FastUpdateBinaryHeap.push value k h = Return tt h'
    /\ (fwf h' \/ fwf0 h')
    /\ (forall r, 0 <= r ->
          leaf (BinaryHeap.set_values values' b) r =
          if decide (r = xref h k) then value else leaf b r)
    /\ (forall q, q <> i -> ~ anc q ((i - 1) / 2) ->
          vget values' q = vget (BinaryHeap._values b) q).
Proof.
  intros Hf Hk Hset b i.
  destruct (fast_overwrite_created value k h Hf Hk Hset)
    as (values1 & values' & Hw & Hrun & Hrest).
  exists values'. cbv zeta. split; [|exact Hrest].
  unfold FastUpdateBinaryHeap.push, FastUpdateBinaryHeap.push_fast.
  rewrite bool_decide_eq_true_2 by assumption. simpl.
  rewrite crossref_read_created by assumption. simpl.
  rewrite decide_True by assumption.
  rewrite Hw. simpl. rewrite Hrun. simpl.
  now rewrite decide_False by assumption.
Qed.

Lemma push_absent_created (value : VALUE_T) (k : REFERENCE_T)
    (h : FastUpdateBinaryHeap.t) :
  fwf h \/ fwf0 h -> 0 <= k <= FastUpdateBinaryHeap.max_reference h ->
  xref h k = -1 ->
  let b := FastUpdateBinaryHeap.base h in
  exists b' crossref',
    let h' := FastUpdateBinaryHeap.set_crossref crossref'
                (FastUpdateBinaryHeap.set_base b' h) in
    FastUpdateBinaryHeap.push value k h = Return tt h'
    /\ BinaryHeap.push_fast value k b = Some (BinaryHeap.count b, b')
    /\ (fwf h' \/ fwf0 h')
    /\ BinaryHeap.count b' = BinaryHeap.count b + 1
    /\ xref h' k = BinaryHeap.count b
    /\ (forall r, 0 <= r < 2 ^ BinaryHeap.levels b' ->
          leaf b' r =
          if decide (r = BinaryHeap.count b) then value
          else if decide (r < BinaryHeap.count b) then leaf b r else inf)
    /\ (forall r, 0 <= r < BinaryHeap.count b -> ref_at b' r = ref_at b r)
    /\ ref_at b' (BinaryHeap.count b) = k.
Proof.
  intros Hf Hk Habs b.
  destruct (fast_append_created value k h Hf Hk Habs)
    as (b' & x' & Hrun & Hw & Hrest).
  exists b', x'. cbv zeta. split; [|split; [exact Hrun|exact Hrest]].
  unfold FastUpdateBinaryHeap.push, FastUpdateBinaryHeap.push_fast.
  rewrite bool_decide_eq_true_2 by assumption. simpl.
  rewrite crossref_read_created by assumption. simpl.
  rewrite decide_False by (rewrite Habs; lia).
  rewrite Hrun. simpl. rewrite Hw. simpl.
  pose proof (created_count h Hf).
  now rewrite decide_False by lia.
Qed.

Lemma push_if_lower_present_lower_created (value : VALUE_T)
    (k : REFERENCE_T) (h : FastUpdateBinaryHeap.t) :
  fwf h \/ fwf0 h -> 0 <= k <= FastUpdateBinaryHeap.max_reference h ->
  xref h k <> -1 ->
  value_lt value (leaf (FastUpdateBinaryHeap.base h) (xref h k)) = true ->
  let b := FastUpdateBinaryHeap.base h in
  let i := shl1 (BinaryHeap.levels b) - 1 + xref h k in
  exists values',
    let h' := FastUpdateBinaryHeap.set_base
                (BinaryHeap.set_values values' b)
                (FastUpdateBinaryHeap.set_pushed 1 h) in
    FastUpdateBinaryHeap.push_if_lower value k h = Return true h'
    /\ (fwf h' \/ fwf0 h')
    /\ (forall r, 0 <= r ->
          leaf (BinaryHeap.set_values values' b) r =
          if decide (r = xref h k) then value else leaf b r)
    /\ (forall q, q <> i -> ~ anc q ((i - 1) / 2) ->
          vget values' q = vget (BinaryHeap._values b) q).
Proof.
  intros Hf Hk Hset Hlt b i.
  pose proof (created_set_pushed 1 h Hf) as Hf1.
  destruct (fast_overwrite_created value k _ Hf1 Hk Hset)
    as (values1 & values' & Hw & Hrun & Hf' & Hrest).
  change (xref (FastUpdateBinaryHeap.set_pushed 1 h) k) with (xref h k) in *.
  simpl in Hw, Hrun, Hf', Hrest.
  exists values'. cbv zeta. split; [|split; [exact Hf'|exact Hrest]].
  unfold FastUpdateBinaryHeap.push_if_lower,
    FastUpdateBinaryHeap.push_if_lower_fast.
  rewrite bool_decide_eq_true_2 by assumption. simpl.
  rewrite crossref_read_created by assumption. simpl.
  rewrite decide_True by assumption.
  rewrite leaf_read_created by assumption. simpl.
  rewrite Hlt. rewrite Hw. simpl. rewrite Hrun. simpl.
  now rewrite decide_False by assumption.
Qed.

Lemma push_if_lower_present_not_lower_created (value : VALUE_T)
    (k : REFERENCE_T) (h : FastUpdateBinaryHeap.t) :
  fwf h \/ fwf0 h -> 0 <= k <= FastUpdateBinaryHeap.max_reference h ->
  xref h k <> -1 ->
  value_lt value (leaf (FastUpdateBinaryHeap.base h) (xref h k)) = false ->
  FastUpdateBinaryHeap.push_if_lower value k h =
  Return false (FastUpdateBinaryHeap.set_pushed 0 h).
Proof.
  intros Hf Hk Hset Hlt.
  unfold FastUpdateBinaryHeap.push_if_lower,
    FastUpdateBinaryHeap.push_if_lower_fast.
  rewrite bool_decide_eq_true_2 by assumption. simpl.
  rewrite crossref_read_created by assumption. simpl.
  rewrite decide_True by assumption.
  rewrite leaf_read_created by assumption. simpl.
  rewrite Hlt. simpl.
  now rewrite decide_False by assumption.
Qed.

Lemma push_if_lower_absent_created (value : VALUE_T) (k : REFERENCE_T)
    (h : FastUpdateBinaryHeap.t) :
  fwf h \/ fwf0 h -> 0 <= k <= FastUpdateBinaryHeap.max_reference h ->
  xref h k = -1 ->
  let b := FastUpdateBinaryHeap.base h in
  exists b' crossref',
    let h' := FastUpdateBinaryHeap.set_crossref crossref'
                (FastUpdateBinaryHeap.set_base b'
                   (FastUpdateBinaryHeap.set_pushed 1 h)) in
    FastUpdateBinaryHeap.push_if_lower value k h = Return true h'
    /\ BinaryHeap.push_fast value k b = Some (BinaryHeap.count b, b')
    /\ (fwf h' \/ fwf0 h')
    /\ BinaryHeap.count b' = BinaryHeap.count b + 1
    /\ xref h' k = BinaryHeap.count b
    /\ (forall r, 0 <= r < 2 ^ BinaryHeap.levels b' ->
          leaf b' r =
          if decide (r = BinaryHeap.count b) then value
          else if decide (r < BinaryHeap.count b) then leaf b r else inf)
    /\ (forall r, 0 <= r < BinaryHeap.count b -> ref_at b' r = ref_at b r)
    /\ ref_at b' (BinaryHeap.count b) = k.
Proof.
  intros Hf Hk Habs b.
  pose proof (created_set_pushed 1 h Hf) as Hf1.
  destruct (fast_append_created value k _ Hf1 Hk Habs)
    as (b' & x' & Hrun & Hw & Hf' & Hrest).
  change (xref (FastUpdateBinaryHeap.set_pushed 1 h) k) with (xref h k) in *.
  simpl in Hrun, Hw, Hf', Hrest.
  exists b', x'. cbv zeta.
  split; [|split; [exact Hrun|split; [exact Hf'|exact Hrest]]].
  unfold FastUpdateBinaryHeap.push_if_lower,
    FastUpdateBinaryHeap.push_if_lower_fast.
  rewrite bool_decide_eq_true_2 by assumption. simpl.
  rewrite crossref_read_created by assumption. simpl.
  rewrite decide_False by (rewrite Habs; lia).
  subst b. rewrite Hrun. simpl. rewrite Hw. simpl.
  pose proof (created_count h Hf).
  now rewrite decide_False by lia.
Qed.

Lemma init_levels_low (cap : Z) :
  cap < 2 -> BinaryHeap.init_levels (Z.to_nat cap) 0 cap = 0.
Proof.
  intros Hcap. destruct (Z.to_nat cap) as [|fuel] eqn:E; [reflexivity|].
  simpl. change (2 ^ 0) with 1. destruct (Z.ltb_spec 1 cap); [lia|reflexivity].
Qed.

Lemma reset_indexed_level0 (h : FastUpdateBinaryHeap.t) :
  wf0 (FastUpdateBinaryHeap.base h) ->
  length (FastUpdateBinaryHeap._crossref h) =
  Z.to_nat (FastUpdateBinaryHeap.max_reference h + 1) ->
  (forall r, 0 <= r < BinaryHeap.count (FastUpdateBinaryHeap.base h) ->
     0 <= ref_at (FastUpdateBinaryHeap.base h) r
       <= FastUpdateBinaryHeap.max_reference h) ->
  exists h', FastUpdateBinaryHeap.reset h = Return tt h' /\ fwf0 h'.
Proof.
  intros [[HL Hm] Hc Hv Hr] Hlen Hrefs.
  destruct (reset_base_spec (FastUpdateBinaryHeap.base h))
    as (values' & Hrun & Hlen' & Hinf);
    [rewrite HL; lia|rewrite HL, Hv; reflexivity|].
  destruct (fill_loop 0 (-1) (FastUpdateBinaryHeap.max_reference h + 1)
              (FastUpdateBinaryHeap._crossref h))
    as (x' & Hrunx & Hlenx & Hselx); [lia|].
  eexists. split.
  { unfold FastUpdateBinaryHeap.reset.
    rewrite Hrun. simpl. rewrite Hrunx. reflexivity. }
  constructor; simpl.
  - constructor; simpl; auto. congruence.
  - congruence.
  - exact Hrefs.
  - intros k Hk Hset. exfalso. apply Hset. unfold xref. simpl.
    rewrite Hselx. now rewrite decide_True by lia.
Qed.

Lemma new_indexed_low (garbage : nat -> REFERENCE_T) (cap : Z)
    (max_reference : option Z) :
  cap < 2 ->
  exists h, FastUpdateBinaryHeap.new garbage cap max_reference = Return tt h
            /\ fwf0 h
            /\ BinaryHeap.count (FastUpdateBinaryHeap.base h) = 0.
Proof.
  intros Hcap.
  unfold FastUpdateBinaryHeap.new, FastUpdateBinaryHeap.__init__,
    BinaryHeap.__init__. cbv zeta.
  rewrite (init_levels_low cap Hcap).
  set (M := match max_reference with Some m => m | None => cap - 1 end).
  simpl. fold M.
  match goal with
  | |- context [FastUpdateBinaryHeap.reset ?h0] => set (h1 := h0)
  end.
  destruct (reset_indexed_level0 h1) as (h' & Hrun & Hf').
  { constructor; simpl; auto; lia. }
  { simpl. unfold malloc. now rewrite List.length_map, List.length_seq. }
  { simpl. intros r Hr. lia. }
  exists h'. split; [exact Hrun|]. split; [exact Hf'|].
  revert Hrun. unfold FastUpdateBinaryHeap.reset.
  destruct (BinaryHeap.reset (FastUpdateBinaryHeap.base h1))
    as [[] b'|e b'|] eqn:Hb; try discriminate.
  destruct (for_range _ _ _ _ _); [|discriminate].
  intros [= <-]. simpl. revert Hb. unfold BinaryHeap.reset.
  destruct (for_range _ _ _ _ _); [|discriminate].
  now intros [= <-].
Qed.

(** Without a level 1, [pop_fast] reads [values[2]], outside the two
    cells of the buffer. *)
Lemma pop_fast_level0 (h : FastUpdateBinaryHeap.t) :
  fwf0 h -> BinaryHeap.pop_fast h = None.
Proof.
  intros Hf. destruct (fwf0_shape h Hf)
    as (c & v0 & v1 & r0 & p & M & xs & iv & pu & -> & _).
  reflexivity.
Qed.

(** Every call keeps the invariant of the heaps that the constructor
    produces. *)
Lemma indexed_do_created (c : indexed_call) (h h' : FastUpdateBinaryHeap.t) :
  fwf h \/ fwf0 h -> indexed_do c h = Some h' -> fwf h' \/ fwf0 h'.
Proof.
  intros Hf.
  destruct Hf as [Hf|Hf0];
    [intros Hdo; left; exact (proj1 (indexed_do_fwf c h h' Hf Hdo))|].
  pose proof (or_intror Hf0 : fwf h \/ fwf0 h) as Hf.
  destruct c as [value k|value k| |k| |]; simpl.
  - destruct (decide (0 <= k <= FastUpdateBinaryHeap.max_reference h))
      as [Hk|Hout].
    + destruct (decide (xref h k = -1)) as [Habs|Hset].
      * destruct (push_absent_created value k h Hf Hk Habs)
          as (b' & x' & Hrun & _ & Hf' & _).
        rewrite Hrun. simpl. now intros [= <-].
      * destruct (push_present_created value k h Hf Hk Hset)
          as (values' & Hrun & Hf' & _).
        rewrite Hrun. simpl. now intros [= <-].
    + rewrite push_out_of_range by assumption. simpl. now intros [= <-].
  - destruct (decide (0 <= k <= FastUpdateBinaryHeap.max_reference h))
      as [Hk|Hout].
    + destruct (decide (xref h k = -1)) as [Habs|Hset].
      * destruct (push_if_lower_absent_created value k h Hf Hk Habs)
          as (b' & x' & Hrun & _ & Hf' & _).
        rewrite Hrun. simpl. now intros [= <-].
      * destruct (value_lt value (leaf (FastUpdateBinaryHeap.base h) (xref h k)))
          eqn:Hlt.
        -- destruct (push_if_lower_present_lower_created value k h Hf Hk Hset Hlt)
             as (values' & Hrun & Hf' & _).
           rewrite Hrun. simpl. now intros [= <-].
        -- rewrite push_if_lower_present_not_lower_created by assumption.
           simpl. intros [= <-]. now apply created_set_pushed.
    + rewrite push_if_lower_out_of_range by assumption. simpl.
      now intros [= <-].
  - unfold BinaryHeap.pop. simpl.
    destruct (decide (BinaryHeap.count (FastUpdateBinaryHeap.base h) = 0)); simpl.
    + now intros [= <-].
    + rewrite pop_fast_level0 by assumption. discriminate.
  - destruct (decide (0 <= k <= FastUpdateBinaryHeap.max_reference h))
      as [Hk|Hout].
    + destruct (decide (xref h k = -1)) as [Habs|Hset].
      * rewrite value_of_absent_created by assumption. simpl. intros [= <-].
        now apply created_set_invalid_ref.
      * rewrite value_of_present_created by assumption. simpl. intros [= <-].
        now apply created_set_invalid_ref.
    + rewrite value_of_out_of_buffer; [discriminate|].
      rewrite (fwf0_crossref h Hf0). lia.
  - now intros ->%min_val_state.
  - destruct (reset_indexed_level0 h (fwf0_base h Hf0) (fwf0_crossref h Hf0)
                (fwf0_refs h Hf0)) as (h1 & Hrun & Hf').
    rewrite Hrun. simpl. intros [= <-]. now right.
Qed.

Lemma indexed_run_created (cs : list indexed_call)
    (h h' : FastUpdateBinaryHeap.t) :
  fwf h \/ fwf0 h -> indexed_run cs h = Some h' -> fwf h' \/ fwf0 h'.
Proof.
  revert h. induction cs as [|c cs IH]; intros h Hf; simpl.
  - now intros [= <-].
  - destruct (indexed_do c h) as [h1|] eqn:Hdo; [|discriminate]. simpl.
    apply IH. eapply indexed_do_created; eauto.
Qed.

Lemma new_indexed_created (garbage : nat -> REFERENCE_T) (cap : Z)
    (max_reference : option Z) :
  exists h, FastUpdateBinaryHeap.new garbage cap max_reference = Return tt h
            /\ (fwf h \/ fwf0 h).
Proof.
  destruct (decide (2 <= cap)) as [Hcap|Hcap].
  - destruct (new_indexed_spec garbage cap max_reference Hcap)
      as (h & Hnew & Hf & _). eauto.
  - destruct (new_indexed_low garbage cap max_reference) as (h & Hnew & Hf & _);
      [lia|eauto].
Qed.

Lemma indexed_created_inv (h : FastUpdateBinaryHeap.t) :
  indexed_created h -> fwf h \/ fwf0 h.
Proof.
  intros (garbage & cap & mr & cs & h0 & Hnew & Hrun).
  destruct (new_indexed_created garbage cap mr) as (h0' & Hnew' & Hf).
  rewrite Hnew in Hnew'. injection Hnew' as <-.
  eapply indexed_run_created; eauto.
Qed.

Lemma indexed_reachable_created (h : FastUpdateBinaryHeap.t) :
  indexed_reachable h -> indexed_created h.
Proof.
  intros (garbage & cap & mr & cs & h0 & _ & Hnew & Hrun).
  now exists garbage, cap, mr, cs, h0.
Defined.

Lemma indexed1_after_created (cs : list indexed_call)
    (h : FastUpdateBinaryHeap.t) :
  indexed_run cs indexed1 = Some h -> indexed_created h.
Proof.
  intros Hrun. exists (fun _ => 0), 1, (Some 2), cs, indexed1.
  split; [reflexivity|exact Hrun].
Defined.

(** ** Lower bounds of the values that [pop] returns *)

Lemma lower_bound_float (w : VALUE_T) (b : BinaryHeap.t) :
  lower_bound w b -> float_lower_bound (to_float w) b.
Proof. intros Hlb r Hr. apply to_float_mono. now apply Hlb. Qed.

Lemma float_lower_bound_above (w m : VALUE_T) (b : BinaryHeap.t) :
  lower_bound m b -> value_le w (to_float m) -> float_lower_bound w b.
Proof.
  intros Hm Hw r Hr. eapply value_le_trans; [exact Hw|].
  apply to_float_mono. now apply Hm.
Qed.

(** Every call keeps a lower bound of the single precision values of the
    leaves unless it pushes a smaller value. *)
Lemma base_do_float_lower_bound (w : VALUE_T) (c : base_call)
    (b b' : BinaryHeap.t) :
  wf b -> base_do c b = Some b' -> base_pushes_ge w c -> to_float w = w ->
  float_lower_bound w b -> float_lower_bound w b'.
Proof.
  intros Hwf Hdo Hc Hw Hlb.
  destruct (pop_fast_search_spec b Hwf) as (ir & _ & Hir & Hmin & _).
  destruct (base_do_wf c b b' Hwf Hdo) as [_ Hkeep].
  set (m := match c with
            | BPush v _ => value_min (leaf b ir) v
            | _ => leaf b ir
            end).
  apply (float_lower_bound_above w m).
  - apply Hkeep.
    + subst m. destruct c; simpl; auto. apply value_min_r.
    + intros r Hr. eapply value_le_trans; [|apply Hmin; exact Hr].
      subst m. destruct c; try apply value_le_refl. apply value_min_l.
  - subst m. destruct c as [v ?| | |]; try (apply Hlb; exact Hir).
    unfold value_min. destruct (value_lt _ _); [apply Hlb; exact Hir|].
    rewrite <- Hw. apply to_float_mono. exact Hc.
Qed.

Lemma base_run_float_lower_bound (w : VALUE_T) (cs : list base_call)
    (b b' : BinaryHeap.t) :
  wf b -> Forall (base_pushes_ge w) cs -> to_float w = w ->
  base_run cs b = Some b' ->
  float_lower_bound w b -> float_lower_bound w b'.
Proof.
  revert b. induction cs as [|c cs IH]; intros b Hwf Hge Hw; simpl.
  - now intros [= <-].
  - inversion Hge as [|? ? Hc Hcs]; subst.
    destruct (base_do c b) as [b1|] eqn:Hdo; [|discriminate]. simpl.
    intros Hrun Hlb.
    destruct (base_do_wf c b b1 Hwf Hdo) as [Hwf1 _].
    apply (IH b1); auto.
    now apply (base_do_float_lower_bound w c b b1).
Qed.

Lemma indexed_do_float_lower_bound (w : VALUE_T) (c : indexed_call)
    (h h' : FastUpdateBinaryHeap.t) :
  fwf h -> indexed_do c h = Some h' -> indexed_pushes_ge w c ->
  to_float w = w ->
  float_lower_bound w (FastUpdateBinaryHeap.base h) ->
  float_lower_bound w (FastUpdateBinaryHeap.base h').
Proof.
  intros Hf Hdo Hc Hw Hlb.
  pose proof (fwf_base h Hf) as Hwf.
  destruct (pop_fast_search_spec _ Hwf) as (ir & _ & Hir & Hmin & _).
  destruct (indexed_do_fwf c h h' Hf Hdo) as (_ & _ & Hkeep).
  set (b := FastUpdateBinaryHeap.base h) in *.
  set (m := match c with
            | IPush v _ => value_min (leaf b ir) v
            | IPushIfLower v _ => value_min (leaf b ir) v
            | _ => leaf b ir
            end).
  apply (float_lower_bound_above w m).
  - apply Hkeep.
    + subst m. destruct c; simpl; auto; apply value_min_r.
    + intros r Hr. eapply value_le_trans; [|apply Hmin; exact Hr].
      subst m. destruct c; try apply value_le_refl; apply value_min_l.
  - subst m.
    destruct c as [v ?|v ?| | | |]; try (apply Hlb; exact Hir);
      unfold value_min; (destruct (value_lt _ _); [apply Hlb; exact Hir|]);
      rewrite <- Hw; apply to_float_mono; exact Hc.
Qed.

Lemma indexed_run_float_lower_bound (w : VALUE_T) (cs : list indexed_call)
    (h h' : FastUpdateBinaryHeap.t) :
  fwf h -> Forall (indexed_pushes_ge w) cs -> to_float w = w ->
  indexed_run cs h = Some h' ->
  float_lower_bound w (FastUpdateBinaryHeap.base h) ->
  float_lower_bound w (FastUpdateBinaryHeap.base h').
Proof.
  revert h. induction cs as [|c cs IH]; intros h Hf Hge Hw; simpl.
  - now intros [= <-].
  - inversion Hge as [|? ? Hc Hcs]; subst.
    destruct (indexed_do c h) as [h1|] eqn:Hdo; [|discriminate]. simpl.
    intros Hrun Hlb.
    destruct (indexed_do_fwf c h h1 Hf Hdo) as (Hf1 & _).
    apply (IH h1); auto.
    now apply (indexed_do_float_lower_bound w c h h1).
Qed.

(** * The claims *)

(** C1, as stated, fails: on [BinaryHeap(4)] and on
    [FastUpdateBinaryHeap(2, 2)] the calls push 5, pop, push 3, pop return
    5 and then 3. *)
Lemma heap_order_counterexample :
  base_pops [BPush (Num 5) 0; BPop; BPush (Num 3) 1; BPop] base4
    = [Num 5; Num 3]
  /\ indexed_pops [IPush (Num 5) 0; IPop; IPush (Num 3) 1; IPop] indexed2
    = [Num 5; Num 3]
  /\ ~ StronglySorted value_le [Num 5; Num 3].
Proof.
  split; [reflexivity|]. split; [reflexivity|].
  intros Hs. inversion Hs as [|? ? _ Hall]; subst.
  inversion Hall as [|? ? Hle _]; subst. discriminate Hle.
Qed.

(** Two pops on a base heap, with calls in between that push nothing
    below the value of the first. *)
Lemma pop_order_base (b b1 b2 b3 : BinaryHeap.t) (v1 v2 : VALUE_T)
    (r1 r2 : REFERENCE_T) (cs : list base_call) :
  wf b ->
  BinaryHeap.pop b = Return (v1, r1) b1 ->
  Forall (base_pushes_ge v1) cs ->
  base_run cs b1 = Some b2 ->
  BinaryHeap.pop b2 = Return (v2, r2) b3 ->
  value_le v1 v2.
Proof.
  intros Hwf Hpop1 Hge Hrun Hpop2.
  apply pop_base_inv in Hpop1 as (_ & Hfast1 & _).
  apply pop_base_inv in Hpop2 as (_ & Hfast2 & _).
  destruct (pop_fast_base b Hwf)
    as (ir & b1' & E1 & _ & Hmin & _ & Hwf1 & _ & _ & _ & Hkeep).
  rewrite Hfast1 in E1. injection E1 as -> <-.
  pose proof (base_run_wf cs b1 b2 Hwf1 Hrun) as Hwf2.
  pose proof (base_run_float_lower_bound _ cs b1 b2 Hwf1 Hge
                (to_float_idem _) Hrun
                (lower_bound_float _ _ (Hkeep _ Hmin))) as Hlb2.
  destruct (pop_fast_base b2 Hwf2) as (ir2 & b3' & E2 & Hir2 & _).
  rewrite Hfast2 in E2. injection E2 as -> <-.
  apply Hlb2. exact Hir2.
Qed.

Lemma pop_order_indexed (h h1 h2 h3 : FastUpdateBinaryHeap.t)
    (v1 v2 : VALUE_T) (r1 r2 : REFERENCE_T) (cs : list indexed_call) :
  fwf h ->
  BinaryHeap.pop h = Return (v1, r1) h1 ->
  Forall (indexed_pushes_ge v1) cs ->
  indexed_run cs h1 = Some h2 ->
  BinaryHeap.pop h2 = Return (v2, r2) h3 ->
  value_le v1 v2.
Proof.
  intros Hf Hpop1 Hge Hrun Hpop2.
  apply pop_indexed_inv in Hpop1 as (_ & Hfast1 & _).
  apply pop_indexed_inv in Hpop2 as (_ & Hfast2 & _).
  destruct (pop_fast_indexed h Hf)
    as (ir & h1' & E1 & _ & Hmin & _ & Hf1 & _ & _ & _ & _ & _ & Hkeep).
  rewrite Hfast1 in E1. injection E1 as -> <-.
  pose proof (indexed_run_fwf cs h1 h2 Hf1 Hrun) as Hf2.
  pose proof (indexed_run_float_lower_bound _ cs h1 h2 Hf1 Hge
                (to_float_idem _) Hrun
                (lower_bound_float _ _ (Hkeep _ Hmin))) as Hlb2.
  destruct (pop_fast_indexed h2 Hf2) as (ir2 & h3' & E2 & Hir2 & _).
  rewrite Hfast2 in E2. injection E2 as -> <-.
  apply Hlb2. exact Hir2.
Qed.

(** The values popped during a run stay above a lower bound of the
    single precision values of the leaves that no push of the run
    undercuts. *)
Lemma base_pops_ge (w : VALUE_T) (cs : list base_call) (b : BinaryHeap.t) :
  wf b -> Forall (base_pushes_ge w) cs -> to_float w = w ->
  float_lower_bound w b ->
  Forall (value_le w) (base_pops cs b).
Proof.
  revert b. induction cs as [|c cs IH]; intros b Hwf Hge Hw Hlb; simpl.
  - constructor.
  - inversion Hge as [|? ? Hc Hcs]; subst. apply Forall_app. split.
    + destruct c; try constructor.
      unfold BinaryHeap.pop. simpl.
      destruct (decide (BinaryHeap.count b = 0)); [constructor|].
      destruct (pop_fast_base b Hwf) as (ir & b' & Hrun & Hir & _).
      rewrite Hrun. simpl. constructor; [|constructor]. now apply Hlb.
    + destruct (base_do c b) as [b'|] eqn:Hdo; [|constructor].
      destruct (base_do_wf c b b' Hwf Hdo) as [Hwf' _].
      apply IH; auto.
      now apply (base_do_float_lower_bound w c b b').
Qed.

Lemma indexed_pops_ge (w : VALUE_T) (cs : list indexed_call)
    (h : FastUpdateBinaryHeap.t) :
  fwf h -> Forall (indexed_pushes_ge w) cs -> to_float w = w ->
  float_lower_bound w (FastUpdateBinaryHeap.base h) ->
  Forall (value_le w) (indexed_pops cs h).
Proof.
  revert h. induction cs as [|c cs IH]; intros h Hf Hge Hw Hlb; simpl.
  - constructor.
  - inversion Hge as [|? ? Hc Hcs]; subst. apply Forall_app. split.
    + destruct c; try constructor.
      unfold BinaryHeap.pop. simpl.
      destruct (decide (BinaryHeap.count (FastUpdateBinaryHeap.base h) = 0));
        [constructor|].
      destruct (pop_fast_indexed h Hf) as (ir & h' & Hrun & Hir & _).
      rewrite Hrun. simpl. constructor; [|constructor]. now apply Hlb.
    + destruct (indexed_do c h) as [h'|] eqn:Hdo; [|constructor].
      destruct (indexed_do_fwf c h h' Hf Hdo) as (Hf' & _).
      apply IH; auto.
      now apply (indexed_do_float_lower_bound w c h h').
Qed.

(** Pops that follow one another return a sorted sequence. *)
Lemma base_pops_sorted (n : nat) (b : BinaryHeap.t) :
  wf b -> StronglySorted value_le (base_pops (repeat BPop n) b).
Proof.
  revert b. induction n as [|n IH]; intros b Hwf; simpl.
  - constructor.
  - unfold BinaryHeap.pop. simpl.
    destruct (decide (BinaryHeap.count b = 0)); simpl; [now apply IH|].
    destruct (pop_fast_base b Hwf)
      as (ir & b' & Hrun & _ & Hmin & _ & Hwf' & _ & _ & _ & Hkeep).
    rewrite Hrun. simpl. constructor; [now apply IH|].
    apply base_pops_ge; auto.
    + apply List.Forall_forall. intros c Hc%repeat_spec. now subst c.
    + apply to_float_idem.
    + apply lower_bound_float. now apply Hkeep.
Qed.

Lemma indexed_pops_sorted (n : nat) (h : FastUpdateBinaryHeap.t) :
  fwf h -> StronglySorted value_le (indexed_pops (repeat IPop n) h).
Proof.
  revert h. induction n as [|n IH]; intros h Hf; simpl.
  - constructor.
  - unfold BinaryHeap.pop. simpl.
    destruct (decide (BinaryHeap.count (FastUpdateBinaryHeap.base h) = 0));
      simpl; [now apply IH|].
    destruct (pop_fast_indexed h Hf)
      as (ir & h' & Hrun & _ & Hmin & _ & Hf' & _ & _ & _ & _ & _ & Hkeep).
    rewrite Hrun. simpl. constructor; [now apply IH|].
    apply indexed_pops_ge; auto.
    + apply List.Forall_forall. intros c Hc%repeat_spec. now subst c.
    + apply to_float_idem.
    + apply lower_bound_float. now apply Hkeep.
Qed.

(** C1, amended: on a heap (base or indexed) that was created with an
    initial capacity of at least two, a successful [pop] returns a value
    that is greater than or equal to the value returned by an earlier
    successful [pop] on the same heap, provided every value pushed
    between the two is greater than or equal to that earlier value; in
    particular the values returned by successive pops with no push
    between them form a non-decreasing sequence. *)
Theorem pop_order :
  (forall b v1 r1 b1 cs b2 v2 r2 b3,
      base_reachable b ->
      BinaryHeap.pop b = Return (v1, r1) b1 ->
      Forall (base_pushes_ge v1) cs ->
      base_run cs b1 = Some b2 ->
      BinaryHeap.pop b2 = Return (v2, r2) b3 ->
      value_le v1 v2)
  /\ (forall h v1 r1 h1 cs h2 v2 r2 h3,
      indexed_reachable h ->
      BinaryHeap.pop h = Return (v1, r1) h1 ->
      Forall (indexed_pushes_ge v1) cs ->
      indexed_run cs h1 = Some h2 ->
      BinaryHeap.pop h2 = Return (v2, r2) h3 ->
      value_le v1 v2)
  /\ (forall b n,
      base_reachable b ->
      StronglySorted value_le (base_pops (repeat BPop n) b))
  /\ (forall h n,
      indexed_reachable h ->
      StronglySorted value_le (indexed_pops (repeat IPop n) h)).
Proof.
  split; [|split; [|split]].
  - intros b v1 r1 b1 cs b2 v2 r2 b3 Hreach%base_reachable_wf.
    now apply pop_order_base.
  - intros h v1 r1 h1 cs h2 v2 r2 h3 Hreach%indexed_reachable_fwf.
    now apply pop_order_indexed.
  - intros b n Hreach%base_reachable_wf. now apply base_pops_sorted.
  - intros h n Hreach%indexed_reachable_fwf. now apply indexed_pops_sorted.
Qed.

(** The theorem at work: on [BinaryHeap(4)] after push(5, 0), push(3, 1)
    the pops return 3 and, after push(4, 2) and push(7, 3), 4; on
    [FastUpdateBinaryHeap(2, 2)] they return 3 and, after
    push_if_lower(3, 0), 3 again. *)
Lemma pop_order_witness :
  (base_reachable (base_after [BPush (Num 5) 0; BPush (Num 3) 1])
   /\ BinaryHeap.pop (base_after [BPush (Num 5) 0; BPush (Num 3) 1])
      = Return (Num 3, 1) (base_after [BPush (Num 5) 0; BPush (Num 3) 1; BPop])
   /\ Forall (base_pushes_ge (Num 3)) [BPush (Num 4) 2; BPush (Num 7) 3]
   /\ base_run [BPush (Num 4) 2; BPush (Num 7) 3]
        (base_after [BPush (Num 5) 0; BPush (Num 3) 1; BPop])
      = Some (base_after [BPush (Num 5) 0; BPush (Num 3) 1; BPop;
                          BPush (Num 4) 2; BPush (Num 7) 3])
   /\ BinaryHeap.pop
        (base_after [BPush (Num 5) 0; BPush (Num 3) 1; BPop;
                     BPush (Num 4) 2; BPush (Num 7) 3])
      = Return (Num 4, 2)
          (base_after [BPush (Num 5) 0; BPush (Num 3) 1; BPop;
                       BPush (Num 4) 2; BPush (Num 7) 3; BPop])
   /\ value_le (Num 3) (Num 4))
  /\ (indexed_reachable (indexed_after [IPush (Num 5) 0; IPush (Num 3) 1])
      /\ BinaryHeap.pop (indexed_after [IPush (Num 5) 0; IPush (Num 3) 1])
         = Return (Num 3, 1)
             (indexed_after [IPush (Num 5) 0; IPush (Num 3) 1; IPop])
      /\ Forall (indexed_pushes_ge (Num 3)) [IPushIfLower (Num 3) 0]
      /\ indexed_run [IPushIfLower (Num 3) 0]
           (indexed_after [IPush (Num 5) 0; IPush (Num 3) 1; IPop])
         = Some (indexed_after [IPush (Num 5) 0; IPush (Num 3) 1; IPop;
                                IPushIfLower (Num 3) 0])
      /\ BinaryHeap.pop
           (indexed_after [IPush (Num 5) 0; IPush (Num 3) 1; IPop;
                           IPushIfLower (Num 3) 0])
         = Return (Num 3, 0)
             (indexed_after [IPush (Num 5) 0; IPush (Num 3) 1; IPop;
                             IPushIfLower (Num 3) 0; IPop])
      /\ value_le (Num 3) (Num 3))
  /\ StronglySorted value_le
       (base_pops (repeat BPop 3)
          (base_after [BPush (Num 5) 0; BPush (Num 3) 1])).
Proof.
  assert (H1 : base_reachable (base_after [BPush (Num 5) 0; BPush (Num 3) 1])).
  { apply (base_after_reachable [BPush (Num 5) 0; BPush (Num 3) 1]).
    vm_compute. reflexivity. }
  assert (H2 : indexed_reachable
                 (indexed_after [IPush (Num 5) 0; IPush (Num 3) 1])).
  { apply (indexed_after_reachable [IPush (Num 5) 0; IPush (Num 3) 1]).
    vm_compute. reflexivity. }
  split; [|split].
  - split; [exact H1|]. split; [vm_compute; reflexivity|].
    split; [repeat constructor|]. split; [vm_compute; reflexivity|].
    split; [vm_compute; reflexivity|].
    eapply (proj1 pop_order _ _ _ _ [BPush (Num 4) 2; BPush (Num 7) 3]).
    + exact H1.
    + vm_compute. reflexivity.
    + repeat constructor.
    + vm_compute. reflexivity.
    + vm_compute. reflexivity.
  - split; [exact H2|]. split; [vm_compute; reflexivity|].
    split; [repeat constructor|]. split; [vm_compute; reflexivity|].
    split; [vm_compute; reflexivity|].
    eapply (proj1 (proj2 pop_order) _ _ _ _ [IPushIfLower (Num 3) 0]).
    + exact H2.
    + vm_compute. reflexivity.
    + repeat constructor.
    + vm_compute. reflexivity.
    + vm_compute. reflexivity.
  - apply (proj1 (proj2 (proj2 pop_order))). exact H1.
Defined.

(** C2: on every indexed heap, whatever its initial capacity, for an
    in-range id that is present [push_if_lower] overwrites the stored
    value and repairs the path to the root exactly when the value is
    strictly less than the stored one, and returns whether it changed the
    heap: [True] with the leaf overwritten, the tree in order (I1), the
    slots off the path, the count, the levels, the references and the
    cross references as before; [False] with nothing changed. For an
    in-range id that is absent it inserts the pair and returns [True].
    After an overwrite or an insertion [value_of] returns the value in
    single precision. *)
Theorem push_if_lower_spec (h : FastUpdateBinaryHeap.t) (value : VALUE_T)
    (k : REFERENCE_T) :
  indexed_created h ->
  0 <= k <= FastUpdateBinaryHeap.max_reference h ->
  let b := FastUpdateBinaryHeap.base h in
  let i := 2 ^ BinaryHeap.levels b - 1 + xref h k in
  (xref h k <> -1 ->
     (value_lt value (leaf b (xref h k)) = true ->
        exists h',
          FastUpdateBinaryHeap.push_if_lower value k h = Return true h'
          /\ I1 (FastUpdateBinaryHeap.base h')
          /\ BinaryHeap.count (FastUpdateBinaryHeap.base h')
             = BinaryHeap.count b
          /\ BinaryHeap.levels (FastUpdateBinaryHeap.base h')
             = BinaryHeap.levels b
          /\ FastUpdateBinaryHeap._crossref h'
             = FastUpdateBinaryHeap._crossref h
          /\ BinaryHeap._references (FastUpdateBinaryHeap.base h')
             = BinaryHeap._references b
          /\ (forall r, 0 <= r ->
                leaf (FastUpdateBinaryHeap.base h') r =
                if decide (r = xref h k) then value else leaf b r)
          /\ (forall q, q <> i -> ~ anc q ((i - 1) / 2) ->
                vget (BinaryHeap._values (FastUpdateBinaryHeap.base h')) q
                = vget (BinaryHeap._values b) q)
          /\ FastUpdateBinaryHeap.value_of k h'
             = Return (to_float value)
                      (FastUpdateBinaryHeap.set_invalid_ref 0 h'))
     /\ (value_lt value (leaf b (xref h k)) = false ->
           FastUpdateBinaryHeap.push_if_lower value k h
           = Return false (FastUpdateBinaryHeap.set_pushed 0 h)))
  /\ (xref h k = -1 ->
        exists h',
          FastUpdateBinaryHeap.push_if_lower value k h = Return true h'
          /\ I1 (FastUpdateBinaryHeap.base h')
          /\ BinaryHeap.count (FastUpdateBinaryHeap.base h')
             = BinaryHeap.count b + 1
          /\ xref h' k = BinaryHeap.count b
          /\ ref_at (FastUpdateBinaryHeap.base h') (BinaryHeap.count b) = k
          /\ leaf (FastUpdateBinaryHeap.base h') (BinaryHeap.count b) = value
          /\ (forall r, 0 <= r < BinaryHeap.count b ->
                leaf (FastUpdateBinaryHeap.base h') r = leaf b r
                /\ ref_at (FastUpdateBinaryHeap.base h') r = ref_at b r)
          /\ FastUpdateBinaryHeap.value_of k h'
             = Return (to_float value)
                      (FastUpdateBinaryHeap.set_invalid_ref 0 h')).
Proof.
  intros Hreach Hk b i. apply indexed_created_inv in Hreach as Hf.
  split; [intros Hset; split; [intros Hlt|intros Hlt]|intros Habs].
  - destruct (push_if_lower_present_lower_created value k h Hf Hk Hset Hlt)
      as (values' & Hrun & Hf' & Hleaf & Hoff).
    rewrite shl1_pow in Hoff by exact (created_levels h Hf).
    eexists. split; [exact Hrun|]. split; [exact (created_I1 _ Hf')|].
    do 4 (split; [reflexivity|]). split; [exact Hleaf|].
    split; [exact Hoff|].
    rewrite value_of_present_created; [|exact Hf'|exact Hk|exact Hset].
    f_equal. simpl. change (xref _ k) with (xref h k).
    rewrite Hleaf by (pose proof (created_sound h k Hf Hk Hset); lia).
    now rewrite decide_True.
  - now apply push_if_lower_present_not_lower_created.
  - destruct (push_if_lower_absent_created value k h Hf Hk Habs)
      as (b' & x' & Hrun & Hpush & Hf' & Hc' & Hx & Hleaf & Href & Hnew).
    simpl in Hx.
    pose proof (created_count h Hf) as Hc. fold b in Hc, Hc', Hx, Hleaf.
    assert (Hcap : BinaryHeap.count b' <= 2 ^ BinaryHeap.levels b').
    { destruct Hf' as [Hf'|Hf'].
      - pose proof (wf_count _ (fwf_base _ Hf')) as Hcb. simpl in Hcb. lia.
      - pose proof (wf0_count _ (fwf0_base _ Hf')) as Hcb.
        destruct (wf0_levels _ (fwf0_base _ Hf')) as [HL _].
        simpl in Hcb, HL. rewrite HL. simpl. lia. }
    eexists. split; [exact Hrun|]. split; [exact (created_I1 _ Hf')|].
    split; [exact Hc'|]. split; [exact Hx|]. split; [exact Hnew|].
    assert (Hval : leaf b' (BinaryHeap.count b) = value).
    { rewrite Hleaf by lia. now rewrite decide_True. }
    split; [exact Hval|]. split.
    + intros r Hr. simpl. split; [|now apply Href].
      rewrite Hleaf by lia.
      rewrite decide_False by lia. now rewrite decide_True by lia.
    + rewrite value_of_present_created; [|exact Hf'|exact Hk|rewrite Hx; lia].
      f_equal. simpl. rewrite Hx. now rewrite Hval.
Qed.

(** The theorem at work on [FastUpdateBinaryHeap(1, 2)] after
    push(10, 1): push_if_lower(12, 1) changes nothing, push_if_lower(3, 1)
    lowers the value, push_if_lower(7, 0) inserts. *)
Lemma push_if_lower_spec_witness :
  indexed_created (indexed1_after [IPush (Num 10) 1])
  /\ 0 <= 1 <= FastUpdateBinaryHeap.max_reference
                 (indexed1_after [IPush (Num 10) 1])
  /\ 0 <= 0 <= FastUpdateBinaryHeap.max_reference
                 (indexed1_after [IPush (Num 10) 1])
  /\ FastUpdateBinaryHeap.push_if_lower (Num 12) 1
       (indexed1_after [IPush (Num 10) 1])
     = Return false
         (FastUpdateBinaryHeap.set_pushed 0
            (indexed1_after [IPush (Num 10) 1]))
  /\ (exists h',
        FastUpdateBinaryHeap.push_if_lower (Num 3) 1
          (indexed1_after [IPush (Num 10) 1]) = Return true h'
        /\ FastUpdateBinaryHeap.value_of 1 h'
           = Return (to_float (Num 3))
                    (FastUpdateBinaryHeap.set_invalid_ref 0 h'))
  /\ (exists h',
        FastUpdateBinaryHeap.push_if_lower (Num 7) 0
          (indexed1_after [IPush (Num 10) 1]) = Return true h'
        /\ BinaryHeap.count (FastUpdateBinaryHeap.base h')
           = BinaryHeap.count
               (FastUpdateBinaryHeap.base
                  (indexed1_after [IPush (Num 10) 1]))
             + 1).
Proof.
  assert (Hreach : indexed_created (indexed1_after [IPush (Num 10) 1])).
  { apply (indexed1_after_created [IPush (Num 10) 1]).
    vm_compute. reflexivity. }
  assert (Hk1 : 0 <= 1 <= FastUpdateBinaryHeap.max_reference
                             (indexed1_after [IPush (Num 10) 1])).
  { vm_compute. split; discriminate. }
  assert (Hk0 : 0 <= 0 <= FastUpdateBinaryHeap.max_reference
                             (indexed1_after [IPush (Num 10) 1])).
  { vm_compute. split; discriminate. }
  assert (Hset : xref (indexed1_after [IPush (Num 10) 1]) 1 <> -1).
  { vm_compute. discriminate. }
  assert (Habs : xref (indexed1_after [IPush (Num 10) 1]) 0 = -1).
  { vm_compute. reflexivity. }
  split; [exact Hreach|]. split; [exact Hk1|]. split; [exact Hk0|].
  split; [|split].
  - apply (push_if_lower_spec _ (Num 12) 1 Hreach Hk1).
    + exact Hset.
    + vm_compute. reflexivity.
  - destruct (proj1 (proj1 (push_if_lower_spec _ (Num 3) 1 Hreach Hk1) Hset))
      as (h' & Hrun & _ & _ & _ & _ & _ & _ & _ & Hval).
    + vm_compute. reflexivity.
    + exists h'. split; [exact Hrun|exact Hval].
  - destruct (proj2 (push_if_lower_spec _ (Num 7) 0 Hreach Hk0) Habs)
      as (h' & Hrun & _ & Hc & _).
    exists h'. split; [exact Hrun|exact Hc].
Defined.




(** C4: the code does not do what the claim and its own docstring say.
    After push(5, 0), [reset] fills the slots with the sentinel (and the
    cross references with -1) but leaves [count] at 1, and the following
    [pop] returns a pair instead of raising [IndexError]. *)
Theorem reset_keeps_count :
  BinaryHeap.reset (base_after [BPush (Num 5) 0])
    = Return tt (base_after [BPush (Num 5) 0; BReset])
  /\ BinaryHeap.count (base_after [BPush (Num 5) 0; BReset]) = 1
  /\ BinaryHeap.pop (base_after [BPush (Num 5) 0; BReset])
     = Return (inf, 0)
         (BinaryHeap.set_popped_ref 0 (base_after [BPush (Num 5) 0; BReset]))
  /\ FastUpdateBinaryHeap.reset (indexed_after [IPush (Num 5) 0])
     = Return tt (indexed_after [IPush (Num 5) 0; IReset])
  /\ BinaryHeap.count
       (FastUpdateBinaryHeap.base (indexed_after [IPush (Num 5) 0; IReset]))
     = 1.
Proof. repeat split; vm_compute; reflexivity. Qed.

(** What [reset] does on every well-formed heap: all slots hold the
    sentinel afterwards, the level bounds are untouched, and so is
    [count]. *)
Lemma reset_general (b : BinaryHeap.t) :
  base_reachable b ->
  exists b',
    BinaryHeap.reset b = Return tt b'
    /\ BinaryHeap.count b' = BinaryHeap.count b
    /\ BinaryHeap.levels b' = BinaryHeap.levels b
    /\ BinaryHeap.min_levels b' = BinaryHeap.min_levels b
    /\ (forall q, 0 <= q < 2 * 2 ^ BinaryHeap.levels b ->
                  vget (BinaryHeap._values b') q = inf).
Proof.
  intros Hwf%base_reachable_wf.
  destruct (reset_base_wf b Hwf) as (b' & Hrun & _ & Hc & HL & Hm & _ & Hinf).
  exists b'. simpl. rewrite Hrun. simpl. auto.
Qed.

(** A heap created with a capacity below two has no level 1: [pop] reads
    past the end of the values. The statements about reachable heaps are
    for capacities of at least two. *)
Lemma capacity_one_pop_undefined :
  exists b0 b1,
    BinaryHeap.new (fun _ => 0) 1 = Return tt b0
    /\ BinaryHeap.push (Num 5) 0 b0 = Return tt b1
    /\ BinaryHeap.pop b1 = Undefined.
Proof. eexists _, _. repeat split; vm_compute; reflexivity. Qed.

(** So does [min_val]. *)
Lemma capacity_one_min_val_undefined :
  BinaryHeap.min_val base1 = Undefined
  /\ BinaryHeap.min_val indexed1 = Undefined.
Proof. split; vm_compute; reflexivity. Qed.

(** When every leaf holds the sentinel, so does every slot from level 1
    on. *)
Lemma all_leaves_inf (b : BinaryHeap.t) :
  wf b ->
  (forall r, 0 <= r < BinaryHeap.count b -> leaf b r = inf) ->
  forall p, 1 <= p <= 2 * 2 ^ BinaryHeap.levels b - 2 ->
            vget (BinaryHeap._values b) p = inf.
Proof.
  intros [Hlv Hc Hv Hr Ht Hvac] Hocc.
  set (L := BinaryHeap.levels b) in *.
  pose proof (pow2_pos L ltac:(lia)) as Hpos.
  assert (Hleaf : forall r, 0 <= r < 2 ^ L -> leaf b r = inf).
  { intros r Hr'. destruct (decide (r < BinaryHeap.count b)).
    - apply Hocc. lia.
    - apply Hvac. lia. }
  assert (Hind : forall (n : nat) p,
            1 <= p <= 2 * 2 ^ L - 2 -> 2 * 2 ^ L - 2 - p <= Z.of_nat n ->
            vget (BinaryHeap._values b) p = inf).
  { induction n as [|n IH]; intros p Hp Hn.
    - specialize (Hleaf (p - (2 ^ L - 1)) ltac:(lia)). unfold leaf in Hleaf.
      fold L in Hleaf. now replace (2 ^ L - 1 + (p - (2 ^ L - 1))) with p in Hleaf by lia.
    - destruct (decide (2 ^ L - 1 <= p)) as [Hl|Hi].
      + specialize (Hleaf (p - (2 ^ L - 1)) ltac:(lia)). unfold leaf in Hleaf.
        fold L in Hleaf.
        now replace (2 ^ L - 1 + (p - (2 ^ L - 1))) with p in Hleaf by lia.
      + rewrite (Ht p) by lia. rewrite !IH by lia. reflexivity. }
  intros p Hp. apply (Hind (Z.to_nat (2 * 2 ^ L - 2 - p))); lia.
Qed.

Lemma min_val_empty (values : list VALUE_T) :
  vget values 1 = inf -> vget values 2 = inf ->
  3 <= Z.of_nat (length values) ->
  rd values 1 = Some inf /\ rd values 2 = Some inf.
Proof.
  intros H1 H2 Hlen. rewrite !(rd_sel inf) by lia. now rewrite H1, H2.
Qed.

(** C5, as stated, fails: on the empty heap [BinaryHeap(4)], [min_val]
    raises nothing and returns the sentinel. *)
Lemma min_val_empty_counterexample :
  BinaryHeap.count base4 = 0
  /\ BinaryHeap.min_val base4 = Return inf base4
  /\ forall e s, BinaryHeap.min_val base4 <> Raise e s.
Proof.
  split; [reflexivity|]. split; [vm_compute; reflexivity|].
  intros e s. vm_compute. discriminate.
Qed.

(** C5, amended: on every heap with [count == 0], [pop] fails with
    [IndexError] ("pop from an empty heap"), which reaches the caller, and
    the heap is unchanged; [min_val] does not fail: on an empty heap that
    was created with an initial capacity of at least two it returns the
    sentinel +infinity. *)
Theorem empty_heap_pop_and_min_val :
  (forall (S : Type) (C : BinaryHeap.subclass S) (self : S),
      BinaryHeap.count (BinaryHeap.super self) = 0 ->
      BinaryHeap.pop self = Raise (IndexError "pop from an empty heap") self)
  /\ (forall b, base_reachable b -> BinaryHeap.count b = 0 ->
        BinaryHeap.min_val b = Return inf b)
  /\ (forall h, indexed_reachable h ->
        BinaryHeap.count (FastUpdateBinaryHeap.base h) = 0 ->
        BinaryHeap.min_val h = Return inf h).
Proof.
  split; [|split].
  - intros S C self Hc. unfold BinaryHeap.pop. now rewrite decide_True.
  - intros b Hwf%base_reachable_wf Hc.
    pose proof Hwf as [Hlv _ Hv _ _ _].
    pose proof (pow2_pred (BinaryHeap.levels b) ltac:(lia)) as HP.
    pose proof (pow2_pos (BinaryHeap.levels b - 1) ltac:(lia)) as Hpos.
    destruct (min_val_empty (BinaryHeap._values b)) as [E1 E2];
      [apply (all_leaves_inf b Hwf); [intros; lia|lia]..|lia|].
    unfold BinaryHeap.min_val. simpl. rewrite E1, E2. reflexivity.
  - intros h Hf%indexed_reachable_fwf Hc.
    pose proof (fwf_base h Hf) as Hwf.
    pose proof Hwf as [Hlv _ Hv _ _ _].
    set (b := FastUpdateBinaryHeap.base h) in *.
    pose proof (pow2_pred (BinaryHeap.levels b) ltac:(lia)) as HP.
    pose proof (pow2_pos (BinaryHeap.levels b - 1) ltac:(lia)) as Hpos.
    destruct (min_val_empty (BinaryHeap._values b)) as [E1 E2];
      [apply (all_leaves_inf b Hwf); [intros; lia|lia]..|lia|].
    unfold BinaryHeap.min_val. simpl. fold b. rewrite E1, E2. reflexivity.
Qed.

(** The theorem at work on the two fresh heaps. *)
Lemma empty_heap_pop_and_min_val_witness :
  (BinaryHeap.count (BinaryHeap.super base4) = 0
   /\ BinaryHeap.pop base4
      = Raise (IndexError "pop from an empty heap") base4)
  /\ (base_reachable base4 /\ BinaryHeap.count base4 = 0
      /\ BinaryHeap.min_val base4 = Return inf base4)
  /\ (indexed_reachable indexed2
      /\ BinaryHeap.count (FastUpdateBinaryHeap.base indexed2) = 0
      /\ BinaryHeap.min_val indexed2 = Return inf indexed2).
Proof.
  assert (H1 : base_reachable base4).
  { apply (base_after_reachable []). reflexivity. }
  assert (H2 : indexed_reachable indexed2).
  { apply (indexed_after_reachable []). reflexivity. }
  split; [|split].
  - split; [reflexivity|].
    apply (proj1 empty_heap_pop_and_min_val). reflexivity.
  - split; [exact H1|]. split; [reflexivity|].
    apply (proj1 (proj2 empty_heap_pop_and_min_val)); [exact H1|reflexivity].
  - split; [exact H2|]. split; [reflexivity|].
    apply (proj2 (proj2 empty_heap_pop_and_min_val)); [exact H2|reflexivity].
Defined.

(** C6: the code does not do what the claim says for [value_of]. With
    [max_reference = 2], [push] and [push_if_lower] reject the id 5 with
    [ValueError] and leave the heap as it was, but [value_of] reads
    [_crossref[5]] outside the buffer of 3 cells without any range test:
    undefined behaviour instead of an error. *)
Theorem value_of_unchecked :
  FastUpdateBinaryHeap.max_reference (indexed_after [IPush (Num 10) 1]) = 2
  /\ FastUpdateBinaryHeap.push (Num 1) 5 (indexed_after [IPush (Num 10) 1])
     = Raise (ValueError "reference outside of range [0, max_reference]")
             (indexed_after [IPush (Num 10) 1])
  /\ FastUpdateBinaryHeap.push_if_lower (Num 1) 5
       (indexed_after [IPush (Num 10) 1])
     = Raise (ValueError "reference outside of range [0, max_reference]")
             (indexed_after [IPush (Num 10) 1])
  /\ FastUpdateBinaryHeap.value_of 5 (indexed_after [IPush (Num 10) 1])
     = Undefined
  /\ FastUpdateBinaryHeap.value_of (-1) (indexed_after [IPush (Num 10) 1])
     = Undefined.
Proof. repeat split; vm_compute; reflexivity. Qed.

(** The part of C6 that holds, on every state: an id outside
    [0, max_reference] makes [push] and [push_if_lower] raise [ValueError]
    with the heap exactly as it was. *)
Lemma push_rejects_out_of_range (value : VALUE_T) (k : REFERENCE_T)
    (h : FastUpdateBinaryHeap.t) :
  ~ (0 <= k <= FastUpdateBinaryHeap.max_reference h) ->
  FastUpdateBinaryHeap.push value k h
  = Raise (ValueError "reference outside of range [0, max_reference]") h
  /\ FastUpdateBinaryHeap.push_if_lower value k h
     = Raise (ValueError "reference outside of range [0, max_reference]") h.
Proof.
  intros Hout. split.
  - now apply push_out_of_range.
  - now apply push_if_lower_out_of_range.
Qed.

(** [value_of] has no range test: on every reachable state an id outside
    [0, max_reference] is read outside the buffer. *)
Lemma value_of_out_of_range (k : REFERENCE_T) (h : FastUpdateBinaryHeap.t) :
  indexed_reachable h ->
  ~ (0 <= k <= FastUpdateBinaryHeap.max_reference h) ->
  FastUpdateBinaryHeap.value_of k h = Undefined.
Proof.
  intros Hf%indexed_reachable_fwf Hout. apply value_of_out_of_buffer.
  rewrite (fwf_crossref h Hf). lia.
Qed.

(** C7: the code does not do what the claim says for an id that is
    present. [value_of_fast] is declared [cdef float], so the stored
    double is converted to single precision on the way out: after
    push(16777217, 0) on [FastUpdateBinaryHeap(2, 2)] the heap stores
    16777217, which [values] and [min_val] report, and [value_of] of the
    id 0 returns 16777216. *)
Theorem value_of_single_precision :
  FastUpdateBinaryHeap.push (Num 16777217) 0 indexed2
    = Return tt (indexed_after [IPush (Num 16777217) 0])
  /\ xref (indexed_after [IPush (Num 16777217) 0]) 0 = 0
  /\ leaf (FastUpdateBinaryHeap.base
             (indexed_after [IPush (Num 16777217) 0])) 0
     = Num 16777217
  /\ BinaryHeap.values (indexed_after [IPush (Num 16777217) 0])
     = Return [Num 16777217] (indexed_after [IPush (Num 16777217) 0])
  /\ BinaryHeap.min_val (indexed_after [IPush (Num 16777217) 0])
     = Return (Num 16777217) (indexed_after [IPush (Num 16777217) 0])
  /\ FastUpdateBinaryHeap.value_of 0
       (indexed_after [IPush (Num 16777217) 0])
     = Return (Num 16777216)
         (FastUpdateBinaryHeap.set_invalid_ref 0
            (indexed_after [IPush (Num 16777217) 0])).
Proof. repeat split; vm_compute; reflexivity. Qed.

(** C8: the code does not do what the claim says about [value_of] after
    the overwrite. On [FastUpdateBinaryHeap(2, 2)] after push(10, 0), the
    id 0 is present; push(16777217, 0) overwrites its value in place
    ([count] stays 1 and [values] lists 16777217), but [value_of] of the
    id 0, which converts to single precision, returns 16777216 and not
    the new value. *)
Theorem push_then_value_of_single_precision :
  xref (indexed_after [IPush (Num 10) 0]) 0 = 0
  /\ FastUpdateBinaryHeap.push (Num 16777217) 0
       (indexed_after [IPush (Num 10) 0])
     = Return tt (indexed_after [IPush (Num 10) 0; IPush (Num 16777217) 0])
  /\ BinaryHeap.count
       (FastUpdateBinaryHeap.base
          (indexed_after [IPush (Num 10) 0; IPush (Num 16777217) 0]))
     = 1
  /\ BinaryHeap.values
       (indexed_after [IPush (Num 10) 0; IPush (Num 16777217) 0])
     = Return [Num 16777217]
         (indexed_after [IPush (Num 10) 0; IPush (Num 16777217) 0])
  /\ FastUpdateBinaryHeap.value_of 0
       (indexed_after [IPush (Num 10) 0; IPush (Num 16777217) 0])
     = Return (Num 16777216)
         (FastUpdateBinaryHeap.set_invalid_ref 0
            (indexed_after [IPush (Num 10) 0; IPush (Num 16777217) 0])).
Proof. repeat split; vm_compute; reflexivity. Qed.

(** C9: the code breaks the claim in [reset]. After push(5, 0) the
    invariant I4 holds; [reset] sets every cross reference to -1 but
    leaves [count] at 1 and the reference 0 in leaf position 0, so I4
    fails afterwards. *)
Theorem reset_breaks_I4 :
  I4 (indexed_after [IPush (Num 5) 0])
  /\ FastUpdateBinaryHeap.reset (indexed_after [IPush (Num 5) 0])
     = Return tt (indexed_after [IPush (Num 5) 0; IReset])
  /\ BinaryHeap.count
       (FastUpdateBinaryHeap.base (indexed_after [IPush (Num 5) 0; IReset]))
     = 1
  /\ ref_at
       (FastUpdateBinaryHeap.base (indexed_after [IPush (Num 5) 0; IReset])) 0
     = 0
  /\ xref (indexed_after [IPush (Num 5) 0; IReset]) 0 = -1
  /\ ~ I4 (indexed_after [IPush (Num 5) 0; IReset]).
Proof.
  split.
  { destruct (new_indexed_spec (fun _ => 0) 2 (Some 2) ltac:(lia))
      as (h0 & Hnew & Hf & HI & _).
    assert (h0 = indexed2) as ->.
    { vm_compute in Hnew. injection Hnew as <-. reflexivity. }
    apply (indexed_run_I4 [IPush (Num 5) 0] indexed2 _ Hf HI);
      [repeat constructor|vm_compute; reflexivity]. }
  do 4 (split; [vm_compute; reflexivity|]).
  intros [H _].
  assert (Hp : 0 <= 0 < BinaryHeap.count
                 (FastUpdateBinaryHeap.base
                    (indexed_after [IPush (Num 5) 0; IReset]))).
  { vm_compute. split; [discriminate|reflexivity]. }
  specialize (H 0 Hp). vm_compute in H. discriminate H.
Qed.

(** The part of C9 that holds: I4 is established by the constructor and
    kept by [push], [push_if_lower], [pop], [value_of] and [min_val]. *)
Lemma I4_without_reset (garbage : nat -> REFERENCE_T) (cap : Z)
    (max_reference : option Z) (cs : list indexed_call)
    (h0 h : FastUpdateBinaryHeap.t) :
  2 <= cap ->
  FastUpdateBinaryHeap.new garbage cap max_reference = Return tt h0 ->
  Forall not_reset cs ->
  indexed_run cs h0 = Some h ->
  I4 h.
Proof.
  intros Hcap Hnew Hnr Hrun.
  destruct (new_indexed_spec garbage cap max_reference Hcap)
    as (h0' & Hnew' & Hf & HI & _).
  rewrite Hnew in Hnew'. injection Hnew' as <-.
  eapply indexed_run_I4; eauto.
Qed.

(** C10: the code does not do what the claim says on a heap created
    with the capacity 1. [BinaryHeap(1)] has the root as its last level
    and a value buffer of two cells; after push(inf, 0) its [count] is 1
    and its only stored value is the sentinel, and [pop] compares
    [values[1]] with [values[2]], which lies outside the buffer: the
    behaviour is undefined where the claim has [pop] return the sentinel
    with the id. *)
Theorem pop_without_level_one :
  BinaryHeap.new (fun _ => 0) 1 = Return tt base1
  /\ BinaryHeap.levels base1 = 0
  /\ length (BinaryHeap._values base1) = 2%nat
  /\ BinaryHeap.push inf 0 base1 = Return tt (base1_after [BPush inf 0])
  /\ BinaryHeap.count (base1_after [BPush inf 0]) = 1
  /\ BinaryHeap.values (base1_after [BPush inf 0])
     = Return [inf] (base1_after [BPush inf 0])
  /\ BinaryHeap.references (base1_after [BPush inf 0])
     = Return [0] (base1_after [BPush inf 0])
  /\ rd (BinaryHeap._values (base1_after [BPush inf 0])) 2 = None
  /\ BinaryHeap.pop (base1_after [BPush inf 0]) = Undefined.
Proof. repeat split; vm_compute; reflexivity. Qed.

(** * Further properties of the code *)

(** ** Listings *)

Lemma for_from_collect {A : Type} (src : Z -> option A) (f : Z -> A) :
  forall (n : nat) (i : Z) (acc : list A),
    (forall j, i <= j < i + Z.of_nat n -> src j = Some (f j)) ->
    for_from n i 1 (fun j out => v ← src j; Some (out ++ [v])) acc
    = Some (acc ++ (f <$> seqZ i (Z.of_nat n))).
Proof.
  induction n as [|n IH]; intros i acc Hsrc.
  - simpl. now rewrite app_nil_r.
  - cbn [for_from]. rewrite (Hsrc i) by lia. simpl.
    rewrite IH by (intros; apply Hsrc; lia).
    rewrite (seqZ_cons i (Z.of_nat (S n))) by lia.
    rewrite fmap_cons, <- app_assoc. simpl.
    replace (Z.pred (Z.of_nat (S n))) with (Z.of_nat n) by lia.
    replace (Z.succ i) with (i + 1) by lia. reflexivity.
Qed.

Lemma collect_range {A : Type} (src : Z -> option A) (f : Z -> A) (n : Z) :
  (forall j, 0 <= j < n -> src j = Some (f j)) ->
  for_range 0 n 1 (fun j out => v ← src j; Some (out ++ [v])) []
  = Some (f <$> seqZ 0 n).
Proof.
  intros Hsrc. unfold for_range. rewrite range_len_up.
  rewrite (for_from_collect src f) by (intros; apply Hsrc; lia).
  simpl. destruct (Z_le_gt_dec 0 n).
  - now rewrite Z2Nat.id.
  - rewrite (seqZ_nil 0 n) by lia.
    replace (Z.to_nat n) with 0%nat by lia. reflexivity.
Qed.

Lemma values_spec {S : Type} `{BinaryHeap.subclass S} (self : S) :
  wf (BinaryHeap.super self) ->
  BinaryHeap.values self = Return (leaf_list (BinaryHeap.super self)) self.
Proof.
  intros Hwf. destruct Hwf. unfold BinaryHeap.values.
  rewrite (collect_range _ (leaf (BinaryHeap.super self))); [reflexivity|].
  intros j Hj. unfold leaf. apply rd_sel. lia.
Qed.

Lemma references_spec {S : Type} `{BinaryHeap.subclass S} (self : S) :
  wf (BinaryHeap.super self) ->
  BinaryHeap.references self = Return (ref_list (BinaryHeap.super self)) self.
Proof.
  intros Hwf. destruct Hwf. unfold BinaryHeap.references.
  rewrite (collect_range _ (ref_at (BinaryHeap.super self))); [reflexivity|].
  intros j Hj. unfold ref_at. apply rd_sel. lia.
Qed.

Lemma cross_references_spec (h : FastUpdateBinaryHeap.t) :
  fwf h -> FastUpdateBinaryHeap.cross_references h = Return (xref_list h) h.
Proof.
  intros Hf. unfold FastUpdateBinaryHeap.cross_references.
  rewrite (collect_range _ (xref h)); [reflexivity|].
  intros j Hj. apply crossref_read; [assumption|lia].
Qed.

Lemma leaf_list_entries (b : BinaryHeap.t) : leaf_list b = (entries b).*1.
Proof.
  unfold leaf_list, entries. rewrite <- list_fmap_compose. reflexivity.
Qed.

Lemma ref_list_entries (b : BinaryHeap.t) : ref_list b = (entries b).*2.
Proof.
  unfold ref_list, entries. rewrite <- list_fmap_compose. reflexivity.
Qed.

Lemma entries_zip (b : BinaryHeap.t) :
  entries b = zip (leaf_list b) (ref_list b).
Proof.
  unfold entries, leaf_list, ref_list.
  induction (seqZ 0 (BinaryHeap.count b)) as [|x l IH]; [reflexivity|].
  rewrite !fmap_cons. simpl. now rewrite IH.
Qed.

Lemma fmap_seqZ_ext {A : Type} (f g : Z -> A) (m n : Z) :
  (forall j, m <= j < m + n -> f j = g j) ->
  f <$> seqZ m n = g <$> seqZ m n.
Proof.
  intros Hfg. apply list_fmap_ext. intros i x Hx.
  apply lookup_seqZ in Hx. apply Hfg. lia.
Qed.

Lemma seqZ_snoc (n : Z) : 0 <= n -> seqZ 0 (n + 1) = seqZ 0 n ++ [n].
Proof.
  intros Hn. rewrite seqZ_app by lia. f_equal.
Qed.

Lemma entries_lookup (b : BinaryHeap.t) (p : Z) :
  0 <= p < BinaryHeap.count b ->
  entries b !! Z.to_nat p = Some (leaf b p, ref_at b p).
Proof.
  intros Hp. unfold entries. rewrite list_lookup_fmap.
  rewrite lookup_seqZ_lt by lia. simpl. do 3 f_equal; lia.
Qed.

Lemma entries_elem (b : BinaryHeap.t) (x : VALUE_T * REFERENCE_T) :
  x ∈ entries b <->
  exists p, 0 <= p < BinaryHeap.count b /\ x = (leaf b p, ref_at b p).
Proof.
  unfold entries. rewrite list_elem_of_fmap. split.
  - intros (p & -> & Hp). apply elem_of_seqZ in Hp. exists p. split; [lia|easy].
  - intros (p & Hp & ->). exists p. split; [easy|]. apply elem_of_seqZ. lia.
Qed.

Lemma entries_length (b : BinaryHeap.t) :
  0 <= BinaryHeap.count b ->
  Z.of_nat (length (entries b)) = BinaryHeap.count b.
Proof.
  intros. unfold entries. rewrite length_fmap, length_seqZ. lia.
Qed.

(** Appending: what [push_fast] does to the listing. *)
Lemma push_fast_entries (value : VALUE_T) (reference : REFERENCE_T)
    (b b' : BinaryHeap.t) (c : Z) :
  wf b ->
  BinaryHeap.push_fast value reference b = Some (c, b') ->
  entries b' = entries b ++ [(value, reference)].
Proof.
  intros Hwf Hpush.
  destruct (push_fast_spec value reference b Hwf)
    as (b1 & Hp & Hwf1 & Hc & _ & _ & Hleaf & Href & Hlast).
  rewrite Hp in Hpush. injection Hpush as _ <-.
  destruct Hwf as [_ Hcount _ _ _ _]. destruct Hwf1 as [_ Hcount1 _ _ _ _].
  unfold entries. rewrite Hc, seqZ_snoc by lia.
  rewrite fmap_app. simpl. f_equal.
  - apply fmap_seqZ_ext. intros j Hj.
    rewrite Hleaf by lia. rewrite decide_False, decide_True by lia.
    now rewrite Href by lia.
  - rewrite Hleaf by lia. rewrite decide_True by lia. now rewrite Hlast.
Qed.

(** Removing the element at position [i] of a list by moving the last
    element there. *)
Lemma swap_last_perm {A : Type} (l : list A) (i : nat) (x y : A) :
  l !! i = Some x -> last l = Some y ->
  l ≡ₚ x :: take (length l - 1) (<[i := y]> l).
Proof.
  intros Hi Hl. apply last_Some in Hl as [l0 ->].
  rewrite length_app. simpl.
  replace (length l0 + 1 - 1)%nat with (length l0) by lia.
  destruct (decide (i < length l0)%nat) as [Hlt|Hge].
  - rewrite insert_app_l by lia.
    rewrite take_app_length' by (now rewrite length_insert).
    rewrite lookup_app_l in Hi by lia.
    rewrite insert_take_drop by lia.
    rewrite <- (take_drop_middle l0 i x Hi) at 1.
    rewrite <- app_assoc. simpl.
    rewrite <- Permutation_middle. constructor.
    apply Permutation_app_head.
    rewrite <- Permutation_cons_append. reflexivity.
  - assert (i = length l0) as ->.
    { apply lookup_lt_Some in Hi. rewrite length_app in Hi. simpl in Hi. lia. }
    rewrite insert_app_r_alt by lia. rewrite take_app_length.
    rewrite lookup_app_r in Hi by lia.
    replace (length l0 - length l0)%nat with 0%nat in Hi by lia.
    simpl in Hi. injection Hi as ->.
    symmetry. apply Permutation_cons_append.
Qed.

(** Removing: what [_remove] does to the listing. *)
Lemma remove_entries (r1 : Z) (b b' : BinaryHeap.t) :
  wf b -> 0 <= r1 < BinaryHeap.count b ->
  BinaryHeap._remove (2 ^ BinaryHeap.levels b - 1 + r1) b = Some b' ->
  entries b ≡ₚ (leaf b r1, ref_at b r1) :: entries b'.
Proof.
  intros Hwf Hr1 Hrem.
  destruct (remove_spec r1 b Hwf Hr1)
    as (b1 & Hr & Hwf1 & Hc & _ & _ & Hleaf & Href).
  rewrite Hr in Hrem. injection Hrem as <-.
  set (n := BinaryHeap.count b) in *.
  set (e := (leaf b (n - 1), ref_at b (n - 1))).
  assert (Hlen : length (entries b) = Z.to_nat n).
  { unfold entries. now rewrite length_fmap, length_seqZ. }
  assert (Hlen1 : length (entries b1) = Z.to_nat (n - 1)).
  { unfold entries. rewrite length_fmap, length_seqZ. now rewrite Hc. }
  assert (entries b1
          = take (length (entries b) - 1) (<[Z.to_nat r1 := e]> (entries b)))
    as ->.
  { apply (list_eq_same_length _ _ (Z.to_nat (n - 1))).
    - rewrite length_take, length_insert. lia.
    - assumption.
    - intros i x y Hi Hx Hy.
      rewrite lookup_take_lt in Hy by lia.
      rewrite <- (Nat2Z.id i) in Hx.
      rewrite entries_lookup in Hx by lia. injection Hx as <-.
      rewrite Hleaf, Href by (fold n; lia).
      destruct (decide (Z.of_nat i = r1)) as [<-|Hne].
      + rewrite Nat2Z.id in Hy.
        rewrite list_lookup_insert_eq in Hy by lia.
        injection Hy as <-. reflexivity.
      + rewrite list_lookup_insert_ne in Hy by lia.
        rewrite <- (Nat2Z.id i) in Hy.
        rewrite entries_lookup in Hy by (fold n; lia).
        injection Hy as <-. reflexivity. }
  apply swap_last_perm.
  - apply entries_lookup. fold n. lia.
  - rewrite last_lookup, Hlen.
    replace (Init.Nat.pred (Z.to_nat n)) with (Z.to_nat (n - 1)) by lia.
    apply entries_lookup. fold n. lia.
Qed.

(** ** The subclass on the inherited attributes *)

Lemma pop_fast_on_base (h h' : FastUpdateBinaryHeap.t) (v : VALUE_T) :
  BinaryHeap.pop_fast h = Some (v, h') ->
  BinaryHeap.pop_fast (FastUpdateBinaryHeap.base h)
  = Some (v, FastUpdateBinaryHeap.base h').
Proof.
  unfold BinaryHeap.pop_fast.
  cbn [BinaryHeap.super BinaryHeap.set_super BinaryHeap.self_remove
       FastUpdateBinaryHeap.fast_class BinaryHeap.base_class].
  intros Hp.
  destruct (BinaryHeap.pop_fast_search _ _) as [i|]; [|discriminate].
  cbn [mbind option_bind] in *.
  destruct (rd (BinaryHeap._values (FastUpdateBinaryHeap.base h)) i)
    as [vi|]; [|discriminate].
  cbn [fmap option_fmap option_map mbind option_bind] in *.
  destruct (rd (BinaryHeap._references (FastUpdateBinaryHeap.base h)) _)
    as [ref|]; [|discriminate].
  cbn [mbind option_bind] in *.
  destruct (value_ne (to_float vi) inf).
  - rewrite fast_remove_unfold in Hp. cbv zeta in Hp.
    cbn [FastUpdateBinaryHeap.base FastUpdateBinaryHeap.set_base
         FastUpdateBinaryHeap._crossref] in Hp.
    apply bind_Some in Hp as (h1 & Hp & Heq). injection Heq as <- <-.
    apply bind_Some in Hp as (ref2 & _ & Hp).
    apply bind_Some in Hp as (c1 & _ & Hp).
    apply bind_Some in Hp as (ref1 & _ & Hp).
    apply bind_Some in Hp as (c2 & _ & Hp).
    apply bind_Some in Hp as (b' & Hrem & Hp).
    injection Hp as <-. rewrite Hrem. reflexivity.
  - injection Hp as <- <-. reflexivity.
Qed.

Lemma pop_on_base (h : FastUpdateBinaryHeap.t) :
  BinaryHeap.pop h <> Undefined ->
  BinaryHeap.pop (FastUpdateBinaryHeap.base h) = on_base (BinaryHeap.pop h).
Proof.
  unfold BinaryHeap.pop.
  cbn [BinaryHeap.super FastUpdateBinaryHeap.fast_class
       BinaryHeap.base_class].
  destruct (decide (BinaryHeap.count (FastUpdateBinaryHeap.base h) = 0));
    [reflexivity|].
  destruct (BinaryHeap.pop_fast h) as [[v h']|] eqn:Hp; [|congruence].
  intros _. rewrite (pop_fast_on_base h h' v Hp). reflexivity.
Qed.

(** ** The top of the tree *)

(** Every slot from level 1 on holds the value of some leaf. *)
Lemma node_is_leaf (b : BinaryHeap.t) :
  wf b ->
  forall p, 1 <= p <= 2 * 2 ^ BinaryHeap.levels b - 2 ->
    exists r, 0 <= r < 2 ^ BinaryHeap.levels b
              /\ vget (BinaryHeap._values b) p = leaf b r.
Proof.
  intros [Hlv Hc Hv Hr Ht Hvac].
  set (L := BinaryHeap.levels b) in *.
  pose proof (pow2_pos L ltac:(lia)) as Hpos.
  assert (Hind : forall (n : nat) p,
            1 <= p <= 2 * 2 ^ L - 2 -> 2 * 2 ^ L - 2 - p <= Z.of_nat n ->
            exists r, 0 <= r < 2 ^ L
                      /\ vget (BinaryHeap._values b) p = leaf b r).
  { assert (Hbase : forall p, 2 ^ L - 1 <= p <= 2 * 2 ^ L - 2 ->
              exists r, 0 <= r < 2 ^ L
                        /\ vget (BinaryHeap._values b) p = leaf b r).
    { intros p Hp. exists (p - (2 ^ L - 1)). split; [lia|].
      unfold leaf. fold L. f_equal. lia. }
    induction n as [|n IH]; intros p Hp Hn.
    - apply Hbase. lia.
    - destruct (decide (2 ^ L - 1 <= p)) as [Hl|Hi].
      + apply Hbase. lia.
      + rewrite (Ht p) by lia. unfold value_min.
        destruct (value_lt _ _); apply IH; lia. }
  intros p Hp. apply (Hind (Z.to_nat (2 * 2 ^ L - 2 - p))); lia.
Qed.

(** The smaller of the two slots of level 1 is not above any slot. *)
Lemma top_lower_bound (b : BinaryHeap.t) :
  wf b ->
  forall q, 1 <= q <= 2 * 2 ^ BinaryHeap.levels b - 2 ->
    value_le (value_min (vget (BinaryHeap._values b) 1)
                        (vget (BinaryHeap._values b) 2))
             (vget (BinaryHeap._values b) q).
Proof.
  intros [Hlv Hc Hv Hr Ht Hvac].
  set (L := BinaryHeap.levels b) in *.
  set (m := value_min _ _).
  assert (Hind : forall (n : nat) q,
            1 <= q <= 2 * 2 ^ L - 2 -> q <= Z.of_nat n ->
            value_le m (vget (BinaryHeap._values b) q)).
  { induction n as [|n IH]; intros q Hq Hn; [lia|].
    destruct (decide (q = 1)) as [->|H1]; [apply value_min_l|].
    destruct (decide (q = 2)) as [->|H2]; [apply value_min_r|].
    pose proof (parent_lt q ltac:(lia)) as Hpar.
    assert (1 <= (q - 1) / 2) by (apply Z.div_le_lower_bound; lia).
    assert ((q - 1) / 2 < 2 ^ L - 1) by (apply Z.div_lt_upper_bound; lia).
    eapply value_le_trans.
    - apply (IH ((q - 1) / 2)); lia.
    - apply good_le_child. apply Ht. lia. }
  intros q Hq. apply (Hind (Z.to_nat q)); lia.
Qed.

(** [min_val] returns the value of a leaf that is not above any leaf. *)
Lemma min_val_spec {S : Type} `{BinaryHeap.subclass S} (self : S) :
  wf (BinaryHeap.super self) ->
  exists r,
    0 <= r < 2 ^ BinaryHeap.levels (BinaryHeap.super self)
    /\ BinaryHeap.min_val self = Return (leaf (BinaryHeap.super self) r) self
    /\ lower_bound (leaf (BinaryHeap.super self) r) (BinaryHeap.super self).
Proof.
  intros Hwf.
  pose proof (top_lower_bound _ Hwf) as Hlb.
  pose proof (node_is_leaf _ Hwf) as Hnode.
  destruct Hwf as [Hlv Hc Hv Hr Ht Hvac].
  set (b := BinaryHeap.super self) in *.
  set (L := BinaryHeap.levels b) in *.
  assert (2 <= 2 ^ L).
  { pose proof (pow2_pos (L - 1) ltac:(lia)).
    rewrite (pow2_pred L) by lia. lia. }
  set (m := value_min (vget (BinaryHeap._values b) 1)
                      (vget (BinaryHeap._values b) 2)) in *.
  assert (Hm : exists r, 0 <= r < 2 ^ L /\ m = leaf b r).
  { unfold m, value_min. destruct (value_lt _ _); apply Hnode; lia. }
  destruct Hm as (r & Hr' & Hm). exists r. split; [assumption|]. split.
  - unfold BinaryHeap.min_val. cbv zeta. fold b.
    assert (H1 : rd (BinaryHeap._values b) 1
                 = Some (vget (BinaryHeap._values b) 1))
      by (apply rd_sel; lia).
    assert (H2 : rd (BinaryHeap._values b) 2
                 = Some (vget (BinaryHeap._values b) 2))
      by (apply rd_sel; lia).
    rewrite H1, H2.
    rewrite <- Hm. unfold m, value_min. now destruct (value_lt _ _).
  - intros q Hq. fold L in Hq. rewrite <- Hm. unfold leaf. fold L.
    apply Hlb. lia.
Qed.

(** [pop_fast] on a base heap and the listing: the stored value that it
    selects is the one [min_val] returns and is not above any stored
    value; it is returned in single precision, and its entry is removed
    unless that is the sentinel. *)
Lemma pop_fast_entries (b b' : BinaryHeap.t) (v : VALUE_T) :
  wf b ->
  BinaryHeap.pop_fast b = Some (v, b') ->
  exists ir,
    0 <= ir < 2 ^ BinaryHeap.levels b
    /\ v = to_float (leaf b ir)
    /\ BinaryHeap._popped_ref b' = ref_at b ir
    /\ BinaryHeap.min_val b = Return (leaf b ir) b
    /\ Forall (fun e => value_le (leaf b ir) e.1) (entries b)
    /\ (v = inf ->
          b' = BinaryHeap.set_popped_ref (BinaryHeap._popped_ref b') b)
    /\ (v <> inf ->
          ir < BinaryHeap.count b
          /\ entries b ≡ₚ (leaf b ir, BinaryHeap._popped_ref b') :: entries b'
          /\ BinaryHeap.count b' = BinaryHeap.count b - 1).
Proof.
  intros Hwf Hpop.
  destruct (pop_fast_base b Hwf)
    as (ir & b1 & Hp & Hir & Hlb & _ & Hwf1 & Hpr & Hinf & Hfin & _).
  rewrite Hp in Hpop. injection Hpop as <- <-.
  exists ir. split; [exact Hir|]. split; [reflexivity|].
  split; [exact Hpr|]. split; [|split; [|split]].
  - destruct (@min_val_spec _ BinaryHeap.base_class b Hwf)
      as (r & Hr & Hmin & Hlb').
    rewrite Hmin. f_equal. apply value_le_antisym.
    + apply Hlb'. exact Hir.
    + apply Hlb. exact Hr.
  - apply Forall_forall. intros x (p & Hp' & ->)%entries_elem. simpl.
    apply Hlb. destruct Hwf. lia.
  - intros Hv. rewrite Hpr. now apply Hinf.
  - intros Hv. destruct (Hfin Hv) as [Hlt Hrem].
    assert (Hwfp : wf (BinaryHeap.set_popped_ref (ref_at b ir) b)).
    { destruct Hwf. constructor; assumption. }
    rewrite Hpr. split; [exact Hlt|]. split.
    + apply (remove_entries ir _ b1 Hwfp); [simpl; lia|exact Hrem].
    + destruct (remove_spec ir _ Hwfp ltac:(simpl; lia))
        as (b2 & Hr2 & _ & Hc & _).
      change (BinaryHeap.levels (BinaryHeap.set_popped_ref (ref_at b ir) b))
        with (BinaryHeap.levels b) in Hr2.
      rewrite Hr2 in Hrem. injection Hrem as <-. exact Hc.
Qed.

Lemma min_val_on_base (h : FastUpdateBinaryHeap.t) :
  BinaryHeap.min_val (FastUpdateBinaryHeap.base h)
  = on_base (BinaryHeap.min_val h).
Proof.
  unfold BinaryHeap.min_val.
  cbn [BinaryHeap.super FastUpdateBinaryHeap.fast_class
       BinaryHeap.base_class].
  destruct (rd _ 1); [|reflexivity]. destruct (rd _ 2); [|reflexivity].
  now destruct (value_lt _ _).
Qed.

(** ** The number of levels *)

Lemma update_one_shape (i : Z) (b b' : BinaryHeap.t) :
  BinaryHeap._update_one i b = Some b' ->
  exists values', b' = BinaryHeap.set_values values' b.
Proof.
  unfold BinaryHeap._update_one. intros H.
  apply bind_Some in H as ([j values'] & _ & H). injection H as <-. eauto.
Qed.

Lemma update_shape (b b' : BinaryHeap.t) :
  BinaryHeap._update b = Some b' ->
  exists values', b' = BinaryHeap.set_values values' b.
Proof.
  unfold BinaryHeap._update. intros H.
  apply bind_Some in H as (values' & _ & H). injection H as <-. eauto.
Qed.

Lemma add_or_remove_level_shape (d : Z) (b b' : BinaryHeap.t) :
  BinaryHeap._add_or_remove_level d b = Some b' ->
  BinaryHeap.levels b' = BinaryHeap.levels b + d
  /\ BinaryHeap.count b' = BinaryHeap.count b
  /\ BinaryHeap.min_levels b' = BinaryHeap.min_levels b.
Proof.
  unfold BinaryHeap._add_or_remove_level. cbv zeta. intros H.
  apply bind_Some in H as (values1 & _ & H).
  apply bind_Some in H as (references1 & _ & H).
  apply bind_Some in H as ([values2 references2] & _ & H).
  apply update_shape in H as [values' ->]. simpl. auto.
Qed.

Lemma push_fast_shape (value : VALUE_T) (reference : REFERENCE_T)
    (b b' : BinaryHeap.t) (c : Z) :
  BinaryHeap.push_fast value reference b = Some (c, b') ->
  BinaryHeap.levels b' =
    (if decide (BinaryHeap.count b >= shl1 (BinaryHeap.levels b))
     then BinaryHeap.levels b + 1 else BinaryHeap.levels b)
  /\ BinaryHeap.min_levels b' = BinaryHeap.min_levels b.
Proof.
  unfold BinaryHeap.push_fast. cbv zeta. intros H.
  apply bind_Some in H as ([l b1] & Hgrow & H).
  apply bind_Some in H as (values1 & _ & H).
  apply bind_Some in H as (references1 & _ & H).
  apply bind_Some in H as (b2 & Hup & H). injection H as _ <-.
  apply update_one_shape in Hup as [values' ->]. simpl.
  destruct (decide (BinaryHeap.count b >= shl1 (BinaryHeap.levels b))).
  - apply bind_Some in Hgrow as (b3 & Hadd & Hgrow).
    injection Hgrow as _ <-.
    apply add_or_remove_level_shape in Hadd as (-> & _ & ->). auto.
  - injection Hgrow as _ <-. auto.
Qed.

Lemma remove_shape (i1 : Z) (b b' : BinaryHeap.t) :
  BinaryHeap._remove i1 b = Some b' ->
  BinaryHeap.count b' = BinaryHeap.count b - 1
  /\ BinaryHeap.min_levels b' = BinaryHeap.min_levels b
  /\ BinaryHeap.levels b' =
     if (bool_decide (BinaryHeap.levels b > BinaryHeap.min_levels b)
         && bool_decide (BinaryHeap.count b - 1
                         < shl1 (BinaryHeap.levels b - 2)))%bool
     then BinaryHeap.levels b - 1 else BinaryHeap.levels b.
Proof.
  unfold BinaryHeap._remove. cbv zeta. intros H.
  apply bind_Some in H as (v2 & _ & H).
  apply bind_Some in H as (values1 & _ & H).
  apply bind_Some in H as (ref2 & _ & H).
  apply bind_Some in H as (references1 & _ & H).
  apply bind_Some in H as (values2 & _ & H).
  cbn [BinaryHeap.min_levels BinaryHeap.set_count BinaryHeap.set_references
       BinaryHeap.set_values] in H.
  destruct (_ && _)%bool.
  - apply add_or_remove_level_shape in H as (-> & -> & ->). simpl. auto.
  - apply bind_Some in H as (b1 & Hu1 & Hu2).
    apply update_one_shape in Hu1 as [values3 ->].
    apply update_one_shape in Hu2 as [values4 ->]. simpl. auto.
Qed.

Lemma push_fast_I3 (value : VALUE_T) (reference : REFERENCE_T)
    (b b' : BinaryHeap.t) (c : Z) :
  wf b -> I3 b ->
  BinaryHeap.push_fast value reference b = Some (c, b') ->
  I3 b' /\ BinaryHeap.min_levels b' = BinaryHeap.min_levels b.
Proof.
  intros Hwf HI Hpush.
  destruct (push_fast_shape _ _ _ _ _ Hpush) as [HL Hmin].
  destruct (push_fast_spec value reference b Hwf)
    as (b1 & Hp & _ & Hc & _).
  rewrite Hp in Hpush. injection Hpush as _ <-.
  split; [|assumption]. unfold I3 in *. rewrite HL, Hmin, Hc.
  destruct Hwf as [Hlv Hcount _ _ _ _].
  set (L := BinaryHeap.levels b) in *.
  rewrite (shl1_pow L) by lia.
  pose proof (pow2_pos (L - 1) ltac:(lia)).
  pose proof (pow2_pred L ltac:(lia)).
  destruct (decide (BinaryHeap.count b >= 2 ^ L)).
  - intros _. replace (L + 1 - 2) with (L - 1) by lia. lia.
  - intros Hgt. specialize (HI Hgt). lia.
Qed.

Lemma pop_fast_I3 (b b' : BinaryHeap.t) (v : VALUE_T) :
  wf b -> I3 b ->
  BinaryHeap.pop_fast b = Some (v, b') ->
  I3 b' /\ BinaryHeap.min_levels b' = BinaryHeap.min_levels b.
Proof.
  intros Hwf HI Hpop.
  destruct (pop_fast_base b Hwf)
    as (ir & b1 & Hp & Hir & _ & _ & _ & _ & Hinf & Hfin & _).
  rewrite Hp in Hpop. injection Hpop as <- <-.
  destruct (value_ne (to_float (leaf b ir)) inf) eqn:Hne.
  - assert (Hv : to_float (leaf b ir) <> inf).
    { intros Heq. apply value_ne_inf in Heq. congruence. }
    destruct (Hfin Hv) as [Hlt Hrem].
    apply remove_shape in Hrem as (Hc & Hmin & HL). simpl in Hc, Hmin, HL.
    split; [|assumption]. unfold I3 in *. rewrite HL, Hmin, Hc.
    destruct Hwf as [Hlv Hcount _ _ _ _].
    set (L := BinaryHeap.levels b) in *.
    destruct (bool_decide_reflect (L > BinaryHeap.min_levels b)) as [Hgt|Hle];
      simpl; [|intros; lia].
    specialize (HI Hgt).
    destruct (decide (L = 1)) as [HL1|HL1].
    { rewrite HL1. change (shl1 (1 - 2)) with 0.
      rewrite bool_decide_eq_false_2 by lia. intros _.
      change (2 ^ (1 - 2)) with 0. lia. }
    rewrite (shl1_pow (L - 2)) by lia.
    destruct (bool_decide_reflect (BinaryHeap.count b - 1 < 2 ^ (L - 2)));
      [|intros; lia].
    intros Hgt'.
    destruct (decide (L = 2)) as [HL2|HL2].
    { rewrite HL2. change (2 ^ (2 - 1 - 2)) with 0. lia. }
    pose proof (pow2_pos (L - 3) ltac:(lia)).
    pose proof (pow2_pred (L - 2) ltac:(lia)).
    replace (L - 1 - 2) with (L - 3) by lia.
    replace (L - 2 - 1) with (L - 3) in * by lia. lia.
  - apply value_ne_inf in Hne. rewrite (Hinf Hne). auto.
Qed.

Lemma base_do_I3 (c : base_call) (b b' : BinaryHeap.t) :
  wf b -> I3 b -> base_do c b = Some b' ->
  I3 b' /\ BinaryHeap.min_levels b' = BinaryHeap.min_levels b.
Proof.
  intros Hwf HI. destruct c as [value reference| | |]; simpl.
  - unfold BinaryHeap.push.
    destruct (BinaryHeap.push_fast value reference b) as [[c b1]|] eqn:Hp;
      [|discriminate].
    simpl. intros [= <-]. eapply push_fast_I3; eauto.
  - unfold BinaryHeap.pop. simpl.
    destruct (decide (BinaryHeap.count b = 0)); simpl.
    + intros [= <-]. auto.
    + destruct (BinaryHeap.pop_fast b) as [[v b1]|] eqn:Hp; [|discriminate].
      simpl. intros [= <-]. eapply pop_fast_I3; eauto.
  - intros ->%min_val_state. auto.
  - destruct (reset_base_wf b Hwf) as (b1 & Hrun & _ & Hc & HL & Hmin & _).
    rewrite Hrun. simpl. intros [= <-]. split; [|assumption].
    unfold I3. rewrite HL, Hmin, Hc. exact HI.
Qed.

Lemma base_run_I3 (cs : list base_call) (b b' : BinaryHeap.t) :
  wf b -> I3 b -> base_run cs b = Some b' ->
  I3 b' /\ BinaryHeap.min_levels b' = BinaryHeap.min_levels b.
Proof.
  revert b. induction cs as [|c cs IH]; intros b Hwf HI; simpl.
  - intros [= <-]. auto.
  - destruct (base_do c b) as [b1|] eqn:Hdo; [|discriminate]. simpl.
    intros Hrun.
    destruct (base_do_I3 c b b1 Hwf HI Hdo) as [HI1 Hmin1].
    destruct (base_do_wf c b b1 Hwf Hdo) as [Hwf1 _].
    destruct (IH b1 Hwf1 HI1 Hrun) as [HI' Hmin']. split; [assumption|].
    congruence.
Qed.

Lemma indexed_do_I3 (c : indexed_call) (h h' : FastUpdateBinaryHeap.t) :
  fwf h -> I3 (FastUpdateBinaryHeap.base h) -> indexed_do c h = Some h' ->
  I3 (FastUpdateBinaryHeap.base h')
  /\ BinaryHeap.min_levels (FastUpdateBinaryHeap.base h')
     = BinaryHeap.min_levels (FastUpdateBinaryHeap.base h)
  /\ FastUpdateBinaryHeap.max_reference h'
     = FastUpdateBinaryHeap.max_reference h.
Proof.
  intros Hf HI.
  pose proof (fwf_base h Hf) as Hwf.
  destruct c as [value k|value k| |k| |]; simpl.
  - destruct (decide (0 <= k <= FastUpdateBinaryHeap.max_reference h))
      as [Hk|Hout].
    + destruct (decide (xref h k = -1)) as [Habs|Hset].
      * destruct (push_absent value k h Hf Hk Habs)
          as (b' & x' & Hrun & Hpush & _).
        rewrite Hrun. simpl. intros [= <-]. simpl.
        destruct (push_fast_I3 _ _ _ _ _ Hwf HI Hpush). auto.
      * destruct (push_present value k h Hf Hk Hset)
          as (values' & Hrun & _).
        rewrite Hrun. simpl. intros [= <-]. auto.
    + rewrite push_out_of_range by assumption. simpl. intros [= <-]. auto.
  - destruct (decide (0 <= k <= FastUpdateBinaryHeap.max_reference h))
      as [Hk|Hout].
    + destruct (decide (xref h k = -1)) as [Habs|Hset].
      * destruct (push_if_lower_absent value k h Hf Hk Habs)
          as (b' & x' & Hrun & Hpush & _).
        rewrite Hrun. simpl. intros [= <-]. simpl.
        destruct (push_fast_I3 _ _ _ _ _ Hwf HI Hpush). auto.
      * destruct (value_lt value (leaf (FastUpdateBinaryHeap.base h) (xref h k)))
          eqn:Hlt.
        -- destruct (push_if_lower_present_lower value k h Hf Hk Hset Hlt)
             as (values' & Hrun & _).
           rewrite Hrun. simpl. intros [= <-]. auto.
        -- rewrite push_if_lower_present_not_lower by assumption.
           simpl. intros [= <-]. auto.
    + rewrite push_if_lower_out_of_range by assumption. simpl.
      intros [= <-]. auto.
  - unfold BinaryHeap.pop. simpl.
    destruct (decide (BinaryHeap.count (FastUpdateBinaryHeap.base h) = 0));
      simpl.
    + intros [= <-]. auto.
    + destruct (pop_fast_indexed h Hf)
        as (ir & h1 & Hrun & _ & _ & _ & _ & _ & Hmax & _).
      rewrite Hrun. simpl. intros [= <-].
      apply pop_fast_on_base in Hrun.
      destruct (pop_fast_I3 _ _ _ Hwf HI Hrun). auto.
  - destruct (decide (0 <= k <= FastUpdateBinaryHeap.max_reference h))
      as [Hk|Hout].
    + destruct (decide (xref h k = -1)) as [Habs|Hset].
      * rewrite value_of_absent by assumption. simpl. intros [= <-]. auto.
      * rewrite value_of_present by assumption. simpl. intros [= <-]. auto.
    + rewrite value_of_out_of_buffer; [discriminate|].
      rewrite (fwf_crossref h Hf). lia.
  - intros ->%min_val_state. auto.
  - destruct (reset_indexed_spec h Hf)
      as (h1 & Hrun & _ & Hc & HL & Hmin & _ & Hmax & _).
    rewrite Hrun. simpl. intros [= <-]. split; [|auto].
    unfold I3. rewrite HL, Hmin, Hc. exact HI.
Qed.

Lemma indexed_run_I3 (cs : list indexed_call)
    (h h' : FastUpdateBinaryHeap.t) :
  fwf h -> I3 (FastUpdateBinaryHeap.base h) -> indexed_run cs h = Some h' ->
  I3 (FastUpdateBinaryHeap.base h')
  /\ BinaryHeap.min_levels (FastUpdateBinaryHeap.base h')
     = BinaryHeap.min_levels (FastUpdateBinaryHeap.base h)
  /\ FastUpdateBinaryHeap.max_reference h'
     = FastUpdateBinaryHeap.max_reference h.
Proof.
  revert h. induction cs as [|c cs IH]; intros h Hf HI; simpl.
  - intros [= <-]. auto.
  - destruct (indexed_do c h) as [h1|] eqn:Hdo; [|discriminate]. simpl.
    intros Hrun.
    destruct (indexed_do_I3 c h h1 Hf HI Hdo) as (HI1 & Hmin1 & Hmax1).
    destruct (indexed_do_fwf c h h1 Hf Hdo) as [Hf1 _].
    destruct (IH h1 Hf1 HI1 Hrun) as (HI' & Hmin' & Hmax').
    split; [assumption|]. split; congruence.
Qed.

(** ** Construction *)

Lemma init_levels_least (cap : Z) :
  let L := BinaryHeap.init_levels (Z.to_nat cap) 0 cap in
  0 <= L /\ cap <= 2 ^ L /\ forall l, 0 <= l < L -> 2 ^ l < cap.
Proof.
  intros L.
  pose proof (init_levels_ge (Z.to_nat cap) 0 cap) as Hge. fold L in Hge.
  destruct (init_levels_spec (Z.to_nat cap) 0 cap) as [Hle Hlt];
    [lia|lia|now left|]. fold L in Hle, Hlt.
  split; [assumption|]. split; [assumption|].
  intros l Hl. destruct Hlt as [->|Hlt]; [lia|].
  eapply Z.le_lt_trans; [|exact Hlt]. apply Z.pow_le_mono_r; lia.
Qed.

Lemma new_base_shape (garbage : nat -> REFERENCE_T) (cap : Z) :
  let L := BinaryHeap.init_levels (Z.to_nat cap) 0 cap in
  exists b,
    BinaryHeap.new garbage cap = Return tt b
    /\ BinaryHeap.count b = 0
    /\ BinaryHeap.levels b = L
    /\ BinaryHeap.min_levels b = L
    /\ Z.of_nat (length (BinaryHeap._values b)) = 2 * 2 ^ L
    /\ Z.of_nat (length (BinaryHeap._references b)) = 2 ^ L
    /\ (forall q, 0 <= q < 2 * 2 ^ L -> vget (BinaryHeap._values b) q = inf).
Proof.
  intros L. destruct (init_levels_least cap) as (HL & _). fold L in HL.
  unfold BinaryHeap.new, BinaryHeap.__init__. cbv zeta. fold L.
  pose proof (pow2_pos L ltac:(lia)) as Hpos.
  simpl. fold L.
  match goal with
  | |- context [BinaryHeap.reset ?b0] =>
      destruct (reset_base_spec b0) as (values' & Hrun & Hlen' & Hinf);
      [simpl; try lia; rewrite ?malloc_length; lia..|];
      rewrite Hrun; set (b := b0) in *
  end.
  simpl in *. eexists. split; [reflexivity|]. simpl.
  repeat split; try assumption.
  - rewrite Hlen'. rewrite malloc_length; lia.
  - rewrite malloc_length; lia.
Qed.

Lemma new_indexed_shape (garbage : nat -> REFERENCE_T) (cap : Z)
    (max_reference : option Z) :
  2 <= cap ->
  let M := match max_reference with Some m => m | None => cap - 1 end in
  exists h,
    FastUpdateBinaryHeap.new garbage cap max_reference = Return tt h
    /\ fwf h
    /\ I4 h
    /\ BinaryHeap.count (FastUpdateBinaryHeap.base h) = 0
    /\ BinaryHeap.levels (FastUpdateBinaryHeap.base h)
       = BinaryHeap.init_levels (Z.to_nat cap) 0 cap
    /\ BinaryHeap.min_levels (FastUpdateBinaryHeap.base h)
       = BinaryHeap.init_levels (Z.to_nat cap) 0 cap
    /\ FastUpdateBinaryHeap.max_reference h = M
    /\ (forall k, 0 <= k <= M -> xref h k = -1).
Proof.
  intros Hcap M. pose proof (init_levels_pos cap Hcap) as HL.
  unfold FastUpdateBinaryHeap.new, FastUpdateBinaryHeap.__init__,
    BinaryHeap.__init__. cbv zeta.
  set (L := BinaryHeap.init_levels (Z.to_nat cap) 0 cap) in *.
  fold M.
  pose proof (pow2_pos L ltac:(lia)) as Hpos.
  simpl. fold L M.
  match goal with
  | |- context [FastUpdateBinaryHeap.reset ?h0] => set (h1 := h0)
  end.
  destruct (reset_base_spec (FastUpdateBinaryHeap.base h1))
    as (values' & Hrun & Hlen' & Hinf);
    [simpl; try lia; rewrite ?malloc_length; lia..|].
  destruct (fill_loop 0 (-1) (M + 1) (FastUpdateBinaryHeap._crossref h1))
    as (x' & Hrunx & Hlenx & Hselx).
  { simpl. unfold malloc. rewrite List.length_map, List.length_seq. lia. }
  unfold FastUpdateBinaryHeap.reset.
  rewrite Hrun. simpl.
  simpl in Hrunx. rewrite Hrunx.
  eexists. split; [reflexivity|].
  simpl in Hinf, Hlen', Hlenx.
  assert (Hx : forall k, 0 <= k <= M -> sel 0 x' k = -1).
  { intros k Hk. rewrite Hselx. now rewrite decide_True by lia. }
  split; [|split; [|repeat split; try reflexivity; exact Hx]].
  - constructor; simpl.
    + apply wf_all_inf; simpl; try lia.
      * rewrite Hlen'. rewrite malloc_length; lia.
      * rewrite malloc_length; lia.
      * exact Hinf.
    + rewrite Hlenx. unfold malloc.
      now rewrite List.length_map, List.length_seq.
    + intros r Hr. lia.
    + intros k Hk Hset. exfalso. apply Hset. unfold xref. simpl.
      now apply Hx.
  - apply I4_intro. simpl. intros p Hp. lia.
Qed.

Lemma base_reachable_I3 (b : BinaryHeap.t) : base_reachable b -> I3 b.
Proof.
  intros (garbage & cap & cs & b0 & Hcap & Hnew & Hrun).
  destruct (new_base_spec garbage cap Hcap) as (b0' & Hnew' & Hwf & _).
  destruct (new_base_shape garbage cap) as (b1 & Hnew1 & _ & HL & Hmin & _).
  rewrite Hnew in Hnew', Hnew1. injection Hnew' as <-. injection Hnew1 as <-.
  eapply (base_run_I3 cs b0); eauto.
  unfold I3. lia.
Qed.

Lemma indexed_reachable_I3 (h : FastUpdateBinaryHeap.t) :
  indexed_reachable h -> I3 (FastUpdateBinaryHeap.base h).
Proof.
  intros (garbage & cap & m & cs & h0 & Hcap & Hnew & Hrun).
  destruct (new_indexed_shape garbage cap m Hcap)
    as (h1 & Hnew1 & Hf & _ & _ & HL & Hmin & _).
  rewrite Hnew in Hnew1. injection Hnew1 as <-.
  eapply (indexed_run_I3 cs h0); eauto.
  unfold I3. lia.
Qed.

(** ** No access outside the buffers *)

Lemma base_do_defined (c : base_call) (b : BinaryHeap.t) :
  wf b -> exists b', base_do c b = Some b'.
Proof.
  intros Hwf. destruct c as [value reference| | |]; simpl.
  - destruct (push_fast_spec value reference b Hwf) as (b1 & Hrun & _).
    unfold BinaryHeap.push. rewrite Hrun. simpl. eauto.
  - unfold BinaryHeap.pop. simpl.
    destruct (decide (BinaryHeap.count b = 0)); simpl; [eauto|].
    destruct (pop_fast_base b Hwf) as (ir & b1 & Hrun & _).
    rewrite Hrun. simpl. eauto.
  - destruct (@min_val_spec _ BinaryHeap.base_class b Hwf)
      as (r & _ & Hrun & _).
    rewrite Hrun. simpl. eauto.
  - destruct (reset_base_wf b Hwf) as (b1 & Hrun & _).
    rewrite Hrun. simpl. eauto.
Qed.

Lemma base_run_defined (cs : list base_call) (b : BinaryHeap.t) :
  wf b -> exists b', base_run cs b = Some b'.
Proof.
  revert b. induction cs as [|c cs IH]; intros b Hwf; simpl; [eauto|].
  destruct (base_do_defined c b Hwf) as [b1 Hdo]. rewrite Hdo. simpl.
  apply IH. eapply base_do_wf; eauto.
Qed.

Lemma indexed_do_defined (c : indexed_call) (h : FastUpdateBinaryHeap.t) :
  fwf h -> value_of_in_range (FastUpdateBinaryHeap.max_reference h) c ->
  exists h', indexed_do c h = Some h'.
Proof.
  intros Hf Hc. pose proof (fwf_base h Hf) as Hwf.
  destruct c as [value k|value k| |k| |]; simpl in *.
  - destruct (decide (0 <= k <= FastUpdateBinaryHeap.max_reference h))
      as [Hk|Hout].
    + destruct (decide (xref h k = -1)) as [Habs|Hset].
      * destruct (push_absent value k h Hf Hk Habs)
          as (b' & x' & Hrun & _).
        rewrite Hrun. simpl. eauto.
      * destruct (push_present value k h Hf Hk Hset)
          as (values' & Hrun & _).
        rewrite Hrun. simpl. eauto.
    + rewrite push_out_of_range by assumption. simpl. eauto.
  - destruct (decide (0 <= k <= FastUpdateBinaryHeap.max_reference h))
      as [Hk|Hout].
    + destruct (decide (xref h k = -1)) as [Habs|Hset].
      * destruct (push_if_lower_absent value k h Hf Hk Habs)
          as (b' & x' & Hrun & _).
        rewrite Hrun. simpl. eauto.
      * destruct (value_lt value (leaf (FastUpdateBinaryHeap.base h) (xref h k)))
          eqn:Hlt.
        -- destruct (push_if_lower_present_lower value k h Hf Hk Hset Hlt)
             as (values' & Hrun & _).
           rewrite Hrun. simpl. eauto.
        -- rewrite push_if_lower_present_not_lower by assumption.
           simpl. eauto.
    + rewrite push_if_lower_out_of_range by assumption. simpl. eauto.
  - unfold BinaryHeap.pop. simpl.
    destruct (decide (BinaryHeap.count (FastUpdateBinaryHeap.base h) = 0));
      simpl; [eauto|].
    destruct (pop_fast_indexed h Hf) as (ir & h1 & Hrun & _).
    rewrite Hrun. simpl. eauto.
  - destruct (decide (xref h k = -1)) as [Habs|Hset].
    + rewrite value_of_absent by assumption. simpl. eauto.
    + rewrite value_of_present by assumption. simpl. eauto.
  - destruct (@min_val_spec _ FastUpdateBinaryHeap.fast_class h Hwf)
      as (r & _ & Hrun & _).
    rewrite Hrun. simpl. eauto.
  - destruct (reset_indexed_spec h Hf) as (h1 & Hrun & _).
    rewrite Hrun. simpl. eauto.
Qed.

Lemma indexed_run_defined (cs : list indexed_call)
    (h : FastUpdateBinaryHeap.t) :
  fwf h -> I3 (FastUpdateBinaryHeap.base h) ->
  Forall (value_of_in_range (FastUpdateBinaryHeap.max_reference h)) cs ->
  exists h', indexed_run cs h = Some h'.
Proof.
  revert h. induction cs as [|c cs IH]; intros h Hf HI Hcs; simpl; [eauto|].
  apply Forall_cons in Hcs as [Hc Hcs].
  destruct (indexed_do_defined c h Hf Hc) as [h1 Hdo]. rewrite Hdo. simpl.
  destruct (indexed_do_I3 c h h1 Hf HI Hdo) as (HI1 & _ & Hmax).
  apply IH.
  - eapply indexed_do_fwf; eauto.
  - assumption.
  - now rewrite Hmax.
Qed.

(** ** References and cross references *)

Lemma without_reset_reachable (h : FastUpdateBinaryHeap.t) :
  indexed_reachable_without_reset h ->
  indexed_reachable h /\ fwf h /\ I4 h.
Proof.
  intros (garbage & cap & m & cs & h0 & Hcap & Hnew & Hnr & Hrun).
  assert (Hreach : indexed_reachable h).
  { exists garbage, cap, m, cs, h0. auto. }
  split; [assumption|]. split.
  - now apply indexed_reachable_fwf.
  - eapply I4_without_reset; eauto.
Qed.

Lemma indexed_after_without_reset (cs : list indexed_call)
    (h : FastUpdateBinaryHeap.t) :
  Forall not_reset cs ->
  indexed_run cs indexed2 = Some h -> indexed_reachable_without_reset h.
Proof.
  intros Hnr Hrun. exists (fun _ => 0), 2, (Some 2), cs, indexed2.
  split; [lia|]. split; [reflexivity|]. split; [exact Hnr|exact Hrun].
Defined.

Lemma ref_list_elem (b : BinaryHeap.t) (k : REFERENCE_T) :
  k ∈ ref_list b <->
  exists p, 0 <= p < BinaryHeap.count b /\ ref_at b p = k.
Proof.
  unfold ref_list. rewrite list_elem_of_fmap. split.
  - intros (p & -> & Hp). apply elem_of_seqZ in Hp. exists p. split; [lia|easy].
  - intros (p & Hp & <-). exists p. split; [easy|]. apply elem_of_seqZ. lia.
Qed.

Lemma ref_list_NoDup (h : FastUpdateBinaryHeap.t) :
  I4 h -> NoDup (ref_list (FastUpdateBinaryHeap.base h)).
Proof.
  intros [HI _]. unfold ref_list. apply NoDup_fmap_2_strong.
  - intros p q Hp%elem_of_seqZ Hq%elem_of_seqZ Heq.
    rewrite <- (HI p), <- (HI q) by lia. now rewrite Heq.
  - apply NoDup_seqZ.
Qed.

Lemma count_le_max_reference (h : FastUpdateBinaryHeap.t) :
  fwf h -> I4 h ->
  BinaryHeap.count (FastUpdateBinaryHeap.base h)
  <= Z.max 0 (FastUpdateBinaryHeap.max_reference h + 1).
Proof.
  intros Hf HI.
  assert (Hsub : ref_list (FastUpdateBinaryHeap.base h)
                 ⊆+ seqZ 0 (FastUpdateBinaryHeap.max_reference h + 1)).
  { apply NoDup_submseteq; [now apply ref_list_NoDup|].
    intros k (p & Hp & <-)%ref_list_elem. apply elem_of_seqZ.
    pose proof (fwf_refs h Hf p Hp). lia. }
  apply submseteq_length in Hsub.
  unfold ref_list in Hsub. rewrite length_fmap, !length_seqZ in Hsub.
  pose proof (wf_count _ (fwf_base h Hf)). lia.
Qed.

(** The cross references after a [pop] that removed an entry. *)
Lemma pop_fast_xref (h h' : FastUpdateBinaryHeap.t) (v : VALUE_T) :
  fwf h -> I4 h ->
  BinaryHeap.pop_fast h = Some (v, h') -> v <> inf ->
  let r := BinaryHeap._popped_ref (FastUpdateBinaryHeap.base h') in
  fwf h'
  /\ I4 h'
  /\ FastUpdateBinaryHeap.max_reference h'
     = FastUpdateBinaryHeap.max_reference h
  /\ 0 <= r <= FastUpdateBinaryHeap.max_reference h
  /\ xref h r <> -1
  /\ to_float (leaf (FastUpdateBinaryHeap.base h) (xref h r)) = v
  /\ xref h' r = -1
  /\ forall k, 0 <= k <= FastUpdateBinaryHeap.max_reference h -> k <> r ->
       (xref h k = -1 -> xref h' k = -1)
       /\ (xref h k <> -1 ->
             xref h' k <> -1
             /\ leaf (FastUpdateBinaryHeap.base h') (xref h' k)
                = leaf (FastUpdateBinaryHeap.base h) (xref h k)).
Proof.
  intros Hf HI Hpop Hv r.
  pose proof (fwf_base h Hf) as Hwf.
  destruct (pop_fast_indexed h Hf)
    as (ir0 & h1 & Hp & _ & _ & _ & Hf' & HI' & Hmax & _).
  rewrite Hp in Hpop. injection Hpop as <- <-.
  specialize (HI' HI).
  pose proof (pop_fast_on_base _ _ _ Hp) as Hpb.
  destruct (pop_fast_entries _ _ _ Hwf Hpb)
    as (ir & Hir & Hvx & Hpr & _ & _ & _ & Hperm).
  destruct (Hperm Hv) as (Hlt & Hperm' & _). clear Hperm.
  fold r in Hperm', Hpr.
  set (b := FastUpdateBinaryHeap.base h) in *.
  set (b' := FastUpdateBinaryHeap.base h1) in *.
  assert (Hr : r = ref_at b ir) by exact Hpr.
  assert (Hrange : 0 <= r <= FastUpdateBinaryHeap.max_reference h).
  { rewrite Hr. apply (fwf_refs h Hf). fold b. lia. }
  assert (Hnotin : r ∉ ref_list b').
  { pose proof (ref_list_NoDup h HI) as Hnd. fold b in Hnd.
    rewrite ref_list_entries in Hnd. rewrite Hperm' in Hnd.
    rewrite fmap_cons in Hnd. apply NoDup_cons in Hnd as [Hnd _].
    now rewrite ref_list_entries. }
  assert (Hxr : xref h r = ir).
  { rewrite Hr. apply (proj1 HI). fold b. lia. }
  split; [assumption|]. split; [assumption|]. split; [assumption|].
  split; [assumption|]. split; [lia|].
  split; [rewrite Hxr; symmetry; exact Hvx|]. split.
  - destruct (decide (xref h1 r = -1)) as [|Hset]; [assumption|].
    exfalso. apply Hnotin. apply ref_list_elem.
    destruct (fwf_sound h1 Hf' r ltac:(lia) Hset) as [Hp' Href'].
    eauto.
  - intros k Hk Hne. split.
    + intros Habs.
      destruct (decide (xref h1 k = -1)) as [|Hset]; [assumption|].
      exfalso.
      destruct (fwf_sound h1 Hf' k ltac:(lia) Hset) as [Hp' Href'].
      fold b' in Hp', Href'.
      assert (Hin : (leaf b' (xref h1 k), k) ∈ entries b).
      { rewrite Hperm'. apply elem_of_cons. right.
        apply entries_elem. exists (xref h1 k). now rewrite Href'. }
      apply entries_elem in Hin as (p & Hp'' & Heq).
      injection Heq as _ Heq.
      apply (proj2 HI k Habs p Hp''). now symmetry.
    + intros Hset.
      destruct (fwf_sound h Hf k Hk Hset) as [Hp' Href']. fold b in Hp', Href'.
      assert (Hin : (leaf b (xref h k), k) ∈ (leaf b ir, r) :: entries b')
        by (rewrite <- Hperm'; apply entries_elem;
            exists (xref h k); now rewrite Href').
      apply elem_of_cons in Hin as [Heq|Hin]; [congruence|].
      apply entries_elem in Hin as (p' & Hp'' & Heq).
      injection Heq as Hleaf Hk'.
      assert (Hx : xref h1 k = p').
      { rewrite Hk'. apply (proj1 HI'). exact Hp''. }
      rewrite Hx. split; [lia|]. now symmetry.
Qed.

(** What the caller of [value_of] sees for an id of the table. *)
Lemma value_of_result (k : REFERENCE_T) (h : FastUpdateBinaryHeap.t) :
  fwf h -> 0 <= k <= FastUpdateBinaryHeap.max_reference h ->
  result_of (FastUpdateBinaryHeap.value_of k h) =
  if decide (xref h k = -1)
  then Some (inr (ValueError "invalid reference"))
  else Some (inl (to_float (leaf (FastUpdateBinaryHeap.base h) (xref h k)))).
Proof.
  intros Hf Hk. destruct (decide (xref h k = -1)) as [Habs|Hset].
  - now rewrite value_of_absent.
  - now rewrite value_of_present.
Qed.

(** Two states that agree on an id agree on its [value_of]. *)
Lemma value_of_frame (k : REFERENCE_T) (h h' : FastUpdateBinaryHeap.t) :
  fwf h -> fwf h' ->
  FastUpdateBinaryHeap.max_reference h' = FastUpdateBinaryHeap.max_reference h ->
  0 <= k <= FastUpdateBinaryHeap.max_reference h ->
  (xref h k = -1 -> xref h' k = -1) ->
  (xref h k <> -1 ->
     xref h' k <> -1
     /\ leaf (FastUpdateBinaryHeap.base h') (xref h' k)
        = leaf (FastUpdateBinaryHeap.base h) (xref h k)) ->
  result_of (FastUpdateBinaryHeap.value_of k h')
  = result_of (FastUpdateBinaryHeap.value_of k h).
Proof.
  intros Hf Hf' Hmax Hk Habs Hset.
  rewrite !value_of_result by (assumption || lia).
  destruct (decide (xref h k = -1)) as [H1|H1].
  - now rewrite decide_True by auto.
  - destruct (Hset H1) as [H2 Hleaf]. rewrite decide_False by assumption.
    now rewrite Hleaf.
Qed.

(** The cross references after a [push] with an id of the table. *)
Lemma push_xref (value : VALUE_T) (k : REFERENCE_T)
    (h : FastUpdateBinaryHeap.t) :
  fwf h -> 0 <= k <= FastUpdateBinaryHeap.max_reference h ->
  exists h',
    FastUpdateBinaryHeap.push value k h = Return tt h'
    /\ fwf h'
    /\ FastUpdateBinaryHeap.max_reference h'
       = FastUpdateBinaryHeap.max_reference h
    /\ BinaryHeap.count (FastUpdateBinaryHeap.base h')
       = (if decide (xref h k = -1)
          then BinaryHeap.count (FastUpdateBinaryHeap.base h) + 1
          else BinaryHeap.count (FastUpdateBinaryHeap.base h))
    /\ xref h' k <> -1
    /\ leaf (FastUpdateBinaryHeap.base h') (xref h' k) = value
    /\ forall k', 0 <= k' <= FastUpdateBinaryHeap.max_reference h ->
         k' <> k ->
         (xref h k' = -1 -> xref h' k' = -1)
         /\ (xref h k' <> -1 ->
               xref h' k' <> -1
               /\ leaf (FastUpdateBinaryHeap.base h') (xref h' k')
                  = leaf (FastUpdateBinaryHeap.base h) (xref h k')).
Proof.
  intros Hf Hk. pose proof (fwf_base h Hf) as Hwf.
  pose proof (wf_count _ Hwf) as Hcount.
  destruct (decide (xref h k = -1)) as [Habs|Hset].
  - destruct (fast_append value k h Hf Hk Habs)
      as (b' & x' & Hrun & Hw & Hf' & _ & Hc & Hx & Hleaf).
    cbv zeta in Hf', Hx.
    eexists. split; [|split; [exact Hf'|]].
    { unfold FastUpdateBinaryHeap.push, FastUpdateBinaryHeap.push_fast.
      rewrite bool_decide_eq_true_2 by assumption. simpl.
      rewrite crossref_read by assumption. simpl.
      rewrite decide_False by (rewrite Habs; lia).
      rewrite Hrun. simpl. rewrite Hw. simpl.
      now rewrite decide_False by lia. }
    pose proof (wf_count _ (fwf_base _ Hf')) as Hcount'. simpl in Hcount'.
    split; [reflexivity|]. split; [exact Hc|]. split; [rewrite Hx; lia|].
    split.
    + rewrite Hx. simpl. rewrite Hleaf by lia. now rewrite decide_True.
    + intros k' Hk' Hne.
      assert (Hsame : xref (FastUpdateBinaryHeap.set_crossref x'
                              (FastUpdateBinaryHeap.set_base b' h)) k'
                      = xref h k').
      { unfold xref. simpl. eapply sel_wr_ne; eauto. }
      rewrite Hsame. split; [auto|]. intros Hset. split; [assumption|].
      destruct (fwf_sound h Hf k' Hk' Hset) as [Hp _]. simpl.
      rewrite Hleaf by lia.
      rewrite decide_False, decide_True by lia. reflexivity.
  - destruct (push_present value k h Hf Hk Hset)
      as (values' & Hrun & Hf' & _ & Hleaf & _).
    cbv zeta in Hrun, Hf'.
    eexists. split; [exact Hrun|]. split; [exact Hf'|].
    split; [reflexivity|]. split; [reflexivity|].
    destruct (fwf_sound h Hf k Hk Hset) as [Hp Href].
    change (xref (FastUpdateBinaryHeap.set_base
                    (BinaryHeap.set_values values'
                       (FastUpdateBinaryHeap.base h)) h))
      with (xref h).
    split; [assumption|]. simpl. split.
    + rewrite Hleaf by lia. now rewrite decide_True.
    + intros k' Hk' Hne. split; [auto|]. intros Hset'.
      split; [assumption|].
      destruct (fwf_sound h Hf k' Hk' Hset') as [Hp' Href'].
      rewrite Hleaf by lia. rewrite decide_False; [reflexivity|].
      intros Heq. rewrite Heq in Href'. congruence.
Qed.

(** ** Filling and draining *)

Lemma base_pushes_run (l : list (VALUE_T * REFERENCE_T)) (b : BinaryHeap.t) :
  wf b ->
  exists b',
    base_run (base_pushes l) b = Some b'
    /\ wf b'
    /\ entries b' = entries b ++ l.
Proof.
  revert b. induction l as [|[v r] l IH]; intros b Hwf; simpl.
  - exists b. rewrite app_nil_r. auto.
  - destruct (push_fast_spec v r b Hwf) as (b1 & Hrun & Hwf1 & _).
    unfold BinaryHeap.push. rewrite Hrun. simpl.
    destruct (IH b1 Hwf1) as (b' & Hrun' & Hwf' & He).
    exists b'. split; [exact Hrun'|]. split; [assumption|].
    rewrite He, (push_fast_entries v r b b1 _ Hwf Hrun).
    now rewrite <- app_assoc.
Qed.

Lemma pop_finite (b : BinaryHeap.t) :
  wf b -> BinaryHeap.count b <> 0 ->
  Forall (fun v => to_float v <> inf) (leaf_list b) ->
  exists x r b',
    BinaryHeap.pop b = Return (to_float x, r) b'
    /\ wf b'
    /\ Forall (fun e => value_le x e.1) (entries b)
    /\ entries b ≡ₚ (x, r) :: entries b'
    /\ BinaryHeap.count b' = BinaryHeap.count b - 1.
Proof.
  intros Hwf Hne Hfin.
  destruct (pop_fast_base b Hwf)
    as (ir0 & b1 & Hp & _ & _ & _ & Hwf1 & _).
  destruct (pop_fast_entries b b1 _ Hwf Hp)
    as (ir & Hir & Hvx & Hpr & _ & Hlb & _ & Hperm).
  pose proof (wf_count _ Hwf) as Hcount.
  assert (H0 : leaf b 0 ∈ leaf_list b).
  { unfold leaf_list. apply list_elem_of_fmap. exists 0. split; [easy|].
    apply elem_of_seqZ. lia. }
  assert (Hv : to_float (leaf b ir0) <> inf).
  { rewrite Hvx. intros Heq.
    destruct (decide (ir < BinaryHeap.count b)) as [Hlt|Hge].
    - apply (proj1 (Forall_forall _ _) Hfin (leaf b ir)); [|exact Heq].
      unfold leaf_list. apply list_elem_of_fmap. exists ir.
      split; [reflexivity|]. apply elem_of_seqZ. lia.
    - assert (Hinf : leaf b ir = inf) by (apply (wf_vacant b Hwf); lia).
      apply (proj1 (Forall_forall _ _) Hfin _ H0).
      assert (H1 : (leaf b 0, ref_at b 0) ∈ entries b).
      { apply entries_elem. exists 0. split; [lia|reflexivity]. }
      pose proof (proj1 (Forall_forall _ _) Hlb _ H1) as Hle.
      simpl in Hle. rewrite Hinf in Hle.
      rewrite (value_inf_le _ Hle). apply to_float_inf. }
  destruct (Hperm Hv) as (_ & Hperm' & Hc).
  exists (leaf b ir), (BinaryHeap._popped_ref b1), b1.
  split; [|auto 10].
  unfold BinaryHeap.pop. simpl. rewrite decide_False by assumption.
  rewrite Hp, Hvx. reflexivity.
Qed.

Lemma drain (n : nat) (b : BinaryHeap.t) :
  wf b -> BinaryHeap.count b = Z.of_nat n ->
  Forall (fun v => to_float v <> inf) (leaf_list b) ->
  base_pops (repeat BPop n) b ≡ₚ to_float <$> leaf_list b
  /\ exists b', base_run (repeat BPop n) b = Some b'
                /\ BinaryHeap.count b' = 0.
Proof.
  revert b. induction n as [|n IH]; intros b Hwf Hc Hfin.
  - simpl. unfold leaf_list. rewrite Hc. simpl. split; [reflexivity|eauto].
  - destruct (pop_finite b Hwf ltac:(lia) Hfin)
      as (x & r & b1 & Hpop & Hwf1 & _ & Hperm & Hc1).
    assert (Hperm1 : leaf_list b ≡ₚ x :: leaf_list b1).
    { rewrite !leaf_list_entries, Hperm. reflexivity. }
    assert (Hfin1 : Forall (fun v => to_float v <> inf) (leaf_list b1)).
    { rewrite Hperm1 in Hfin. now apply Forall_cons in Hfin as [_ Hfin]. }
    destruct (IH b1 Hwf1 ltac:(lia) Hfin1) as (Hp1 & b' & Hrun & Hc').
    cbn [repeat base_pops base_run base_do]. rewrite Hpop. simpl.
    split; [|eauto]. rewrite Hperm1, Hp1. reflexivity.
Qed.

(** ** Listings *)

Lemma leaf_list_length (b : BinaryHeap.t) :
  wf b -> Z.of_nat (length (leaf_list b)) = BinaryHeap.count b.
Proof.
  intros Hwf. pose proof (wf_count _ Hwf).
  unfold leaf_list. rewrite length_fmap, length_seqZ. lia.
Qed.

Lemma ref_list_length (b : BinaryHeap.t) :
  wf b -> Z.of_nat (length (ref_list b)) = BinaryHeap.count b.
Proof.
  intros Hwf. pose proof (wf_count _ Hwf).
  unfold ref_list. rewrite length_fmap, length_seqZ. lia.
Qed.

Lemma leaf_list_lookup (b : BinaryHeap.t) (p : Z) :
  0 <= p < BinaryHeap.count b ->
  leaf_list b !! Z.to_nat p = Some (leaf b p).
Proof.
  intros Hp. unfold leaf_list. rewrite list_lookup_fmap.
  rewrite lookup_seqZ_lt by lia. simpl. do 2 f_equal. lia.
Qed.

Lemma ref_list_lookup (b : BinaryHeap.t) (p : Z) :
  0 <= p < BinaryHeap.count b ->
  ref_list b !! Z.to_nat p = Some (ref_at b p).
Proof.
  intros Hp. unfold ref_list. rewrite list_lookup_fmap.
  rewrite lookup_seqZ_lt by lia. simpl. do 2 f_equal. lia.
Qed.

(** X1: on every reachable heap, base or indexed, [values()] and
    [references()] return without changing the heap and without reading
    outside the buffers; the two lists have [count] elements each, and
    their elements at position [p] are the value of the leaf at position
    [p] of the last level and the id stored with it. *)
Theorem listings_spec :
  (forall b, base_reachable b ->
     exists vs rs,
       BinaryHeap.values b = Return vs b
       /\ BinaryHeap.references b = Return rs b
       /\ Z.of_nat (length vs) = BinaryHeap.count b
       /\ Z.of_nat (length rs) = BinaryHeap.count b
       /\ forall p, 0 <= p < BinaryHeap.count b ->
            vs !! Z.to_nat p = Some (leaf b p)
            /\ rs !! Z.to_nat p = Some (ref_at b p))
  /\ (forall h, indexed_reachable h ->
        let b := FastUpdateBinaryHeap.base h in
        exists vs rs,
          BinaryHeap.values h = Return vs h
          /\ BinaryHeap.references h = Return rs h
          /\ Z.of_nat (length vs) = BinaryHeap.count b
          /\ Z.of_nat (length rs) = BinaryHeap.count b
          /\ forall p, 0 <= p < BinaryHeap.count b ->
               vs !! Z.to_nat p = Some (leaf b p)
               /\ rs !! Z.to_nat p = Some (ref_at b p)).
Proof.
  split.
  - intros b Hwf%base_reachable_wf.
    exists (leaf_list b), (ref_list b).
    split; [exact (@values_spec _ BinaryHeap.base_class b Hwf)|].
    split; [exact (@references_spec _ BinaryHeap.base_class b Hwf)|].
    split; [now apply leaf_list_length|].
    split; [now apply ref_list_length|].
    intros p Hp. split; [now apply leaf_list_lookup|now apply ref_list_lookup].
  - intros h Hf%indexed_reachable_fwf b.
    pose proof (fwf_base h Hf) as Hwf. fold b in Hwf.
    exists (leaf_list b), (ref_list b).
    split; [exact (@values_spec _ FastUpdateBinaryHeap.fast_class h Hwf)|].
    split; [exact (@references_spec _ FastUpdateBinaryHeap.fast_class h Hwf)|].
    split; [now apply leaf_list_length|].
    split; [now apply ref_list_length|].
    intros p Hp. split; [now apply leaf_list_lookup|now apply ref_list_lookup].
Qed.

(** The theorem at work on [BinaryHeap(4)] after push(5, 7), push(3, 8). *)
Lemma listings_spec_witness :
  base_reachable (base_after [BPush (Num 5) 7; BPush (Num 3) 8])
  /\ exists vs rs,
       BinaryHeap.values (base_after [BPush (Num 5) 7; BPush (Num 3) 8])
       = Return vs (base_after [BPush (Num 5) 7; BPush (Num 3) 8])
       /\ BinaryHeap.references (base_after [BPush (Num 5) 7; BPush (Num 3) 8])
          = Return rs (base_after [BPush (Num 5) 7; BPush (Num 3) 8])
       /\ Z.of_nat (length vs) = 2
       /\ Z.of_nat (length rs) = 2.
Proof.
  assert (H : base_reachable (base_after [BPush (Num 5) 7; BPush (Num 3) 8])).
  { apply (base_after_reachable [BPush (Num 5) 7; BPush (Num 3) 8]).
    vm_compute. reflexivity. }
  split; [exact H|].
  destruct (proj1 listings_spec _ H) as (vs & rs & Hv & Hr & Hlv & Hlr & _).
  exists vs, rs. auto.
Defined.

(** X2: on every reachable base heap [push(value, reference)] returns,
    and afterwards [values()] and [references()] are the lists of before
    with [value], resp. [reference], appended; the last level is doubled
    exactly when all its leaves were occupied. *)
Theorem push_appends (b : BinaryHeap.t) (value : VALUE_T)
    (reference : REFERENCE_T) (vs : list VALUE_T) (rs : list REFERENCE_T) :
  base_reachable b ->
  BinaryHeap.values b = Return vs b ->
  BinaryHeap.references b = Return rs b ->
  exists b',
    BinaryHeap.push value reference b = Return tt b'
    /\ BinaryHeap.values b' = Return (vs ++ [value]) b'
    /\ BinaryHeap.references b' = Return (rs ++ [reference]) b'
    /\ BinaryHeap.count b' = BinaryHeap.count b + 1
    /\ BinaryHeap.levels b' =
       (if decide (BinaryHeap.count b = 2 ^ BinaryHeap.levels b)
        then BinaryHeap.levels b + 1 else BinaryHeap.levels b).
Proof.
  intros Hwf%base_reachable_wf Hvs Hrs.
  rewrite (@values_spec _ BinaryHeap.base_class b Hwf) in Hvs.
  rewrite (@references_spec _ BinaryHeap.base_class b Hwf) in Hrs.
  injection Hvs as <-. injection Hrs as <-.
  destruct (push_fast_spec value reference b Hwf)
    as (b' & Hrun & Hwf' & Hc & _).
  exists b'. split; [unfold BinaryHeap.push; now rewrite Hrun|].
  pose proof (push_fast_entries _ _ _ _ _ Hwf Hrun) as He.
  split.
  { rewrite (@values_spec _ BinaryHeap.base_class b' Hwf').
    cbn [BinaryHeap.super BinaryHeap.base_class].
    rewrite !leaf_list_entries, He, fmap_app. reflexivity. }
  split.
  { rewrite (@references_spec _ BinaryHeap.base_class b' Hwf').
    cbn [BinaryHeap.super BinaryHeap.base_class].
    rewrite !ref_list_entries, He, fmap_app. reflexivity. }
  split; [assumption|].
  destruct (push_fast_shape _ _ _ _ _ Hrun) as [HL _]. rewrite HL.
  destruct Hwf as [Hlv Hcount _ _ _ _].
  rewrite shl1_pow by lia.
  destruct (decide (BinaryHeap.count b >= 2 ^ BinaryHeap.levels b));
    [rewrite decide_True by lia|rewrite decide_False by lia]; reflexivity.
Qed.

(** The theorem at work on [BinaryHeap(4)] with its four leaves
    occupied: the fifth push doubles the last level. *)
Lemma push_appends_witness :
  base_reachable
    (base_after [BPush (Num 5) 0; BPush (Num 3) 1; BPush (Num 8) 2;
                 BPush (Num 1) 3])
  /\ exists b',
       BinaryHeap.push (Num 4) 9
         (base_after [BPush (Num 5) 0; BPush (Num 3) 1; BPush (Num 8) 2;
                      BPush (Num 1) 3])
       = Return tt b'
       /\ BinaryHeap.values b'
          = Return [Num 5; Num 3; Num 8; Num 1; Num 4] b'
       /\ BinaryHeap.references b' = Return [0; 1; 2; 3; 9] b'
       /\ BinaryHeap.levels b' = 3.
Proof.
  set (cs := [BPush (Num 5) 0; BPush (Num 3) 1; BPush (Num 8) 2;
              BPush (Num 1) 3]).
  assert (H : base_reachable (base_after cs)).
  { apply (base_after_reachable cs). vm_compute. reflexivity. }
  split; [exact H|].
  destruct (push_appends (base_after cs) (Num 4) 9
              [Num 5; Num 3; Num 8; Num 1] [0; 1; 2; 3] H)
    as (b' & Hp & Hv & Hr & _ & HL);
    [vm_compute; reflexivity..|].
  exists b'. split; [exact Hp|]. split; [exact Hv|]. split; [exact Hr|].
  rewrite HL. vm_compute. reflexivity.
Defined.

(** ** Removal *)

Lemma pop_fast_levels (b b' : BinaryHeap.t) (v : VALUE_T) :
  wf b -> BinaryHeap.pop_fast b = Some (v, b') -> v <> inf ->
  BinaryHeap.levels b' =
  if decide (BinaryHeap.min_levels b < BinaryHeap.levels b
             /\ BinaryHeap.count b - 1 < 2 ^ (BinaryHeap.levels b - 2))
  then BinaryHeap.levels b - 1 else BinaryHeap.levels b.
Proof.
  intros Hwf Hpop Hv.
  destruct (pop_fast_base b Hwf)
    as (ir & b1 & Hp & _ & _ & _ & _ & _ & _ & Hfin & _).
  rewrite Hp in Hpop. injection Hpop as <- <-.
  destruct (Hfin Hv) as [_ Hrem].
  apply remove_shape in Hrem as (_ & _ & HL). simpl in HL. rewrite HL.
  destruct Hwf as [Hlv _ _ _ _ _].
  destruct (bool_decide_reflect
              (BinaryHeap.levels b > BinaryHeap.min_levels b)) as [Hgt|Hle];
    simpl; [|now rewrite decide_False by lia].
  rewrite shl1_pow_from by lia.
  destruct (bool_decide_reflect
              (BinaryHeap.count b - 1 < 2 ^ (BinaryHeap.levels b - 2)));
    [rewrite decide_True by lia|rewrite decide_False by lia]; reflexivity.
Qed.

(** X3: when [pop] on a base heap that was created with a capacity of at
    least two returns a pair [(v, r)], a stored value [x], the one that
    [min_val()] returns, is not above any value that [values()] lists,
    and [v] is [x] converted to C [float]. When [v] is the sentinel,
    nothing is removed: only [_popped_ref] changes. Otherwise the pairs
    listed by [values()] and [references()] before are, up to their
    order, the pair [(x, r)] and the pairs listed afterwards, [count]
    drops by one, and the last level is halved exactly when it is above
    the initial one and less than a quarter of it remains occupied. *)
Theorem pop_removes_one_entry (b b' : BinaryHeap.t) (v : VALUE_T)
    (r : REFERENCE_T) (vs : list VALUE_T) (rs : list REFERENCE_T) :
  base_reachable b ->
  BinaryHeap.values b = Return vs b ->
  BinaryHeap.references b = Return rs b ->
  BinaryHeap.pop b = Return (v, r) b' ->
  exists x,
    v = to_float x
    /\ BinaryHeap.min_val b = Return x b
    /\ Forall (value_le x) vs
    /\ (v = inf -> b' = BinaryHeap.set_popped_ref r b)
    /\ (v <> inf ->
          exists vs' rs',
            BinaryHeap.values b' = Return vs' b'
            /\ BinaryHeap.references b' = Return rs' b'
            /\ zip vs rs ≡ₚ (x, r) :: zip vs' rs'
            /\ BinaryHeap.count b' = BinaryHeap.count b - 1
            /\ BinaryHeap.levels b' =
               (if decide (BinaryHeap.min_levels b < BinaryHeap.levels b
                           /\ BinaryHeap.count b - 1
                              < 2 ^ (BinaryHeap.levels b - 2))
                then BinaryHeap.levels b - 1 else BinaryHeap.levels b)).
Proof.
  intros Hwf%base_reachable_wf Hvs Hrs Hpop.
  rewrite (@values_spec _ BinaryHeap.base_class b Hwf) in Hvs.
  rewrite (@references_spec _ BinaryHeap.base_class b Hwf) in Hrs.
  injection Hvs as <-. injection Hrs as <-.
  apply pop_base_inv in Hpop as (Hne & Hpop & ->).
  destruct (pop_fast_entries b b' v Hwf Hpop)
    as (ir & Hir & Hvx & Hpr & Hmin & Hlb & Hinf & Hperm).
  assert (Hwf' : wf b').
  { destruct (pop_fast_base b Hwf) as (ir0 & b1 & Hp & _ & _ & _ & Hwf1 & _).
    rewrite Hp in Hpop. now injection Hpop as _ <-. }
  exists (leaf b ir). split; [exact Hvx|]. split; [exact Hmin|].
  cbn [BinaryHeap.super BinaryHeap.base_class].
  split.
  { rewrite leaf_list_entries. apply Forall_fmap. exact Hlb. }
  split; [exact Hinf|]. intros Hv.
  destruct (Hperm Hv) as (_ & Hperm' & Hc).
  exists (leaf_list b'), (ref_list b').
  split; [exact (@values_spec _ BinaryHeap.base_class b' Hwf')|].
  split; [exact (@references_spec _ BinaryHeap.base_class b' Hwf')|].
  cbn [BinaryHeap.super BinaryHeap.base_class].
  split; [now rewrite <- !entries_zip|].
  split; [assumption|]. now apply (pop_fast_levels b b' v).
Qed.

(** The theorem at work on [BinaryHeap(4)] after push(5, 0),
    push(16777217, 1), push(8, 2) and two calls of [pop]: the third
    [pop] returns 16777216 and removes the stored 16777217. *)
Lemma pop_removes_one_entry_witness :
  base_reachable
    (base_after [BPush (Num 5) 0; BPush (Num 16777217) 1; BPush (Num 8) 2;
                 BPop; BPop])
  /\ exists x,
       Num 16777216 = to_float x
       /\ BinaryHeap.min_val
            (base_after [BPush (Num 5) 0; BPush (Num 16777217) 1;
                         BPush (Num 8) 2; BPop; BPop])
          = Return x
              (base_after [BPush (Num 5) 0; BPush (Num 16777217) 1;
                           BPush (Num 8) 2; BPop; BPop])
       /\ (Num 16777216 <> inf ->
             exists vs' rs',
               BinaryHeap.values
                 (base_after [BPush (Num 5) 0; BPush (Num 16777217) 1;
                              BPush (Num 8) 2; BPop; BPop; BPop])
               = Return vs'
                   (base_after [BPush (Num 5) 0; BPush (Num 16777217) 1;
                                BPush (Num 8) 2; BPop; BPop; BPop])
               /\ zip [Num 16777217] [1] ≡ₚ (x, 1) :: zip vs' rs').
Proof.
  set (cs := [BPush (Num 5) 0; BPush (Num 16777217) 1; BPush (Num 8) 2;
              BPop; BPop]).
  assert (H : base_reachable (base_after cs)).
  { apply (base_after_reachable cs). vm_compute. reflexivity. }
  split; [exact H|].
  destruct (pop_removes_one_entry (base_after cs) (base_after (cs ++ [BPop]))
              (Num 16777216) 1 [Num 16777217] [1] H)
    as (x & Hx & Hmin & _ & _ & Hrem);
    [vm_compute; reflexivity..|].
  exists x. split; [exact Hx|]. split; [exact Hmin|].
  intros Hv. destruct (Hrem Hv) as (vs' & rs' & Hvs & _ & Hperm & _).
  exists vs', rs'. auto.
Defined.

(** ** The least value *)

Lemma min_val_least {S : Type} `{BinaryHeap.subclass S} (self : S) :
  wf (BinaryHeap.super self) ->
  BinaryHeap.count (BinaryHeap.super self) <> 0 ->
  exists v,
    BinaryHeap.min_val self = Return v self
    /\ v ∈ leaf_list (BinaryHeap.super self)
    /\ Forall (value_le v) (leaf_list (BinaryHeap.super self))
    /\ lower_bound v (BinaryHeap.super self).
Proof.
  intros Hwf Hne.
  destruct (min_val_spec self Hwf) as (r & Hr & Hmin & Hlb).
  pose proof (wf_count _ Hwf) as Hcount.
  exists (leaf (BinaryHeap.super self) r).
  split; [assumption|]. split; [|split; [|assumption]].
  - destruct (decide (r < BinaryHeap.count (BinaryHeap.super self))).
    + unfold leaf_list. apply list_elem_of_fmap. exists r.
      split; [reflexivity|]. apply elem_of_seqZ. lia.
    + rewrite (wf_vacant _ Hwf r) by lia.
      rewrite (wf_vacant _ Hwf r) in Hlb by lia.
      rewrite <- (value_inf_le (leaf (BinaryHeap.super self) 0)).
      * unfold leaf_list. apply list_elem_of_fmap. exists 0.
        split; [reflexivity|]. apply elem_of_seqZ. lia.
      * apply Hlb. lia.
  - unfold leaf_list. apply Forall_fmap, Forall_forall.
    intros p Hp%elem_of_seqZ. simpl. apply Hlb. lia.
Qed.

(** X4: on every heap, base or indexed, that was created with a capacity
    of at least two and is not empty, [min_val()] returns, without
    changing the heap, an element of [values()] that is not above any
    other; [pop()] returns that value converted to C [float]. *)
Theorem min_val_is_least :
  (forall b vs, base_reachable b -> BinaryHeap.count b <> 0 ->
     BinaryHeap.values b = Return vs b ->
     exists x r b',
       BinaryHeap.min_val b = Return x b
       /\ x ∈ vs
       /\ Forall (value_le x) vs
       /\ BinaryHeap.pop b = Return (to_float x, r) b')
  /\ (forall h vs, indexed_reachable h ->
        BinaryHeap.count (FastUpdateBinaryHeap.base h) <> 0 ->
        BinaryHeap.values h = Return vs h ->
        exists x r h',
          BinaryHeap.min_val h = Return x h
          /\ x ∈ vs
          /\ Forall (value_le x) vs
          /\ BinaryHeap.pop h = Return (to_float x, r) h').
Proof.
  split.
  - intros b vs Hwf%base_reachable_wf Hne Hvs.
    rewrite (@values_spec _ BinaryHeap.base_class b Hwf) in Hvs.
    injection Hvs as <-.
    destruct (@min_val_least _ BinaryHeap.base_class b Hwf Hne)
      as (x & Hmin & Hin & Hall & Hlb).
    destruct (pop_fast_base b Hwf) as (ir0 & b1 & Hp & _).
    destruct (pop_fast_entries b b1 _ Hwf Hp)
      as (ir & _ & Hvx & _ & Hmin' & _).
    exists x, (BinaryHeap._popped_ref b1), b1.
    split; [assumption|]. split; [assumption|]. split; [assumption|].
    unfold BinaryHeap.pop. simpl. rewrite decide_False by assumption.
    rewrite Hp, Hvx. do 3 f_equal.
    rewrite Hmin in Hmin'. now injection Hmin'.
  - intros h vs Hf%indexed_reachable_fwf Hne Hvs.
    pose proof (fwf_base h Hf) as Hwf.
    rewrite (@values_spec _ FastUpdateBinaryHeap.fast_class h Hwf) in Hvs.
    injection Hvs as <-.
    destruct (@min_val_least _ FastUpdateBinaryHeap.fast_class h Hwf Hne)
      as (x & Hmin & Hin & Hall & Hlb).
    destruct (pop_fast_indexed h Hf) as (ir0 & h1 & Hp & _).
    pose proof (pop_fast_on_base _ _ _ Hp) as Hpb.
    destruct (pop_fast_entries _ _ _ Hwf Hpb)
      as (ir & _ & Hvx & _ & Hmin' & _).
    exists x, (BinaryHeap._popped_ref (FastUpdateBinaryHeap.base h1)), h1.
    split; [assumption|]. split; [assumption|]. split; [assumption|].
    unfold BinaryHeap.pop. simpl. rewrite decide_False by assumption.
    rewrite Hp, Hvx. do 3 f_equal.
    rewrite min_val_on_base, Hmin in Hmin'. simpl in Hmin'.
    now injection Hmin'.
Qed.

(** The theorem at work on [BinaryHeap(4)] after push(16777219, 0),
    push(16777217, 1), push(16777221, 2): [min_val()] returns 16777217
    and [pop()] returns 16777216. *)
Lemma min_val_is_least_witness :
  base_reachable
    (base_after [BPush (Num 16777219) 0; BPush (Num 16777217) 1;
                 BPush (Num 16777221) 2])
  /\ BinaryHeap.count
       (base_after [BPush (Num 16777219) 0; BPush (Num 16777217) 1;
                    BPush (Num 16777221) 2]) <> 0
  /\ exists x r b',
       BinaryHeap.min_val
         (base_after [BPush (Num 16777219) 0; BPush (Num 16777217) 1;
                      BPush (Num 16777221) 2])
       = Return x
           (base_after [BPush (Num 16777219) 0; BPush (Num 16777217) 1;
                        BPush (Num 16777221) 2])
       /\ x ∈ [Num 16777219; Num 16777217; Num 16777221]
       /\ Forall (value_le x) [Num 16777219; Num 16777217; Num 16777221]
       /\ BinaryHeap.pop
            (base_after [BPush (Num 16777219) 0; BPush (Num 16777217) 1;
                         BPush (Num 16777221) 2])
          = Return (to_float x, r) b'.
Proof.
  set (cs := [BPush (Num 16777219) 0; BPush (Num 16777217) 1;
              BPush (Num 16777221) 2]).
  assert (H : base_reachable (base_after cs)).
  { apply (base_after_reachable cs). vm_compute. reflexivity. }
  split; [exact H|]. split; [vm_compute; discriminate|].
  apply (proj1 min_val_is_least (base_after cs)
           [Num 16777219; Num 16777217; Num 16777221] H);
    [vm_compute; discriminate|vm_compute; reflexivity].
Defined.

(** ** Filling and draining *)

(** X5: heap sort in single precision. Take a base heap that was created
    with a capacity of at least two and whose listed values all convert
    to finite C floats, and a list of pairs whose values do. Pushing the
    pairs makes [values()] the old list followed by the pushed values;
    popping as many times as there are values then returns the
    conversions to C [float] of them all, each as often as it occurs, in
    non-decreasing order, and leaves the heap empty. *)
Theorem heap_sort (b : BinaryHeap.t) (vs : list VALUE_T)
    (l : list (VALUE_T * REFERENCE_T)) :
  base_reachable b ->
  BinaryHeap.values b = Return vs b ->
  Forall (fun v => to_float v <> inf) vs ->
  Forall (fun p => to_float p.1 <> inf) l ->
  let n := (length vs + length l)%nat in
  exists b1 b2,
    base_run (base_pushes l) b = Some b1
    /\ BinaryHeap.values b1 = Return (vs ++ l.*1) b1
    /\ base_run (repeat BPop n) b1 = Some b2
    /\ BinaryHeap.count b2 = 0
    /\ base_pops (repeat BPop n) b1 ≡ₚ to_float <$> (vs ++ l.*1)
    /\ StronglySorted value_le (base_pops (repeat BPop n) b1).
Proof.
  intros Hwf%base_reachable_wf Hvs Hfin Hl n.
  rewrite (@values_spec _ BinaryHeap.base_class b Hwf) in Hvs.
  injection Hvs as <-.
  cbn [BinaryHeap.super BinaryHeap.base_class] in *.
  destruct (base_pushes_run l b Hwf) as (b1 & Hrun & Hwf1 & He).
  assert (Hlist : leaf_list b1 = leaf_list b ++ l.*1).
  { rewrite !leaf_list_entries, He, fmap_app. reflexivity. }
  assert (Hn : BinaryHeap.count b1 = Z.of_nat n).
  { rewrite <- (leaf_list_length b1 Hwf1), Hlist.
    rewrite length_app, length_fmap. reflexivity. }
  assert (Hfin1 : Forall (fun v => to_float v <> inf) (leaf_list b1)).
  { rewrite Hlist. apply Forall_app. split; [assumption|].
    now apply Forall_fmap. }
  destruct (drain n b1 Hwf1 Hn Hfin1) as (Hperm & b2 & Hrun2 & Hc2).
  exists b1, b2. split; [assumption|].
  split.
  { rewrite (@values_spec _ BinaryHeap.base_class b1 Hwf1).
    cbn [BinaryHeap.super BinaryHeap.base_class]. now rewrite Hlist. }
  split; [assumption|]. split; [assumption|].
  split; [now rewrite Hperm, Hlist|].
  now apply base_pops_sorted.
Qed.

(** The theorem at work: sorting 5, 16777217, 8, 1, 4 with
    [BinaryHeap(4)]. *)
Lemma heap_sort_witness :
  base_reachable base4
  /\ Forall (fun v => to_float v <> inf) []
  /\ Forall (fun p : VALUE_T * REFERENCE_T => to_float p.1 <> inf)
       [(Num 5, 0); (Num 16777217, 1); (Num 8, 2); (Num 1, 3); (Num 4, 4)]
  /\ exists b1,
       base_run
         (base_pushes
            [(Num 5, 0); (Num 16777217, 1); (Num 8, 2); (Num 1, 3);
             (Num 4, 4)])
         base4 = Some b1
       /\ base_pops (repeat BPop 5) b1
          ≡ₚ to_float <$> [Num 5; Num 16777217; Num 8; Num 1; Num 4]
       /\ StronglySorted value_le (base_pops (repeat BPop 5) b1).
Proof.
  assert (H : base_reachable base4).
  { apply (base_after_reachable []). reflexivity. }
  assert (Hl : Forall (fun p : VALUE_T * REFERENCE_T => to_float p.1 <> inf)
                 [(Num 5, 0); (Num 16777217, 1); (Num 8, 2); (Num 1, 3);
                  (Num 4, 4)]).
  { repeat constructor; vm_compute; discriminate. }
  split; [exact H|]. split; [constructor|]. split; [exact Hl|].
  destruct (heap_sort base4 []
              [(Num 5, 0); (Num 16777217, 1); (Num 8, 2); (Num 1, 3);
               (Num 4, 4)] H)
    as (b1 & b2 & Hrun & _ & _ & _ & Hperm & Hsorted);
    [vm_compute; reflexivity|constructor|exact Hl|].
  exists b1. auto.
Defined.

(** ** No access outside the buffers *)

Lemma base_run_app (cs1 cs2 : list base_call) (b : BinaryHeap.t) :
  base_run (cs1 ++ cs2) b = b1 ← base_run cs1 b; base_run cs2 b1.
Proof.
  revert b. induction cs1 as [|c cs1 IH]; intros b; simpl; [reflexivity|].
  destruct (base_do c b); simpl; [apply IH|reflexivity].
Qed.

Lemma indexed_run_app (cs1 cs2 : list indexed_call)
    (h : FastUpdateBinaryHeap.t) :
  indexed_run (cs1 ++ cs2) h = h1 ← indexed_run cs1 h; indexed_run cs2 h1.
Proof.
  revert h. induction cs1 as [|c cs1 IH]; intros h; simpl; [reflexivity|].
  destruct (indexed_do c h); simpl; [apply IH|reflexivity].
Qed.

(** X6: memory safety of the base class. On a heap created with a
    capacity of at least two, no sequence of calls of [push], [pop],
    [min_val] and [reset] reads or writes outside the buffers: every
    call returns or raises, and leaves a reachable heap. *)
Theorem base_calls_defined (b : BinaryHeap.t) (cs : list base_call) :
  base_reachable b ->
  exists b', base_run cs b = Some b' /\ base_reachable b'.
Proof.
  intros Hreach. pose proof (base_reachable_wf b Hreach) as Hwf.
  destruct (base_run_defined cs b Hwf) as [b' Hrun].
  exists b'. split; [assumption|].
  destruct Hreach as (garbage & cap & cs0 & b0 & Hcap & Hnew & Hrun0).
  exists garbage, cap, (cs0 ++ cs), b0.
  split; [assumption|]. split; [assumption|].
  rewrite base_run_app, Hrun0. exact Hrun.
Qed.

(** The theorem at work on [BinaryHeap(4)]: pops on the empty heap, a
    [reset] between pushes, and a push that has to grow the heap. *)
Lemma base_calls_defined_witness :
  base_reachable base4
  /\ exists b',
       base_run [BPop; BPush (Num 5) 0; BPush (Num 3) 1; BReset; BPop;
                 BPush (Num 8) 2; BPush (Num 1) 3; BPush (Num 4) 4;
                 BMinVal; BPop; BPop; BPop; BPop; BPop] base4
       = Some b'
       /\ base_reachable b'.
Proof.
  assert (H : base_reachable base4).
  { apply (base_after_reachable []). reflexivity. }
  split; [exact H|]. apply base_calls_defined. exact H.
Defined.

(** X7: memory safety of the indexed class. On a heap created with a
    capacity of at least two, no sequence of calls of [push],
    [push_if_lower], [pop], [min_val], [reset] and of [value_of] with
    ids in [0, max_reference] reads or writes outside the buffers, and
    [max_reference] never changes. *)
Theorem indexed_calls_defined (h : FastUpdateBinaryHeap.t)
    (cs : list indexed_call) :
  indexed_reachable h ->
  Forall (value_of_in_range (FastUpdateBinaryHeap.max_reference h)) cs ->
  exists h',
    indexed_run cs h = Some h'
    /\ indexed_reachable h'
    /\ FastUpdateBinaryHeap.max_reference h'
       = FastUpdateBinaryHeap.max_reference h.
Proof.
  intros Hreach Hcs. pose proof (indexed_reachable_fwf h Hreach) as Hf.
  pose proof (indexed_reachable_I3 h Hreach) as HI.
  destruct (indexed_run_defined cs h Hf HI Hcs) as [h' Hrun].
  exists h'. split; [assumption|]. split.
  - destruct Hreach as (garbage & cap & m & cs0 & h0 & Hcap & Hnew & Hrun0).
    exists garbage, cap, m, (cs0 ++ cs), h0.
    split; [assumption|]. split; [assumption|].
    rewrite indexed_run_app, Hrun0. exact Hrun.
  - now destruct (indexed_run_I3 cs h h' Hf HI Hrun) as (_ & _ & Hmax).
Qed.

(** The theorem at work on [FastUpdateBinaryHeap(2, 2)]. *)
Lemma indexed_calls_defined_witness :
  indexed_reachable indexed2
  /\ Forall (value_of_in_range
               (FastUpdateBinaryHeap.max_reference indexed2))
       [IValueOf 0; IPush (Num 5) 0; IPush (Num 3) 7; IPushIfLower (Num 4) 1;
        IPush (Num 2) 2; IValueOf 2; IPop; IReset; IPop; IMinVal; IValueOf 1]
  /\ exists h',
       indexed_run
         [IValueOf 0; IPush (Num 5) 0; IPush (Num 3) 7;
          IPushIfLower (Num 4) 1; IPush (Num 2) 2; IValueOf 2; IPop; IReset;
          IPop; IMinVal; IValueOf 1] indexed2
       = Some h'
       /\ indexed_reachable h'
       /\ FastUpdateBinaryHeap.max_reference h'
          = FastUpdateBinaryHeap.max_reference indexed2.
Proof.
  assert (H : indexed_reachable indexed2).
  { apply (indexed_after_reachable []). reflexivity. }
  assert (Hcs : Forall (value_of_in_range
                          (FastUpdateBinaryHeap.max_reference indexed2))
       [IValueOf 0; IPush (Num 5) 0; IPush (Num 3) 7; IPushIfLower (Num 4) 1;
        IPush (Num 2) 2; IValueOf 2; IPop; IReset; IPop; IMinVal; IValueOf 1]).
  { repeat constructor; simpl; lia. }
  split; [exact H|]. split; [exact Hcs|].
  apply indexed_calls_defined; assumption.
Defined.

(** ** Construction *)

(** X8: [BinaryHeap(initial_capacity)] returns an empty heap whose
    number of levels is the least [L >= 0] with
    [initial_capacity <= 2**L], which is also the minimum it will ever
    shrink to; its buffers have [2 * 2**L] values, all of them the
    sentinel, and [2**L] references, and [values()] and [references()]
    list nothing. *)
Theorem new_sizes (garbage : nat -> REFERENCE_T) (initial_capacity : Z) :
  exists b,
    BinaryHeap.new garbage initial_capacity = Return tt b
    /\ BinaryHeap.count b = 0
    /\ BinaryHeap.min_levels b = BinaryHeap.levels b
    /\ 0 <= BinaryHeap.levels b
    /\ initial_capacity <= 2 ^ BinaryHeap.levels b
    /\ (forall l, 0 <= l < BinaryHeap.levels b -> 2 ^ l < initial_capacity)
    /\ Z.of_nat (length (BinaryHeap._values b)) = 2 * 2 ^ BinaryHeap.levels b
    /\ Z.of_nat (length (BinaryHeap._references b)) = 2 ^ BinaryHeap.levels b
    /\ (forall q, 0 <= q < 2 * 2 ^ BinaryHeap.levels b ->
          rd (BinaryHeap._values b) q = Some inf)
    /\ BinaryHeap.values b = Return [] b
    /\ BinaryHeap.references b = Return [] b.
Proof.
  destruct (new_base_shape garbage initial_capacity)
    as (b & Hnew & Hc & HL & Hmin & Hlv & Hlr & Hinf).
  destruct (init_levels_least initial_capacity) as (H0 & Hle & Hlt).
  cbv zeta in *. rewrite <- HL in *.
  exists b. split; [assumption|]. split; [assumption|].
  split; [congruence|]. split; [assumption|]. split; [assumption|].
  split; [assumption|]. split; [assumption|]. split; [assumption|].
  split.
  { intros q Hq. rewrite (rd_sel inf) by lia. now rewrite Hinf. }
  unfold BinaryHeap.values, BinaryHeap.references, for_range.
  cbn [BinaryHeap.super BinaryHeap.base_class]. rewrite Hc.
  split; reflexivity.
Qed.

(** The theorem at work: [BinaryHeap(5)] has three levels. *)
Lemma new_sizes_witness :
  exists b,
    BinaryHeap.new (fun _ => 0) 5 = Return tt b
    /\ BinaryHeap.levels b = 3.
Proof.
  destruct (new_sizes (fun _ => 0) 5)
    as (b & Hnew & _ & _ & H0 & Hle & Hlt & _).
  exists b. split; [exact Hnew|].
  destruct (Z_lt_le_dec (BinaryHeap.levels b) 3) as [Hlt3|Hge3].
  - exfalso.
    assert (H3 : 2 ^ BinaryHeap.levels b <= 2 ^ 2)
      by (apply Z.pow_le_mono_r; lia).
    change (2 ^ 2) with 4 in H3. lia.
  - destruct (Z_le_lt_eq_dec _ _ Hge3) as [Hgt|Heq]; [|now symmetry].
    exfalso. specialize (Hlt 3 ltac:(lia)). change (2 ^ 3) with 8 in Hlt. lia.
Defined.




(** ** References and cross references *)

Lemma xref_list_lookup (h : FastUpdateBinaryHeap.t) (k : Z) :
  0 <= k <= FastUpdateBinaryHeap.max_reference h ->
  xref_list h !! Z.to_nat k = Some (xref h k).
Proof.
  intros Hk. unfold xref_list. rewrite list_lookup_fmap.
  rewrite lookup_seqZ_lt by lia. simpl. do 2 f_equal. lia.
Qed.

(** X10: on every indexed heap that was created with a capacity of at
    least two, [cross_references()] returns one entry for every id in
    [0, max_reference], and the three listings agree with [value_of]: the
    entry of an id is -1 exactly when [value_of] raises [ValueError]
    ("invalid reference"), and otherwise it is a position [p] below
    [count] where [references()] has the id and [values()] has the value
    that [value_of] returns converted to C [float]. *)
Theorem cross_references_agree (h : FastUpdateBinaryHeap.t) :
  indexed_reachable h ->
  exists vs rs xs,
    BinaryHeap.values h = Return vs h
    /\ BinaryHeap.references h = Return rs h
    /\ FastUpdateBinaryHeap.cross_references h = Return xs h
    /\ length xs = Z.to_nat (FastUpdateBinaryHeap.max_reference h + 1)
    /\ forall k, 0 <= k <= FastUpdateBinaryHeap.max_reference h ->
         exists p,
           xs !! Z.to_nat k = Some p
           /\ ((p = -1
                /\ FastUpdateBinaryHeap.value_of k h
                   = Raise (ValueError "invalid reference")
                           (FastUpdateBinaryHeap.set_invalid_ref 1 h))
               \/ (0 <= p < BinaryHeap.count (FastUpdateBinaryHeap.base h)
                   /\ rs !! Z.to_nat p = Some k
                   /\ exists v,
                        vs !! Z.to_nat p = Some v
                        /\ FastUpdateBinaryHeap.value_of k h
                           = Return (to_float v)
                               (FastUpdateBinaryHeap.set_invalid_ref 0 h))).
Proof.
  intros Hf%indexed_reachable_fwf. pose proof (fwf_base h Hf) as Hwf.
  exists (leaf_list (FastUpdateBinaryHeap.base h)),
         (ref_list (FastUpdateBinaryHeap.base h)), (xref_list h).
  split; [exact (@values_spec _ FastUpdateBinaryHeap.fast_class h Hwf)|].
  split; [exact (@references_spec _ FastUpdateBinaryHeap.fast_class h Hwf)|].
  split; [now apply cross_references_spec|].
  split; [unfold xref_list; now rewrite length_fmap, length_seqZ|].
  intros k Hk. exists (xref h k). split; [now apply xref_list_lookup|].
  destruct (decide (xref h k = -1)) as [Habs|Hset].
  - left. split; [assumption|]. now apply value_of_absent.
  - right. destruct (fwf_sound h Hf k Hk Hset) as [Hp Href].
    split; [assumption|]. split.
    + rewrite ref_list_lookup by assumption. now rewrite Href.
    + exists (leaf (FastUpdateBinaryHeap.base h) (xref h k)).
      split; [now apply leaf_list_lookup|]. now apply value_of_present.
Qed.

(** The theorem at work on [FastUpdateBinaryHeap(2, 2)] after
    push(10, 1), push(4, 2). *)
Lemma cross_references_agree_witness :
  indexed_reachable (indexed_after [IPush (Num 10) 1; IPush (Num 4) 2])
  /\ exists vs rs xs,
       BinaryHeap.values (indexed_after [IPush (Num 10) 1; IPush (Num 4) 2])
       = Return vs (indexed_after [IPush (Num 10) 1; IPush (Num 4) 2])
       /\ BinaryHeap.references
            (indexed_after [IPush (Num 10) 1; IPush (Num 4) 2])
          = Return rs (indexed_after [IPush (Num 10) 1; IPush (Num 4) 2])
       /\ FastUpdateBinaryHeap.cross_references
            (indexed_after [IPush (Num 10) 1; IPush (Num 4) 2])
          = Return xs (indexed_after [IPush (Num 10) 1; IPush (Num 4) 2])
       /\ length xs = 3%nat.
Proof.
  set (cs := [IPush (Num 10) 1; IPush (Num 4) 2]).
  assert (H : indexed_reachable (indexed_after cs)).
  { apply (indexed_after_reachable cs). vm_compute. reflexivity. }
  split; [exact H|].
  destruct (cross_references_agree (indexed_after cs) H)
    as (vs & rs & xs & Hv & Hr & Hx & Hlen & _).
  exists vs, rs, xs. auto.
Defined.

(** X11: as long as [reset] is not called, the ids listed by
    [references()] of an indexed heap are pairwise distinct and lie in
    [0, max_reference], so that [count] never exceeds
    [max_reference + 1], and the entry of [cross_references()] for the
    id at position [p] is [p]. *)
Theorem references_distinct (h : FastUpdateBinaryHeap.t) :
  indexed_reachable_without_reset h ->
  exists rs xs,
    BinaryHeap.references h = Return rs h
    /\ FastUpdateBinaryHeap.cross_references h = Return xs h
    /\ NoDup rs
    /\ BinaryHeap.count (FastUpdateBinaryHeap.base h)
       <= Z.max 0 (FastUpdateBinaryHeap.max_reference h + 1)
    /\ forall (p : nat) k, rs !! p = Some k ->
         0 <= k <= FastUpdateBinaryHeap.max_reference h
         /\ xs !! Z.to_nat k = Some (Z.of_nat p).
Proof.
  intros (_ & Hf & HI)%without_reset_reachable.
  pose proof (fwf_base h Hf) as Hwf.
  exists (ref_list (FastUpdateBinaryHeap.base h)), (xref_list h).
  split; [exact (@references_spec _ FastUpdateBinaryHeap.fast_class h Hwf)|].
  split; [now apply cross_references_spec|].
  split; [now apply ref_list_NoDup|].
  split; [now apply count_le_max_reference|].
  intros p k Hp. unfold ref_list in Hp. rewrite list_lookup_fmap in Hp.
  destruct (seqZ 0 _ !! p) as [q|] eqn:Hq; [|discriminate].
  apply lookup_seqZ in Hq as [-> Hlt]. simpl in Hp. injection Hp as <-.
  pose proof (fwf_refs h Hf (Z.of_nat p) ltac:(lia)) as Hk.
  split; [assumption|].
  rewrite xref_list_lookup by assumption. f_equal.
  apply (proj1 HI). lia.
Qed.

(** The theorem at work on [FastUpdateBinaryHeap(2, 2)] after
    push(10, 1), push(4, 2), push(7, 1), pop. *)
Lemma references_distinct_witness :
  indexed_reachable_without_reset
    (indexed_after [IPush (Num 10) 1; IPush (Num 4) 2; IPush (Num 7) 1; IPop])
  /\ exists rs,
       BinaryHeap.references
         (indexed_after
            [IPush (Num 10) 1; IPush (Num 4) 2; IPush (Num 7) 1; IPop])
       = Return rs
           (indexed_after
              [IPush (Num 10) 1; IPush (Num 4) 2; IPush (Num 7) 1; IPop])
       /\ NoDup rs.
Proof.
  set (cs := [IPush (Num 10) 1; IPush (Num 4) 2; IPush (Num 7) 1; IPop]).
  assert (H : indexed_reachable_without_reset (indexed_after cs)).
  { apply (indexed_after_without_reset cs).
    - repeat constructor.
    - vm_compute. reflexivity. }
  split; [exact H|].
  destruct (references_distinct (indexed_after cs) H)
    as (rs & xs & Hr & _ & Hnd & _).
  exists rs. auto.
Defined.

(** X12: as long as [reset] is not called, a [pop] on an indexed heap
    that was created with a capacity of at least two, when it returns a
    pair [(v, r)] with a value other than the sentinel, returns an id of
    the table together with the value [value_of] gave for it, which is a
    stored value [x] converted to C [float]; afterwards the id is absent
    ([value_of] raises [ValueError] "invalid reference"), [value_of]
    answers as before for every other id of the table, [count] has
    dropped by one, and the pairs listed by [values()] and
    [references()] are those of before without the pair [(x, r)]. *)
Theorem pop_forgets_reference (h h' : FastUpdateBinaryHeap.t)
    (v : VALUE_T) (r : REFERENCE_T) (vs : list VALUE_T)
    (rs : list REFERENCE_T) :
  indexed_reachable_without_reset h ->
  BinaryHeap.values h = Return vs h ->
  BinaryHeap.references h = Return rs h ->
  BinaryHeap.pop h = Return (v, r) h' ->
  v <> inf ->
  0 <= r <= FastUpdateBinaryHeap.max_reference h
  /\ FastUpdateBinaryHeap.value_of r h
     = Return v (FastUpdateBinaryHeap.set_invalid_ref 0 h)
  /\ FastUpdateBinaryHeap.value_of r h'
     = Raise (ValueError "invalid reference")
             (FastUpdateBinaryHeap.set_invalid_ref 1 h')
  /\ (forall k, 0 <= k <= FastUpdateBinaryHeap.max_reference h -> k <> r ->
        result_of (FastUpdateBinaryHeap.value_of k h')
        = result_of (FastUpdateBinaryHeap.value_of k h))
  /\ BinaryHeap.count (FastUpdateBinaryHeap.base h')
     = BinaryHeap.count (FastUpdateBinaryHeap.base h) - 1
  /\ exists x vs' rs',
       v = to_float x
       /\ BinaryHeap.values h' = Return vs' h'
       /\ BinaryHeap.references h' = Return rs' h'
       /\ zip vs rs ≡ₚ (x, r) :: zip vs' rs'.
Proof.
  intros (_ & Hf & HI)%without_reset_reachable Hvs Hrs Hpop Hv.
  pose proof (fwf_base h Hf) as Hwf.
  rewrite (@values_spec _ FastUpdateBinaryHeap.fast_class h Hwf) in Hvs.
  rewrite (@references_spec _ FastUpdateBinaryHeap.fast_class h Hwf) in Hrs.
  injection Hvs as <-. injection Hrs as <-.
  apply pop_indexed_inv in Hpop as (Hne & Hpop & ->).
  destruct (pop_fast_xref h h' v Hf HI Hpop Hv)
    as (Hf' & HI' & Hmax & Hr & Hset & Hleaf & Habs & Hother).
  pose proof (fwf_base h' Hf') as Hwf'.
  pose proof (pop_fast_on_base _ _ _ Hpop) as Hpb.
  destruct (pop_fast_entries _ _ _ Hwf Hpb)
    as (ir & _ & Hvx & _ & _ & _ & _ & Hperm).
  destruct (Hperm Hv) as (_ & Hperm' & Hc).
  split; [assumption|]. split.
  { rewrite value_of_present by assumption. now rewrite Hleaf. }
  split.
  { apply value_of_absent; [assumption|lia|assumption]. }
  split.
  { intros k Hk Hkr. destruct (Hother k Hk Hkr) as [H1 H2].
    now apply value_of_frame. }
  split; [assumption|].
  exists (leaf (FastUpdateBinaryHeap.base h) ir),
         (leaf_list (FastUpdateBinaryHeap.base h')),
         (ref_list (FastUpdateBinaryHeap.base h')).
  split; [exact Hvx|].
  split; [exact (@values_spec _ FastUpdateBinaryHeap.fast_class h' Hwf')|].
  split; [exact (@references_spec _ FastUpdateBinaryHeap.fast_class h' Hwf')|].
  cbn [BinaryHeap.super FastUpdateBinaryHeap.fast_class].
  now rewrite <- !entries_zip.
Qed.

(** The theorem at work on [FastUpdateBinaryHeap(2, 2)] after
    push(16777219, 1), push(16777217, 2), push(16777221, 0): [pop]
    returns (16777216, 2). *)
Lemma pop_forgets_reference_witness :
  indexed_reachable_without_reset
    (indexed_after [IPush (Num 16777219) 1; IPush (Num 16777217) 2;
                    IPush (Num 16777221) 0])
  /\ Num 16777216 <> inf
  /\ FastUpdateBinaryHeap.value_of 2
       (indexed_after
          [IPush (Num 16777219) 1; IPush (Num 16777217) 2;
           IPush (Num 16777221) 0; IPop])
     = Raise (ValueError "invalid reference")
         (FastUpdateBinaryHeap.set_invalid_ref 1
            (indexed_after
               [IPush (Num 16777219) 1; IPush (Num 16777217) 2;
                IPush (Num 16777221) 0; IPop]))
  /\ (forall k, 0 <= k <= 2 -> k <> 2 ->
        result_of
          (FastUpdateBinaryHeap.value_of k
             (indexed_after
                [IPush (Num 16777219) 1; IPush (Num 16777217) 2;
                 IPush (Num 16777221) 0; IPop]))
        = result_of
            (FastUpdateBinaryHeap.value_of k
               (indexed_after
                  [IPush (Num 16777219) 1; IPush (Num 16777217) 2;
                   IPush (Num 16777221) 0])))
  /\ exists x vs' rs',
       Num 16777216 = to_float x
       /\ zip [Num 16777219; Num 16777217; Num 16777221] [1; 2; 0]
          ≡ₚ (x, 2) :: zip vs' rs'.
Proof.
  set (cs := [IPush (Num 16777219) 1; IPush (Num 16777217) 2;
              IPush (Num 16777221) 0]).
  assert (H : indexed_reachable_without_reset (indexed_after cs)).
  { apply (indexed_after_without_reset cs).
    - repeat constructor.
    - vm_compute. reflexivity. }
  split; [exact H|]. split; [discriminate|].
  destruct (pop_forgets_reference (indexed_after cs)
              (indexed_after (cs ++ [IPop])) (Num 16777216) 2
              [Num 16777219; Num 16777217; Num 16777221] [1; 2; 0] H)
    as (_ & _ & Habs & Hother & _ & x & vs' & rs' & Hx & _ & _ & Hperm);
    [vm_compute; reflexivity..|discriminate|].
  split; [exact Habs|]. split; [exact Hother|].
  exists x, vs', rs'. auto.
Defined.

(** X13: on every indexed heap that was created with a capacity of at
    least two, [push(value, k)] with an id of the table returns;
    afterwards [value_of(k)] returns [value] converted to C [float], and
    [value_of] answers as before for every other id of the table;
    [count] grows by one when the id was absent (its cross reference is
    -1) and stays otherwise. *)
Theorem push_keeps_other_ids (h : FastUpdateBinaryHeap.t) (value : VALUE_T)
    (k : REFERENCE_T) :
  indexed_reachable h ->
  0 <= k <= FastUpdateBinaryHeap.max_reference h ->
  exists h',
    FastUpdateBinaryHeap.push value k h = Return tt h'
    /\ FastUpdateBinaryHeap.value_of k h'
       = Return (to_float value) (FastUpdateBinaryHeap.set_invalid_ref 0 h')
    /\ (forall k', 0 <= k' <= FastUpdateBinaryHeap.max_reference h ->
          k' <> k ->
          result_of (FastUpdateBinaryHeap.value_of k' h')
          = result_of (FastUpdateBinaryHeap.value_of k' h))
    /\ BinaryHeap.count (FastUpdateBinaryHeap.base h')
       = (if decide (xref h k = -1)
          then BinaryHeap.count (FastUpdateBinaryHeap.base h) + 1
          else BinaryHeap.count (FastUpdateBinaryHeap.base h)).
Proof.
  intros Hf%indexed_reachable_fwf Hk.
  destruct (push_xref value k h Hf Hk)
    as (h' & Hrun & Hf' & Hmax & Hc & Hset & Hleaf & Hother).
  exists h'. split; [assumption|]. split.
  { rewrite value_of_present by (assumption || lia). now rewrite Hleaf. }
  split.
  { intros k' Hk' Hne. destruct (Hother k' Hk' Hne) as [H1 H2].
    now apply value_of_frame. }
  exact Hc.
Qed.

(** The theorem at work on [FastUpdateBinaryHeap(2, 2)] after
    push(10, 1), push(4, 2): pushing (7, 0) makes the heap grow. *)
Lemma push_keeps_other_ids_witness :
  indexed_reachable (indexed_after [IPush (Num 10) 1; IPush (Num 4) 2])
  /\ 0 <= 0 <= FastUpdateBinaryHeap.max_reference
                 (indexed_after [IPush (Num 10) 1; IPush (Num 4) 2])
  /\ exists h',
       FastUpdateBinaryHeap.push (Num 7) 0
         (indexed_after [IPush (Num 10) 1; IPush (Num 4) 2])
       = Return tt h'
       /\ FastUpdateBinaryHeap.value_of 0 h'
          = Return (Num 7) (FastUpdateBinaryHeap.set_invalid_ref 0 h')
       /\ BinaryHeap.count (FastUpdateBinaryHeap.base h') = 3.
Proof.
  set (cs := [IPush (Num 10) 1; IPush (Num 4) 2]).
  assert (H : indexed_reachable (indexed_after cs)).
  { apply (indexed_after_reachable cs). vm_compute. reflexivity. }
  assert (Hk : 0 <= 0 <= FastUpdateBinaryHeap.max_reference (indexed_after cs)).
  { vm_compute. split; discriminate. }
  split; [exact H|]. split; [exact Hk|].
  destruct (push_keeps_other_ids (indexed_after cs) (Num 7) 0 H Hk)
    as (h' & Hp & Hv & _ & Hc).
  exists h'. split; [exact Hp|]. split; [exact Hv|].
  rewrite Hc. vm_compute. reflexivity.
Defined.

(** ** The subclass on the inherited attributes *)

(** X14: on the attributes it inherits, a reachable indexed heap behaves
    as the base class: [pop], [min_val], [values], [references] and
    [reset] return or raise what the base class methods do on the
    inherited part, and leave that part in the state the base class
    methods leave it in; so does [push] with an id of the table that is
    absent. *)
Theorem inherited_on_base (h : FastUpdateBinaryHeap.t) :
  indexed_reachable h ->
  BinaryHeap.pop (FastUpdateBinaryHeap.base h) = on_base (BinaryHeap.pop h)
  /\ BinaryHeap.min_val (FastUpdateBinaryHeap.base h)
     = on_base (BinaryHeap.min_val h)
  /\ BinaryHeap.values (FastUpdateBinaryHeap.base h)
     = on_base (BinaryHeap.values h)
  /\ BinaryHeap.references (FastUpdateBinaryHeap.base h)
     = on_base (BinaryHeap.references h)
  /\ BinaryHeap.reset (FastUpdateBinaryHeap.base h)
     = on_base (FastUpdateBinaryHeap.reset h)
  /\ forall value k,
       0 <= k <= FastUpdateBinaryHeap.max_reference h ->
       xref h k = -1 ->
       BinaryHeap.push value k (FastUpdateBinaryHeap.base h)
       = on_base (FastUpdateBinaryHeap.push value k h).
Proof.
  intros Hf%indexed_reachable_fwf. pose proof (fwf_base h Hf) as Hwf.
  split.
  { apply pop_on_base. unfold BinaryHeap.pop.
    destruct (decide _); [discriminate|].
    destruct (pop_fast_indexed h Hf) as (ir & h1 & Hrun & _).
    rewrite Hrun. discriminate. }
  split; [apply min_val_on_base|].
  split.
  { unfold BinaryHeap.values.
    cbn [BinaryHeap.super FastUpdateBinaryHeap.fast_class
         BinaryHeap.base_class].
    now destruct (for_range _ _ _ _ _). }
  split.
  { unfold BinaryHeap.references.
    cbn [BinaryHeap.super FastUpdateBinaryHeap.fast_class
         BinaryHeap.base_class].
    now destruct (for_range _ _ _ _ _). }
  split.
  { destruct (reset_indexed_spec h Hf) as (h' & Hrun & _).
    rewrite Hrun. simpl. revert Hrun. unfold FastUpdateBinaryHeap.reset.
    destruct (BinaryHeap.reset (FastUpdateBinaryHeap.base h))
      as [[] b1|e b1|]; try discriminate.
    destruct (for_range _ _ _ _ _); try discriminate.
    intros [= <-]. reflexivity. }
  intros value k Hk Habs.
  destruct (push_absent value k h Hf Hk Habs)
    as (b' & x' & Hrun & Hpush & _).
  rewrite Hrun. simpl. unfold BinaryHeap.push. now rewrite Hpush.
Qed.

(** The theorem at work on [FastUpdateBinaryHeap(2, 2)] after
    push(10, 1), push(4, 2). *)
Lemma inherited_on_base_witness :
  indexed_reachable (indexed_after [IPush (Num 10) 1; IPush (Num 4) 2])
  /\ BinaryHeap.pop
       (FastUpdateBinaryHeap.base
          (indexed_after [IPush (Num 10) 1; IPush (Num 4) 2]))
     = on_base
         (BinaryHeap.pop (indexed_after [IPush (Num 10) 1; IPush (Num 4) 2])).
Proof.
  set (cs := [IPush (Num 10) 1; IPush (Num 4) 2]).
  assert (H : indexed_reachable (indexed_after cs)).
  { apply (indexed_after_reachable cs). vm_compute. reflexivity. }
  split; [exact H|].
  exact (proj1 (inherited_on_base (indexed_after cs) H)).
Defined.

(** ** The number of levels *)

Lemma I3_quarter (b : BinaryHeap.t) :
  wf b -> I3 b -> 1 <= BinaryHeap.min_levels b ->
  BinaryHeap.min_levels b < BinaryHeap.levels b ->
  2 ^ BinaryHeap.levels b <= 4 * BinaryHeap.count b.
Proof.
  intros [Hlv _ _ _ _ _] HI Hm Hgt. specialize (HI ltac:(lia)).
  rewrite (pow2_pred (BinaryHeap.levels b)) by lia.
  rewrite (pow2_pred (BinaryHeap.levels b - 1)) by lia.
  replace (BinaryHeap.levels b - 1 - 1) with (BinaryHeap.levels b - 2) by lia.
  lia.
Qed.

(** X15: the size of the last level follows the number of elements.
    After any calls on a heap created with a capacity of at least two,
    base or indexed, [min_levels] is still the number of levels the
    constructor chose (the least one whose level holds
    [initial_capacity] leaves), [levels] is not below it, [count] is at
    most the [2**levels] leaves, and whenever [levels] is above
    [min_levels] at least a quarter of the leaves are occupied. *)
Theorem levels_track_count :
  (forall garbage initial_capacity cs b0 b,
     2 <= initial_capacity ->
     BinaryHeap.new garbage initial_capacity = Return tt b0 ->
     base_run cs b0 = Some b ->
     initial_capacity <= 2 ^ BinaryHeap.min_levels b
     /\ 2 ^ (BinaryHeap.min_levels b - 1) < initial_capacity
     /\ BinaryHeap.min_levels b <= BinaryHeap.levels b
     /\ 0 <= BinaryHeap.count b <= 2 ^ BinaryHeap.levels b
     /\ (BinaryHeap.min_levels b < BinaryHeap.levels b ->
           2 ^ BinaryHeap.levels b <= 4 * BinaryHeap.count b))
  /\ (forall garbage initial_capacity max_reference cs h0 h,
        2 <= initial_capacity ->
        FastUpdateBinaryHeap.new garbage initial_capacity max_reference
        = Return tt h0 ->
        indexed_run cs h0 = Some h ->
        let b := FastUpdateBinaryHeap.base h in
        initial_capacity <= 2 ^ BinaryHeap.min_levels b
        /\ 2 ^ (BinaryHeap.min_levels b - 1) < initial_capacity
        /\ BinaryHeap.min_levels b <= BinaryHeap.levels b
        /\ 0 <= BinaryHeap.count b <= 2 ^ BinaryHeap.levels b
        /\ (BinaryHeap.min_levels b < BinaryHeap.levels b ->
              2 ^ BinaryHeap.levels b <= 4 * BinaryHeap.count b)).
Proof.
  split.
  - intros garbage cap cs b0 b Hcap Hnew Hrun.
    destruct (new_base_spec garbage cap Hcap) as (b0' & Hnew' & Hwf0 & _).
    destruct (new_base_shape garbage cap) as (b1 & Hnew1 & _ & HL & Hmin & _).
    rewrite Hnew in Hnew', Hnew1. injection Hnew' as <-. injection Hnew1 as <-.
    assert (HI0 : I3 b0) by (unfold I3; lia).
    destruct (base_run_I3 cs b0 b Hwf0 HI0 Hrun) as [HI Hmin'].
    pose proof (base_run_wf cs b0 b Hwf0 Hrun) as Hwf.
    destruct (init_levels_spec (Z.to_nat cap) 0 cap) as [Hle Hlt];
      [lia|lia|now left|].
    pose proof (init_levels_pos cap Hcap) as Hpos.
    rewrite Hmin', Hmin.
    split; [assumption|]. split; [destruct Hlt; [lia|assumption]|].
    rewrite <- Hmin, <- Hmin'.
    split; [apply (wf_levels b Hwf)|]. split; [apply (wf_count b Hwf)|].
    apply I3_quarter; [assumption|assumption|lia].
  - intros garbage cap m cs h0 h Hcap Hnew Hrun b.
    destruct (new_indexed_shape garbage cap m Hcap)
      as (h1 & Hnew1 & Hf0 & _ & _ & HL & Hmin & _).
    rewrite Hnew in Hnew1. injection Hnew1 as <-.
    assert (HI0 : I3 (FastUpdateBinaryHeap.base h0)) by (unfold I3; lia).
    destruct (indexed_run_I3 cs h0 h Hf0 HI0 Hrun) as (HI & Hmin' & _).
    pose proof (indexed_run_fwf cs h0 h Hf0 Hrun) as Hf.
    pose proof (fwf_base h Hf) as Hwf. fold b in Hwf, HI, Hmin'.
    destruct (init_levels_spec (Z.to_nat cap) 0 cap) as [Hle Hlt];
      [lia|lia|now left|].
    pose proof (init_levels_pos cap Hcap) as Hpos.
    rewrite Hmin', Hmin.
    split; [assumption|]. split; [destruct Hlt; [lia|assumption]|].
    rewrite <- Hmin, <- Hmin'.
    split; [apply (wf_levels b Hwf)|]. split; [apply (wf_count b Hwf)|].
    apply I3_quarter; [assumption|assumption|lia].
Qed.

(** The theorem at work on [BinaryHeap(4)] after five pushes and three
    pops. *)
Lemma levels_track_count_witness :
  2 <= 4
  /\ BinaryHeap.new (fun _ => 0) 4 = Return tt base4
  /\ base_run [BPush (Num 5) 0; BPush (Num 3) 1; BPush (Num 8) 2;
               BPush (Num 1) 3; BPush (Num 4) 4; BPop; BPop; BPop] base4
     = Some (base_after
               [BPush (Num 5) 0; BPush (Num 3) 1; BPush (Num 8) 2;
                BPush (Num 1) 3; BPush (Num 4) 4; BPop; BPop; BPop])
  /\ 4 <= 2 ^ BinaryHeap.min_levels
               (base_after
                  [BPush (Num 5) 0; BPush (Num 3) 1; BPush (Num 8) 2;
                   BPush (Num 1) 3; BPush (Num 4) 4; BPop; BPop; BPop]).
Proof.
  set (cs := [BPush (Num 5) 0; BPush (Num 3) 1; BPush (Num 8) 2;
              BPush (Num 1) 3; BPush (Num 4) 4; BPop; BPop; BPop]).
  assert (H1 : BinaryHeap.new (fun _ => 0) 4 = Return tt base4)
    by (vm_compute; reflexivity).
  assert (H2 : base_run cs base4 = Some (base_after cs))
    by (vm_compute; reflexivity).
  split; [lia|]. split; [exact H1|]. split; [exact H2|].
  exact (proj1 (proj1 levels_track_count (fun _ => 0) 4 cs base4
                  (base_after cs) ltac:(lia) H1 H2)).
Defined.

(** ** [push_if_lower] and the other ids *)

(** The cross references after a [push_if_lower] with an id of the
    table. *)
Lemma push_if_lower_xref (value : VALUE_T) (k : REFERENCE_T)
    (h : FastUpdateBinaryHeap.t) :
  fwf h -> 0 <= k <= FastUpdateBinaryHeap.max_reference h ->
  exists pushed h',
    FastUpdateBinaryHeap.push_if_lower value k h = Return pushed h'
    /\ fwf h'
    /\ FastUpdateBinaryHeap.max_reference h'
       = FastUpdateBinaryHeap.max_reference h
    /\ pushed = (if decide (xref h k = -1) then true
                 else value_lt value
                        (leaf (FastUpdateBinaryHeap.base h) (xref h k)))
    /\ xref h' k <> -1
    /\ leaf (FastUpdateBinaryHeap.base h') (xref h' k)
       = (if decide (xref h k = -1) then value
          else value_min value
                 (leaf (FastUpdateBinaryHeap.base h) (xref h k)))
    /\ forall k', 0 <= k' <= FastUpdateBinaryHeap.max_reference h ->
         k' <> k ->
         (xref h k' = -1 -> xref h' k' = -1)
         /\ (xref h k' <> -1 ->
               xref h' k' <> -1
               /\ leaf (FastUpdateBinaryHeap.base h') (xref h' k')
                  = leaf (FastUpdateBinaryHeap.base h) (xref h k')).
Proof.
  intros Hf Hk. pose proof (fwf_base h Hf) as Hwf.
  pose proof (wf_count _ Hwf) as Hcount.
  assert (Hf1 : fwf (FastUpdateBinaryHeap.set_pushed 1 h)).
  { destruct Hf. constructor; assumption. }
  destruct (decide (xref h k = -1)) as [Habs|Hset].
  - destruct (fast_append value k _ Hf1 Hk Habs)
      as (b' & x' & Hrun & Hw & Hf' & _ & Hc & Hx & Hleaf).
    change (xref (FastUpdateBinaryHeap.set_pushed 1 h) k) with (xref h k) in *.
    simpl in Hrun, Hw, Hf', Hc, Hx, Hleaf.
    eexists _, _. split; [|split; [exact Hf'|]].
    { unfold FastUpdateBinaryHeap.push_if_lower,
        FastUpdateBinaryHeap.push_if_lower_fast.
      rewrite bool_decide_eq_true_2 by assumption. simpl.
      rewrite crossref_read by assumption. simpl.
      rewrite decide_False by (rewrite Habs; lia).
      rewrite Hrun. simpl. rewrite Hw. simpl.
      rewrite decide_False by lia. reflexivity. }
    pose proof (wf_count _ (fwf_base _ Hf')) as Hcount'. simpl in Hcount'.
    split; [reflexivity|]. split; [reflexivity|].
    split; [rewrite Hx; lia|]. split.
    + rewrite Hx. simpl. rewrite Hleaf by lia. now rewrite decide_True.
    + intros k' Hk' Hne.
      assert (Hsame : xref (FastUpdateBinaryHeap.set_crossref x'
                              (FastUpdateBinaryHeap.set_base b'
                                 (FastUpdateBinaryHeap.set_pushed 1 h))) k'
                      = xref h k').
      { unfold xref. simpl. eapply sel_wr_ne; eauto. }
      rewrite Hsame. split; [auto|]. intros Hset. split; [assumption|].
      destruct (fwf_sound h Hf k' Hk' Hset) as [Hp _]. simpl.
      rewrite Hleaf by lia.
      rewrite decide_False, decide_True by lia. reflexivity.
  - destruct (fwf_sound h Hf k Hk Hset) as [Hp Href].
    destruct (value_lt value (leaf (FastUpdateBinaryHeap.base h) (xref h k)))
      eqn:Hlt.
    + destruct (push_if_lower_present_lower value k h Hf Hk Hset Hlt)
        as (values' & Hrun & Hf' & _ & Hleaf & _).
      cbv zeta in Hrun, Hf'.
      eexists _, _. split; [exact Hrun|]. split; [exact Hf'|].
      split; [reflexivity|]. split; [reflexivity|].
      change (xref (FastUpdateBinaryHeap.set_base
                      (BinaryHeap.set_values values'
                         (FastUpdateBinaryHeap.base h))
                      (FastUpdateBinaryHeap.set_pushed 1 h)))
        with (xref h).
      split; [assumption|]. simpl. split.
      * rewrite Hleaf by lia. rewrite decide_True by reflexivity.
        unfold value_min. now rewrite Hlt.
      * intros k' Hk' Hne. split; [auto|]. intros Hset'.
        split; [assumption|].
        destruct (fwf_sound h Hf k' Hk' Hset') as [Hp' Href'].
        rewrite Hleaf by lia. rewrite decide_False; [reflexivity|].
        intros Heq. rewrite Heq in Href'. congruence.
    + exists false, (FastUpdateBinaryHeap.set_pushed 0 h).
      split; [now apply push_if_lower_present_not_lower|].
      split; [destruct Hf; constructor; assumption|].
      split; [reflexivity|]. split; [reflexivity|].
      change (xref (FastUpdateBinaryHeap.set_pushed 0 h)) with (xref h).
      split; [assumption|]. simpl. split.
      * unfold value_min. now rewrite Hlt.
      * intros k' Hk' Hne. auto.
Qed.

(** X16: on every indexed heap that was created with a capacity of at
    least two, [push_if_lower(value, k)] with an id of the table never
    raises a stored value: afterwards the id is present, the value stored
    for it is [value] when the id was absent and the smaller of [value]
    and the value stored before otherwise, and [value_of(k)] returns that
    value converted to C [float]; [value_of] answers as before for every
    other id of the table, and the call returns [False] exactly when the
    id was present with a stored value not above [value]. *)
Theorem push_if_lower_keeps_minimum (h : FastUpdateBinaryHeap.t)
    (value : VALUE_T) (k : REFERENCE_T) :
  indexed_reachable h ->
  0 <= k <= FastUpdateBinaryHeap.max_reference h ->
  let b := FastUpdateBinaryHeap.base h in
  let stored := if decide (xref h k = -1) then value
                else value_min value (leaf b (xref h k)) in
  exists pushed h',
    FastUpdateBinaryHeap.push_if_lower value k h = Return pushed h'
    /\ xref h' k <> -1
    /\ leaf (FastUpdateBinaryHeap.base h') (xref h' k) = stored
    /\ FastUpdateBinaryHeap.value_of k h'
       = Return (to_float stored) (FastUpdateBinaryHeap.set_invalid_ref 0 h')
    /\ (forall k', 0 <= k' <= FastUpdateBinaryHeap.max_reference h ->
          k' <> k ->
          result_of (FastUpdateBinaryHeap.value_of k' h')
          = result_of (FastUpdateBinaryHeap.value_of k' h))
    /\ (pushed = false <->
        xref h k <> -1 /\ value_le (leaf b (xref h k)) value).
Proof.
  intros Hf%indexed_reachable_fwf Hk b stored.
  destruct (push_if_lower_xref value k h Hf Hk)
    as (pushed & h' & Hrun & Hf' & Hmax & Hpushed & Hset & Hleaf & Hother).
  exists pushed, h'. split; [assumption|]. split; [assumption|].
  split; [exact Hleaf|]. split.
  { rewrite value_of_present by (assumption || lia). now rewrite Hleaf. }
  split.
  { intros k' Hk' Hne. destruct (Hother k' Hk' Hne) as [H1 H2].
    now apply value_of_frame. }
  rewrite Hpushed. fold b.
  destruct (decide (xref h k = -1)); split.
  - discriminate.
  - intros [Hset' _]. contradiction.
  - intros Hlt. split; [assumption|exact Hlt].
  - intros [_ Hle]. exact Hle.
Qed.

(** The theorem at work on [FastUpdateBinaryHeap(2, 2)] after
    push(16777219, 1), push(4, 2): push_if_lower(16777217, 1) lowers the
    value of the id 1, and [value_of(1)] returns 16777216. *)
Lemma push_if_lower_keeps_minimum_witness :
  indexed_reachable
    (indexed_after [IPush (Num 16777219) 1; IPush (Num 4) 2])
  /\ 0 <= 1 <= FastUpdateBinaryHeap.max_reference
                 (indexed_after [IPush (Num 16777219) 1; IPush (Num 4) 2])
  /\ exists pushed h',
       FastUpdateBinaryHeap.push_if_lower (Num 16777217) 1
         (indexed_after [IPush (Num 16777219) 1; IPush (Num 4) 2])
       = Return pushed h'
       /\ leaf (FastUpdateBinaryHeap.base h') (xref h' 1) = Num 16777217
       /\ FastUpdateBinaryHeap.value_of 1 h'
          = Return (Num 16777216)
                   (FastUpdateBinaryHeap.set_invalid_ref 0 h').
Proof.
  set (cs := [IPush (Num 16777219) 1; IPush (Num 4) 2]).
  assert (H : indexed_reachable (indexed_after cs)).
  { apply (indexed_after_reachable cs). vm_compute. reflexivity. }
  assert (Hk : 0 <= 1 <= FastUpdateBinaryHeap.max_reference (indexed_after cs)).
  { vm_compute. split; discriminate. }
  split; [exact H|]. split; [exact Hk|].
  destruct (push_if_lower_keeps_minimum (indexed_after cs) (Num 16777217) 1
              H Hk)
    as (pushed & h' & Hp & _ & Hl & Hv & _).
  exists pushed, h'. split; [exact Hp|]. split.
  - rewrite Hl. vm_compute. reflexivity.
  - rewrite Hv. f_equal.
Defined.

(** ** Push, then pop *)

(** X17: on a base heap that was created with a capacity of at least
    two, pushing a value that is strictly below every listed value and
    whose conversion to C [float] is finite, and popping right away,
    returns the pushed id with the pushed value converted to C [float],
    and leaves [values()] and [references()] exactly as they were before
    the push. *)
Theorem push_pop_round_trip (b : BinaryHeap.t) (value : VALUE_T)
    (reference : REFERENCE_T) (vs : list VALUE_T) (rs : list REFERENCE_T) :
  base_reachable b ->
  BinaryHeap.values b = Return vs b ->
  BinaryHeap.references b = Return rs b ->
  Forall (fun x => value_lt value x = true) vs ->
  to_float value <> inf ->
  exists b1 b2,
    BinaryHeap.push value reference b = Return tt b1
    /\ BinaryHeap.pop b1 = Return (to_float value, reference) b2
    /\ BinaryHeap.values b2 = Return vs b2
    /\ BinaryHeap.references b2 = Return rs b2.
Proof.
  intros Hwf%base_reachable_wf Hvs Hrs Hlow Hff.
  assert (Hfin : value <> inf).
  { intros ->. apply Hff. apply to_float_inf. }
  rewrite (@values_spec _ BinaryHeap.base_class b Hwf) in Hvs.
  rewrite (@references_spec _ BinaryHeap.base_class b Hwf) in Hrs.
  injection Hvs as <-. injection Hrs as <-.
  cbn [BinaryHeap.super BinaryHeap.base_class] in *.
  pose proof (wf_count _ Hwf) as Hcount.
  destruct (push_fast_spec value reference b Hwf)
    as (b1 & Hrun & Hwf1 & Hc1 & _ & _ & Hleaf1 & Href1 & Hlast1).
  pose proof (wf_count _ Hwf1) as Hcount1.
  destruct (pop_fast_base b1 Hwf1)
    as (ir & b2 & Hp & Hir & Hlb & _ & Hwf2 & Hpr & _ & Hrem & _).
  assert (Hc : leaf b1 (BinaryHeap.count b) = value).
  { rewrite Hleaf1 by lia. now rewrite decide_True. }
  assert (Heq : ir = BinaryHeap.count b).
  { pose proof (Hlb (BinaryHeap.count b) ltac:(lia)) as Hle.
    rewrite Hc in Hle. rewrite Hleaf1 in Hle by lia.
    destruct (decide (ir = BinaryHeap.count b)) as [|Hne]; [assumption|].
    exfalso. destruct (decide (ir < BinaryHeap.count b)) as [Hlt|Hge].
    - assert (Hin : leaf b ir ∈ leaf_list b).
      { unfold leaf_list. apply list_elem_of_fmap. exists ir.
        split; [reflexivity|]. apply elem_of_seqZ. lia. }
      pose proof (proj1 (Forall_forall _ _) Hlow _ Hin) as Hlt'.
      unfold value_le in Hle. congruence.
    - apply Hfin. now apply value_inf_le. }
  subst ir. rewrite Hc in *. rewrite Hlast1 in *.
  destruct (Hrem Hff) as [_ Hrem'].
  assert (Hwfp : wf (BinaryHeap.set_popped_ref reference b1)).
  { destruct Hwf1. constructor; assumption. }
  destruct (remove_spec (BinaryHeap.count b) _ Hwfp ltac:(simpl; lia))
    as (b2' & Hr2 & _ & Hc2 & _ & _ & Hleaf2 & Href2).
  change (BinaryHeap.levels (BinaryHeap.set_popped_ref reference b1))
    with (BinaryHeap.levels b1) in Hr2.
  rewrite Hr2 in Hrem'. injection Hrem' as ->.
  simpl in Hc2, Hleaf2, Href2.
  change (leaf (BinaryHeap.set_popped_ref reference b1)) with (leaf b1)
    in Hleaf2.
  change (ref_at (BinaryHeap.set_popped_ref reference b1)) with (ref_at b1)
    in Href2.
  exists b1, b2.
  split; [unfold BinaryHeap.push; now rewrite Hrun|].
  split.
  { unfold BinaryHeap.pop. simpl. rewrite decide_False by lia.
    rewrite Hp, Hpr. reflexivity. }
  split.
  - rewrite (@values_spec _ BinaryHeap.base_class b2 Hwf2). f_equal.
    cbn [BinaryHeap.super BinaryHeap.base_class].
    unfold leaf_list. rewrite Hc2, Hc1.
    replace (BinaryHeap.count b + 1 - 1) with (BinaryHeap.count b) by lia.
    apply fmap_seqZ_ext. intros j Hj.
    rewrite Hleaf2 by lia. rewrite decide_False by lia.
    rewrite Hleaf1 by lia. now rewrite decide_False, decide_True by lia.
  - rewrite (@references_spec _ BinaryHeap.base_class b2 Hwf2). f_equal.
    cbn [BinaryHeap.super BinaryHeap.base_class].
    unfold ref_list. rewrite Hc2, Hc1.
    replace (BinaryHeap.count b + 1 - 1) with (BinaryHeap.count b) by lia.
    apply fmap_seqZ_ext. intros j Hj.
    rewrite Href2 by lia. rewrite decide_False by lia.
    now rewrite Href1 by lia.
Qed.

(** The theorem at work on [BinaryHeap(4)] after push(16777221, 0),
    push(16777219, 1): push(16777217, 9), then pop, which returns
    (16777216, 9). *)
Lemma push_pop_round_trip_witness :
  base_reachable
    (base_after [BPush (Num 16777221) 0; BPush (Num 16777219) 1])
  /\ Forall (fun x => value_lt (Num 16777217) x = true)
       [Num 16777221; Num 16777219]
  /\ to_float (Num 16777217) <> inf
  /\ exists b1 b2,
       BinaryHeap.push (Num 16777217) 9
         (base_after [BPush (Num 16777221) 0; BPush (Num 16777219) 1])
       = Return tt b1
       /\ BinaryHeap.pop b1 = Return (to_float (Num 16777217), 9) b2
       /\ BinaryHeap.values b2 = Return [Num 16777221; Num 16777219] b2
       /\ BinaryHeap.references b2 = Return [0; 1] b2.
Proof.
  set (cs := [BPush (Num 16777221) 0; BPush (Num 16777219) 1]).
  assert (H : base_reachable (base_after cs)).
  { apply (base_after_reachable cs). vm_compute. reflexivity. }
  assert (Hlow : Forall (fun x => value_lt (Num 16777217) x = true)
                   [Num 16777221; Num 16777219]).
  { repeat constructor. }
  assert (Hff : to_float (Num 16777217) <> inf).
  { vm_compute. discriminate. }
  split; [exact H|]. split; [exact Hlow|]. split; [exact Hff|].
  apply (push_pop_round_trip (base_after cs) (Num 16777217) 9
           [Num 16777221; Num 16777219] [0; 1] H);
    [vm_compute; reflexivity..|exact Hlow|exact Hff].
Defined.

(** ** [value_of] and [push] whatever the initial capacity *)

(** X18: on every indexed heap, whatever its initial capacity, [value_of]
    with an id of the table that is absent raises [ValueError] ("invalid
    reference") and sets [_invalid_ref]; with an id that is present it
    clears [_invalid_ref] and returns the value of the leaf that the
    cross reference names, read by direct indexing and converted to C
    [float]. [push] and [push_if_lower] with an id outside the table
    raise [ValueError] with another message and leave the heap as it
    is. *)
Theorem value_of_spec (h : FastUpdateBinaryHeap.t) (k : REFERENCE_T) :
  indexed_created h ->
  0 <= k <= FastUpdateBinaryHeap.max_reference h ->
  (xref h k = -1 ->
     FastUpdateBinaryHeap.value_of k h
     = Raise (ValueError "invalid reference")
             (FastUpdateBinaryHeap.set_invalid_ref 1 h))
  /\ (xref h k <> -1 ->
        FastUpdateBinaryHeap.value_of k h
        = Return (to_float (leaf (FastUpdateBinaryHeap.base h) (xref h k)))
                 (FastUpdateBinaryHeap.set_invalid_ref 0 h)
        /\ rd (BinaryHeap._values (FastUpdateBinaryHeap.base h))
              (2 ^ BinaryHeap.levels (FastUpdateBinaryHeap.base h) - 1
               + xref h k)
           = Some (leaf (FastUpdateBinaryHeap.base h) (xref h k)))
  /\ (forall value k',
        ~ (0 <= k' <= FastUpdateBinaryHeap.max_reference h) ->
        FastUpdateBinaryHeap.push value k' h
        = Raise (ValueError "reference outside of range [0, max_reference]")
                h
        /\ FastUpdateBinaryHeap.push_if_lower value k' h
           = Raise
               (ValueError "reference outside of range [0, max_reference]")
               h)
  /\ ValueError "invalid reference"
     <> ValueError "reference outside of range [0, max_reference]".
Proof.
  intros Hf%indexed_created_inv Hk. split; [|split; [|split]].
  - intros Habs. now apply value_of_absent_created.
  - intros Hset. split; [now apply value_of_present_created|].
    rewrite <- shl1_pow by exact (created_levels h Hf).
    now apply leaf_read_created.
  - intros value k' Hout. split.
    + now apply push_out_of_range.
    + now apply push_if_lower_out_of_range.
  - discriminate.
Qed.

(** The theorem at work on [FastUpdateBinaryHeap(1, 2)] after
    push(16777217, 1): the id 0 is absent, [value_of(1)] returns
    16777216, and the id 3 is outside the table. *)
Lemma value_of_spec_witness :
  indexed_created (indexed1_after [IPush (Num 16777217) 1])
  /\ 0 <= 0 <= FastUpdateBinaryHeap.max_reference
                 (indexed1_after [IPush (Num 16777217) 1])
  /\ 0 <= 1 <= FastUpdateBinaryHeap.max_reference
                 (indexed1_after [IPush (Num 16777217) 1])
  /\ FastUpdateBinaryHeap.value_of 0
       (indexed1_after [IPush (Num 16777217) 1])
     = Raise (ValueError "invalid reference")
             (FastUpdateBinaryHeap.set_invalid_ref 1
                (indexed1_after [IPush (Num 16777217) 1]))
  /\ FastUpdateBinaryHeap.value_of 1
       (indexed1_after [IPush (Num 16777217) 1])
     = Return (Num 16777216)
              (FastUpdateBinaryHeap.set_invalid_ref 0
                 (indexed1_after [IPush (Num 16777217) 1]))
  /\ FastUpdateBinaryHeap.push (Num 1) 3
       (indexed1_after [IPush (Num 16777217) 1])
     = Raise (ValueError "reference outside of range [0, max_reference]")
             (indexed1_after [IPush (Num 16777217) 1]).
Proof.
  set (h := indexed1_after [IPush (Num 16777217) 1]).
  assert (Hreach : indexed_created h).
  { apply (indexed1_after_created [IPush (Num 16777217) 1]).
    vm_compute. reflexivity. }
  assert (Hk0 : 0 <= 0 <= FastUpdateBinaryHeap.max_reference h).
  { vm_compute. split; discriminate. }
  assert (Hk1 : 0 <= 1 <= FastUpdateBinaryHeap.max_reference h).
  { vm_compute. split; discriminate. }
  split; [exact Hreach|]. split; [exact Hk0|]. split; [exact Hk1|].
  split; [|split].
  - apply (proj1 (value_of_spec h 0 Hreach Hk0)). vm_compute. reflexivity.
  - destruct (proj1 (proj2 (value_of_spec h 1 Hreach Hk1))) as [Hv _].
    + vm_compute. discriminate.
    + rewrite Hv. f_equal.
  - apply (proj1 (proj2 (proj2 (value_of_spec h 0 Hreach Hk0)))).
    vm_compute. intros [_ Hle]. apply Hle. reflexivity.
Defined.

(** X19: on every indexed heap, whatever its initial capacity, [push]
    with an id of the table that is present overwrites the value in the
    leaf the cross reference names and repairs the path from that leaf
    towards the root: nothing is appended, [count], the levels, the
    references and the cross references are unchanged, the tree is in
    order (I1), the slots off the path keep their values, and afterwards
    [value_of] of the id returns the new value converted to C
    [float]. *)
Theorem push_present_spec (h : FastUpdateBinaryHeap.t) (value : VALUE_T)
    (k : REFERENCE_T) :
  indexed_created h ->
  0 <= k <= FastUpdateBinaryHeap.max_reference h ->
  xref h k <> -1 ->
  let b := FastUpdateBinaryHeap.base h in
  let i := 2 ^ BinaryHeap.levels b - 1 + xref h k in
  exists h',
    FastUpdateBinaryHeap.push value k h = Return tt h'
    /\ I1 (FastUpdateBinaryHeap.base h')
    /\ BinaryHeap.count (FastUpdateBinaryHeap.base h') = BinaryHeap.count b
    /\ BinaryHeap.levels (FastUpdateBinaryHeap.base h') = BinaryHeap.levels b
    /\ BinaryHeap._references (FastUpdateBinaryHeap.base h')
       = BinaryHeap._references b
    /\ FastUpdateBinaryHeap._crossref h' = FastUpdateBinaryHeap._crossref h
    /\ (forall r, 0 <= r ->
          leaf (FastUpdateBinaryHeap.base h') r =
          if decide (r = xref h k) then value else leaf b r)
    /\ (forall q, q <> i -> ~ anc q ((i - 1) / 2) ->
          vget (BinaryHeap._values (FastUpdateBinaryHeap.base h')) q
          = vget (BinaryHeap._values b) q)
    /\ FastUpdateBinaryHeap.value_of k h'
       = Return (to_float value) (FastUpdateBinaryHeap.set_invalid_ref 0 h').
Proof.
  intros Hf%indexed_created_inv Hk Hset b i.
  destruct (push_present_created value k h Hf Hk Hset)
    as (values' & Hrun & Hf' & Hleaf & Hframe).
  rewrite shl1_pow in Hframe by exact (created_levels h Hf).
  eexists. split; [exact Hrun|]. split; [exact (created_I1 _ Hf')|].
  do 4 (split; [reflexivity|]). split; [exact Hleaf|].
  split; [exact Hframe|].
  rewrite value_of_present_created; [|exact Hf'|exact Hk|exact Hset].
  f_equal. simpl. change (xref _ k) with (xref h k).
  rewrite Hleaf by (pose proof (created_sound h k Hf Hk Hset); lia).
  now rewrite decide_True.
Qed.

(** The theorem at work: scenario B of the specification on
    [FastUpdateBinaryHeap(1, 2)], push(10, 0) then push(4, 0). *)
Lemma push_present_spec_witness :
  indexed_created (indexed1_after [IPush (Num 10) 0])
  /\ 0 <= 0 <= FastUpdateBinaryHeap.max_reference
                 (indexed1_after [IPush (Num 10) 0])
  /\ xref (indexed1_after [IPush (Num 10) 0]) 0 <> -1
  /\ exists h',
       FastUpdateBinaryHeap.push (Num 4) 0
         (indexed1_after [IPush (Num 10) 0])
       = Return tt h'
       /\ BinaryHeap.count (FastUpdateBinaryHeap.base h')
          = BinaryHeap.count
              (FastUpdateBinaryHeap.base (indexed1_after [IPush (Num 10) 0]))
       /\ FastUpdateBinaryHeap.value_of 0 h'
          = Return (Num 4) (FastUpdateBinaryHeap.set_invalid_ref 0 h').
Proof.
  assert (Hreach : indexed_created (indexed1_after [IPush (Num 10) 0])).
  { apply (indexed1_after_created [IPush (Num 10) 0]).
    vm_compute. reflexivity. }
  assert (Hk : 0 <= 0 <= FastUpdateBinaryHeap.max_reference
                            (indexed1_after [IPush (Num 10) 0])).
  { vm_compute. split; discriminate. }
  assert (Hset : xref (indexed1_after [IPush (Num 10) 0]) 0 <> -1).
  { vm_compute. discriminate. }
  split; [exact Hreach|]. split; [exact Hk|]. split; [exact Hset|].
  destruct (push_present_spec _ (Num 4) 0 Hreach Hk Hset)
    as (h' & Hrun & _ & Hc & _ & _ & _ & _ & _ & Hval).
  exists h'. split; [exact Hrun|]. split; [exact Hc|].
  rewrite Hval. f_equal.
Defined.

(** ** [pop] on a heap that holds nothing but the sentinel *)

(** X20: on a heap, base or indexed, that was created with a capacity of
    at least two, is not empty and stores nothing but the sentinel,
    [pop] returns the sentinel with the reference found in the last leaf
    position and removes nothing: only [_popped_ref] changes, [count],
    the values, the references and the cross references stay as they
    are, and nothing is raised. *)
Theorem pop_sentinel :
  (forall b, base_reachable b -> BinaryHeap.count b <> 0 ->
     (forall r, 0 <= r < BinaryHeap.count b -> leaf b r = inf) ->
     exists ref b',
       BinaryHeap.pop b = Return (inf, ref) b'
       /\ ref = ref_at b (2 ^ BinaryHeap.levels b - 1)
       /\ b' = BinaryHeap.set_popped_ref ref b
       /\ BinaryHeap.count b' = BinaryHeap.count b
       /\ BinaryHeap._values b' = BinaryHeap._values b
       /\ BinaryHeap._references b' = BinaryHeap._references b)
  /\ (forall h, indexed_reachable h ->
        BinaryHeap.count (FastUpdateBinaryHeap.base h) <> 0 ->
        (forall r, 0 <= r < BinaryHeap.count (FastUpdateBinaryHeap.base h) ->
                   leaf (FastUpdateBinaryHeap.base h) r = inf) ->
        exists ref h',
          BinaryHeap.pop h = Return (inf, ref) h'
          /\ ref = ref_at (FastUpdateBinaryHeap.base h)
                     (2 ^ BinaryHeap.levels (FastUpdateBinaryHeap.base h) - 1)
          /\ h' = FastUpdateBinaryHeap.set_base
                    (BinaryHeap.set_popped_ref ref (FastUpdateBinaryHeap.base h))
                    h
          /\ BinaryHeap.count (FastUpdateBinaryHeap.base h')
             = BinaryHeap.count (FastUpdateBinaryHeap.base h)
          /\ BinaryHeap._values (FastUpdateBinaryHeap.base h')
             = BinaryHeap._values (FastUpdateBinaryHeap.base h)
          /\ BinaryHeap._references (FastUpdateBinaryHeap.base h')
             = BinaryHeap._references (FastUpdateBinaryHeap.base h)
          /\ FastUpdateBinaryHeap._crossref h'
             = FastUpdateBinaryHeap._crossref h).
Proof.
  assert (Hlast : forall b ir,
    wf b -> (forall r, 0 <= r < BinaryHeap.count b -> leaf b r = inf) ->
    0 <= ir < 2 ^ BinaryHeap.levels b ->
    (forall r, ir < r < 2 ^ BinaryHeap.levels b ->
               value_lt (leaf b ir) (leaf b r) = true) ->
    leaf b ir = inf /\ ir = 2 ^ BinaryHeap.levels b - 1).
  { intros b ir Hwf Hocc Hir Hlt.
    assert (Hleaf : forall r, 0 <= r < 2 ^ BinaryHeap.levels b -> leaf b r = inf).
    { intros r Hr. destruct (decide (r < BinaryHeap.count b)).
      - apply Hocc. lia.
      - apply (wf_vacant b Hwf). lia. }
    split; [now apply Hleaf|].
    destruct (decide (ir = 2 ^ BinaryHeap.levels b - 1)); [assumption|].
    specialize (Hlt (2 ^ BinaryHeap.levels b - 1) ltac:(lia)).
    rewrite !Hleaf in Hlt by lia. discriminate. }
  split.
  - intros b Hwf%base_reachable_wf Hc Hocc.
    destruct (pop_fast_base b Hwf)
      as (ir & b' & Hrun & Hir & _ & Hlt & _ & Hp & Hinf & _).
    destruct (Hlast b ir Hwf Hocc Hir Hlt) as [Hv ->].
    rewrite Hv in Hrun, Hinf. specialize (Hinf eq_refl). subst b'.
    eexists _, _. split.
    { unfold BinaryHeap.pop. rewrite decide_False by assumption.
      rewrite Hrun. reflexivity. }
    simpl. repeat split.
  - intros h Hf%indexed_reachable_fwf Hc Hocc.
    destruct (pop_fast_indexed h Hf)
      as (ir & h' & Hrun & Hir & _ & Hlt & _ & _ & _ & Hp & Hinf & _).
    destruct (Hlast _ ir (fwf_base h Hf) Hocc Hir Hlt) as [Hv ->].
    rewrite Hv in Hrun, Hinf. specialize (Hinf eq_refl). subst h'.
    eexists _, _. split.
    { unfold BinaryHeap.pop. rewrite decide_False by assumption.
      rewrite Hrun. reflexivity. }
    simpl. repeat split.
Qed.

(** The theorem at work on [FastUpdateBinaryHeap(2, 2)] after
    push(inf, 1). *)
Lemma pop_sentinel_witness :
  indexed_reachable (indexed_after [IPush inf 1])
  /\ BinaryHeap.count (FastUpdateBinaryHeap.base (indexed_after [IPush inf 1]))
     <> 0
  /\ leaf (FastUpdateBinaryHeap.base (indexed_after [IPush inf 1])) 0 = inf
  /\ exists ref h',
       BinaryHeap.pop (indexed_after [IPush inf 1]) = Return (inf, ref) h'
       /\ BinaryHeap.count (FastUpdateBinaryHeap.base h')
          = BinaryHeap.count
              (FastUpdateBinaryHeap.base (indexed_after [IPush inf 1])).
Proof.
  assert (Hreach : indexed_reachable (indexed_after [IPush inf 1])).
  { apply (indexed_after_reachable [IPush inf 1]). vm_compute. reflexivity. }
  assert (Hc : BinaryHeap.count
                 (FastUpdateBinaryHeap.base (indexed_after [IPush inf 1])) <> 0).
  { vm_compute. discriminate. }
  assert (Hocc : forall r,
    0 <= r < BinaryHeap.count
               (FastUpdateBinaryHeap.base (indexed_after [IPush inf 1])) ->
    leaf (FastUpdateBinaryHeap.base (indexed_after [IPush inf 1])) r = inf).
  { intros r Hr.
    change (BinaryHeap.count _) with 1 in Hr.
    assert (r = 0) as -> by lia. vm_compute. reflexivity. }
  split; [exact Hreach|]. split; [exact Hc|].
  split; [vm_compute; reflexivity|].
  destruct (proj2 pop_sentinel _ Hreach Hc Hocc)
    as (ref & h' & Hrun & _ & _ & Hcount & _).
  exists ref, h'. split; [exact Hrun|exact Hcount].
Defined.
